(* ===== verification/_CoqProject ===== *)
-Q . S2P
Prelude.v
RustStr.v
Errors.v
YggUuid.v
Png.v
Payload.v
Models.v
Table.v
Realtime.v
Content.v
Schema.v
Config.v
Prog.v
Auth.v
RateLimit.v
Files.v
YggTokens.v
Invariant.v
AuthSchema.v
Identity.v
AdminUsers.v
Textures.v
BundlePaths.v
BundleTree.v
Manifest.v
BundleRepo.v
BundleAdmin.v
BundleProps.v
BundleMoves.v
JoinSessions.v
CatalogRepo.v
CatalogReads.v
CatalogAdmin.v
CatalogSchema.v
CatalogProps.v
CatalogMedia.v
YggService.v
KeyStore.v
Queries.v
Account.v
Presence.v
Friends.v
Worlds.v
Join.v
Invites.v
Pipe.v
Relay.v
Slots.v
Journey.v
Users.v
Signaling.v
Cleanup.v
Infra.v
Server.v
Service.v
RequestLog.v
Lifecycle.v
Pipeline.v
AdminReports.v
