(* ===== verification/Prelude.v ===== *)
(** * Verification of the loontail Minecraft network service

    The service (the Rust workspace under [src/crates/]) lets players of a Minecraft
    launcher make friends, host a world, invite others into it and tunnel the game traffic
    of host and guests through two websockets. It also answers the Yggdrasil handshake of
    the game. This development translates its handlers, background tasks and pure helpers
    into Rocq functions and proves what they promise.

    ** Parts and where they are modelled

    Foundations
    - [Prelude]: scopes, results, list and integer lemmas (this file).
    - [RustStr]: [str] as UTF-8 bytes; trimming, splitting, case, number parsing.
    - [Errors]: [core/error.rs], [yggdrasil/error.rs].
    - [Models]: [core/models.rs]: statuses and roles, the user row, [normalize], LIKE
      escaping and the meaning of LIKE, the e-mail check.
    - [Table]: what [SELECT], [UPDATE], [DELETE], [INSERT], unique indexes and [ORDER BY]
      mean on a [gmap] from primary keys to rows.
    - [Realtime]: [core/realtime.rs]: [SignalingHub] and [RelayHub].
    - [Schema]: the tables of [migrations/], [Config]'s record, [core/metrics.rs] and
      [AppState], the whole mutable state of the service: database, hubs, join sessions,
      counters and stored files.
    - [Config]: [core/config.rs].
    - [Prog]: handlers as programs over [AppState], run alone or interleaved.
    - [Files]: [core/storage.rs]: stored files and the capped multipart reader.
    - [Invariant]: what the constraints of the migrations guarantee ([schema_ok]).

    Accounts and authentication
    - [Auth]: [core/auth/mod.rs], [core/auth/csrf.rs].
    - [YggTokens]: [core/auth/yggdrasil.rs]. [AuthSchema]: the two keep the schema.
    - [Identity]: [core/identity.rs]: registration, bootstrap, the credential check, search
      and updates of accounts.
    - [Account]: [yggdrasil/account.rs]: the launcher's login, register, refresh, logout.

    The network crate, one file per module, every handler
    - [Queries] ([queries.rs], [core/analytics.rs]), [Presence], [Friends], [Worlds] (with
      [core/db.rs], the reconciliation at start-up), [Join], [Invites], [Users],
      [Signaling], [Cleanup]; and [relay.rs] in three: [Pipe] (the frames of a tunnel and the
      two directions that forward them), [Relay] (upgrade, ticket, admission, the tunnel's
      task), [Slots] (which tasks are inside a world's tunnels).

    The Yggdrasil service and textures
    - [YggUuid], [Png], [Payload]: [yggdrasil-protocol].
    - [JoinSessions], [YggService]: [yggdrasil/join_sessions.rs], [lib.rs], [profile.rs].
    - [KeyStore]: [yggdrasil/crypto.rs]: the signing key and its file. Its programs run over a
      disk of their own, call by call, each of which may fail.
    - [Textures]: the crate [textures].

    Bundles
    - [Content]: the tables of the registry and the catalog, and the store's directory tree.
    - [BundlePaths]: [bundles/storage.rs], the paths.
    - [BundleTree]: system calls on the tree, [bundles/archive.rs].
    - [Manifest]: [bundles/manifest.rs].
    - [BundleRepo]: [bundles/repo.rs]; [BundleAdmin]: [bundles/admin.rs], [public.rs],
      [models.rs].
    - [BundleProps], [BundleMoves]: rules for their programs and the theorems about uploads,
      edits and moves.

    Catalog
    - [CatalogRepo]: the reads, [catalog/repo.rs], [dto.rs], [public.rs]. [CatalogReads]: what
      they answer.
    - [CatalogAdmin]: [catalog/admin.rs], [storage.rs] and the delivery of images in [lib.rs].
      [CatalogSchema]: they keep the schema. [CatalogProps]: clients and the bundles they own.
      [CatalogMedia]: images on disk.

    Administration
    - [AdminUsers]: [admin/users.rs], [auth.rs], [startup.rs], [cookies.rs], [dto.rs].
    - [RequestLog]: [core/request_log.rs], [server/request_log_capture.rs].
    - [AdminReports]: [admin/analytics.rs], [admin/request_logs.rs].

    Around it
    - [RateLimit]: [server/ratelimit.rs], [server/ip.rs].
    - [Infra]: [server/infra.rs], [admin/spa.rs]: the probe, the metrics page and the delivery of
      the web interface.
    - [Server]: [server/main.rs] and the [routes] functions of the crates: every route with its
      path, handler and extractor, where the Yggdrasil routes are mounted, the cross-origin
      policy and the security headers.
    - [Service]: all requests and tasks as one type, served concurrently.
    - [Lifecycle]: [server/main.rs], the work of the start-up on the database ([start_up]), what
      survives the process ([AppState_new]), the hourly task ([hourly_pass]), and histories of
      requests, crashes and start-ups ([life_step]).
    - [Pipeline]: the layers that [server/main.rs] puts around the router, in their order, and
      the answers errors become ([into_response] of both error types).
    - [Journey]: [Join] or [Invites], [Realtime] and [Relay] put together.

    ** How the parts interact

    A handler authenticates its caller ([Auth]), then reads and writes the tables; its
    answer is [Ok] or an [AppError]. After its transaction it may push events to other
    users through the signaling hub ([Realtime.send_to]); the socket task of [Signaling]
    forwards them. [Join] and [Invites] end in a ticket and a relay session; [Relay]
    consumes the ticket, lets the two parties meet in the relay hub, takes a slot of the
    world, pipes frames, and gives the slot back. [Cleanup] deletes history behind all of
    them. [Identity] creates and checks the accounts that all of this is about;
    [AdminUsers] administers them and [Textures] stores their skins, which [YggService]
    puts into the profiles that the game fetches. The catalog lists the launcher's clients;
    a client is linked to a bundle of the registry, which its administration creates, renames
    and deletes along ([CatalogAdmin] on [BundleRepo]). They share nothing but [AppState].
    Before the server listens it loads the key ([KeyStore.init_crypto]), which [KeyStore.signer]
    hands to [YggService], and mounts every handler ([Server.build_router]); the limiter's paths
    are derived from the same mount point.

    ** State and operations

    A field of [AppState] is a table, a hub or the counters. A handler is a value of
    [Prog.prog]: a sequence of atomic actions and transactions. An action receives a
    [Tick], which carries all that comes from outside at that moment: the process clock,
    the database clock, a fresh UUID, random bytes, and whether the statement fails. An
    action is one SQL statement, one call of a hub (each holds its lock throughout), one
    counter update or one clock reading. [sql_app] is [query.await?]; [let?] is [?];
    [transaction] is [begin .. commit], and its state is rolled back when the body answers
    an error or the commit fails. [exec] runs a handler alone; [pool_step] lets any number
    of handlers take turns, action by action, a transaction being one turn.

    ** What the theorems show

    - For one handler ([exec], with [wp] as the proof method): its exact effect and
      answer, on success and on refusal; [join_accept_admission], [direct_join_admission],
      [invite_accept_admission], [friend_accept_exact], [close_exact], [login_exact],
      [delete_exact], [purge_exact], [cleanup_exact] and others. Most assume that no
      statement fails with an I/O error and that the clocks read one instant during the
      handler, [direct_join_admission] among them. [join_accept_admission],
      [invite_accept_admission], [update_never_destroys] and [registry_stays_backed] hold
      for failures too, the first two while the clocks read one instant: a failure before the
      commit changes nothing, one after it leaves the acceptance standing although the answer
      is an error.
    - For the bundle store: no path a client names, in an archive, a form or a URL, leaves
      its build ([accepted_paths_stay_inside], [extraction_confined], [serve_file_inside]);
      extraction followed by a scan yields what the archive holds ([extract_then_scan],
      [scan_exact]), the manifest lists it ([manifest_exact]), an upload does all of it and
      the registry follows ([upload_archive_exact]); a move takes rows and files along
      ([move_exact]) and every edit keeps each row's file there ([edits_stay_backed]).
    - For the catalog: the listing, which loads the relations of all clients in batches, shows
      each client as it is looked up alone ([listing_exact], [get_client_exact]); an update
      destroys no uploads unless told to ([update_never_destroys]); a deletion takes exactly
      what belongs to the client ([delete_client_exact]); no image loses its file
      ([media_stays_backed]).
    - For a whole journey, from the acceptance of a join request to the relay: the requester, and
      nobody else, is given a ticket that lets them into the world, once
      ([accepted_guest_arrives]; [direct_guest_arrives], [invited_guest_arrives]).
    - For the edges of the server: what every layer does with a request ([serve_http_exact]); the
      limiter guards exactly the routes that hand a token to a stranger ([credentials_throttled]),
      so that over any sequence of requests their handlers run no more often for a client than the
      limit allows ([guesses_bounded], from the routes, the mount point, the layers and the window
      together); the metrics answer only the token or an administrator
      ([metrics_gate]); the cross-origin policy never opens by itself ([build_cors_closed]).
    - For the signing key, at every moment of a start-up and wherever a call fails: the file is
      never open to others and an existing key stays ([key_confined]); what was generated is
      what every later start-up loads ([key_reloaded]).
    - For two handlers, one after the other: [create_then_get], [upload_then_serve], [register_then_login], [login_opens_both],
      [handshake], [upload_then_read].
    - For any interleaving ([pool_step], with [prog_rel] as the proof method): every action
      of every handler stays within a relation, hence so does every run;
      [service_invariant], [relay_capacity] (a world's player count stays within its maximum
      and covers the tasks inside its tunnels), [invite_lifecycle], and the two at-most-once
      theorems [join_accept_once] (which also bounds the tickets and relay sessions minted)
      and [invite_accept_once].
    - For any history of service, crashes and restarts ([life_step]): a start-up that succeeds
      finds a well-formed database and leaves no open relay session and no player in a world
      ([restart_leaves_no_ghosts]); a failing step of the hourly task does not stop the others
      ([hourly_pass_goes_on]).
    - For the hubs: parties are neither lost nor handed out twice
      ([relay_rendezvous_conserves]); an event reaches each live connection once
      ([send_to_exactly_once]); connection life cycle ([signaling_lifecycle]).
    - Against an abstract specification: the rate limiter agrees with an unbounded log of
      attempts ([limiter_is_sliding_window]), the join-session store with a register
      ([store_refines_register]), the invites with a life cycle ([invite_lifecycle]).
    - For sequences of events: the tunnel forwards frames faithfully and in order, however its
      two directions take turns and wherever one is cut short
      ([pipe_faithful]); the log's writer keeps order, loses only what a failed insert held,
      and can always catch up
      ([sink_keeps_order], [sink_drains]); pages share a report out
      ([log_pages_partition]).
    - For pure code: round trips and exact characterisations ([uuid_roundtrip],
      [validate_png_spec], [normalize_base64_spec], [capped_upload_exact],
      [parse_public_url_spec], [settings_closed]).
    - Race examples, each a concrete schedule of two handlers: [ticket_race_lets_two_in],
      [wakeup_drops_a_stranger], [recreate_readmits] (in [Relay]),
      [Friends.decline_overwrites_accept], [Signaling.reconnect_looks_offline],
      [AdminUsers.mutual_demotion_locks_out], [Textures.purge_race],
      [Textures.concurrent_uploads_leak]. Sequential ones: [BundleMoves.half_moved],
      [BundleMoves.deleted_counts_twice], [BundleMoves.upload_leaks],
      [CatalogMedia.replaced_before_commit], [CatalogMedia.shared_bundle_deleted],
      [KeyStore.lookup_failure_replaces_key], [KeyStore.half_written_key],
      [Join.minted_but_untold], [Manifest.total_wraps],
      [Server.suffix_without_slash], [Server.warning_accepts_no_scheme].

    ** Fuel and bounds

    [Cleanup.delete_aged_user_events_in_chunks] repeats until a round deletes less than a
    chunk; its fuel is rounds, and one more than the number of aged events is enough
    ([event_log_drained] proves that it then returns). [Models.like_fuel] and the trimming
    of [RustStr] recurse on strings with the length as fuel, each call consuming at least
    one byte. [BundleTree.walk] descends a directory tree with the length of the longest path
    as fuel, each level adding at least two bytes ([scan_exact] shows that it misses nothing);
    [BundleRepo.chunks] has the length of the list. [Pipe.pipe] has as fuel the steps both
    directions can take, two per frame and two to end ([pipe_faithful] proves that it
    returns). Every other loop is structural on a list. Integers of the database and of
    configuration carry their range where the source checks or wraps it (byte counters
    modulo 2^64, the totals of a manifest modulo 2^32 and 2^64 in two's complement, which
    [manifest_exact] shows to be exact as long as they fit, parsers by the type they parse to, and a player count between zero and its
    maximum by [relay_capacity], so that the increment of an [INT] does not overflow);
    instants are unbounded integers of microseconds and a day has 24 hours.

    ** Conventions

    - Transactions are atomic in interleavings (the strongest isolation); the source relies
      on the database's default, so the safety theorems that speak about two transactions
      at once are the part that a weaker isolation could affect. Where the source guards a
      transition by a conditional [UPDATE], the same guard is in the model.
    - A Rust panic inside a handler is the error [panicked] (the runtime answers 500).
    - A detached task ([tokio::spawn] of an event insert) takes effect where it is spawned.
    - Payloads of analytics events and JSON text of realtime events are left out: an event
      stands for its JSON.
    - Text is compared bytewise; rows that a query leaves unordered come in any fixed order.
    - Sockets are handles; what arrives on each is a list of frames, and the order in which the
      two directions of a tunnel go on, and whether a send succeeds, a list of polls. A multipart body is
      the list of its parts, a part's content the list of its chunks.
    - The file system of the textures and of the catalog's images is a map from paths to
      contents; a file operation that fails changes nothing, and a directory is there when a
      file is below it. The bundle store's is a map from paths to files and directories:
      creation wants the directories above, a rename takes the paths below along. Its
      root is written without doubled slashes, and a directory's time of
      modification is that of its creation. Symbolic links matter where a path is resolved: a
      download of the store asks [BundleTree.Realpath] for the canonical path, which may lead
      anywhere ([BundleTree.linked] resolves through a table of links), and is refused when it
      leaves the build; every other operation takes the tree to hold no links, and so does the
      delivery of the catalog's images.
    - The disk of [KeyStore] is a map from paths to entries with permission bits, in the Unix
      form of the code; the bits are recorded and not enforced, the umask is an argument, and a
      write that fails has written a prefix. [key_confined] assumes that the first look for
      the file does not fail; [lookup_failure_replaces_key] shows what happens otherwise.
    - A route names its handler; the guard is the extractor in the handler's signature, and the
      guards themselves are in [Auth]. The choice of a route for a path is the parameter
      [Pipeline.Framework], and the handlers that [Pipeline] runs are the parameter
      [Pipeline.Endpoints].
    - [Pipeline] serves requests one after the other; [Service] interleaves their handlers. The
      limiter holds its lock throughout a check, so its checks have an order in any case.
    - The extraction of an archive, the comparison of a tree with the rows and the writes of
      one form field are one step each; [INSERT]s of many rows go row by row inside their
      transaction. What the operating system says about a failed call is left out of
      messages, which the client never sees.
    - The database's session works in UTC; an average is kept as its sum and count.

    ** Parameters

    Code outside [src/] is a parameter with its documented behaviour as a class law:
    [Auth.Primitives] (SHA-256, hexadecimal encoding, constant-time equality),
    [Models.Lowercase] (Unicode lower case), [Identity.PasswordHashing] (Argon2),
    [Identity.UuidText] and [Textures.UuidParser] (the text of a UUID),
    [Payload.PayloadText] (JSON string escaping, base64), [BundleTree.Realpath] (the resolution
    of a path by the operating system), [BundleTree.ZipReader] (the entries
    of an archive), [CatalogRepo.FormUrlencoded] (the pairs of a query string),
    [sql_text] (how a database error reads, stored with a failed build), [YggService.Signer] (the
    installed key, of which [KeyStore.signer] is an instance), [KeyStore.Rsa] (RSA, SHA-1 and
    the PEM encodings), [Infra.Assets] (the embedded files and the type of a file name),
    [Server.Nesting] (how a router composes nested paths), [Pipeline.Framework] (the
    normalisation of a path, the answer to a preflight, the choice of a route, the announced
    template), [Pipeline.Endpoints] (extractors and handlers behind a route),
    [RateLimit.IpParser] (address parsing); [HeaderValue::from_str] is an argument of the
    cookie helpers, the page server and the cross-origin policy. Those a witness needs have a
    concrete instance.

    ** Not modelled

    Left out for good, because the code is a call of a library or of the operating system: the
    RSA calls themselves, the free space of a disk ([bundles/storage.rs], [disk_space]), the
    creation of the storage directories and the pool at start-up, the listener and the set-up of
    tracing ([server/main.rs]), serde's derived code, socket I/O. What remains besides are
    unit tests, records that only name the fields of a JSON document, and one-line wrappers
    around the functions modelled here. The TypeScript admin interface is another language. *)

From Stdlib Require Export List Sorted Ascii String ZArith Lia.

From stdpp Require Export base tactics option list gmap strings numbers sorting.

(** ** Scopes and notations *)

Declare Scope loon_scope.
Delimit Scope loon_scope with loon.
#[global] Open Scope loon_scope.

(** A [Uuid] is a 128-bit value; Postgres compares UUIDs bytewise, big end first,
    so [LEAST] and [GREATEST] are the numeric minimum and maximum. *)
Abbreviation Uuid := N (only parsing).

(** Instants ([DateTime<Utc>], [TIMESTAMPTZ], [Instant]) and durations are counted in
    microseconds. *)
Abbreviation Time := Z (only parsing).
Abbreviation Duration := Z (only parsing).

Abbreviation MICROS_PER_SEC := 1000000%Z (only parsing).

Definition secs (n : Z) : Duration := (n * MICROS_PER_SEC)%Z.

(** ** Rust results *)

Inductive result (A E : Type) : Type :=
| Ok (a : A)
| Err (e : E).
Arguments Ok {A E} a.
Arguments Err {A E} e.

#[export] Instance result_eq_dec {A E} `{EqDecision A, EqDecision E} : EqDecision (result A E).
Proof. solve_decision. Defined.

Definition is_ok {A E} (r : result A E) : bool :=
  match r with Ok _ => true | Err _ => false end.

Definition map_err {A E F} (f : E → F) (r : result A E) : result A F :=
  match r with Ok a => Ok a | Err e => Err (f e) end.

Definition and_then {A B E} (r : result A E) (k : A → result B E) : result B E :=
  match r with Ok a => k a | Err e => Err e end.

Definition ok_or {A E} (e : E) (o : option A) : result A E :=
  match o with Some a => Ok a | None => Err e end.

(** ['try' x ':=' r 'in' k] is Rust's [let x = r?; k] on plain results. *)
Notation "'try' x ':=' r 'in' k" := (and_then r (λ x, k))
  (at level 10, x name, r at level 100, k at level 200) : loon_scope.
Notation "'try' ' p ':=' r 'in' k" := (and_then r (λ x, match x with p => k end))
  (at level 10, p strict pattern, r at level 100, k at level 200) : loon_scope.

Lemma and_then_ok {A B E} (r : result A E) (k : A → result B E) b :
  and_then r k = Ok b ↔ ∃ a, r = Ok a ∧ k a = Ok b.
Proof. destruct r as [a|e]; simpl; split; [eauto|by intros (? & [= ->] & ?)|done|by intros (? & ? & ?)]. Qed.

Lemma map_err_ok {A E F} (f : E → F) (r : result A E) a :
  map_err f r = Ok a ↔ r = Ok a.
Proof. destruct r; simpl; split; congruence. Qed.

(** ** Machine integers

    Signed integers of [bits] bits wrap around in a release build, whose profile leaves the
    overflow checks off. *)
Definition wrap_signed (bits z : Z) : Z :=
  ((z + 2 ^ (bits - 1)) mod 2 ^ bits - 2 ^ (bits - 1))%Z.

Lemma wrap_signed_add bits a b :
  (0 < bits)%Z → wrap_signed bits (wrap_signed bits a + b) = wrap_signed bits (a + b).
Proof.
  intros B. unfold wrap_signed. f_equal.
  replace ((a + 2 ^ (bits - 1)) mod 2 ^ bits - 2 ^ (bits - 1) + b + 2 ^ (bits - 1))%Z
    with ((a + 2 ^ (bits - 1)) mod 2 ^ bits + b)%Z by lia.
  rewrite Zplus_mod_idemp_l. f_equal. lia.
Qed.

Lemma wrap_signed_fits bits z :
  (0 < bits)%Z → (- 2 ^ (bits - 1) ≤ z < 2 ^ (bits - 1))%Z → wrap_signed bits z = z.
Proof.
  intros B R. unfold wrap_signed. rewrite Z.mod_small; [lia|].
  assert (2 ^ bits = 2 * 2 ^ (bits - 1))%Z by (rewrite <- Z.pow_succ_r by lia; f_equal; lia). lia.
Qed.

(** ** Automation *)

Create HintDb loon.

(** Case on the scrutinee of an innermost [match] of the goal, or of a hypothesis,
    remembering the equation. *)
Ltac case_goal :=
  match goal with
  | |- context [match ?x with _ => _ end] =>
      lazymatch x with
      | context [match _ with _ => _ end] => fail
      | _ => let E := fresh "E" in destruct x eqn:E
      end
  end.

Ltac case_hyp H :=
  match type of H with
  | context [match ?x with _ => _ end] =>
      lazymatch x with
      | context [match _ with _ => _ end] => fail
      | _ => let E := fresh "E" in destruct x eqn:E
      end
  end.

(** Turn boolean tests in the context into propositions. *)
Ltac bool_simpl :=
  repeat match goal with
  | H : _ && _ = true |- _ => apply andb_true_iff in H; destruct H
  | H : _ || _ = false |- _ => apply orb_false_iff in H; destruct H
  | H : negb _ = true |- _ => apply negb_true_iff in H
  | H : negb _ = false |- _ => apply negb_false_iff in H
  | H : bool_decide _ = true |- _ => apply bool_decide_eq_true in H
  | H : bool_decide _ = false |- _ => apply bool_decide_eq_false in H
  | H : (_ =? _)%Z = true |- _ => apply Z.eqb_eq in H
  | H : (_ =? _)%Z = false |- _ => apply Z.eqb_neq in H
  | H : (_ <=? _)%Z = true |- _ => apply Z.leb_le in H
  | H : (_ <=? _)%Z = false |- _ => apply Z.leb_gt in H
  | H : (_ <? _)%Z = true |- _ => apply Z.ltb_lt in H
  | H : (_ <? _)%Z = false |- _ => apply Z.ltb_ge in H
  | H : (_ =? _)%N = true |- _ => apply N.eqb_eq in H
  | H : (_ =? _)%N = false |- _ => apply N.eqb_neq in H
  | H : (_ =? _)%string = true |- _ => apply String.eqb_eq in H
  | H : (_ =? _)%string = false |- _ => apply String.eqb_neq in H
  | H : (_ =? _)%nat = true |- _ => apply Nat.eqb_eq in H
  | H : (_ =? _)%nat = false |- _ => apply Nat.eqb_neq in H
  | H : (_ <=? _)%nat = true |- _ => apply Nat.leb_le in H
  | H : (_ <=? _)%nat = false |- _ => apply Nat.leb_gt in H
  | H : (_ <? _)%nat = true |- _ => apply Nat.ltb_lt in H
  | H : (_ <? _)%nat = false |- _ => apply Nat.ltb_ge in H
  end.

(** ** Generic lemmas on lists *)

Lemma existsb_spec {A} (p : A → bool) (l : list A) :
  existsb p l = true ↔ ∃ x, x ∈ l ∧ p x = true.
Proof. rewrite existsb_exists. by setoid_rewrite <- list_elem_of_In. Qed.

Lemma existsb_none {A} (p : A → bool) (l : list A) :
  existsb p l = false ↔ ∀ x, x ∈ l → p x = false.
Proof.
  rewrite <- not_true_iff_false, existsb_spec. split.
  - intros H x Hx. destruct (p x) eqn:E; [|done]. exfalso. eauto.
  - intros H (x & Hx & Hp). specialize (H x Hx). congruence.
Qed.

Lemma find_spec_Some {A} (p : A → bool) (l : list A) x :
  List.find p l = Some x → x ∈ l ∧ p x = true.
Proof. intros H. apply List.find_some in H. by rewrite list_elem_of_In. Qed.

Lemma find_spec_None {A} (p : A → bool) (l : list A) :
  List.find p l = None → ∀ x, x ∈ l → p x = false.
Proof. intros H x Hx. eapply List.find_none; [done|]. by apply list_elem_of_In. Qed.

Lemma NoDup_map_filterb {A B} (f : A → B) (p : A → bool) (l : list A) :
  NoDup (map f l) → NoDup (map f (List.filter p l)).
Proof.
  induction l as [|a l IH]; simpl; [done|]. intros [N1 N2]%NoDup_cons.
  destruct (p a); simpl; [|auto]. apply NoDup_cons. split; [|auto].
  intros (b & E & Hb)%list_elem_of_fmap. apply N1. rewrite E. apply list_elem_of_fmap_2.
  rewrite list_elem_of_In, filter_In in Hb. apply list_elem_of_In, Hb.
Qed.

Lemma elem_of_filterb {A} (p : A → bool) (l : list A) x :
  x ∈ List.filter p l ↔ x ∈ l ∧ p x = true.
Proof. by rewrite !list_elem_of_In, List.filter_In. Qed.

(** Distinct entries for distinct elements. *)
Lemma NoDup_map_omap {A B C} (f : A → option B) (g : B → C) (l : list A) :
  NoDup l →
  (∀ x y b c, x ∈ l → y ∈ l → f x = Some b → f y = Some c → g b = g c → x = y) →
  NoDup (map g (omap f l)).
Proof.
  induction l as [|x l IH]; intros Hnd Hinj; [constructor|]. apply NoDup_cons in Hnd as [Hx Hnd].
  assert (IH' : NoDup (map g (omap f l))).
  { apply IH; [done|]. intros a b c d Ha Hb. apply Hinj; by right. }
  simpl. destruct (f x) as [b|] eqn:E; [|done]. simpl. constructor; [|done].
  intros (c & Hc & (y & Hy & Ey)%list_elem_of_omap)%list_elem_of_fmap.
  assert (x = y) as ->; [|done]. by eapply Hinj; [left|right| | |].
Qed.

Lemma NoDup_map_concat {A B C} (f : A → list B) (g : B → C) (l : list A) :
  NoDup l →
  (∀ x, x ∈ l → NoDup (map g (f x))) →
  (∀ x y b c, x ∈ l → y ∈ l → b ∈ f x → c ∈ f y → g b = g c → x = y) →
  NoDup (map g (concat (map f l))).
Proof.
  induction l as [|x l IH]; intros Hnd Hf Hinj; cbn [map concat]; [constructor|].
  apply NoDup_cons in Hnd as [Hx Hnd]. rewrite map_app. apply NoDup_app. split_and!.
  - apply Hf. by left.
  - intros c (b & -> & Hb)%list_elem_of_fmap (b' & E & Hb')%list_elem_of_fmap.
    rewrite list_elem_of_In, in_concat in Hb'. setoid_rewrite in_map_iff in Hb'.
    destruct Hb' as (es & (y & <- & Hy) & Hb'). apply list_elem_of_In in Hy, Hb'.
    assert (x = y) as ->; [|done]. eapply Hinj; [by left|by right|done..].
  - apply IH; [done|auto using list_elem_of_further|]. intros y z b c Hy Hz. apply Hinj; by right.
Qed.
