(* ===== verification/RustStr.v ===== *)
(** * Rust strings

    A Rust [str] is a sequence of bytes that is valid UTF-8; it is modelled by the
    Standard Library's [string], one [ascii] per byte, so that [len] is the byte length
    and the byte-level operations of the source (ASCII case, [split_once] on an ASCII
    delimiter, [trim]) are the ones below. [trim] removes the Unicode [White_Space]
    characters by their UTF-8 encodings: in a valid UTF-8 string an encoding found at
    either end is that character, because UTF-8 is self-synchronising. *)

From S2P Require Import Prelude.

Definition byte_of (c : ascii) : N := N_of_ascii c.

Definition ascii_in (lo hi : N) (c : ascii) : bool :=
  ((lo <=? byte_of c) && (byte_of c <=? hi))%N.

(** [u8::is_ascii_digit], [is_ascii_hexdigit], [is_ascii_uppercase]. *)
Definition is_ascii_digit (c : ascii) : bool := ascii_in 48 57 c.
Definition is_ascii_uppercase (c : ascii) : bool := ascii_in 65 90 c.
Definition is_ascii_lowercase (c : ascii) : bool := ascii_in 97 122 c.
Definition is_ascii_hexdigit (c : ascii) : bool :=
  is_ascii_digit c || ascii_in 65 70 c || ascii_in 97 102 c.

Definition ascii_lower (c : ascii) : ascii :=
  if is_ascii_uppercase c then ascii_of_N (byte_of c + 32) else c.

(** ** Byte lists *)

Fixpoint str_map (f : ascii → ascii) (s : string) : string :=
  match s with
  | "" => ""
  | String c s => String (f c) (str_map f s)
  end.

Fixpoint str_forall (p : ascii → bool) (s : string) : bool :=
  match s with
  | "" => true
  | String c s => p c && str_forall p s
  end.

Fixpoint str_filter (p : ascii → bool) (s : string) : string :=
  match s with
  | "" => ""
  | String c s => if p c then String c (str_filter p s) else str_filter p s
  end.

Definition to_ascii_lowercase : string → string := str_map ascii_lower.

Definition eq_ignore_ascii_case (a b : string) : bool :=
  (to_ascii_lowercase a =? to_ascii_lowercase b)%string.

(** [str::contains(char)] for an ASCII character. *)
Definition str_contains (c : ascii) (s : string) : bool :=
  negb (str_forall (λ d, negb (Ascii.eqb c d)) s).

(** [strip_prefix], [starts_with]. *)
Fixpoint strip_prefix (p s : string) : option string :=
  match p, s with
  | "", _ => Some s
  | String a p, String b s => if Ascii.eqb a b then strip_prefix p s else None
  | String _ _, "" => None
  end.

Definition starts_with (p s : string) : bool :=
  match strip_prefix p s with Some _ => true | None => false end.

(** [haystack.contains(needle)]. *)
Fixpoint str_find (needle s : string) : bool :=
  starts_with needle s || match s with String _ s => str_find needle s | "" => false end.

(** [split_once(char)]: the part before and the part after the first occurrence. *)
Fixpoint split_once (c : ascii) (s : string) : option (string * string) :=
  match s with
  | "" => None
  | String d s =>
      if Ascii.eqb c d then Some ("", s)
      else match split_once c s with
           | Some (a, b) => Some (String d a, b)
           | None => None
           end
  end.

(** [split(char)]: the pieces between the occurrences, always at least one. *)
Fixpoint str_split (c : ascii) (s : string) : list string :=
  match s with
  | "" => [""]
  | String d s =>
      if Ascii.eqb c d then "" :: str_split c s
      else match str_split c s with
           | p :: ps => String d p :: ps
           | [] => [String d ""]
           end
  end.

(** ** Unicode white space

    The 25 characters with the [White_Space] property, by UTF-8 encoding. *)
Definition bytes (l : list N) : string := foldr (λ b s, String (ascii_of_N b) s) "" l.

Definition ws_encodings : list string :=
  map bytes
    [[9]; [10]; [11]; [12]; [13]; [32]; [194; 133]; [194; 160]; [225; 154; 128];
     [226; 128; 128]; [226; 128; 129]; [226; 128; 130]; [226; 128; 131];
     [226; 128; 132]; [226; 128; 133]; [226; 128; 134]; [226; 128; 135];
     [226; 128; 136]; [226; 128; 137]; [226; 128; 138]; [226; 128; 168];
     [226; 128; 169]; [226; 128; 175]; [226; 129; 159]; [227; 128; 128]]%N.

(** The rest of [s] after a leading white-space character, if it starts with one. *)
Definition strip_ws (s : string) : option string :=
  match List.find (λ e, starts_with e s) ws_encodings with
  | Some e => strip_prefix e s
  | None => None
  end.

Fixpoint trim_start_fuel (fuel : nat) (s : string) : string :=
  match fuel with
  | O => s
  | S fuel => match strip_ws s with Some s' => trim_start_fuel fuel s' | None => s end
  end.

(** Every white-space character has at least one byte, so [length s] rounds are enough. *)
Definition trim_start (s : string) : string := trim_start_fuel (String.length s) s.

Fixpoint str_rev (s : string) : string :=
  match s with
  | "" => ""
  | String c s => str_rev s +:+ String c ""
  end.

(** The reversed string without its trailing white space: the encodings are matched
    reversed at the front of the reversed string. *)
Definition strip_ws_rev (s : string) : option string :=
  match List.find (λ e, starts_with (str_rev e) s) ws_encodings with
  | Some e => strip_prefix (str_rev e) s
  | None => None
  end.

Fixpoint trim_rev_fuel (fuel : nat) (s : string) : string :=
  match fuel with
  | O => s
  | S fuel => match strip_ws_rev s with Some s' => trim_rev_fuel fuel s' | None => s end
  end.

Definition trim_end (s : string) : string :=
  str_rev (trim_rev_fuel (String.length s) (str_rev s)).

Definition trim (s : string) : string := trim_end (trim_start s).

(** [trim_end_matches(char)] for an ASCII character. *)
Fixpoint strip_leading (c : ascii) (s : string) : string :=
  match s with
  | String d s' => if Ascii.eqb c d then strip_leading c s' else s
  | "" => ""
  end.

Definition trim_end_matches (c : ascii) (s : string) : string :=
  str_rev (strip_leading c (str_rev s)).

(** [chars().any(char::is_whitespace)]: some suffix starts with a white-space encoding. *)
Fixpoint any_whitespace (s : string) : bool :=
  match s with
  | "" => false
  | String _ s' => existsb (λ e, starts_with e s) ws_encodings || any_whitespace s'
  end.

(** [chars().count()]: the bytes that are not UTF-8 continuation bytes. *)
Definition is_continuation (c : ascii) : bool := ascii_in 128 191 c.

Fixpoint char_count (s : string) : nat :=
  match s with
  | "" => 0
  | String c s => (if is_continuation c then 0 else 1) + char_count s
  end.

(** [chars().take(n).collect()]: the bytes of the first [n] characters. *)
Fixpoint take_chars (n : nat) (s : string) : string :=
  match s with
  | "" => ""
  | String c s' =>
      if is_continuation c then String c (take_chars n s')
      else match n with O => "" | S n => String c (take_chars n s') end
  end.

(** [s[a..b]] on byte offsets. *)
Definition slice (a b : nat) (s : string) : string := String.substring a (b - a) s.

(** ** Lemmas *)

Lemma str_app_cons x a b : String x a +:+ b = String x (a +:+ b).
Proof. reflexivity. Qed.

Lemma str_app_nil b : "" +:+ b = b.
Proof. reflexivity. Qed.

Lemma str_map_length f s : String.length (str_map f s) = String.length s.
Proof. induction s; simpl; congruence. Qed.

Lemma str_map_app f a b : str_map f (a +:+ b) = str_map f a +:+ str_map f b.
Proof.
  induction a as [|c a IH]; [done|]. rewrite ?str_app_cons; simpl. by rewrite IH.
Qed.

Lemma str_forall_app p a b : str_forall p (a +:+ b) = str_forall p a && str_forall p b.
Proof.
  induction a as [|c a IH]; [done|]. rewrite ?str_app_cons; simpl. by rewrite IH, andb_assoc.
Qed.

Lemma str_contains_app c a b : str_contains c (a +:+ b) = str_contains c a || str_contains c b.
Proof. unfold str_contains. by rewrite str_forall_app, negb_andb. Qed.

Lemma str_filter_app p a b : str_filter p (a +:+ b) = str_filter p a +:+ str_filter p b.
Proof.
  induction a as [|c a IH]; [done|]. rewrite ?str_app_cons; simpl. rewrite IH. by destruct (p c).
Qed.

Lemma str_filter_id p s : str_forall p s = true → str_filter p s = s.
Proof.
  induction s as [|c s IH]; simpl; [done|]. intros H. bool_simpl.
  rewrite H. f_equal. auto.
Qed.

Lemma str_forall_impl (p q : ascii → bool) s :
  (∀ c, p c = true → q c = true) → str_forall p s = true → str_forall q s = true.
Proof.
  intros Hpq. induction s as [|c s IH]; simpl; [done|]. intros H. bool_simpl.
  rewrite (Hpq c) by done. auto.
Qed.

Lemma str_forall_map p f s :
  str_forall p (str_map f s) = str_forall (λ c, p (f c)) s.
Proof. induction s; simpl; congruence. Qed.

Lemma str_map_ext f g s : (∀ c, f c = g c) → str_map f s = str_map g s.
Proof. intros H. induction s; simpl; rewrite ?H; congruence. Qed.

Lemma str_map_map f g s : str_map f (str_map g s) = str_map (λ c, f (g c)) s.
Proof. induction s; simpl; congruence. Qed.

Lemma str_app_length a b :
  String.length (a +:+ b) = (String.length a + String.length b)%nat.
Proof.
  induction a as [|c a IH]; [done|]. rewrite ?str_app_cons; simpl. by rewrite IH.
Qed.

Lemma str_app_assoc a b c : a +:+ (b +:+ c) = (a +:+ b) +:+ c.
Proof.
  induction a as [|x a IH]; [done|]. rewrite ?str_app_cons; simpl. by rewrite IH.
Qed.

Lemma str_app_nil_r a : a +:+ "" = a.
Proof.
  induction a as [|x a IH]; [done|]. rewrite ?str_app_cons; simpl. by rewrite IH.
Qed.

(** A property of all bytes, checked on the 256 of them. *)
Definition all_ascii : list ascii := map ascii_of_nat (seq 0 256).

Lemma all_ascii_complete c : c ∈ all_ascii.
Proof.
  unfold all_ascii. apply list_elem_of_fmap. exists (nat_of_ascii c).
  rewrite ascii_nat_embedding. split; [done|].
  apply elem_of_seq. pose proof (nat_ascii_bounded c). lia.
Qed.

Lemma ascii_check (p : ascii → bool) : forallb p all_ascii = true → ∀ c, p c = true.
Proof.
  intros H c. rewrite forallb_forall in H. apply H.
  apply list_elem_of_In, all_ascii_complete.
Qed.

Lemma ascii_lower_idem c : ascii_lower (ascii_lower c) = ascii_lower c.
Proof.
  apply Ascii.eqb_eq.
  exact (ascii_check (λ c, Ascii.eqb (ascii_lower (ascii_lower c)) (ascii_lower c)) eq_refl c).
Qed.

Lemma ascii_lower_hexdigit c : is_ascii_hexdigit (ascii_lower c) = is_ascii_hexdigit c.
Proof.
  apply Bool.eqb_prop.
  exact (ascii_check
    (λ c, Bool.eqb (is_ascii_hexdigit (ascii_lower c)) (is_ascii_hexdigit c)) eq_refl c).
Qed.

Lemma to_ascii_lowercase_idem s :
  to_ascii_lowercase (to_ascii_lowercase s) = to_ascii_lowercase s.
Proof.
  unfold to_ascii_lowercase. rewrite str_map_map. apply str_map_ext, ascii_lower_idem.
Qed.

Lemma to_ascii_lowercase_length s :
  String.length (to_ascii_lowercase s) = String.length s.
Proof. apply str_map_length. Qed.

(** ** Trimming text without white space *)

Lemma str_rev_app a b : str_rev (a +:+ b) = str_rev b +:+ str_rev a.
Proof.
  induction a as [|c a IH]; [by rewrite str_app_nil_r|].
  rewrite str_app_cons. simpl. by rewrite IH, str_app_assoc.
Qed.

Lemma str_rev_involutive s : str_rev (str_rev s) = s.
Proof. induction s as [|c s IH]; [done|]. simpl. by rewrite str_rev_app, IH. Qed.

Lemma str_forall_rev p s : str_forall p (str_rev s) = str_forall p s.
Proof.
  induction s as [|c s IH]; [done|]. simpl. rewrite str_forall_app, IH. simpl.
  by rewrite andb_true_r, andb_comm.
Qed.

(** The visible ASCII characters: no encoding of white space begins or ends with one. *)
Definition is_ascii_graphic (c : ascii) : bool := ascii_in 33 126 c.

Definition first_byte (s : string) : option ascii :=
  match s with "" => None | String c _ => Some c end.

Lemma starts_with_first e s : starts_with e s = true → e ≠ "" → first_byte e = first_byte s.
Proof.
  unfold starts_with. destruct e as [|a e], s as [|b s]; simpl; try done.
  destruct (Ascii.eqb_spec a b); [by subst|done].
Qed.

Definition graphic_first (e : string) : bool :=
  match first_byte e with Some c => is_ascii_graphic c | None => true end.

Lemma strip_graphic (l : list string) s :
  graphic_first s = true → s ≠ "" → forallb (λ e, negb (graphic_first e)) l = true →
  List.find (λ e, starts_with e s) l = None.
Proof.
  intros Hs Hne. induction l as [|e l IH]; simpl; [done|]. intros Hl. bool_simpl.
  destruct (starts_with e s) eqn:E; [|auto]. exfalso.
  apply starts_with_first in E; [|by intros ->].
  unfold graphic_first in *. rewrite E in *. congruence.
Qed.

Lemma find_map {A B} (f : A → B) (p : B → bool) l :
  List.find p (map f l) = option_map f (List.find (λ a, p (f a)) l).
Proof. induction l as [|a l IH]; [done|]. simpl. by destruct (p (f a)). Qed.

Lemma graphic_head c s : str_forall is_ascii_graphic (String c s) = true → graphic_first (String c s) = true.
Proof. simpl. intros H. by bool_simpl. Qed.

(** Text of visible characters has nothing to trim. *)
Lemma trim_graphic s : str_forall is_ascii_graphic s = true → trim s = s.
Proof.
  intros Hs. unfold trim. assert (trim_start s = s) as ->.
  { unfold trim_start. destruct s as [|c s]; [done|]. cbn [String.length trim_start_fuel].
    unfold strip_ws. by rewrite strip_graphic by first [done|by apply graphic_head|reflexivity]. }
  unfold trim_end. rewrite <- str_forall_rev in Hs. rewrite <- (str_rev_involutive s) at 3.
  f_equal. revert Hs. generalize (str_rev s). intros r Hr.
  destruct (String.length s) as [|n]; [done|]. cbn [trim_rev_fuel].
  destruct r as [|c r]; [done|]. unfold strip_ws_rev.
  pose proof (find_map str_rev (λ e, starts_with e (String c r)) ws_encodings) as F.
  rewrite strip_graphic in F by first [done|by apply graphic_head|reflexivity].
  by destruct (List.find _ ws_encodings).
Qed.

Create Rewrite HintDb loon_str.
#[export] Hint Rewrite str_map_length str_app_length to_ascii_lowercase_length : loon_str.
