(* ===== verification/Errors.v ===== *)
(** * Error values of the service

    [crates/core/src/error.rs] and [crates/yggdrasil/src/error.rs]: the two error types
    that handlers return, the HTTP status, code and message each becomes, and the
    helpers that turn database outcomes into them. [SqlError] is the part of
    [sqlx::Error] the source distinguishes. *)

From S2P Require Import Prelude.

(** What a statement can fail with. [UniqueViolation], [ForeignKeyViolation] and
    [CheckViolation] carry the constraint's name ([db.constraint()]); [RowNotFound] is
    [fetch_one] on an empty result; [Io] is every other failure (connection lost, pool
    exhausted). *)
Inductive SqlError : Type :=
| UniqueViolation (constraint : string)
| ForeignKeyViolation (constraint : string)
| CheckViolation (constraint : string)
| RowNotFound
| Io.

#[export] Instance SqlError_eq_dec : EqDecision SqlError.
Proof. solve_decision. Defined.

Inductive AppError : Type :=
| BadRequest (message : string)
| Unauthorized
| Forbidden
| NotFound (message : string)
| Conflict (message : string)
| TooManyRequests
| Database (err : SqlError)
| Internal (err : string).

#[export] Instance AppError_eq_dec : EqDecision AppError.
Proof. solve_decision. Defined.

Abbreviation AppResult A := (result A AppError).
Abbreviation SqlResult A := (result A SqlError).

(** [AppError::parts]: status, code and message of the JSON body. *)
Definition parts (e : AppError) : Z * string * string :=
  match e with
  | BadRequest message => (400%Z, "bad_request", message)
  | Unauthorized =>
      (401%Z, "unauthorized", "missing or invalid authentication token")
  | Forbidden =>
      (403%Z, "forbidden", "you are not allowed to perform this action")
  | NotFound message => (404%Z, "not_found", message)
  | Conflict message => (409%Z, "conflict", message)
  | TooManyRequests =>
      (429%Z, "too_many_requests", "too many requests, please retry later")
  | Database _ => (500%Z, "internal_error", "internal server error")
  | Internal _ => (500%Z, "internal_error", "internal server error")
  end.

Definition is_unique_violation (err : SqlError) : bool :=
  match err with UniqueViolation _ => true | _ => false end.

Definition is_foreign_key_violation (err : SqlError) : bool :=
  match err with ForeignKeyViolation _ => true | _ => false end.

(** [is_unique_violation(err, constraint)] of [identity.rs]: on one named index. *)
Definition is_unique_violation_of (err : SqlError) (constraint : string) : bool :=
  match err with
  | UniqueViolation c | ForeignKeyViolation c | CheckViolation c =>
      (c =? constraint)%string
  | _ => false
  end.

Definition slug_conflict (entity : string) (err : SqlError) : AppError :=
  if is_unique_violation err
  then Conflict (entity +:+ " slug already exists")
  else Database err.

Definition found (affected : nat) (what : string) : AppResult unit :=
  if (affected =? 0)%nat then Err (NotFound (what +:+ " not found")) else Ok tt.

(** ** The Mojang error shape *)

Inductive YggError : Type :=
| YggBadRequest (msg : string)
| YggForbidden
| YggNotFound
| YggInternal.

#[export] Instance YggError_eq_dec : EqDecision YggError.
Proof. solve_decision. Defined.

Abbreviation YggResult A := (result A YggError).

Definition ygg_parts (e : YggError) : Z * string * string :=
  match e with
  | YggBadRequest msg => (400%Z, "IllegalArgumentException", msg)
  | YggForbidden =>
      (403%Z, "ForbiddenOperationException",
       "Invalid credentials. Invalid username or password.")
  | YggNotFound => (404%Z, "NotFoundException", "The requested resource was not found.")
  | YggInternal => (500%Z, "Exception", "An internal error occurred.")
  end.

(** [impl From<AppError> for YggError]. *)
Definition ygg_from (err : AppError) : YggError :=
  match err with
  | BadRequest _ => YggBadRequest "Invalid request."
  | Unauthorized | Forbidden => YggForbidden
  | NotFound _ => YggNotFound
  | Conflict _ => YggBadRequest "Conflict."
  | TooManyRequests => YggForbidden
  | Database _ => YggInternal
  | Internal _ => YggInternal
  end.
