(* ===== verification/YggUuid.v ===== *)
(** * Minecraft profile UUIDs

    [crates/yggdrasil-protocol/src/uuid.rs]: recognising the dashed and undashed forms
    and converting between them. *)

From S2P Require Import Prelude RustStr.

Inductive UuidError : Type :=
| Invalid (value : string).

#[export] Instance UuidError_eq_dec : EqDecision UuidError.
Proof. solve_decision. Defined.

(** The character U+2026 in UTF-8. *)
Definition ellipsis : string := bytes [226; 128; 166]%N.

Definition truncated (value : string) : string :=
  if (48 <? char_count value)%nat then take_chars 48 value +:+ ellipsis else value.

Definition is_uuid_undashed (value : string) : bool :=
  (String.length value =? 32)%nat && str_forall is_ascii_hexdigit value.

(** The loop over [bytes.iter().enumerate()], from index [i]. *)
Fixpoint dashed_from (i : nat) (value : string) : bool :=
  match value with
  | "" => true
  | String b value =>
      match i with
      | 8 | 13 | 18 | 23 => if Ascii.eqb b "-" then dashed_from (S i) value else false
      | _ => if is_ascii_hexdigit b then dashed_from (S i) value else false
      end
  end.

Definition is_uuid_dashed (value : string) : bool :=
  if (String.length value =? 36)%nat then dashed_from 0 value else false.

(** [value.replace('-', "")]. *)
Definition remove_dashes : string → string := str_filter (λ c, negb (Ascii.eqb c "-")).

Definition undash_uuid (value : string) : result string UuidError :=
  if is_uuid_undashed value then Ok (to_ascii_lowercase value)
  else if is_uuid_dashed value then Ok (to_ascii_lowercase (remove_dashes value))
  else Err (Invalid (truncated value)).

Definition dash_uuid (value : string) : result string UuidError :=
  if is_uuid_dashed value then Ok (to_ascii_lowercase value)
  else if negb (is_uuid_undashed value) then Err (Invalid (truncated value))
  else
    let v := to_ascii_lowercase value in
    Ok (slice 0 8 v +:+ "-" +:+ slice 8 12 v +:+ "-" +:+ slice 12 16 v +:+ "-"
        +:+ slice 16 20 v +:+ "-" +:+ slice 20 32 v).

(** ** Lemmas *)

Lemma hexdigit_not_dash c : is_ascii_hexdigit c = true → Ascii.eqb c "-" = false.
Proof.
  pose proof (ascii_check
    (λ c, implb (is_ascii_hexdigit c) (negb (Ascii.eqb c "-"))) eq_refl c) as H.
  simpl in H. intros E. rewrite E in H. by apply negb_true_iff in H.
Qed.

(** A lower-case, undashed UUID: the form [users.profile_uuid] is stored in. *)
Definition canonical_undashed (s : string) : Prop :=
  is_uuid_undashed s = true ∧ to_ascii_lowercase s = s.

Lemma is_uuid_undashed_lower s :
  is_uuid_undashed (to_ascii_lowercase s) = is_uuid_undashed s.
Proof.
  unfold is_uuid_undashed, to_ascii_lowercase.
  rewrite str_map_length, str_forall_map. f_equal.
  induction s as [|c s IH]; simpl; [done|]. by rewrite IH, ascii_lower_hexdigit.
Qed.

Lemma to_lower_canonical s :
  is_uuid_undashed s = true → canonical_undashed (to_ascii_lowercase s).
Proof.
  intros H. split; [by rewrite is_uuid_undashed_lower|apply to_ascii_lowercase_idem].
Qed.

(** Split a string of known length into its bytes. *)
Tactic Notation "explode" ident(s) integer(n) :=
  do n (destruct s as [|? s]; [discriminate|]); destruct s as [|? s]; [|discriminate].

Ltac split_hex H :=
  repeat match type of H with
  | (if ?b then _ else _) = true => destruct b eqn:?; [|discriminate H]
  end; clear H.

Lemma remove_dashes_hex c s :
  is_ascii_hexdigit c = true → remove_dashes (String c s) = String c (remove_dashes s).
Proof. intros H. unfold remove_dashes; simpl. by rewrite (hexdigit_not_dash c H). Qed.

Lemma remove_dashes_dash s : remove_dashes (String "-" s) = remove_dashes s.
Proof. reflexivity. Qed.

(** Compute [remove_dashes] on a string of bytes each known to be a digit or a dash. *)
Ltac drop_dashes :=
  repeat first [rewrite remove_dashes_dash | rewrite remove_dashes_hex by assumption];
  change (remove_dashes "") with "".

Lemma dashed_undashed s :
  is_uuid_dashed s = true →
  is_uuid_undashed (remove_dashes s) = true ∧
  let v := remove_dashes s in
  s = slice 0 8 v +:+ "-" +:+ slice 8 12 v +:+ "-" +:+ slice 12 16 v +:+ "-"
      +:+ slice 16 20 v +:+ "-" +:+ slice 20 32 v.
Proof.
  unfold is_uuid_dashed. intros H.
  destruct (String.length s =? 36)%nat eqn:L; [|done].
  explode s 36. clear L. lazy [dashed_from] in H. split_hex H.
  repeat match goal with
  | E : Ascii.eqb ?a "-" = true |- _ => apply Ascii.eqb_eq in E; subst a
  end.
  drop_dashes. split; [|reflexivity].
  unfold is_uuid_undashed. cbn [str_forall String.length].
  repeat match goal with E : is_ascii_hexdigit ?a = true |- _ => rewrite E; clear E end.
  reflexivity.
Qed.

(** Dropping the dashes of the dashed form of an undashed UUID gives it back. *)
Lemma undashed_dashed v :
  is_uuid_undashed v = true →
  let d := slice 0 8 v +:+ "-" +:+ slice 8 12 v +:+ "-" +:+ slice 12 16 v +:+ "-"
           +:+ slice 16 20 v +:+ "-" +:+ slice 20 32 v in
  is_uuid_dashed d = true ∧ remove_dashes d = v.
Proof.
  unfold is_uuid_undashed. intros H. bool_simpl.
  assert (L : (String.length v =? 32)%nat = true) by (apply Nat.eqb_eq; done).
  clear H. explode v 32. clear L. cbn [str_forall] in *. bool_simpl.
  cbv zeta. unfold slice. cbn [Nat.sub String.substring].
  rewrite ?str_app_cons, ?str_app_nil. split.
  - unfold is_uuid_dashed. lazy [String.length Nat.eqb dashed_from].
    rewrite Ascii.eqb_refl.
    repeat match goal with E : is_ascii_hexdigit ?a = true |- _ => rewrite E; clear E end.
    reflexivity.
  - by drop_dashes.
Qed.

Lemma ascii_lower_dash c : Ascii.eqb (ascii_lower c) "-" = Ascii.eqb c "-".
Proof.
  apply Bool.eqb_prop.
  exact (ascii_check
    (λ c, Bool.eqb (Ascii.eqb (ascii_lower c) "-") (Ascii.eqb c "-")) eq_refl c).
Qed.

Lemma remove_dashes_lower s :
  remove_dashes (to_ascii_lowercase s) = to_ascii_lowercase (remove_dashes s).
Proof.
  unfold remove_dashes, to_ascii_lowercase.
  induction s as [|c s IH]; simpl; [done|]. rewrite ascii_lower_dash.
  destruct (Ascii.eqb c "-"); simpl; by rewrite IH.
Qed.

Lemma dashed_from_lower i s : dashed_from i (to_ascii_lowercase s) = dashed_from i s.
Proof.
  revert i. induction s as [|c s IH]; intros i; [done|].
  change (to_ascii_lowercase (String c s))
    with (String (ascii_lower c) (to_ascii_lowercase s)).
  cbn [dashed_from]. by rewrite ascii_lower_dash, ascii_lower_hexdigit, IH.
Qed.

Lemma is_uuid_dashed_lower s : is_uuid_dashed (to_ascii_lowercase s) = is_uuid_dashed s.
Proof.
  unfold is_uuid_dashed. by rewrite to_ascii_lowercase_length, dashed_from_lower.
Qed.

Lemma dashed_not_undashed s : is_uuid_dashed s = true → is_uuid_undashed s = false.
Proof.
  unfold is_uuid_dashed, is_uuid_undashed. case_match eqn:E; [|done].
  bool_simpl. by rewrite E.
Qed.

Lemma dash_uuid_of_dashed d :
  is_uuid_dashed d = true → to_ascii_lowercase d = d →
  dash_uuid (remove_dashes d) = Ok d ∧ undash_uuid d = Ok (remove_dashes d).
Proof.
  intros D L. pose proof (dashed_undashed d D) as [U E]. simpl in E.
  assert (V : to_ascii_lowercase (remove_dashes d) = remove_dashes d)
    by (by rewrite <- remove_dashes_lower, L).
  split.
  - unfold dash_uuid. rewrite U.
    assert (is_uuid_dashed (remove_dashes d) = false) as ->.
    { destruct (is_uuid_dashed (remove_dashes d)) eqn:W; [|done].
      apply dashed_not_undashed in W. congruence. }
    simpl. by rewrite V, <- E.
  - unfold undash_uuid. by rewrite (dashed_not_undashed d D), D, V.
Qed.

(** ** Properties *)

(** What [undash_uuid] accepts and returns: exactly the two UUID forms are accepted,
    the result is always in the canonical stored form, and it does not depend on which
    form, or which case, the input was written in. *)
Theorem undash_uuid_spec value :
  match undash_uuid value with
  | Ok v =>
      (is_uuid_undashed value = true ∨ is_uuid_dashed value = true) ∧
      canonical_undashed v ∧
      v = to_ascii_lowercase (remove_dashes value)
  | Err _ => is_uuid_undashed value = false ∧ is_uuid_dashed value = false
  end.
Proof.
  unfold undash_uuid.
  destruct (is_uuid_undashed value) eqn:U.
  - split; [by left|]. split; [by apply to_lower_canonical|]. f_equal.
    unfold is_uuid_undashed in U. bool_simpl. symmetry. apply str_filter_id.
    eapply str_forall_impl; [|done]. intros c Hc. simpl.
    by rewrite (hexdigit_not_dash c Hc).
  - destruct (is_uuid_dashed value) eqn:D; [|done].
    split; [by right|]. split; [|done].
    apply to_lower_canonical. by apply dashed_undashed.
Qed.

(** The two conversions invert each other. Whatever [undash_uuid] accepts, with
    result [v], [dash_uuid] accepts as well, with a result [d] in the dashed lower-case
    form; [v] and [d] determine each other: dashing [v] gives [d] and undashing [d]
    gives [v]. Both reject the same inputs with the same error. *)
Theorem uuid_roundtrip value :
  match undash_uuid value with
  | Ok v =>
      ∃ d, dash_uuid value = Ok d ∧ is_uuid_dashed d = true ∧
           to_ascii_lowercase d = d ∧
           dash_uuid v = Ok d ∧ undash_uuid d = Ok v ∧
           undash_uuid v = Ok v ∧ dash_uuid d = Ok d
  | Err e => dash_uuid value = Err e
  end.
Proof.
  unfold undash_uuid at 1.
  destruct (is_uuid_undashed value) eqn:U; [|destruct (is_uuid_dashed value) eqn:D].
  - destruct (to_lower_canonical value U) as [CU CL].
    set (v := to_ascii_lowercase value) in *.
    pose proof (undashed_dashed v CU) as [D R]. cbv zeta in D, R.
    set (d := slice 0 8 v +:+ _) in D, R.
    assert (ND : is_uuid_dashed value = false).
    { destruct (is_uuid_dashed value) eqn:W; [|done].
      apply dashed_not_undashed in W. congruence. }
    assert (NV : is_uuid_dashed v = false) by (unfold v; by rewrite is_uuid_dashed_lower).
    assert (E : dash_uuid value = Ok d) by (unfold dash_uuid; by rewrite ND, U).
    assert (Ev : dash_uuid v = Ok d) by (unfold dash_uuid; by rewrite NV, CU, CL).
    assert (L : to_ascii_lowercase d = d).
    { clear -CL CU. unfold is_uuid_undashed in CU. bool_simpl.
      assert (K : (String.length v =? 32)%nat = true) by (apply Nat.eqb_eq; done).
      subst d. clearbody v. clear -K CL. explode v 32.
      cbv [to_ascii_lowercase] in *. cbn [str_map] in CL. injection CL as ?.
      unfold slice. cbn [Nat.sub String.substring].
      rewrite ?str_app_cons, ?str_app_nil. cbn [str_map].
      repeat match goal with H : ascii_lower _ = _ |- _ => rewrite H; clear H end.
      reflexivity. }
    destruct (dash_uuid_of_dashed d D L) as [_ Ud]. rewrite R in Ud.
    exists d. repeat split; try done.
    + unfold undash_uuid. by rewrite CU, CL.
    + unfold dash_uuid. by rewrite D, L.
  - assert (DL : is_uuid_dashed (to_ascii_lowercase value) = true)
      by (by rewrite is_uuid_dashed_lower).
    assert (IL := to_ascii_lowercase_idem value).
    destruct (dash_uuid_of_dashed _ DL IL) as [E1 E2].
    rewrite remove_dashes_lower in E1, E2.
    pose proof (dashed_undashed value D) as [U' _].
    destruct (to_lower_canonical _ U') as [CU CL].
    exists (to_ascii_lowercase value). repeat split; try done.
    + unfold dash_uuid. by rewrite D.
    + unfold undash_uuid. by rewrite CU, CL.
    + unfold dash_uuid. by rewrite DL, IL.
  - unfold dash_uuid. by rewrite D, U.
Qed.

Example undash_uuid_golden :
  undash_uuid "F84C6a79-0A4e-45E0-879F-0e478DE5cb7E"
  = Ok "f84c6a790a4e45e0879f0e478de5cb7e".
Proof. reflexivity. Qed.
