(* ===== verification/Png.v ===== *)
(** * PNG header validation

    [crates/yggdrasil-protocol/src/png.rs]. A byte slice is a [list Z] of values in
    [0, 255]. Rust's slice indexing panics out of range: an indexing operation returns
    an [option], [None] standing for the panic, and the parser's absence of panics is
    proved below. *)

From S2P Require Import Prelude.

Definition PNG_SIGNATURE : list Z := [137; 80; 78; 71; 13; 10; 26; 10]%Z.
Definition IHDR_LENGTH : Z := 13.
Definition PNG_HEADER_MIN_BYTES : nat := 24.
Definition IHDR_LENGTH_OFFSET : nat := 8.
Definition IHDR_TYPE_OFFSET : nat := 12.
Definition IHDR_WIDTH_OFFSET : nat := 16.
Definition IHDR_HEIGHT_OFFSET : nat := 20.

(** [b"IHDR"]. *)
Definition IHDR : list Z := [73; 72; 68; 82]%Z.

Inductive PngKind : Type :=
| Skin
| Cape.

Inductive PngError : Type :=
| TooSmall
| BadSignature
| BadIhdrLength (length : Z)
| BadIhdrType
| BadDimensions (width height : Z).

#[export] Instance PngError_eq_dec : EqDecision PngError.
Proof. solve_decision. Defined.

(** [u32::from_be_bytes]. *)
Definition from_be_bytes (b0 b1 b2 b3 : Z) : Z :=
  Z.lor (Z.shiftl b0 24) (Z.lor (Z.shiftl b1 16) (Z.lor (Z.shiftl b2 8) b3)).

Definition read_u32_be (buf : list Z) (offset : nat) : option Z :=
  b0 ← buf !! offset;
  b1 ← buf !! (offset + 1);
  b2 ← buf !! (offset + 2);
  b3 ← buf !! (offset + 3);
  Some (from_be_bytes b0 b1 b2 b3).

(** [&buf[a..b]]. *)
Definition byte_range (buf : list Z) (a b : nat) : option (list Z) :=
  if (b <=? length buf)%nat then Some (take (b - a) (drop a buf)) else None.

Definition parse_png_header (buf : list Z) : option (result (Z * Z) PngError) :=
  if (length buf <? PNG_HEADER_MIN_BYTES)%nat then Some (Err TooSmall)
  else
    signature ← byte_range buf 0 8;
    if negb (bool_decide (signature = PNG_SIGNATURE)) then Some (Err BadSignature)
    else
      ihdr_length ← read_u32_be buf IHDR_LENGTH_OFFSET;
      if negb (ihdr_length =? IHDR_LENGTH)%Z then Some (Err (BadIhdrLength ihdr_length))
      else
        ihdr_type ← byte_range buf IHDR_TYPE_OFFSET (IHDR_TYPE_OFFSET + 4);
        if negb (bool_decide (ihdr_type = IHDR)) then Some (Err BadIhdrType)
        else
          width ← read_u32_be buf IHDR_WIDTH_OFFSET;
          height ← read_u32_be buf IHDR_HEIGHT_OFFSET;
          Some (Ok (width, height)).

Definition validate_png (buf : list Z) (kind : PngKind) : option (result (Z * Z) PngError) :=
  header ← parse_png_header buf;
  Some
    (try '(width, height) := header in
     let ok :=
       match kind with
       | Skin => (width =? 64)%Z && ((height =? 64)%Z || (height =? 32)%Z)
       | Cape => (width =? 64)%Z && (height =? 32)%Z
       end in
     if ok then Ok (width, height) else Err (BadDimensions width height)).

Definition validate_skin (buf : list Z) : option (result (Z * Z) PngError) :=
  validate_png buf Skin.

Definition validate_cape (buf : list Z) : option (result (Z * Z) PngError) :=
  validate_png buf Cape.

(** ** Big-endian words *)

Definition is_byte (b : Z) : Prop := (0 ≤ b < 256)%Z.

(** [u32::to_be_bytes]. *)
Definition to_be_bytes (w : Z) : list Z :=
  [Z.shiftr w 24 mod 256; Z.shiftr w 16 mod 256; Z.shiftr w 8 mod 256; w mod 256]%Z.

Lemma testbit_above b n k :
  (0 ≤ n)%Z → (0 ≤ b < 2 ^ n)%Z → (n ≤ k)%Z → Z.testbit b k = false.
Proof.
  intros Hn Hb Hk. destruct (Z.eq_dec b 0%Z) as [->|Hb0]; [apply Z.testbit_0_l|].
  apply Z.bits_above_log2; [lia|]. apply Z.log2_lt_pow2; [lia|].
  pose proof (Z.pow_le_mono_r 2 n k). lia.
Qed.

Lemma from_be_bytes_arith b0 b1 b2 b3 :
  is_byte b0 → is_byte b1 → is_byte b2 → is_byte b3 →
  from_be_bytes b0 b1 b2 b3 = (b0 * 2^24 + b1 * 2^16 + b2 * 2^8 + b3)%Z.
Proof.
  unfold is_byte, from_be_bytes. intros H0 H1 H2 H3.
  assert (lor_add : ∀ a b n, (0 ≤ n)%Z → (0 ≤ b < 2 ^ n)%Z →
    Z.lor (Z.shiftl a n) b = (a * 2 ^ n + b)%Z).
  { intros a b n Hn Hb. rewrite <- Z.shiftl_mul_pow2 by done.
    assert (L : Z.land (Z.shiftl a n) b = 0%Z).
    { apply Z.bits_inj'. intros k Hk. rewrite Z.land_spec, Z.bits_0.
      destruct (Z.lt_ge_cases k n) as [|Hk'].
      - by rewrite Z.shiftl_spec_low.
      - rewrite (testbit_above b n k) by done. apply andb_false_r. }
    by rewrite Z.add_nocarry_lxor, Z.lxor_lor. }
  rewrite (lor_add b2 b3 8)%Z by lia.
  rewrite (lor_add b1 _ 16)%Z by lia.
  rewrite (lor_add b0 _ 24)%Z by lia. lia.
Qed.

Lemma to_be_bytes_bytes w : Forall is_byte (to_be_bytes w).
Proof. unfold to_be_bytes, is_byte. repeat constructor; apply Z.mod_pos_bound; lia. Qed.

Lemma from_to_be_bytes w :
  (0 ≤ w < 2^32)%Z →
  from_be_bytes (Z.shiftr w 24 mod 256) (Z.shiftr w 16 mod 256)
    (Z.shiftr w 8 mod 256) (w mod 256) = w.
Proof.
  intros H. rewrite from_be_bytes_arith by (apply Z.mod_pos_bound; lia).
  rewrite !Z.shiftr_div_pow2 by lia. change (2^24)%Z with 16777216%Z.
  change (2^16)%Z with 65536%Z. change (2^8)%Z with 256%Z.
  change (2^32)%Z with 4294967296%Z in H.
  Z.to_euclidean_division_equations. lia.
Qed.

Lemma to_from_be_bytes b0 b1 b2 b3 :
  is_byte b0 → is_byte b1 → is_byte b2 → is_byte b3 →
  to_be_bytes (from_be_bytes b0 b1 b2 b3) = [b0; b1; b2; b3] ∧
  (0 ≤ from_be_bytes b0 b1 b2 b3 < 2^32)%Z.
Proof.
  intros H0 H1 H2 H3. rewrite from_be_bytes_arith by done.
  unfold to_be_bytes, is_byte in *. rewrite !Z.shiftr_div_pow2 by lia.
  change (2^24)%Z with 16777216%Z. change (2^16)%Z with 65536%Z.
  change (2^8)%Z with 256%Z. change (2^32)%Z with 4294967296%Z.
  split; [|lia]. repeat f_equal; Z.to_euclidean_division_equations; lia.
Qed.

(** The header a PNG encoder writes for an image of the given size. *)
Definition png_header (width height : Z) : list Z :=
  PNG_SIGNATURE ++ to_be_bytes IHDR_LENGTH ++ IHDR
  ++ to_be_bytes width ++ to_be_bytes height.

Lemma length_ge_24 (buf : list Z) :
  (24 ≤ length buf)%nat →
  ∃ a0 a1 a2 a3 a4 a5 a6 a7 b0 b1 b2 b3 c0 c1 c2 c3 d0 d1 d2 d3 e0 e1 e2 e3 rest,
    buf = [a0; a1; a2; a3; a4; a5; a6; a7; b0; b1; b2; b3; c0; c1; c2; c3;
           d0; d1; d2; d3; e0; e1; e2; e3] ++ rest.
Proof.
  intros H. do 24 (destruct buf as [|? buf]; [simpl in H; lia|]). by do 25 eexists.
Qed.

(** What the parser does on a buffer that is long enough. *)
Lemma parse_png_header_long a0 a1 a2 a3 a4 a5 a6 a7 b0 b1 b2 b3 c0 c1 c2 c3
    d0 d1 d2 d3 e0 e1 e2 e3 rest :
  parse_png_header
    ([a0; a1; a2; a3; a4; a5; a6; a7; b0; b1; b2; b3; c0; c1; c2; c3;
      d0; d1; d2; d3; e0; e1; e2; e3] ++ rest)
  = Some
      (if negb (bool_decide ([a0; a1; a2; a3; a4; a5; a6; a7] = PNG_SIGNATURE))
       then Err BadSignature
       else if negb (from_be_bytes b0 b1 b2 b3 =? IHDR_LENGTH)%Z
       then Err (BadIhdrLength (from_be_bytes b0 b1 b2 b3))
       else if negb (bool_decide ([c0; c1; c2; c3] = IHDR)) then Err BadIhdrType
       else Ok (from_be_bytes d0 d1 d2 d3, from_be_bytes e0 e1 e2 e3)).
Proof.
  unfold parse_png_header, byte_range. simpl.
  repeat match goal with |- context [if negb ?b then _ else _] => destruct b; simpl; [|done] end.
  done.
Qed.

Lemma parse_png_header_short buf :
  (length buf < 24)%nat → parse_png_header buf = Some (Err TooSmall).
Proof.
  intros H. unfold parse_png_header, PNG_HEADER_MIN_BYTES.
  by destruct (Nat.ltb_spec (length buf) 24); [|lia].
Qed.

Lemma parse_png_header_spec_aux (buf : list Z) :
  Forall is_byte buf →
  ∃ r, parse_png_header buf = Some r ∧
       ∀ width height,
         r = Ok (width, height) ↔
         take 24 buf = png_header width height ∧
         (0 ≤ width < 2^32)%Z ∧ (0 ≤ height < 2^32)%Z.
Proof.
  intros Hb. destruct (Nat.lt_ge_cases (length buf) 24) as [Hs|Hl].
  { exists (Err TooSmall). split; [by apply parse_png_header_short|].
    intros w h. split; [done|]. intros [E _].
    apply (f_equal length) in E. rewrite length_take in E.
    change (length (png_header w h)) with 24 in E. lia. }
  destruct (length_ge_24 buf Hl) as
    (a0 & a1 & a2 & a3 & a4 & a5 & a6 & a7 & b0 & b1 & b2 & b3 & c0 & c1 & c2 & c3 &
     d0 & d1 & d2 & d3 & e0 & e1 & e2 & e3 & rest & ->).
  rewrite parse_png_header_long. eexists. split; [done|].
  apply Forall_app in Hb as [Hb _].
  repeat match goal with H : Forall _ (_ :: _) |- _ => apply Forall_cons in H as [? H] end.
  assert (E13 : to_be_bytes IHDR_LENGTH = [0; 0; 0; 13]%Z) by reflexivity.
  intros w h. unfold png_header. rewrite E13. split.
  - case_bool_decide as S; [|done]. cbn [negb].
    destruct (Z.eqb_spec (from_be_bytes b0 b1 b2 b3) IHDR_LENGTH) as [L|]; [|done].
    case_bool_decide as T; [|done]. cbn [negb]. intros [= <- <-].
    destruct (to_from_be_bytes b0 b1 b2 b3) as [Eb _]; try done.
    rewrite L, E13 in Eb.
    destruct (to_from_be_bytes d0 d1 d2 d3) as [-> ?]; try done.
    destruct (to_from_be_bytes e0 e1 e2 e3) as [-> ?]; try done.
    split; [|done]. rewrite <- S, <- T, Eb. simpl. by rewrite take_0.
  - intros (E & Hw & Hh). unfold to_be_bytes in E. simpl in E. injection E as -> -> -> -> ->
      -> -> -> -> -> -> -> -> -> -> -> -> -> -> -> -> -> -> ->.
    simpl. by rewrite !from_to_be_bytes.
Qed.

(** ** Properties *)

(** The parser is total: no indexing or slicing of the buffer is ever out of range,
    so it never panics, and it accepts exactly the buffers that start with the header of
    an image, returning that image's dimensions. *)
Theorem parse_png_header_spec (buf : list Z) :
  Forall is_byte buf →
  ∃ r, parse_png_header buf = Some r ∧
       ∀ width height,
         r = Ok (width, height) ↔
         take 24 buf = png_header width height ∧
         (0 ≤ width < 2^32)%Z ∧ (0 ≤ height < 2^32)%Z.
Proof. apply parse_png_header_spec_aux. Qed.

Lemma parse_png_header_spec_witness :
  Forall is_byte (png_header 64 32) ∧
  ∃ r, parse_png_header (png_header 64 32) = Some r ∧
       ∀ width height,
         r = Ok (width, height) ↔
         take 24 (png_header 64 32) = png_header width height ∧
         (0 ≤ width < 2^32)%Z ∧ (0 ≤ height < 2^32)%Z.
Proof.
  assert (H : Forall is_byte (png_header 64 32))
    by (unfold is_byte; repeat constructor; done).
  split; [exact H|]. exact (parse_png_header_spec _ H).
Defined.

(** Texture validation accepts exactly the two skin sizes and the one cape size:
    a file is accepted as a skin (resp. cape) if and only if it starts with the header of
    a 64x64 or 64x32 (resp. 64x32) image. In particular every accepted cape is an
    accepted skin. *)
Theorem validate_png_spec (buf : list Z) (kind : PngKind) :
  Forall is_byte buf →
  ∃ r, validate_png buf kind = Some r ∧
       (is_ok r = true ↔
        match kind with
        | Skin => take 24 buf = png_header 64 64 ∨ take 24 buf = png_header 64 32
        | Cape => take 24 buf = png_header 64 32
        end).
Proof.
  intros Hb. destruct (parse_png_header_spec_aux buf Hb) as (r & E & Hr).
  unfold validate_png. rewrite E. simpl. eexists. split; [done|].
  assert (Hdim : ∀ w h, (0 ≤ w < 2^32)%Z → (0 ≤ h < 2^32)%Z →
    (r = Ok (w, h) ↔ take 24 buf = png_header w h)) by (intros; rewrite Hr; tauto).
  destruct r as [[w h]|e]; simpl.
  - specialize (Hr w h) as [Hr _]. destruct (Hr eq_refl) as (_ & _ & _).
    destruct kind; rewrite <- !Hdim by lia.
    + destruct (Z.eqb_spec w 64), (Z.eqb_spec h 64), (Z.eqb_spec h 32); simpl;
        split; intros H; naive_solver lia.
    + destruct (Z.eqb_spec w 64), (Z.eqb_spec h 32); simpl; split; intros H; naive_solver.
  - destruct kind; rewrite <- !Hdim by lia; naive_solver.
Qed.

Lemma validate_png_spec_witness :
  Forall is_byte (png_header 64 64) ∧
  ∃ r, validate_png (png_header 64 64) Cape = Some r ∧
       (is_ok r = true ↔ take 24 (png_header 64 64) = png_header 64 32).
Proof.
  assert (H : Forall is_byte (png_header 64 64))
    by (unfold is_byte; repeat constructor; done).
  split; [exact H|]. exact (validate_png_spec _ Cape H).
Defined.
