(* ===== verification/Payload.v ===== *)
(** * The textures property

    [crates/yggdrasil-protocol/src/payload.rs]: building the payload of a profile's
    [textures] property, its JSON text and base64 [value], and the normalisation of
    base64 padding. The layout of the JSON follows the serde attributes of the structs;
    how serde_json quotes a string and the base64 engine are parameters. *)

From stdpp Require Import pretty.
From S2P Require Import Prelude RustStr YggUuid.

(** [base64]'s standard engine and serde_json's string literals. Documented behaviour of
    the engine: letters of the standard alphabet, then the padding that makes the length
    a multiple of four. *)

Definition is_base64 (c : ascii) : bool :=
  is_ascii_uppercase c || is_ascii_lowercase c || is_ascii_digit c
  || Ascii.eqb c "+" || Ascii.eqb c "/".

(** [n] characters ['=']. *)
Fixpoint pads (n : nat) : string :=
  match n with O => "" | S n => String "=" (pads n) end.

(** The padding the length lacks. *)
Definition missing (len : nat) : nat :=
  let rem := (len mod 4)%nat in if (rem =? 0)%nat then 0 else 4 - rem.

Class PayloadText : Type := {
  json_string : string → string;
  base64_encode : string → string;
  base64_canonical : ∀ s, s ≠ "" → ∃ body,
    base64_encode s = body +:+ pads (missing (String.length body)) ∧
    str_forall is_base64 body = true ∧ body ≠ "" ∧ (String.length body mod 4)%nat ≠ 1
}.

(** ** The payload *)

Inductive SkinVariant : Type := Classic | Slim.

Record TextureMetadata : Type := mkTextureMetadata { tm_model : string }.

Record TextureEntry : Type := mkTextureEntry {
  te_url : string;
  te_metadata : option TextureMetadata
}.

Record TexturesValue : Type := mkTexturesValue {
  tv_skin : option TextureEntry;
  tv_cape : option TextureEntry
}.

Record TexturesPayload : Type := mkTexturesPayload {
  tp_timestamp : Z;
  tp_profile_id : string;
  tp_profile_name : string;
  tp_textures : TexturesValue
}.

Inductive PayloadError : Type := InvalidProfileId | EmptyProfileName.

Record SkinInput : Type := mkSkinInput { si_url : string; si_variant : SkinVariant }.
Record CapeInput : Type := mkCapeInput { ci_url : string }.

Record TexturesPayloadInput : Type := mkTexturesPayloadInput {
  ti_profile_id : string;
  ti_profile_name : string;
  ti_timestamp : Z;
  ti_skin : option SkinInput;
  ti_cape : option CapeInput
}.

Definition skin_entry (s : SkinInput) : TextureEntry :=
  mkTextureEntry (si_url s)
    (match si_variant s with Slim => Some (mkTextureMetadata "slim") | Classic => None end).

Definition cape_entry (c : CapeInput) : TextureEntry := mkTextureEntry (ci_url c) None.

Definition build_textures_payload (input : TexturesPayloadInput)
  : result TexturesPayload PayloadError :=
  if negb (is_uuid_undashed (ti_profile_id input)) then Err InvalidProfileId
  else if (ti_profile_name input =? "")%string then Err EmptyProfileName
  else Ok (mkTexturesPayload (ti_timestamp input) (to_ascii_lowercase (ti_profile_id input))
             (ti_profile_name input)
             (mkTexturesValue (skin_entry <$> ti_skin input) (cape_entry <$> ti_cape input))).

(** ** Its text *)

Section Text.
Context `{PayloadText}.

(** The quotation mark. *)
Definition quote : string := bytes [34]%N.

Definition field (name value : string) : string := quote +:+ name +:+ quote +:+ ":" +:+ value.

(** The fields that are there, between braces. *)
Definition object (fields : list (option string)) : string :=
  "{" +:+ String.concat "," (omap id fields) +:+ "}".

Definition metadata_json (m : TextureMetadata) : string :=
  object [Some (field "model" (json_string (tm_model m)))].

(** [skip_serializing_if = "Option::is_none"] is the [option] of a field. *)
Definition entry_json (e : TextureEntry) : string :=
  object [Some (field "url" (json_string (te_url e)));
          (λ m, field "metadata" (metadata_json m)) <$> te_metadata e].

Definition textures_json (t : TexturesValue) : string :=
  object [(λ e, field "SKIN" (entry_json e)) <$> tv_skin t;
          (λ e, field "CAPE" (entry_json e)) <$> tv_cape t].

Definition payload_json (p : TexturesPayload) : string :=
  object [Some (field "timestamp" (pretty (tp_timestamp p)));
          Some (field "profileId" (json_string (tp_profile_id p)));
          Some (field "profileName" (json_string (tp_profile_name p)));
          Some (field "textures" (textures_json (tp_textures p)))].

(** Serialising these structs cannot fail, so the source's JSON error does not arise. *)
Definition encode_textures_value (payload : TexturesPayload) : string :=
  base64_encode (payload_json payload).

Definition build_textures_value (input : TexturesPayloadInput) : result string PayloadError :=
  try payload := build_textures_payload input in
  Ok (encode_textures_value payload).
End Text.

(** ** Normalising base64 *)

Inductive Base64Error : Type := Empty | Whitespace | BadLength | BadAlphabet.

#[export] Instance Base64Error_eq_dec : EqDecision Base64Error.
Proof. solve_decision. Defined.

(** The loop over [char_indices]; [len] is the length of the whole text. Every byte before
    [i] is an ASCII character, and the first byte of any other one ends the loop, so byte
    and character offsets are the same. *)
Fixpoint scan (len i : nat) (seen_pad : bool) (pad_count : nat) (encoded : string)
  : result unit Base64Error :=
  match encoded with
  | "" => Ok ()
  | String ch encoded =>
      if is_base64 ch then
        if seen_pad then Err BadAlphabet else scan len (S i) seen_pad pad_count encoded
      else if Ascii.eqb ch "=" then
        if (2 <? S pad_count)%nat || (i <? len - 2)%nat then Err BadAlphabet
        else scan len (S i) true (S pad_count) encoded
      else Err BadAlphabet
  end.

Definition normalize_base64 (encoded : string) : result string Base64Error :=
  if (encoded =? "")%string then Err Empty
  else if negb (trim encoded =? encoded)%string then Err Whitespace
  else if (String.length encoded mod 4 =? 1)%nat then Err BadLength
  else
    try _ := scan (String.length encoded) 0 false 0 encoded in
    Ok (encoded +:+ pads (missing (String.length encoded))).

(** ** Lemmas *)

Lemma pads_app m n : pads (m + n) = pads m +:+ pads n.
Proof. induction m as [|m IH]; [done|]. cbn [Nat.add pads]. by rewrite IH. Qed.

Lemma pads_length n : String.length (pads n) = n.
Proof. induction n; simpl; congruence. Qed.
#[local] Hint Rewrite pads_length : loon_str.

Lemma base64_not_pad c : is_base64 c = true → Ascii.eqb c "=" = false.
Proof.
  pose proof (ascii_check (λ c, implb (is_base64 c) (negb (Ascii.eqb c "="))) eq_refl c) as E.
  cbv beta in E. intros H. rewrite H in E. by apply negb_true_iff in E.
Qed.

Lemma base64_graphic c : is_base64 c = true → is_ascii_graphic c = true.
Proof.
  pose proof (ascii_check (λ c, implb (is_base64 c) (is_ascii_graphic c)) eq_refl c) as E.
  cbv beta in E. intros H. by rewrite H in E.
Qed.

(** After a pad only pads pass, two in all. *)
Lemma scan_pads len i n s :
  (len - 2 ≤ i)%nat →
  scan len i true n s = Ok () ↔ s = pads (String.length s) ∧ (s = "" ∨ n + String.length s ≤ 2)%nat.
Proof.
  revert i n. induction s as [|c s IH]; intros i n Hi; simpl; [naive_solver|].
  destruct (is_base64 c) eqn:Hc.
  - split; [done|]. intros [[= -> _] _]. done.
  - destruct (Ascii.eqb_spec c "=") as [->|Hne]; [|by split; [done|intros [[= -> _] _]]].
    rewrite (proj2 (Nat.ltb_ge i (len - 2))) by lia. rewrite orb_false_r.
    destruct (2 <? S n)%nat eqn:E; [apply Nat.ltb_lt in E|apply Nat.ltb_ge in E].
    + split; [done|]. intros [_ [?|?]]; [done|lia].
    + rewrite IH by lia. split.
      * intros [Hs Hn]. split; [by rewrite Hs at 1|]. right. destruct Hn as [->|Hn]; simpl; lia.
      * intros [[= Hs] [?|Hn]]; [done|]. split; [done|]. right. lia.
Qed.

Lemma scan_ok i s :
  scan (i + String.length s) i false 0 s = Ok () ↔
  ∃ body k, s = body +:+ pads k ∧ str_forall is_base64 body = true ∧ (k ≤ 2)%nat.
Proof.
  revert i. induction s as [|c s IH]; intros i; simpl.
  { split; [|done]. intros _. exists "", 0%nat. split; [done|]. split; [done|lia]. }
  destruct (is_base64 c) eqn:Hc.
  - replace (i + S (String.length s))%nat with (S i + String.length s)%nat by lia. rewrite IH.
    split; intros (body & k & Hs & Hb & Hk).
    + exists (String c body), k. rewrite str_app_cons, <- Hs. simpl. by rewrite Hc, Hb.
    + destruct body as [|d body]; [destruct k; [done|]; by injection Hs as -> _|].
      rewrite str_app_cons in Hs. injection Hs as -> ->. simpl in Hb. bool_simpl. eauto.
  - destruct (Ascii.eqb_spec c "=") as [->|Hne].
    + change (2 <? 1)%nat with false. cbn [orb]. destruct (i <? i + S (String.length s) - 2)%nat eqn:E.
      * apply Nat.ltb_lt in E. split; [done|]. intros (body & k & Hs & Hb & Hk).
        destruct body as [|d body].
        -- rewrite str_app_nil in Hs. apply (f_equal String.length) in Hs.
           rewrite pads_length in Hs. simpl in Hs. lia.
        -- rewrite str_app_cons in Hs. injection Hs as <- _. done.
      * apply Nat.ltb_ge in E. rewrite scan_pads by lia. split.
        -- intros [Hs Hn]. exists "", (S (String.length s)). rewrite str_app_nil. simpl.
           split; [by rewrite Hs at 1|]. split; [done|]. destruct Hn as [->|Hn]; simpl; lia.
        -- intros (body & k & Hs & Hb & Hk). destruct body as [|d body].
           ++ rewrite str_app_nil in Hs. destruct k as [|k]; [done|]. injection Hs as ->.
              rewrite pads_length. split; [done|]. right. lia.
           ++ rewrite str_app_cons in Hs. injection Hs as <- _. done.
    + split; [done|]. intros (body & k & Hs & Hb & Hk). destruct body as [|d body].
      * destruct k; [done|]. by injection Hs as -> _.
      * rewrite str_app_cons in Hs. injection Hs as <- _. simpl in Hb. bool_simpl. congruence.
Qed.

Lemma base64_text_graphic body k :
  str_forall is_base64 body = true → str_forall is_ascii_graphic (body +:+ pads k) = true.
Proof.
  intros Hb. rewrite str_forall_app, (str_forall_impl is_base64) by auto using base64_graphic.
  by induction k.
Qed.

Lemma normalize_shape body k :
  str_forall is_base64 body = true → (k ≤ 2)%nat → body +:+ pads k ≠ "" →
  (String.length (body +:+ pads k) mod 4)%nat ≠ 1%nat →
  normalize_base64 (body +:+ pads k)
  = Ok ((body +:+ pads k) +:+ pads (missing (String.length (body +:+ pads k)))).
Proof.
  intros Hb Hk Hne Hlen. unfold normalize_base64.
  rewrite (proj2 (String.eqb_neq _ _) Hne), trim_graphic by auto using base64_text_graphic.
  rewrite String.eqb_refl, (proj2 (Nat.eqb_neq _ _) Hlen). cbn [negb].
  pose proof (proj2 (scan_ok 0 (body +:+ pads k))) as E. cbn [Nat.add] in E.
  by rewrite E by eauto.
Qed.

Lemma app_pads_inv body m rest cut :
  str_forall is_base64 body = true → body +:+ pads m = rest +:+ pads cut →
  ∃ k, rest = body +:+ pads k ∧ m = (k + cut)%nat.
Proof.
  revert rest. induction body as [|c body IH]; intros rest Hb E.
  - rewrite str_app_nil in E. clear Hb. revert m E.
    induction rest as [|d rest IHr]; intros m E.
    + exists 0%nat. rewrite str_app_nil in E. apply (f_equal String.length) in E.
      by rewrite !pads_length in E.
    + rewrite str_app_cons in E. destruct m as [|m]; [done|]. injection E as <- E.
      destruct (IHr m E) as (k & -> & ->). by exists (S k).
  - simpl in Hb. bool_simpl. destruct rest as [|d rest].
    + rewrite str_app_nil, str_app_cons in E. destruct cut as [|cut]; [done|].
      injection E as -> _. done.
    + rewrite !str_app_cons in E. injection E as <- E.
      destruct (IH rest) as (k & -> & ->); [done..|]. by exists k.
Qed.

Lemma missing_after_cut len k cut :
  (len mod 4)%nat ≠ 1%nat → missing len = (k + cut)%nat →
  (k ≤ 2)%nat ∧ ((len + k) mod 4)%nat ≠ 1%nat ∧ missing (len + k) = cut.
Proof.
  unfold missing. rewrite <- (Nat.Div0.add_mod_idemp_l len k).
  pose proof (Nat.mod_upper_bound len 4 ltac:(lia)) as B. revert B.
  generalize (len mod 4)%nat. intros r B Hr E.
  destruct r as [|[|[|[|r]]]]; [| |destruct k as [|[|[|k]]]|destruct k as [|[|k]]|]; simpl in *; try lia.
  destruct k; simpl in *; lia.
Qed.

(** ** Properties *)

(** What the normalisation accepts and answers: exactly the non-empty texts made of letters of
    the standard alphabet followed by at most two ['='], whose length is not one more than
    a multiple of four; the answer is the text with the padding its length lacks, so its
    length is a multiple of four. Every other text is refused. *)
Theorem normalize_base64_spec encoded out :
  normalize_base64 encoded = Ok out ↔
  encoded ≠ "" ∧ (String.length encoded mod 4)%nat ≠ 1%nat ∧
  (∃ body k, encoded = body +:+ pads k ∧ str_forall is_base64 body = true ∧ (k ≤ 2)%nat) ∧
  out = encoded +:+ pads (missing (String.length encoded)) ∧ (String.length out mod 4)%nat = 0%nat.
Proof.
  assert (Hpad : (String.length encoded mod 4)%nat ≠ 1%nat →
            (String.length (encoded +:+ pads (missing (String.length encoded))) mod 4)%nat = 0%nat).
  { intros Hne. autorewrite with loon_str. unfold missing. pose proof (Nat.mod_upper_bound (String.length encoded) 4).
    case_goal; bool_simpl; [by rewrite Nat.add_0_r|].
    rewrite <- (Nat.Div0.add_mod_idemp_l (String.length encoded)).
    rewrite Nat.add_comm, Nat.sub_add by lia. done. }
  split.
  - unfold normalize_base64. intros E. repeat case_hyp E; try discriminate E. bool_simpl.
    apply and_then_ok in E as ([] & Hscan & [= <-]). apply (scan_ok 0) in Hscan. auto 10.
  - intros (Hne & Hlen & (body & k & -> & Hb & Hk) & -> & _). by apply normalize_shape.
Qed.

(** Lost padding is restored. The [value] of any payload is not empty and normalises to
    itself, and so does every text got from it by cutting padding off its end. *)
Theorem value_normalizes `{PayloadText} input value cut rest :
  build_textures_value input = Ok value → value = rest +:+ pads cut →
  value ≠ "" ∧ normalize_base64 rest = Ok value.
Proof.
  unfold build_textures_value. rewrite and_then_ok. intros (p & _ & [= <-]) Hcut.
  unfold encode_textures_value in *.
  destruct (base64_canonical (payload_json p)) as (body & Hv & Hb & Hne & Hlen).
  { unfold payload_json, object. by rewrite str_app_cons. }
  rewrite Hv in *. split; [by destruct body|].
  destruct (app_pads_inv _ _ _ _ Hb Hcut) as (k & -> & Hk).
  destruct (missing_after_cut _ _ _ Hlen Hk) as (Hk2 & Hmod & Hcut').
  rewrite normalize_shape; autorewrite with loon_str; [by rewrite Hcut', <- Hcut|done..| |done].
  by destruct body.
Qed.

(** Cutting is not checked against the count: a pad too many passes, is completed to two
    more, and the answer is itself refused. *)
Example overpadded : normalize_base64 "A==" = Ok "A===" ∧ normalize_base64 "A===" = Err BadAlphabet.
Proof. split; reflexivity. Qed.

(** ** A concrete engine *)

Definition alphabet : string :=
  "ABCDEFGHIJKLMNOPQRSTUVWXYZabcdefghijklmnopqrstuvwxyz0123456789+/".

Definition letter (n : N) : ascii := default "A"%char (String.get (N.to_nat n) alphabet).

(** The [i]-th group of six bits of three bytes. *)
Definition sextet (a b c : ascii) (i : N) : ascii :=
  let w := N.lor (N.shiftl (byte_of a) 16) (N.lor (N.shiftl (byte_of b) 8) (byte_of c)) in
  letter (N.land (N.shiftr w (18 - 6 * i)) 63).

Fixpoint rfc4648 (s : string) : string :=
  match s with
  | "" => ""
  | String a "" => String (sextet a zero zero 0) (String (sextet a zero zero 1) "==")
  | String a (String b "") =>
      String (sextet a b zero 0) (String (sextet a b zero 1) (String (sextet a b zero 2) "="))
  | String a (String b (String c s)) =>
      String (sextet a b c 0) (String (sextet a b c 1)
        (String (sextet a b c 2) (String (sextet a b c 3) (rfc4648 s))))
  end.

Lemma get_forall p n s c : str_forall p s = true → String.get n s = Some c → p c = true.
Proof.
  revert n. induction s as [|d s IH]; intros [|n]; simpl; try done; intros Hp E; bool_simpl.
  - by injection E as <-.
  - eauto.
Qed.

Lemma sextet_base64 a b c i : is_base64 (sextet a b c i) = true.
Proof.
  unfold sextet, letter. generalize (N.land (N.shiftr (N.lor (N.shiftl (byte_of a) 16)
    (N.lor (N.shiftl (byte_of b) 8) (byte_of c))) (18 - 6 * i)) 63). intros n.
  destruct (String.get (N.to_nat n) alphabet) as [d|] eqn:E; [|done].
  exact (get_forall is_base64 _ alphabet d eq_refl E).
Qed.

Lemma rfc4648_canonical s : s ≠ "" → ∃ body,
  rfc4648 s = body +:+ pads (missing (String.length body)) ∧
  str_forall is_base64 body = true ∧ body ≠ "" ∧ (String.length body mod 4)%nat ≠ 1%nat.
Proof.
  induction s as [s IH] using (induction_ltof1 _ String.length). intros Hs.
  destruct s as [|a [|b [|c s]]]; [done| | |].
  - exists (String (sextet a zero zero 0) (String (sextet a zero zero 1) "")).
    cbn [rfc4648 str_forall]. by rewrite !sextet_base64.
  - exists (String (sextet a b zero 0) (String (sextet a b zero 1) (String (sextet a b zero 2) ""))).
    cbn [rfc4648 str_forall]. by rewrite !sextet_base64.
  - assert (∃ body, rfc4648 s = body +:+ pads (missing (String.length body)) ∧
      str_forall is_base64 body = true ∧ (String.length body mod 4)%nat ≠ 1%nat)
      as (body & E & Hb & Hl).
    { destruct (decide (s = "")) as [->|Hne]; [by exists ""|].
      destruct (IH s) as (body & ? & ? & _ & ?); [unfold ltof; simpl; lia|done|eauto]. }
    exists (String (sextet a b c 0) (String (sextet a b c 1)
        (String (sextet a b c 2) (String (sextet a b c 3) body)))).
    assert (L : (S (S (S (S (String.length body)))) mod 4 = String.length body mod 4)%nat).
    { change (S (S (S (S (String.length body))))) with (4 + String.length body)%nat.
      by rewrite <- (Nat.Div0.add_mod_idemp_l 4). }
    cbn [rfc4648 str_forall String.length]. unfold missing in *. rewrite !sextet_base64, L, E.
    done.
Qed.

(** Text without quotation marks, backslashes and control characters. *)
Definition plain_text : PayloadText := {|
  json_string s := quote +:+ s +:+ quote;
  base64_encode := rfc4648;
  base64_canonical := rfc4648_canonical
|}.

Definition notch : TexturesPayloadInput :=
  mkTexturesPayloadInput "f84c6a790a4e45e0879f0e478de5cb7e" "Notch" 1700000000000
    (Some (mkSkinInput "https://textures.example.com/skin/abc.png" Slim)) None.

(** The vector of the source's tests. *)
Definition golden : string :=
  "eyJ0aW1lc3RhbXAiOjE3MDAwMDAwMDAwMDAsInByb2ZpbGVJZCI6ImY4NGM2YTc5MGE0ZTQ1ZTA4NzlmMGU0NzhkZTVjYjdlIiwicHJvZmlsZU5hbWUiOiJOb3RjaCIsInRleHR1cmVzIjp7IlNLSU4iOnsidXJsIjoiaHR0cHM6Ly90ZXh0dXJlcy5leGFtcGxlLmNvbS9za2luL2FiYy5wbmciLCJtZXRhZGF0YSI6eyJtb2RlbCI6InNsaW0ifX19fQ==".

Example golden_vector : build_textures_value (H := plain_text) notch = Ok golden.
Proof. vm_compute. reflexivity. Qed.

Lemma value_normalizes_witness :
  golden ≠ "" ∧ normalize_base64 (slice 0 (String.length golden - 2) golden) = Ok golden.
Proof.
  apply (value_normalizes (H := plain_text) notch golden 2); vm_compute; reflexivity.
Defined.
