(* ===== verification/Models.v ===== *)
(** * Shared models

    [crates/core/src/models.rs]: the enumerations stored in text columns, the user row
    and its public subset, and the string helpers of the user-facing queries. *)

From S2P Require Import Prelude RustStr Errors.

(** Unicode case mapping is the one part of [str] that is a parameter:
    [str::to_lowercase] needs the whole Unicode table. Its documented behaviour on ASCII
    text and its idempotence are the laws the development may use. *)
Class Lowercase := {
  to_lowercase : string → string;
  to_lowercase_idem : ∀ s, to_lowercase (to_lowercase s) = to_lowercase s;
  to_lowercase_ascii : ∀ s,
    str_forall (ascii_in 0 127) s = true → to_lowercase s = to_ascii_lowercase s
}.

(** An instance that computes: the mapping of the ASCII letters. *)
Definition ascii_lowercase : Lowercase :=
  {| to_lowercase := to_ascii_lowercase;
     to_lowercase_idem := to_ascii_lowercase_idem;
     to_lowercase_ascii := λ _ _, eq_refl |}.

Inductive PresenceStatus : Type :=
| Offline
| Online
| InWorld
| Joinable.

#[export] Instance PresenceStatus_eq_dec : EqDecision PresenceStatus.
Proof. solve_decision. Defined.

Definition as_str (self : PresenceStatus) : string :=
  match self with
  | Offline => "offline"
  | Online => "online"
  | InWorld => "inWorld"
  | Joinable => "joinable"
  end.

Definition from_db (value : string) : PresenceStatus :=
  if (value =? "online")%string then Online
  else if (value =? "inWorld")%string then InWorld
  else if (value =? "joinable")%string then Joinable
  else Offline.

Definition from_client (value : string) : option PresenceStatus :=
  if (value =? "online")%string then Some Online
  else if (value =? "inWorld")%string then Some InWorld
  else if (value =? "joinable")%string then Some Joinable
  else None.

Definition is_in_world (self : PresenceStatus) : bool :=
  match self with InWorld | Joinable => true | _ => false end.

Inductive WorldStatus : Type :=
| Open
| Closed.

#[export] Instance WorldStatus_eq_dec : EqDecision WorldStatus.
Proof. solve_decision. Defined.

Definition parse_world_status (value : string) : AppResult WorldStatus :=
  if (value =? "open")%string then Ok Open
  else if (value =? "closed")%string then Ok Closed
  else Err (BadRequest "status must be open or closed").

Inductive InvitePolicy : Type :=
| HostOnly
| FriendsOfFriends.

#[export] Instance InvitePolicy_eq_dec : EqDecision InvitePolicy.
Proof. solve_decision. Defined.

Definition parse_invite_policy (value : string) : AppResult InvitePolicy :=
  if (value =? "host_only")%string then Ok HostOnly
  else if (value =? "friends_of_friends")%string then Ok FriendsOfFriends
  else Err (BadRequest "invitePolicy must be host_only or friends_of_friends").

(** The text sqlx stores for the policy (serde/sqlx [rename_all = "snake_case"]). *)
Definition invite_policy_text (p : InvitePolicy) : string :=
  match p with HostOnly => "host_only" | FriendsOfFriends => "friends_of_friends" end.

Inductive RequestStatus : Type :=
| Pending
| PendingApproval
| Accepted
| Declined
| Revoked
| Expired.

#[export] Instance RequestStatus_eq_dec : EqDecision RequestStatus.
Proof. solve_decision. Defined.

Record User : Type := mkUser {
  u_minecraft_uuid : option string;
  u_username : string;
  u_normalized_username : string;
  u_account_type : option string;
  u_xuid : option string;
  u_client_id : option string;
  u_first_seen_at : Time;
  u_last_seen_at : Time;
  u_created_at : Time;
  u_updated_at : Time;
  u_email : option string;
  u_password_hash : option string;
  u_origin : string;
  u_profile_uuid : option string;
  u_confirmed : bool;
  u_blocked : bool;
  u_is_admin : bool
}.

(** A row of a table as a query returns it: the primary key and the other columns. *)
Record Keyed (R : Type) : Type := mkKeyed { key : Uuid; row : R }.
Arguments mkKeyed {R}.
Arguments key {R}.
Arguments row {R}.

Record UserDto : Type := mkUserDto {
  dto_id : Uuid;
  dto_minecraft_uuid : option string;
  dto_username : string
}.

#[export] Instance UserDto_eq_dec : EqDecision UserDto.
Proof. solve_decision. Defined.

(** [impl From<&User> for UserDto]. *)
Definition user_dto (id : Uuid) (user : User) : UserDto :=
  mkUserDto id (u_minecraft_uuid user) (u_username user).

Record JoinTicketDto : Type := mkJoinTicketDto {
  ticket : string;
  jt_relay_session_id : Uuid;
  jt_world_session_id : Uuid;
  jt_host_user_id : Uuid;
  jt_expires_at : Time;
  jt_invite_policy : string;
  jt_host_minecraft_version : option string;
  jt_host_loader : option string
}.

#[export] Instance JoinTicketDto_eq_dec : EqDecision JoinTicketDto.
Proof. solve_decision. Defined.

Definition normalize_username `{Lowercase} (username : string) : string :=
  to_lowercase (trim username).

(** Bytewise, as the three metacharacters are ASCII and no byte of a longer UTF-8
    sequence is. *)
Fixpoint escape_like_pattern (needle : string) : string :=
  match needle with
  | "" => ""
  | String ch needle =>
      if Ascii.eqb ch "\" || Ascii.eqb ch "%" || Ascii.eqb ch "_"
      then String "\" (String ch (escape_like_pattern needle))
      else String ch (escape_like_pattern needle)
  end.

Definition is_valid_email (email : string) : bool :=
  let email := trim email in
  if (email =? "")%string || (254 <? String.length email)%nat || any_whitespace email
  then false
  else
    match split_once "@" email with
    | None => false
    | Some (local, domain) =>
        if (local =? "")%string || (domain =? "")%string || str_contains "@" domain
        then false
        else
          match split_once "." domain with
          | Some (host, tld) =>
              negb (host =? "")%string && negb (tld =? "")%string
              && negb (starts_with "." tld)
          | None => false
          end
    end.

(** ** SQL [LIKE]

    [value LIKE pattern ESCAPE '\'] as Postgres evaluates it: [%] matches any sequence,
    [_] any one character, a backslash makes the next character literal. The matching is
    by bytes, which for patterns without an unescaped [_] (the only ones the source
    builds) is the matching by characters. Fuel bounds the recursion, which consumes a
    byte of the pattern or of the value at each step. *)
Fixpoint like_fuel (fuel : nat) (value pattern : string) : bool :=
  match fuel with
  | O => false
  | S fuel =>
      let literal c pattern :=
        match value with
        | String d value => Ascii.eqb c d && like_fuel fuel value pattern
        | "" => false
        end in
      match pattern with
      | "" => (value =? "")%string
      | String c pattern' =>
          if Ascii.eqb c "%" then
            like_fuel fuel value pattern'
            || match value with
               | String _ value => like_fuel fuel value pattern
               | "" => false
               end
          else if Ascii.eqb c "_" then
            match value with
            | String _ value => like_fuel fuel value pattern'
            | "" => false
            end
          else if Ascii.eqb c "\" then
            match pattern' with
            | String c pattern'' => literal c pattern''
            | "" => false
            end
          else literal c pattern'
      end
  end.

Definition like (value pattern : string) : bool :=
  like_fuel (S (String.length value + String.length pattern)) value pattern.

(** [format!("%{}%", escape_like_pattern(needle))]. *)
Definition contains_pattern (needle : string) : string :=
  "%" +:+ escape_like_pattern needle +:+ "%".

(** ** Lemmas *)

Lemma from_db_as_str s : from_db (as_str s) = s.
Proof. by destruct s. Qed.

Lemma like_fuel_enough f1 f2 value pattern :
  (String.length value + String.length pattern < f1)%nat →
  (String.length value + String.length pattern < f2)%nat →
  like_fuel f1 value pattern = like_fuel f2 value pattern.
Proof.
  revert f2 value pattern.
  induction f1 as [|f1 IH]; intros f2 value pattern H1 H2; [lia|].
  destruct f2 as [|f2]; [lia|]. cbn [like_fuel].
  destruct pattern as [|c pattern]; [done|]. cbn [String.length] in *.
  repeat case_match; subst; cbn [String.length] in *; try done;
    try (f_equal; apply IH; simpl in *; lia); try (apply IH; simpl in *; lia);
    rewrite (IH f2), ?(IH f2 _ (String _ _)) by (simpl in *; lia); done.
Qed.

Lemma like_nil value : like value "" = (value =? "")%string.
Proof. by destruct value. Qed.

Lemma like_percent value pattern :
  like value (String "%" pattern) =
  like value pattern
  || match value with
     | String _ value => like value (String "%" pattern)
     | "" => false
     end.
Proof.
  unfold like at 1. cbn [like_fuel]. change (Ascii.eqb "%" "%") with true. cbv iota.
  f_equal.
  - apply like_fuel_enough; simpl; lia.
  - destruct value; [done|]. apply like_fuel_enough; simpl; lia.
Qed.

Definition is_metachar (c : ascii) : bool :=
  Ascii.eqb c "\" || Ascii.eqb c "%" || Ascii.eqb c "_".

Definition like_literal (c : ascii) (value pattern : string) : bool :=
  match value with
  | String d value => Ascii.eqb c d && like value pattern
  | "" => false
  end.

Lemma like_char c value pattern :
  is_metachar c = false →
  like value (String c pattern) = like_literal c value pattern.
Proof.
  intros H. unfold is_metachar in H. bool_simpl. unfold like at 1, like_literal.
  cbn [like_fuel].
  repeat match goal with E : Ascii.eqb c _ = false |- _ => rewrite E end.
  destruct value; [done|]. f_equal. apply like_fuel_enough; simpl; lia.
Qed.

Lemma like_escaped c value pattern :
  like value (String "\" (String c pattern)) = like_literal c value pattern.
Proof.
  unfold like at 1, like_literal. cbn [like_fuel].
  change (Ascii.eqb "\" "%") with false. change (Ascii.eqb "\" "_") with false.
  change (Ascii.eqb "\" "\") with true. cbv iota.
  destruct value; [done|]. f_equal. apply like_fuel_enough; simpl; lia.
Qed.

Lemma like_all value : like value "%" = true.
Proof.
  induction value as [|c value IH]; rewrite like_percent; [done|].
  by rewrite IH, orb_true_r.
Qed.

(** A leading ["%"] lets the rest of the pattern match any suffix of the value. *)
Lemma like_percent_suffix value pattern :
  like value (String "%" pattern) = true ↔
  ∃ a b, value = a +:+ b ∧ like b pattern = true.
Proof.
  split.
  - induction value as [|c value IH]; rewrite like_percent, orb_true_iff.
    + intros [H|[=]]. by exists "", "".
    + intros [H|H]; [by exists "", (String c value)|].
      destruct (IH H) as (a & b & -> & Hb). by exists (String c a), b.
  - intros (a & b & -> & Hb). induction a as [|c a IH].
    + by rewrite str_app_nil, like_percent, Hb.
    + by rewrite str_app_cons, like_percent, IH, orb_true_r.
Qed.

(** An escaped needle followed by any pattern matches the needle, byte for byte. *)
Lemma like_escape needle value pattern :
  like value (escape_like_pattern needle +:+ pattern) = true ↔
  ∃ b, value = needle +:+ b ∧ like b pattern = true.
Proof.
  revert value. induction needle as [|c needle IH]; intros value.
  { cbn [escape_like_pattern]. rewrite str_app_nil. split.
    - intros H. by exists value.
    - intros (b & -> & H). by rewrite str_app_nil in *. }
  assert (E : like value (escape_like_pattern (String c needle) +:+ pattern)
    = like_literal c value (escape_like_pattern needle +:+ pattern)).
  { cbn [escape_like_pattern]. fold (is_metachar c).
    destruct (is_metachar c) eqn:M; rewrite !str_app_cons.
    - apply like_escaped.
    - by apply like_char. }
  rewrite E. unfold like_literal. destruct value as [|d value].
  - split; [done|]. intros (b & [=] & _).
  - rewrite andb_true_iff, IH, Ascii.eqb_eq. split.
    + intros [-> (b & -> & H)]. by exists b.
    + intros (b & [= -> ->] & H). eauto.
Qed.

Lemma contains_pattern_spec value needle :
  like value (contains_pattern needle) = true ↔ ∃ a b, value = a +:+ needle +:+ b.
Proof.
  unfold contains_pattern. change ("%" +:+ ?p) with (String "%" p).
  rewrite like_percent_suffix. split.
  - intros (a & b & -> & H). apply like_escape in H as (c & -> & _). eauto.
  - intros (a & b & ->). exists a, (needle +:+ b). split; [done|].
    apply like_escape. exists b. by rewrite like_all.
Qed.

(** ** Properties *)

(** The search pattern built from a user's needle matches exactly the values that
    contain the needle as a substring: no character of the needle acts as a wildcard,
    and a backslash in it cannot break the escaping of what follows. *)
Theorem search_pattern_is_substring value needle :
  like value (contains_pattern needle) = true ↔ ∃ a b, value = a +:+ needle +:+ b.
Proof. apply contains_pattern_spec. Qed.
