(* ===== verification/Table.v ===== *)
(** * Relational tables

    A table is a [gmap] from the primary key to the other columns. This file gives the
    SQL statements of the source their meaning on such maps: [EXISTS], single-row and
    multi-row [SELECT], [UPDATE ... WHERE], [DELETE ... WHERE], [INSERT] under unique
    indexes, and [ORDER BY]. *)

From S2P Require Import Prelude Errors Models.

Section Table.
Context {R : Type}.
Implicit Types (m : gmap N R) (p : N → R → bool).

(** [SELECT EXISTS (SELECT 1 FROM m WHERE p)]. *)
Definition exists_row p m : bool := existsb (λ kr, p kr.1 kr.2) (map_to_list m).

(** [SELECT ... FROM m WHERE p], in no particular order. *)
Definition select_rows p m : list (Keyed R) :=
  map (λ kr, mkKeyed kr.1 kr.2)
    (List.filter (λ kr, p kr.1 kr.2) (map_to_list m)).

(** [SELECT ... FROM m WHERE p LIMIT 1] ([fetch_optional]). *)
Definition find_row p m : option (Keyed R) :=
  match List.find (λ kr, p kr.1 kr.2) (map_to_list m) with
  | Some kr => Some (mkKeyed kr.1 kr.2)
  | None => None
  end.

(** [SELECT count( * ) FROM m WHERE p]; also the rows an [UPDATE] or [DELETE] with that
    condition affects. *)
Definition count_rows p m : nat := length (select_rows p m).

(** [UPDATE m SET f WHERE p]. *)
Definition update_where p (f : R → R) m : gmap N R :=
  map_imap (λ k r, Some (if p k r then f r else r)) m.

(** [DELETE FROM m WHERE p]. *)
Definition delete_where p m : gmap N R :=
  map_imap (λ k r, if p k r then None else Some r) m.

Lemma exists_row_true p m :
  exists_row p m = true ↔ ∃ k r, m !! k = Some r ∧ p k r = true.
Proof.
  unfold exists_row. rewrite existsb_spec. split.
  - intros ([k r] & H & Hp). apply elem_of_map_to_list in H. eauto.
  - intros (k & r & H & Hp). exists (k, r). by rewrite elem_of_map_to_list.
Qed.

Lemma exists_row_false p m :
  exists_row p m = false ↔ ∀ k r, m !! k = Some r → p k r = false.
Proof.
  unfold exists_row. rewrite existsb_none. split.
  - intros H k r Hk. apply (H (k, r)). by rewrite elem_of_map_to_list.
  - intros H [k r] Hk. apply elem_of_map_to_list in Hk. by apply H.
Qed.

Lemma elem_of_select_rows p m x :
  x ∈ select_rows p m ↔ m !! key x = Some (row x) ∧ p (key x) (row x) = true.
Proof.
  unfold select_rows. rewrite list_elem_of_fmap. split.
  - intros ([k r] & -> & H). apply elem_of_filterb in H as [H Hp].
    by apply elem_of_map_to_list in H.
  - intros [H Hp]. destruct x as [k r]. exists (k, r). split; [done|].
    apply elem_of_filterb. by rewrite elem_of_map_to_list.
Qed.

Lemma find_row_Some p m x :
  find_row p m = Some x → m !! key x = Some (row x) ∧ p (key x) (row x) = true.
Proof.
  unfold find_row. case_match eqn:E; [|done]. intros [= <-]. simpl.
  apply find_spec_Some in E as [E Hp]. destruct p0 as [k r].
  by apply elem_of_map_to_list in E.
Qed.

Lemma find_row_None p m :
  find_row p m = None ↔ ∀ k r, m !! k = Some r → p k r = false.
Proof.
  unfold find_row. case_match eqn:E; split; try done.
  - apply find_spec_Some in E as [E Hp]. destruct p0 as [k r]; simpl in *.
    apply elem_of_map_to_list in E. intros H. by rewrite (H k r E) in Hp.
  - intros _ k r Hk. apply (find_spec_None _ _ E (k, r)).
    by rewrite elem_of_map_to_list.
Qed.

(** A condition at most one row satisfies: the query returns that row. *)
Lemma find_row_unique p m k r :
  m !! k = Some r → p k r = true →
  (∀ k' r', m !! k' = Some r' → p k' r' = true → k' = k) →
  find_row p m = Some (mkKeyed k r).
Proof.
  intros Hk Hp Hu. destruct (find_row p m) as [x|] eqn:E.
  - apply find_row_Some in E as [Ex Hpx]. pose proof (Hu _ _ Ex Hpx) as Ek.
    destruct x as [k' r']; simpl in *. subst. congruence.
  - rewrite find_row_None in E. rewrite (E _ _ Hk) in Hp. done.
Qed.

Lemma count_rows_zero p m : count_rows p m = 0 ↔ ∀ k r, m !! k = Some r → p k r = false.
Proof.
  unfold count_rows. rewrite length_zero_iff_nil. split.
  - intros E k r Hk. destruct (p k r) eqn:Hp; [|done].
    assert (H : mkKeyed k r ∈ select_rows p m) by by apply elem_of_select_rows.
    rewrite E in H. by apply not_elem_of_nil in H.
  - intros H. destruct (select_rows p m) as [|x l] eqn:E; [done|].
    assert (Hx : x ∈ select_rows p m) by (rewrite E; constructor).
    apply elem_of_select_rows in Hx as [Hx Hp]. by rewrite (H _ _ Hx) in Hp.
Qed.

Lemma count_rows_pos p m :
  0 < count_rows p m ↔ ∃ k r, m !! k = Some r ∧ p k r = true.
Proof.
  rewrite <- exists_row_true, Nat.lt_nge, Nat.le_0_r, count_rows_zero.
  rewrite <- exists_row_false. destruct (exists_row p m); naive_solver.
Qed.

Lemma NoDup_keys_select_rows p m : NoDup (map key (select_rows p m)).
Proof.
  unfold select_rows. rewrite map_map. apply (NoDup_map_filterb fst), NoDup_fst_map_to_list.
Qed.

(** Rows whose keys are all in a list are at most as many as the list is long. *)
Lemma count_rows_le p m (ks : list N) :
  (∀ k r, m !! k = Some r → p k r = true → k ∈ ks) → (count_rows p m ≤ length ks)%nat.
Proof.
  intros Hs. unfold count_rows. rewrite <- (length_map key).
  apply submseteq_length, NoDup_submseteq; [apply NoDup_keys_select_rows|].
  intros k Hk. apply list_elem_of_fmap in Hk as (x & -> & Hx).
  apply elem_of_select_rows in Hx as [Hx Hp]. eauto.
Qed.

Lemma NoDup_select_rows p m : NoDup (select_rows p m).
Proof. apply (NoDup_fmap_1 key), NoDup_keys_select_rows. Qed.

Lemma lookup_update_where p f m k :
  update_where p f m !! k = (λ r, if p k r then f r else r) <$> m !! k.
Proof. unfold update_where. rewrite map_lookup_imap. by destruct (m !! k). Qed.

Lemma lookup_update_where_Some p f m k r :
  update_where p f m !! k = Some r ↔
  ∃ r0, m !! k = Some r0 ∧ r = if p k r0 then f r0 else r0.
Proof.
  rewrite lookup_update_where. destruct (m !! k); simpl; naive_solver.
Qed.

Lemma lookup_delete_where p m k :
  delete_where p m !! k =
  match m !! k with Some r => if p k r then None else Some r | None => None end.
Proof. unfold delete_where. rewrite map_lookup_imap. by destruct (m !! k). Qed.

Lemma lookup_delete_where_Some p m k r :
  delete_where p m !! k = Some r ↔ m !! k = Some r ∧ p k r = false.
Proof.
  rewrite lookup_delete_where. destruct (m !! k) as [r0|]; [|naive_solver].
  destruct (p k r0) eqn:E; naive_solver congruence.
Qed.

(** An [UPDATE] by primary key. *)
Lemma update_where_key k f m :
  update_where (λ k' _, (k' =? k)%N) f m = alter f k m.
Proof.
  apply map_eq. intros i. rewrite lookup_update_where, lookup_alter.
  destruct (N.eqb_spec i k) as [->|H].
  - by rewrite decide_True.
  - rewrite decide_False by congruence. by destruct (m !! i).
Qed.

(** *** Counting *)

Lemma count_rows_same p q m m' :
  (∀ k r, (m !! k = Some r ∧ p k r = true) ↔ (m' !! k = Some r ∧ q k r = true)) →
  count_rows p m = count_rows q m'.
Proof.
  intros H. apply Permutation_length, NoDup_Permutation; [apply NoDup_select_rows..|].
  intros x. by rewrite !elem_of_select_rows.
Qed.

Lemma count_rows_split p q m :
  count_rows p m = count_rows (λ k r, p k r && q k r) m + count_rows (λ k r, p k r && negb (q k r)) m.
Proof.
  unfold count_rows, select_rows. rewrite !length_map.
  induction (map_to_list m) as [|kr l IH]; simpl; [done|].
  destruct (p kr.1 kr.2), (q kr.1 kr.2); simpl; lia.
Qed.

(** At least as many rows as distinct keys of such rows. *)
Lemma count_rows_ge p m (ks : list N) :
  NoDup ks → (∀ k, k ∈ ks → ∃ r, m !! k = Some r ∧ p k r = true) → (length ks ≤ count_rows p m)%nat.
Proof.
  intros Hnd Hin. unfold count_rows. rewrite <- (length_map key).
  apply submseteq_length, NoDup_submseteq; [done|]. intros k Hk.
  destruct (Hin k Hk) as (r & Hr & Hp). apply list_elem_of_fmap. exists (mkKeyed k r).
  split; [done|]. by apply elem_of_select_rows.
Qed.

(** As many rows as keys asked for. *)
Lemma count_rows_keys (ks : list N) m :
  NoDup ks → (∀ k, k ∈ ks → is_Some (m !! k)) →
  count_rows (λ k _, existsb (N.eqb k) ks) m = length ks.
Proof.
  intros Hnd Hin. unfold count_rows. rewrite <- (length_map key).
  apply Permutation_length, NoDup_Permutation; [apply NoDup_keys_select_rows|done|].
  intros k. rewrite list_elem_of_fmap. setoid_rewrite elem_of_select_rows.
  setoid_rewrite existsb_spec. split.
  - intros (x & -> & _ & y & Hy & E). apply N.eqb_eq in E. by subst.
  - intros Hk. destruct (Hin k Hk) as [r Hr]. exists (mkKeyed k r). split; [done|].
    split; [done|]. exists k. by rewrite N.eqb_refl.
Qed.

(** A deletion's count is what the table loses. *)
Lemma count_deleted p m :
  count_rows (λ _ _, true) m = count_rows p m + count_rows (λ _ _, true) (delete_where p m).
Proof.
  rewrite (count_rows_split _ p). simpl. f_equal. apply count_rows_same. intros k r.
  rewrite lookup_delete_where_Some, negb_true_iff. tauto.
Qed.

(** ** Unique indexes

    An index is the name of its constraint and the relation "these two rows have the
    same key in it"; a partial index holds only between rows satisfying its
    predicate, and a [NULL] key column conflicts with nothing. *)

Record Index : Type := mkIndex {
  idx_name : string;
  idx_conflict : R → R → bool
}.

Definition uniq (ix : Index) m : Prop :=
  ∀ k1 k2 r1 r2, m !! k1 = Some r1 → m !! k2 = Some r2 →
    idx_conflict ix r1 r2 = true → k1 = k2.

(** [uniq] as a computation. *)
Definition uniqb (ix : Index) m : bool :=
  forallb (λ kr1, forallb (λ kr2,
    negb (idx_conflict ix kr1.2 kr2.2) || (kr1.1 =? kr2.1)%N) (map_to_list m)) (map_to_list m).

Lemma uniqb_sound ix m : uniqb ix m = true → uniq ix m.
Proof.
  unfold uniqb. rewrite forallb_forall. intros H k1 k2 r1 r2 H1 H2 Hc.
  apply elem_of_map_to_list, list_elem_of_In in H1, H2.
  specialize (H _ H1). rewrite forallb_forall in H. specialize (H _ H2). simpl in H.
  rewrite Hc in H. by apply N.eqb_eq.
Qed.

(** The first index that a new version [r] of row [k] would violate. *)
Definition violated (ixs : list Index) (k : N) (r : R) m : option string :=
  match List.find (λ ix, exists_row (λ k' r', negb (k' =? k)%N && idx_conflict ix r r') m) ixs with
  | Some ix => Some (idx_name ix)
  | None => None
  end.

(** [INSERT]: the primary key and every unique index are checked. *)
Definition insert_row (pkey : string) (ixs : list Index) (k : N) (r : R) m
  : SqlResult (gmap N R) :=
  match m !! k with
  | Some _ => Err (UniqueViolation pkey)
  | None =>
      match violated ixs k r m with
      | Some name => Err (UniqueViolation name)
      | None => Ok (<[k := r]> m)
      end
  end.

(** [UPDATE] of the one row [k] to [r], under the unique indexes. *)
Definition update_row (ixs : list Index) (k : N) (r : R) m : SqlResult (gmap N R) :=
  match violated ixs k r m with
  | Some name => Err (UniqueViolation name)
  | None => Ok (<[k := r]> m)
  end.

Lemma violated_None ixs k r m :
  violated ixs k r m = None ↔
  ∀ ix, ix ∈ ixs → ∀ k' r', m !! k' = Some r' → k' ≠ k → idx_conflict ix r r' = false.
Proof.
  unfold violated. split.
  - intros H ix Hix k' r' Hk' Hne.
    destruct (List.find _ ixs) eqn:F; [done|].
    pose proof (find_spec_None _ _ F ix Hix) as E. simpl in E.
    rewrite exists_row_false in E. specialize (E k' r' Hk').
    apply andb_false_iff in E as [E|E]; [|done].
    apply negb_false_iff, N.eqb_eq in E. done.
  - intros H. case_match eqn:F; [|done]. apply find_spec_Some in F as [Hix F].
    apply exists_row_true in F as (k' & r' & Hk' & E). bool_simpl.
    by rewrite (H _ Hix k' r' Hk') in *.
Qed.

Lemma insert_row_ok pkey ixs k r m m' :
  insert_row pkey ixs k r m = Ok m' →
  m !! k = None ∧ m' = <[k := r]> m ∧ violated ixs k r m = None.
Proof.
  unfold insert_row. destruct (m !! k); [done|].
  destruct (violated ixs k r m); [done|]. by intros [= <-].
Qed.

Lemma update_row_ok ixs k r m m' :
  update_row ixs k r m = Ok m' → m' = <[k := r]> m ∧ violated ixs k r m = None.
Proof. unfold update_row. destruct (violated ixs k r m); [done|]. by intros [= <-]. Qed.

(** An index relation must not depend on the order of its arguments. *)
Definition index_sym (ix : Index) : Prop :=
  ∀ r1 r2, idx_conflict ix r1 r2 = idx_conflict ix r2 r1.

Lemma uniq_insert ix k r m :
  index_sym ix → uniq ix m →
  (∀ k' r', m !! k' = Some r' → k' ≠ k → idx_conflict ix r r' = false) →
  uniq ix (<[k := r]> m).
Proof.
  intros Hs Hu Hn k1 k2 r1 r2 H1 H2 Hc.
  destruct (decide (k1 = k)) as [->|N1], (decide (k2 = k)) as [->|N2]; [done| | |].
  - rewrite lookup_insert_eq in H1. rewrite lookup_insert_ne in H2 by done.
    simplify_eq. by rewrite (Hn k2 r2) in Hc.
  - rewrite lookup_insert_eq in H2. rewrite lookup_insert_ne in H1 by done.
    simplify_eq. rewrite Hs in Hc. by rewrite (Hn k1 r1) in Hc.
  - rewrite lookup_insert_ne in H1, H2 by done. eauto.
Qed.

(** An update that creates no new conflict keeps an index unique. *)
Lemma uniq_update_where ix p f m :
  uniq ix m →
  (∀ k1 k2 r1 r2, m !! k1 = Some r1 → m !! k2 = Some r2 →
    idx_conflict ix (if p k1 r1 then f r1 else r1) (if p k2 r2 then f r2 else r2) = true →
    idx_conflict ix r1 r2 = true) →
  uniq ix (update_where p f m).
Proof.
  intros Hu Hc k1 k2 r1 r2 H1 H2 H.
  apply lookup_update_where_Some in H1 as (s1 & H1 & ->).
  apply lookup_update_where_Some in H2 as (s2 & H2 & ->). eauto.
Qed.

Lemma uniq_delete_where ix p m : uniq ix m → uniq ix (delete_where p m).
Proof.
  intros Hu k1 k2 r1 r2 H1 H2 Hc.
  apply lookup_delete_where_Some in H1 as [H1 _], H2 as [H2 _]. eauto.
Qed.

(** An update that only takes rows out of an index keeps it unique. *)
Lemma uniq_update_shrink ix p f m :
  index_sym ix → uniq ix m →
  (∀ k r1 r2, p k r1 = true → idx_conflict ix (f r1) r2 = true → idx_conflict ix r1 r2 = true) →
  uniq ix (update_where p f m).
Proof.
  intros Hs Hu Hf. apply uniq_update_where; [done|]. intros k1 k2 r1 r2 H1 H2.
  destruct (p k1 r1) eqn:P1, (p k2 r2) eqn:P2; intros Hc.
  - apply (Hf k1 r1 _ P1) in Hc. rewrite Hs in Hc. apply (Hf k2 r2 _ P2) in Hc. by rewrite Hs.
  - by apply (Hf k1 r1 _ P1) in Hc.
  - rewrite Hs in Hc. apply (Hf k2 r2 _ P2) in Hc. by rewrite Hs.
  - done.
Qed.

(** ** Constraints of a table: its unique indexes, and what every row satisfies *)

Definition table_ok (ixs : list Index) (check : N → R → Prop) m : Prop :=
  Forall (λ ix, uniq ix m) ixs ∧ ∀ k r, m !! k = Some r → check k r.

Lemma table_ok_insert ixs (check : N → R → Prop) k r m :
  Forall index_sym ixs → violated ixs k r m = None → check k r →
  table_ok ixs check m → table_ok ixs check (<[k := r]> m).
Proof.
  rewrite !Forall_forall. intros Hs Hv Hc [Hu Hm]. split.
  - rewrite Forall_forall in Hu |- *. intros ix Hix. apply uniq_insert; auto.
    by apply (proj1 (violated_None _ _ _ _) Hv).
  - intros k' r' Hk. apply lookup_insert_Some in Hk as [[<- <-]|[_ Hk]]; auto.
Qed.

Lemma table_ok_update ixs (check : N → R → Prop) p f m :
  Forall index_sym ixs →
  Forall (λ ix, ∀ k r1 r2, p k r1 = true →
    idx_conflict ix (f r1) r2 = true → idx_conflict ix r1 r2 = true) ixs →
  (∀ k r, p k r = true → check k r → check k (f r)) →
  table_ok ixs check m → table_ok ixs check (update_where p f m).
Proof.
  rewrite !Forall_forall. intros Hs Hf Hc [Hu Hm]. split.
  - rewrite Forall_forall in Hu |- *. intros ix Hix.
    apply uniq_update_shrink; [by apply Hs|by apply Hu|]. intros k r1 r2. by apply Hf.
  - intros k r Hk. apply lookup_update_where_Some in Hk as (r0 & Hk & ->).
    destruct (p k r0) eqn:P; auto.
Qed.

Lemma table_ok_delete ixs (check : N → R → Prop) p m :
  table_ok ixs check m → table_ok ixs check (delete_where p m).
Proof.
  intros [Hu Hm]. split.
  - rewrite Forall_forall in Hu |- *. intros ix Hix. by apply uniq_delete_where, Hu.
  - intros k r Hk. apply lookup_delete_where_Some in Hk as [Hk _]. auto.
Qed.

Lemma table_ok_mono ixs (check check' : N → R → Prop) m :
  (∀ k r, check k r → check' k r) → table_ok ixs check m → table_ok ixs check' m.
Proof. intros H [Hu Hm]. split; [done|]. intros k r Hk. by apply H, Hm. Qed.

(** What is left after a deletion may satisfy more. *)
Lemma table_ok_shrink ixs (check check' : N → R → Prop) p m :
  (∀ k r, m !! k = Some r → p k r = false → check k r → check' k r) →
  table_ok ixs check m → table_ok ixs check' (delete_where p m).
Proof.
  intros H T. split; [by apply (table_ok_delete _ check)|].
  intros k r Hk. apply lookup_delete_where_Some in Hk as [Hk Hp]. apply H; [done..|]. by apply T.
Qed.

Lemma table_ok_map (check check' : N → R → Prop) f m :
  (∀ k r, check k r → check' k (f r)) →
  table_ok [] check m → table_ok [] check' (update_where (λ _ _, true) f m).
Proof.
  intros H [_ Hm]. split; [done|]. intros k r Hk.
  apply lookup_update_where_Some in Hk as (r0 & Hk & ->). by apply H, Hm.
Qed.

Lemma table_ok_uniq ixs (check : N → R → Prop) ix m : ix ∈ ixs → table_ok ixs check m → uniq ix m.
Proof. intros Hix [Hu _]. rewrite Forall_forall in Hu. by apply Hu. Qed.

(** A new version of a row of a well-formed table that agrees with the old one on all
    indexes but the first can only violate that one. *)
Lemma violated_first ix ixs (check : N → R → Prop) k r r' m :
  table_ok (ix :: ixs) check m → m !! k = Some r →
  (∀ ix' v, ix' ∈ ixs → idx_conflict ix' r' v = idx_conflict ix' r v) →
  violated (ix :: ixs) k r' m =
    if exists_row (λ k' v, negb (k' =? k)%N && idx_conflict ix r' v) m
    then Some (idx_name ix) else None.
Proof.
  intros T Hk Hsame. destruct (exists_row _ m) eqn:X.
  - unfold violated. simpl. by rewrite X.
  - apply violated_None. intros ix' [->|Hix]%elem_of_cons k' v Hv Hne.
    + rewrite exists_row_false in X. specialize (X k' v Hv).
      by rewrite (proj2 (N.eqb_neq _ _) Hne) in X.
    + rewrite Hsame by done. apply not_true_iff_false. intros C. apply Hne. symmetry.
      eapply table_ok_uniq; [|exact T|exact Hk|exact Hv|exact C]. by constructor 2.
Qed.

(** A new version of a row of a well-formed table violates an index that tells it from the
    old one. *)
Lemma violated_changed ixs (check : N → R → Prop) k r r' m name :
  table_ok ixs check m → m !! k = Some r → violated ixs k r' m = Some name →
  ∃ ix k' v, ix ∈ ixs ∧ idx_name ix = name ∧ m !! k' = Some v ∧ k' ≠ k
    ∧ idx_conflict ix r' v = true ∧ idx_conflict ix r v = false.
Proof.
  unfold violated. intros T Hk. case_match eqn:F; [|done]. intros [= <-].
  apply find_spec_Some in F as [Hix F]. apply exists_row_true in F as (k' & v & Hv & E).
  apply andb_true_iff in E as [Hne C]. apply negb_true_iff, N.eqb_neq in Hne.
  eexists _, k', v. repeat (split; [done|]). apply not_true_iff_false. intros C'. apply Hne. symmetry.
  eapply table_ok_uniq; [exact Hix|exact T|exact Hk|exact Hv|exact C'].
Qed.

Lemma table_ok_empty ixs (check : N → R → Prop) : table_ok ixs check ∅.
Proof. split; [|done]. apply Forall_forall. intros ix _ k1 k2 r1 r2 H1. done. Qed.

(** [table_ok] as a computation. *)
Definition table_okb (ixs : list Index) (checkb : N → R → bool) m : bool :=
  forallb (λ ix, uniqb ix m) ixs && forallb (λ kr, checkb kr.1 kr.2) (map_to_list m).

Lemma table_okb_sound ixs (check : N → R → Prop) (checkb : N → R → bool) m :
  (∀ k r, checkb k r = true → check k r) → table_okb ixs checkb m = true → table_ok ixs check m.
Proof.
  unfold table_okb. rewrite andb_true_iff, !forallb_forall. intros Hc [H1 H2]. split.
  - apply Forall_forall. intros ix Hix. by apply uniqb_sound, H1, list_elem_of_In.
  - intros k r Hk. apply Hc. by apply (H2 (k, r)), list_elem_of_In, elem_of_map_to_list.
Qed.

(** ** [ORDER BY] *)

Definition order_by (le : relation (Keyed R)) `{!RelDecision le}
  (l : list (Keyed R)) : list (Keyed R) := merge_sort le l.

(** [ORDER BY col DESC] for an instant column. *)
Definition newer (col : R → Time) : relation (Keyed R) :=
  λ x y, (col (row y) ≤ col (row x))%Z.
#[export] Instance newer_dec col : RelDecision (newer col).
Proof. intros x y. apply Z_le_dec. Defined.

Definition order_by_desc (col : R → Time) (l : list (Keyed R)) : list (Keyed R) :=
  order_by (newer col) l.

Lemma elem_of_order_by_desc col l x : x ∈ order_by_desc col l ↔ x ∈ l.
Proof. unfold order_by_desc, order_by. by rewrite merge_sort_Permutation. Qed.

Lemma order_by_desc_sorted (col : R → Time) l :
  StronglySorted (newer col) (order_by_desc col l).
Proof.
  unfold order_by_desc, order_by. apply StronglySorted_merge_sort.
  - intros x y z. unfold newer. lia.
  - intros x y. unfold newer. lia.
Qed.
End Table.

(** *** [ORDER BY] several columns

    Rows with equal columns stay in the order they come in. *)

Fixpoint cols_le (a b : list Z) : bool :=
  match a, b with
  | x :: a, y :: b => (x <? y)%Z || ((x =? y)%Z && cols_le a b)
  | [], _ => true
  | _, [] => false
  end.

Section Columns.
Context {R : Type}.
Implicit Types (cols : R → list Z) (l : list R).

Fixpoint insert_by cols (x : R) l : list R :=
  match l with
  | [] => [x]
  | y :: l' => if cols_le (cols x) (cols y) then x :: l else y :: insert_by cols x l'
  end.

Definition sort_by cols l : list R := foldr (insert_by cols) [] l.
End Columns.

Lemma cols_le_total a b : cols_le a b = false → cols_le b a = true.
Proof.
  revert b. induction a as [|x a IH]; intros [|y b]; simpl; try done.
  rewrite orb_false_iff, andb_false_iff. intros [L [E|C]].
  - apply Z.eqb_neq in E. apply Z.ltb_ge in L. apply orb_true_iff. left. apply Z.ltb_lt. lia.
  - rewrite (IH _ C), andb_true_r. apply Z.ltb_ge in L.
    destruct (Z.eqb_spec y x); [by rewrite orb_true_r|]. apply orb_true_iff. left.
    apply Z.ltb_lt. lia.
Qed.

Lemma cols_le_trans a b c : cols_le a b = true → cols_le b c = true → cols_le a c = true.
Proof.
  revert b c. induction a as [|x a IH]; intros [|y b] [|z c]; simpl; try done.
  rewrite !orb_true_iff, !andb_true_iff, !Z.ltb_lt, !Z.eqb_eq.
  intros [L1|[-> C1]] [L2|[-> C2]]; [left; lia|by left|by left|right; eauto].
Qed.

Section ColumnLemmas.
Context {R : Type}.
Implicit Types (cols : R → list Z) (l : list R).

Lemma insert_by_perm cols x l : insert_by cols x l ≡ₚ x :: l.
Proof.
  induction l as [|y l IH]; simpl; [done|]. destruct (cols_le _ _); [done|]. rewrite IH. constructor.
Qed.

Lemma sort_by_perm cols l : sort_by cols l ≡ₚ l.
Proof. induction l as [|x l IH]; simpl; [done|]. by rewrite insert_by_perm, IH. Qed.

Lemma elem_of_sort_by cols l x : x ∈ sort_by cols l ↔ x ∈ l.
Proof. by rewrite sort_by_perm. Qed.

Definition ordered cols : list R → Prop := StronglySorted (λ x y, cols_le (cols x) (cols y) = true).

Lemma insert_by_ordered cols x l : ordered cols l → ordered cols (insert_by cols x l).
Proof.
  unfold ordered. induction l as [|y l IH]; intros S; simpl; [repeat constructor|].
  destruct (cols_le (cols x) (cols y)) eqn:E.
  - constructor; [done|]. constructor; [done|]. apply StronglySorted_inv in S as [_ F].
    eapply Forall_impl; [exact F|]. intros z. by apply cols_le_trans.
  - apply StronglySorted_inv in S as [S F]. constructor; [by apply IH|].
    rewrite insert_by_perm. constructor; [by apply cols_le_total|done].
Qed.

Lemma sort_by_ordered cols l : ordered cols (sort_by cols l).
Proof. induction l; simpl; [constructor|]. by apply insert_by_ordered. Qed.

(** Leaving rows out before or after sorting is the same. *)
Lemma filter_insert_by cols (p : R → bool) x l :
  ordered cols l →
  List.filter p (insert_by cols x l) =
  if p x then insert_by cols x (List.filter p l) else List.filter p l.
Proof.
  induction l as [|y l IH]; intros S; simpl; [done|].
  apply StronglySorted_inv in S as [S F]. specialize (IH S).
  destruct (cols_le (cols x) (cols y)) eqn:E; simpl.
  - destruct (p x), (p y); simpl; rewrite ?E; try done.
    destruct (List.filter p l) as [|z r] eqn:G; simpl; [done|].
    rewrite Forall_forall in F. assert (z ∈ l) as Hz by (apply (elem_of_filterb p); rewrite G; by left).
    by rewrite (cols_le_trans _ _ _ E (F z Hz)).
  - rewrite IH. by destruct (p x), (p y); simpl; rewrite ?E.
Qed.

Lemma filter_sort_by cols (p : R → bool) l :
  List.filter p (sort_by cols l) = sort_by cols (List.filter p l).
Proof.
  induction l as [|x l IH]; simpl; [done|]. rewrite filter_insert_by by apply sort_by_ordered.
  rewrite IH. by destruct (p x).
Qed.

Lemma insert_by_ext cols cols' x l :
  (∀ y, y ∈ l → cols_le (cols x) (cols y) = cols_le (cols' x) (cols' y)) →
  insert_by cols x l = insert_by cols' x l.
Proof.
  induction l as [|y l IH]; intros H; simpl; [done|]. rewrite H by by left.
  destruct (cols_le _ _); [done|]. f_equal. apply IH. intros z Hz. apply H. by right.
Qed.

(** Only the order of the columns' values matters. *)
Lemma sort_by_ext cols cols' l :
  (∀ x y, x ∈ l → y ∈ l → cols_le (cols x) (cols y) = cols_le (cols' x) (cols' y)) →
  sort_by cols l = sort_by cols' l.
Proof.
  induction l as [|x l IH]; intros H; simpl; [done|]. rewrite IH.
  - apply insert_by_ext. intros y Hy. apply H; [by left|]. right. by rewrite elem_of_sort_by in Hy.
  - intros y z Hy Hz. apply H; by right.
Qed.
End ColumnLemmas.

(** A first column that all rows share may go. *)
Lemma sort_by_shared {R} (c : Z) (cols : R → list Z) (col : R → Z) (l : list R) :
  (∀ x, x ∈ l → col x = c) → sort_by (λ x, col x :: cols x) l = sort_by cols l.
Proof.
  intros H. apply sort_by_ext. intros x y Hx Hy. simpl. rewrite (H x Hx), (H y Hy), Z.eqb_refl.
  by rewrite Z.ltb_irrefl.
Qed.

Arguments Index R : clear implicits.
Arguments mkIndex {R}.

(** Is [k] the primary key of a row? *)
Definition is_row {R} (k : N) (m : gmap N R) : bool := bool_decide (is_Some (m !! k)).

Lemma is_row_true {R} k (m : gmap N R) : is_row k m = true ↔ is_Some (m !! k).
Proof. unfold is_row. apply bool_decide_eq_true. Qed.

(** A foreign key: the referenced row must exist. *)
Definition fk {R} (constraint : string) (k : N) (m : gmap N R) : SqlResult unit :=
  if is_row k m then Ok () else Err (ForeignKeyViolation constraint).

Lemma fk_ok {R} c k (m : gmap N R) : fk c k m = Ok () ↔ is_Some (m !! k).
Proof. unfold fk. rewrite <- is_row_true. by destruct (is_row k m). Qed.

(** Equality of nullable columns in an index: [NULL] is equal to nothing. *)
Definition sql_eq {A} `{EqDecision A} (a b : option A) : bool :=
  match a, b with Some a, Some b => bool_decide (a = b) | _, _ => false end.

Lemma sql_eq_sym {A} `{EqDecision A} (a b : option A) : sql_eq a b = sql_eq b a.
Proof. destruct a, b; try done. simpl. apply bool_decide_ext. naive_solver. Qed.

Lemma sql_eq_true {A} `{EqDecision A} (a b : option A) :
  sql_eq a b = true ↔ ∃ x, a = Some x ∧ b = Some x.
Proof.
  destruct a as [a|], b as [b|]; simpl; try (split; [done|]; naive_solver).
  rewrite bool_decide_eq_true. naive_solver.
Qed.

(** ** References between tables *)

Definition ref {R} (k : N) (m : gmap N R) : Prop := is_Some (m !! k).
Definition opt_ref {R} (k : option N) (m : gmap N R) : Prop :=
  match k with Some k => ref k m | None => True end.

Definition opt_refb {R} (k : option N) (m : gmap N R) : bool :=
  match k with Some k => is_row k m | None => true end.

Lemma opt_refb_sound {R} k (m : gmap N R) : opt_refb k m = true → opt_ref k m.
Proof. destruct k; simpl; [apply is_row_true|done]. Qed.

Definition keeps {R} (m m' : gmap N R) : Prop := ∀ k, ref k m → ref k m'.

Lemma keeps_insert {R} k (r : R) m : keeps m (<[k := r]> m).
Proof. intros i [x Hi]. unfold ref. rewrite lookup_insert. case_decide; eauto. Qed.

Lemma keeps_update {R} p (f : R → R) m : keeps m (update_where p f m).
Proof. intros i [x Hi]. unfold ref. rewrite lookup_update_where, Hi. by eexists. Qed.

Lemma opt_ref_keeps {R} k (m m' : gmap N R) : keeps m m' → opt_ref k m → opt_ref k m'.
Proof. intros Hk. destruct k; simpl; auto. Qed.

#[export] Hint Resolve uniq_delete_where keeps_insert keeps_update : loon.
