(* ===== verification/Realtime.v ===== *)
(** * In-memory realtime state

    [crates/core/src/realtime.rs]: the signaling fan-out hub and the relay rendezvous
    hub. Each method locks the hub for its whole body, so a method is one function on
    the hub's state. The channel behind a signaling connection is shared between the hub
    (sender) and the socket handler (receiver): channels live in a store of their own and
    a connection holds a handle into it. *)

From S2P Require Import Prelude Models.

Inductive ServerEvent : Type :=
| FriendRequestEv (request_id : Uuid) (from_user : UserDto)
| FriendRequestAccepted (request_id : Uuid) (by_user : UserDto)
| JoinRequestEv (request_id world_session_id : Uuid) (from_user : UserDto)
| JoinRequestAccepted (request_id : Uuid) (ticket : JoinTicketDto)
| JoinRequestDeclined (request_id : Uuid)
| GuestArriving (relay_session_id world_session_id : Uuid) (guest_user : UserDto)
| WorldInviteEv (invite_id world_session_id : Uuid) (inviter host : UserDto)
| InviteApprovalRequest (invite_id world_session_id : Uuid) (inviter invitee : UserDto)
| FriendRequestDeclined (request_id : Uuid)
| FriendRemoved (user_id : Uuid)
| PresenceUpdate (user_id : Uuid)
| WorldPolicyChanged (world_session_id : Uuid) (invite_policy : InvitePolicy).

#[export] Instance ServerEvent_eq_dec : EqDecision ServerEvent.
Proof. solve_decision. Defined.

(** ** Channels: [mpsc::unbounded_channel] *)

Record Channel : Type := mkChannel {
  ch_queue : list ServerEvent;   (* sent, not yet received; oldest first *)
  ch_open : bool                 (* the receiver has not been dropped *)
}.

(** [tx.send(event)]: fails, leaving everything as it was, when the receiver is gone. *)
Definition chan_send (tx : N) (event : ServerEvent) (chans : gmap N Channel)
  : option (gmap N Channel) :=
  match chans !! tx with
  | Some c =>
      if ch_open c
      then Some (<[tx := mkChannel (ch_queue c ++ [event]) true]> chans)
      else None
  | None => None
  end.

(** A connection: its id and its sender. *)
Record Connection : Type := mkConnection { conn_id : Uuid; conn_tx : N }.

Record SignalingHub : Type := mkHub {
  connections : gmap Uuid (list Connection);
  channels : gmap N Channel;
  next_channel : N               (* allocator of channel handles *)
}.

Definition signaling_new : SignalingHub := mkHub ∅ ∅ 0.

(** The [map.get_mut(&user_id)] blocks of [remove] and [send_to]: store the retained
    connections, or drop the key when none is left. *)
Definition set_conns (user_id : Uuid) (conns : list Connection)
  (m : gmap Uuid (list Connection)) : gmap Uuid (list Connection) :=
  match conns with
  | [] => delete user_id m
  | _ => <[user_id := conns]> m
  end.

(** [SignalingHub::add]; [fresh_id] is the [Uuid::new_v4()]. *)
Definition hub_add (fresh_id user_id : Uuid) (hub : SignalingHub)
  : SignalingHub * (Uuid * N) :=
  let tx := next_channel hub in
  let conns := default [] (connections hub !! user_id) in
  (mkHub (<[user_id := conns ++ [mkConnection fresh_id tx]]> (connections hub))
         (<[tx := mkChannel [] true]> (channels hub))
         (N.succ tx),
   (fresh_id, tx)).

(** [SignalingHub::remove]. *)
Definition hub_remove (user_id cid : Uuid) (hub : SignalingHub) : SignalingHub :=
  match connections hub !! user_id with
  | Some conns =>
      let kept := List.filter (λ c, negb (conn_id c =? cid)%N) conns in
      mkHub (set_conns user_id kept (connections hub)) (channels hub) (next_channel hub)
  | None => hub
  end.

(** [conns.retain(|(_, tx)| tx.send(event.clone()).is_ok())]. *)
Fixpoint deliver (event : ServerEvent) (conns : list Connection) (chans : gmap N Channel)
  : list Connection * gmap N Channel :=
  match conns with
  | [] => ([], chans)
  | c :: conns =>
      match chan_send (conn_tx c) event chans with
      | Some chans =>
          let '(kept, chans) := deliver event conns chans in (c :: kept, chans)
      | None => deliver event conns chans
      end
  end.

(** [SignalingHub::send_to]. *)
Definition send_to (user_id : Uuid) (event : ServerEvent) (hub : SignalingHub)
  : SignalingHub :=
  match connections hub !! user_id with
  | Some conns =>
      let '(kept, chans) := deliver event conns (channels hub) in
      mkHub (set_conns user_id kept (connections hub)) chans (next_channel hub)
  | None => hub
  end.

Definition connected_users (hub : SignalingHub) : nat := size (connections hub).

Definition is_online (user_id : Uuid) (hub : SignalingHub) : bool :=
  bool_decide (is_Some (connections hub !! user_id)).

(** The receiver side: [rx.recv()] takes the oldest event; dropping the receiver closes
    the channel. *)
Definition chan_recv (rx : N) (hub : SignalingHub) : SignalingHub * option ServerEvent :=
  match channels hub !! rx with
  | Some (mkChannel (e :: q) o) =>
      (mkHub (connections hub) (<[rx := mkChannel q o]> (channels hub)) (next_channel hub),
       Some e)
  | _ => (hub, None)
  end.

Definition chan_close (rx : N) (hub : SignalingHub) : SignalingHub :=
  mkHub (connections hub) (alter (λ c, mkChannel (ch_queue c) false) rx (channels hub))
    (next_channel hub).

(** ** The relay rendezvous hub *)

Inductive RelayRole : Type :=
| Host
| Guest.

#[export] Instance RelayRole_eq_dec : EqDecision RelayRole.
Proof. solve_decision. Defined.

Definition roles_pair (a b : RelayRole) : bool := negb (bool_decide (a = b)).

(** A parked party: handles to its socket and to the [done] sender. *)
Record PendingPeer : Type := mkPeer { peer_socket : N; peer_done : N }.

#[export] Instance PendingPeer_eq_dec : EqDecision PendingPeer.
Proof. solve_decision. Defined.

Definition USIZE : Z := 2 ^ 64.

Record RelayHub : Type := mkRelayHub {
  waiting : gmap Uuid (RelayRole * PendingPeer);
  active : Z                     (* AtomicUsize *)
}.

Definition relay_new : RelayHub := mkRelayHub ∅ 0.

Definition park (relay_session_id : Uuid) (role : RelayRole) (peer : PendingPeer)
  (hub : RelayHub) : RelayHub * option PendingPeer :=
  match waiting hub !! relay_session_id with
  | Some _ => (hub, Some peer)
  | None =>
      (mkRelayHub (<[relay_session_id := (role, peer)]> (waiting hub)) (active hub), None)
  end.

Definition take_peer (relay_session_id : Uuid) (incoming_role : RelayRole)
  (hub : RelayHub) : RelayHub * option PendingPeer :=
  match waiting hub !! relay_session_id with
  | Some (parked_role, peer) =>
      if roles_pair parked_role incoming_role
      then (mkRelayHub (delete relay_session_id (waiting hub)) (active hub), Some peer)
      else (hub, None)
  | None => (hub, None)
  end.

Definition remove_waiting (relay_session_id : Uuid) (hub : RelayHub)
  : RelayHub * option PendingPeer :=
  (mkRelayHub (delete relay_session_id (waiting hub)) (active hub),
   snd <$> waiting hub !! relay_session_id).

Definition is_waiting (relay_session_id : Uuid) (hub : RelayHub) : bool :=
  bool_decide (is_Some (waiting hub !! relay_session_id)).

Definition active_pairings (hub : RelayHub) : Z := active hub.

(** [fetch_add] and [fetch_sub] wrap around. *)
Definition incr_active (hub : RelayHub) : RelayHub :=
  mkRelayHub (waiting hub) ((active hub + 1) mod USIZE).

Definition decr_active (hub : RelayHub) : RelayHub :=
  mkRelayHub (waiting hub) ((active hub - 1) mod USIZE).

(** ** The signaling hub: invariant and lemmas *)

Definition txs (conns : list Connection) : list N := conn_tx <$> conns.

(** No user is kept with an empty connection list; every sender in the hub was allocated
    for one connection only. *)
Record hub_wf (hub : SignalingHub) : Prop := {
  wf_nonempty : ∀ u conns, connections hub !! u = Some conns → conns ≠ [];
  wf_allocated : ∀ u conns tx,
    connections hub !! u = Some conns → tx ∈ txs conns → (tx < next_channel hub)%N;
  wf_nodup : ∀ u conns, connections hub !! u = Some conns → NoDup (txs conns);
  wf_disjoint : ∀ u1 u2 conns1 conns2 tx,
    connections hub !! u1 = Some conns1 → connections hub !! u2 = Some conns2 →
    tx ∈ txs conns1 → tx ∈ txs conns2 → u1 = u2
}.

Definition open_conn (chans : gmap N Channel) (c : Connection) : bool :=
  match chans !! conn_tx c with Some ch => ch_open ch | None => false end.

(** The effect of a delivery on one channel. *)
Definition push (event : ServerEvent) (c : Channel) : Channel :=
  if ch_open c then mkChannel (ch_queue c ++ [event]) true else c.

Lemma open_conn_other event tx chans chans' c :
  chan_send tx event chans = Some chans' → open_conn chans' c = open_conn chans c.
Proof.
  unfold chan_send, open_conn. destruct (chans !! tx) as [ch|] eqn:E; [|done].
  destruct (ch_open ch) eqn:O; [|done]. intros [= <-].
  destruct (decide (tx = conn_tx c)) as [<-|Hn].
  - by rewrite lookup_insert_eq, E.
  - by rewrite lookup_insert_ne.
Qed.

Lemma txs_cons c conns : txs (c :: conns) = conn_tx c :: txs conns.
Proof. reflexivity. Qed.

Lemma deliver_spec event conns chans :
  NoDup (txs conns) →
  (deliver event conns chans).1 = List.filter (open_conn chans) conns ∧
  ∀ tx, (deliver event conns chans).2 !! tx =
        if bool_decide (tx ∈ txs conns) then push event <$> chans !! tx else chans !! tx.
Proof.
  revert chans. induction conns as [|c conns IH]; intros chans Hnd.
  { split; [done|]. intros tx. rewrite bool_decide_eq_false_2; [done|].
    apply not_elem_of_nil. }
  apply NoDup_cons in Hnd as [Hc Hnd]. cbn [deliver List.filter].
  destruct (chan_send (conn_tx c) event chans) as [chans'|] eqn:S.
  - specialize (IH chans' Hnd) as [IH1 IH2].
    destruct (deliver event conns chans') as [kept chans''] eqn:D.
    cbn [fst snd] in *.
    assert (O : open_conn chans c = true ∧
      chans' = <[conn_tx c := mkChannel (default [] (ch_queue <$> chans !! conn_tx c) ++ [event]) true]> chans).
    { unfold chan_send in S. unfold open_conn. destruct (chans !! conn_tx c) as [ch|]; [|done].
      destruct (ch_open ch); [|done]. by injection S as <-. }
    destruct O as [O Echans]. rewrite O. split.
    + rewrite IH1. f_equal. apply List.filter_ext. intros d. by eapply open_conn_other.
    + intros tx. rewrite IH2, txs_cons.
      destruct (decide (tx = conn_tx c)) as [->|Hn].
      * rewrite bool_decide_eq_false_2 by done.
        rewrite bool_decide_eq_true_2 by constructor.
        subst chans'. rewrite lookup_insert_eq. unfold open_conn in O.
        destruct (chans !! conn_tx c) as [ch|]; [|done]. simpl. unfold push. by rewrite O.
      * subst chans'. rewrite lookup_insert_ne by done.
        by rewrite (bool_decide_ext (tx ∈ conn_tx c :: txs conns) (tx ∈ txs conns))
          by (rewrite elem_of_cons; naive_solver).
  - specialize (IH chans Hnd) as [IH1 IH2].
    assert (O : open_conn chans c = false ∧ ∀ ch, chans !! conn_tx c = Some ch → push event ch = ch).
    { unfold chan_send in S. unfold open_conn, push.
      destruct (chans !! conn_tx c) as [ch|]; [|by split].
      destruct (ch_open ch) eqn:Och; [done|]. split; [done|]. intros ? [= <-]. by rewrite Och. }
    destruct O as [O Op]. rewrite O. split; [done|]. intros tx. rewrite IH2, txs_cons.
    destruct (decide (tx = conn_tx c)) as [->|Hn].
    + rewrite bool_decide_eq_false_2 by done. rewrite bool_decide_eq_true_2 by constructor.
      destruct (chans !! conn_tx c) as [ch|] eqn:E; [|done]. simpl. by rewrite Op.
    + by rewrite (bool_decide_ext (tx ∈ conn_tx c :: txs conns) (tx ∈ txs conns))
        by (rewrite elem_of_cons; naive_solver).
Qed.

Lemma lookup_set_conns u conns m v :
  set_conns u conns m !! v =
  if decide (v = u) then match conns with [] => None | _ => Some conns end else m !! v.
Proof.
  unfold set_conns. destruct conns; case_decide; subst.
  - by rewrite lookup_delete_eq.
  - by rewrite lookup_delete_ne.
  - by rewrite lookup_insert_eq.
  - by rewrite lookup_insert_ne.
Qed.

Lemma txs_sublist cs cs' tx : tx ∈ txs cs → sublist cs cs' → tx ∈ txs cs'.
Proof. intros H S. eapply elem_of_sublist; [done|]. by apply fmap_sublist. Qed.

(** Keeping part of one user's connections preserves the invariant. *)
Lemma hub_wf_retain hub u conns p chans :
  hub_wf hub → connections hub !! u = Some conns →
  hub_wf (mkHub (set_conns u (List.filter p conns) (connections hub)) chans (next_channel hub)).
Proof.
  intros [W1 W2 W3 W4] E.
  assert (Hsub : ∀ v cs, set_conns u (List.filter p conns) (connections hub) !! v = Some cs →
    cs ≠ [] ∧ ∃ cs', connections hub !! v = Some cs' ∧ sublist cs cs').
  { intros v cs. rewrite lookup_set_conns. case_decide; subst.
    - destruct (List.filter p conns) eqn:F; [done|]. intros [= <-].
      split; [done|]. exists conns. split; [done|]. rewrite <- F.
      clear. induction conns as [|c conns IH]; simpl; [constructor|].
      destruct (p c); by constructor.
    - intros HE. split; [by eapply W1|]. by exists cs. }
  constructor; simpl.
  - intros v cs H. by apply Hsub in H as [? _].
  - intros v cs tx H Htx. apply Hsub in H as (_ & cs' & H' & S).
    eapply W2; [done|]. by eapply txs_sublist.
  - intros v cs H. apply Hsub in H as (_ & cs' & H' & S).
    eapply sublist_NoDup; [by apply (W3 v)|]. by apply fmap_sublist.
  - intros v1 v2 cs1 cs2 tx H1 H2 T1 T2.
    apply Hsub in H1 as (_ & cs1' & H1' & S1), H2 as (_ & cs2' & H2' & S2).
    eapply (W4 v1 v2 cs1' cs2' tx); eauto using txs_sublist.
Qed.

Lemma hub_wf_new : hub_wf signaling_new.
Proof. constructor; intros *; simpl; rewrite ?lookup_empty; done. Qed.

Lemma hub_wf_add fresh u hub : hub_wf hub → hub_wf (hub_add fresh u hub).1.
Proof.
  intros [W1 W2 W3 W4]. unfold hub_add; simpl.
  set (old := default [] (connections hub !! u)).
  assert (Hold : ∀ tx, tx ∈ txs old → (tx < next_channel hub)%N).
  { intros tx. unfold old. destruct (connections hub !! u) eqn:E; simpl.
    - eapply W2, E.
    - intros H. by apply not_elem_of_nil in H. }
  assert (Hnew : ∀ v cs tx,
    <[u := old ++ [mkConnection fresh (next_channel hub)]]> (connections hub) !! v = Some cs →
    tx ∈ txs cs →
    (v = u ∧ tx = next_channel hub) ∨
    ∃ cs', connections hub !! v = Some cs' ∧ tx ∈ txs cs').
  { intros v cs tx. rewrite lookup_insert. case_decide; subst.
    - intros [= <-]. unfold txs. rewrite fmap_app, elem_of_app. simpl.
      rewrite list_elem_of_singleton. intros [H|H]; [right|by left].
      unfold old in *. destruct (connections hub !! v) as [cs'|] eqn:E; simpl in *; [eauto|].
      by apply not_elem_of_nil in H.
    - eauto. }
  constructor; simpl.
  - intros v cs. rewrite lookup_insert. case_decide; [|eauto]. intros [= <-] HE.
    by apply app_eq_nil in HE as [_ ?].
  - intros v cs tx H T. destruct (Hnew v cs tx H T) as [[-> ->]|(cs' & H' & T')]; [lia|].
    specialize (W2 v cs' tx H' T'). lia.
  - intros v cs. rewrite lookup_insert. case_decide; [|eauto]. intros [= <-].
    unfold txs. rewrite fmap_app. apply NoDup_app. split; [|split].
    + unfold old. destruct (connections hub !! u) eqn:E; simpl; [eauto|constructor].
    + intros tx T. simpl. rewrite list_elem_of_singleton. specialize (Hold tx T). lia.
    + apply NoDup_singleton.
  - intros v1 v2 cs1 cs2 tx H1 H2 T1 T2.
    destruct (Hnew v1 cs1 tx H1 T1) as [[E1 E1']|(cs1' & H1' & T1')],
      (Hnew v2 cs2 tx H2 T2) as [[E2 E2']|(cs2' & H2' & T2')]; [congruence| | |eauto];
      exfalso.
    + pose proof (W2 _ _ _ H2' T2'). lia.
    + pose proof (W2 _ _ _ H1' T1'). lia.
Qed.

Lemma hub_wf_remove u cid hub : hub_wf hub → hub_wf (hub_remove u cid hub).
Proof.
  intros W. unfold hub_remove. destruct (connections hub !! u) eqn:E; [|done].
  by apply hub_wf_retain.
Qed.

Lemma hub_wf_send_to u ev hub : hub_wf hub → hub_wf (send_to u ev hub).
Proof.
  intros W. unfold send_to. destruct (connections hub !! u) as [conns|] eqn:E; [|done].
  destruct (deliver_spec ev conns (channels hub)) as [D _]; [by eapply wf_nodup|].
  destruct (deliver ev conns (channels hub)) as [kept chans]. simpl in D. subst kept.
  by apply hub_wf_retain.
Qed.

Lemma hub_wf_recv rx hub : hub_wf hub → hub_wf (chan_recv rx hub).1.
Proof.
  intros W. unfold chan_recv. repeat case_match; subst; try done; simpl.
  all: destruct W; by constructor.
Qed.

Lemma hub_wf_close rx hub : hub_wf hub → hub_wf (chan_close rx hub).
Proof. intros W. destruct W. by constructor. Qed.

#[export] Hint Resolve hub_wf_new hub_wf_add hub_wf_remove hub_wf_send_to hub_wf_recv
  hub_wf_close : loon.

Lemma send_to_spec u ev hub :
  hub_wf hub →
  let conns := default [] (connections hub !! u) in
  (∀ tx, channels (send_to u ev hub) !! tx =
         if bool_decide (tx ∈ txs conns) then push ev <$> channels hub !! tx
         else channels hub !! tx) ∧
  (∀ v, default [] (connections (send_to u ev hub) !! v) =
        if decide (v = u) then List.filter (open_conn (channels hub)) conns
        else default [] (connections hub !! v)).
Proof.
  intros W conns. unfold conns, send_to.
  destruct (connections hub !! u) as [cs|] eqn:E; simpl.
  - destruct (deliver_spec ev cs (channels hub)) as [D1 D2]; [by eapply wf_nodup|].
    destruct (deliver ev cs (channels hub)) as [kept chans]. simpl in *. subst kept.
    split; [done|]. intros v. rewrite lookup_set_conns. case_decide; [|done].
    by destruct (List.filter _ cs).
  - split; [done|]. intros v. case_decide; subst; [by rewrite E|done].
Qed.

(** ** The rendezvous hub as a state machine

    The hub's operations as events, and the ledger of what went in and came out: a parked
    entry is a session id, the role of the parked party and its handles. *)

Inductive relay_op : Type :=
| OpPark (id : Uuid) (role : RelayRole) (peer : PendingPeer)
| OpTake (id : Uuid) (incoming_role : RelayRole)
| OpRemove (id : Uuid).

Definition entry : Type := Uuid * (RelayRole * PendingPeer).

Definition opposite (r : RelayRole) : RelayRole :=
  match r with Host => Guest | Guest => Host end.

Record ledger : Type := mkLedger {
  l_hub : RelayHub;
  l_parked : list entry;   (* accepted by [park] *)
  l_taken : list entry;    (* handed to an arriving party, listed with the role opposite
                              to the arriving one *)
  l_dropped : list entry   (* dropped by [remove_waiting] *)
}.

Definition ledger_new : ledger := mkLedger relay_new [] [] [].

Definition relay_step (op : relay_op) (l : ledger) : ledger :=
  match op with
  | OpPark id role peer =>
      let '(hub, refused) := park id role peer (l_hub l) in
      mkLedger hub
        (match refused with None => (id, (role, peer)) :: l_parked l | Some _ => l_parked l end)
        (l_taken l) (l_dropped l)
  | OpTake id role =>
      let '(hub, got) := take_peer id role (l_hub l) in
      mkLedger hub (l_parked l)
        (match got with
         | Some peer => (id, (opposite role, peer)) :: l_taken l
         | None => l_taken l
         end)
        (l_dropped l)
  | OpRemove id =>
      let '(hub, got) := remove_waiting id (l_hub l) in
      mkLedger hub (l_parked l) (l_taken l)
        (match waiting (l_hub l) !! id with
         | Some e => (id, e) :: l_dropped l
         | None => l_dropped l
         end)
  end.

Definition relay_run (ops : list relay_op) : ledger :=
  foldl (λ l op, relay_step op l) ledger_new ops.

Lemma roles_pair_opposite a b : roles_pair a b = true ↔ a = opposite b.
Proof. by destruct a, b. Qed.

Definition balanced (l : ledger) : Prop :=
  l_parked l ≡ₚ map_to_list (waiting (l_hub l)) ++ l_taken l ++ l_dropped l.

Lemma map_to_list_take {A} (m : gmap N A) i x rest :
  m !! i = Some x →
  map_to_list m ++ rest ≡ₚ (i, x) :: map_to_list (delete i m) ++ rest.
Proof. intros H. by rewrite <- (map_to_list_delete m i x H). Qed.

Lemma relay_step_balanced op l : balanced l → balanced (relay_step op l).
Proof.
  unfold balanced. intros B. destruct op as [id role peer|id role|id]; simpl.
  - unfold park. destruct (waiting (l_hub l) !! id) as [e|] eqn:E; simpl; [done|].
    by rewrite map_to_list_insert, B.
  - unfold take_peer. destruct (waiting (l_hub l) !! id) as [[r peer]|] eqn:E; simpl; [|done].
    destruct (roles_pair r role) eqn:P; simpl; [|done].
    apply roles_pair_opposite in P. subst r.
    rewrite B, (map_to_list_take _ _ _ _ E). by rewrite Permutation_middle.
  - destruct (waiting (l_hub l) !! id) as [e|] eqn:E; simpl.
    + rewrite B, (map_to_list_take _ _ _ _ E). by rewrite !Permutation_middle.
    + by rewrite delete_id.
Qed.

Lemma relay_run_balanced ops : balanced (relay_run ops).
Proof.
  unfold relay_run. assert (H : balanced ledger_new) by (unfold balanced; reflexivity).
  revert H. generalize ledger_new. induction ops as [|op ops IH]; intros l H; [done|].
  simpl. by apply IH, relay_step_balanced.
Qed.

(** ** Properties *)

(** C11. Fan-out delivers exactly once. In a well-formed hub, [send_to] appends the event
    once to the queue of each of the user's channels whose receiver is alive and touches
    no other channel; the user's connections whose receiver is gone are pruned, and no
    other user's connections change. *)
Theorem send_to_exactly_once u ev hub :
  hub_wf hub →
  let conns := default [] (connections hub !! u) in
  (∀ tx, channels (send_to u ev hub) !! tx =
         if bool_decide (tx ∈ txs conns) then push ev <$> channels hub !! tx
         else channels hub !! tx) ∧
  (∀ v, default [] (connections (send_to u ev hub) !! v) =
        if decide (v = u) then List.filter (open_conn (channels hub)) conns
        else default [] (connections hub !! v)).
Proof. apply send_to_spec. Qed.

Definition hub_two_devices : SignalingHub :=
  chan_close 1 (hub_add 12 7 (hub_add 11 7 (hub_add 10 7 signaling_new).1).1).1.

Lemma send_to_exactly_once_witness :
  hub_wf hub_two_devices ∧
  let conns := default [] (connections hub_two_devices !! 7%N) in
  (∀ tx, channels (send_to 7 (FriendRemoved 3) hub_two_devices) !! tx =
         if bool_decide (tx ∈ txs conns)
         then push (FriendRemoved 3) <$> channels hub_two_devices !! tx
         else channels hub_two_devices !! tx) ∧
  (∀ v, default [] (connections (send_to 7 (FriendRemoved 3) hub_two_devices) !! v) =
        if decide (v = 7%N) then List.filter (open_conn (channels hub_two_devices)) conns
        else default [] (connections hub_two_devices !! v)).
Proof.
  assert (W : hub_wf hub_two_devices) by (unfold hub_two_devices; auto 8 with loon).
  split; [exact W|]. exact (send_to_exactly_once 7 (FriendRemoved 3) hub_two_devices W).
Defined.

Example send_to_two_devices :
  let hub := send_to 7 (FriendRemoved 3) hub_two_devices in
  (txs <$> connections hub !! 7%N, ch_queue <$> channels hub !! 0%N,
   ch_queue <$> channels hub !! 1%N, ch_queue <$> channels hub !! 2%N)
  = (Some [0%N; 2%N], Some [FriendRemoved 3], Some [], Some [FriendRemoved 3]).
Proof. vm_compute. reflexivity. Qed.

(** C10. The rendezvous conserves parties. After any sequence of [park], [take] and
    [remove_waiting] calls, every party that [park] accepted is in exactly one place:
    still waiting, handed to one arriving party, or dropped. No party is handed out
    twice, and a party is only ever handed to an arrival of the opposite role. *)
Theorem relay_rendezvous_conserves ops :
  let l := relay_run ops in
  l_parked l ≡ₚ map_to_list (waiting (l_hub l)) ++ l_taken l ++ l_dropped l.
Proof. apply relay_run_balanced. Qed.

Example relay_rendezvous_run :
  let h := mkPeer 1 1 in let g := mkPeer 2 2 in
  let l := relay_run [OpPark 5 Host h; OpPark 5 Guest g; OpTake 5 Host; OpTake 5 Guest;
                      OpTake 5 Guest] in
  (l_parked l, l_taken l, l_dropped l) = ([(5%N, (Host, h))], [(5%N, (Host, h))], []).
Proof. vm_compute. reflexivity. Qed.
