(* ===== verification/Content.v ===== *)
(** * Content: the tables of the bundle registry and the launcher catalog

    [migrations/0006_catalog.sql], [0007_bundles.sql], [0013_catalog_bundle_link.sql]: the
    rows as the handlers see them, the unique indexes and what the constraints guarantee
    ([content_ok]); and the directory tree of the bundle store. A row keyed by two columns
    in a unique index is kept under these; its own identifier is never used. *)

From S2P Require Import Prelude Models Table.

(** ** The bundle registry *)

Record Bundle : Type := mkBundle {
  b_slug : string;
  b_name : string;
  b_description : option string;
  b_version : option string;
  b_status : string;
  b_files_count : Z;
  b_total_size : Z;
  b_processing_error : option string;
  b_last_generated_at : option Time;
  b_created_at : Time;
  b_updated_at : Time
}.

Record BundleArtifact : Type := mkBundleArtifact {
  ba_bundle_id : Uuid;
  ba_relative_path : string;
  ba_name : string;
  ba_category : string;
  ba_size : Z;
  ba_sha256 : option string;
  ba_is_dir : bool;
  ba_download_once : bool;
  ba_file_modified_at : option Time
}.

Definition bundles_slug_key : Index Bundle :=
  mkIndex "bundles_slug_key" (λ a b, (b_slug a =? b_slug b)%string).

Definition bundle_artifacts_bundle_path_uq : Index BundleArtifact :=
  mkIndex "bundle_artifacts_bundle_path_uq"
    (λ a b, (ba_bundle_id a =? ba_bundle_id b)%N
            && (ba_relative_path a =? ba_relative_path b)%string).

(** ** The catalog *)

Record CatalogClient : Type := mkCatalogClient {
  cc_slug : string;
  cc_available : bool;
  cc_minecraft_version : option string;
  cc_forge_version : option string;
  cc_fabric_version : option string;
  cc_runtime_version : option string;
  cc_bundle_slug : option string;
  cc_bundle_id : option Uuid;
  cc_sort_order : Z;
  cc_published_at : option Time;
  cc_created_at : Time;
  cc_updated_at : Time
}.

(** Keyed by the client and the locale. *)
Record ClientLocale : Type := mkClientLocale {
  cl_title : string;
  cl_description : option string;
  cl_short_description : option string
}.

Record CatalogMedia : Type := mkCatalogMedia {
  cm_client_id : Uuid;
  cm_role : string;
  cm_url : string;
  cm_ext : option string;
  cm_mime : option string;
  cm_width : option Z;
  cm_height : option Z;
  cm_size : option Z;
  cm_sort_order : Z;
  cm_created_at : Time
}.

Record CatalogKeyword : Type := mkCatalogKeyword {
  kw_slug : string;
  kw_published_at : option Time;
  kw_created_at : Time;
  kw_updated_at : Time
}.

Record CatalogServer : Type := mkCatalogServer {
  sv_slug : string;
  sv_name : option string;
  sv_address : string;
  sv_published_at : option Time;
  sv_created_at : Time;
  sv_updated_at : Time
}.

Definition catalog_clients_slug_key : Index CatalogClient :=
  mkIndex "catalog_clients_slug_key" (λ a b, (cc_slug a =? cc_slug b)%string).
Definition catalog_keywords_slug_key : Index CatalogKeyword :=
  mkIndex "catalog_keywords_slug_key" (λ a b, (kw_slug a =? kw_slug b)%string).
Definition catalog_servers_slug_key : Index CatalogServer :=
  mkIndex "catalog_servers_slug_key" (λ a b, (sv_slug a =? sv_slug b)%string).

(** [catalog_media.role]'s check. *)
Definition MEDIA_ROLES : list string := ["poster"; "background"; "titleImage"; "screenshot"].

(** ** The tables *)

Record Content : Type := mkContent {
  bundles : gmap Uuid Bundle;
  bundle_artifacts : gmap Uuid BundleArtifact;
  catalog_clients : gmap Uuid CatalogClient;
  catalog_client_locales : gmap (Uuid * string) ClientLocale;
  catalog_media : gmap Uuid CatalogMedia;
  catalog_keywords : gmap Uuid CatalogKeyword;
  catalog_keyword_locales : gmap (Uuid * string) string;
  catalog_servers : gmap Uuid CatalogServer;
  catalog_client_keywords : gmap (Uuid * Uuid) Z; (* [sort_order] *)
  catalog_client_servers : gmap (Uuid * Uuid) Z
}.

Definition content_empty : Content := mkContent ∅ ∅ ∅ ∅ ∅ ∅ ∅ ∅ ∅ ∅.

Definition set_bundles t c := mkContent t (bundle_artifacts c) (catalog_clients c)
  (catalog_client_locales c) (catalog_media c) (catalog_keywords c) (catalog_keyword_locales c)
  (catalog_servers c) (catalog_client_keywords c) (catalog_client_servers c).
Definition set_bundle_artifacts t c := mkContent (bundles c) t (catalog_clients c)
  (catalog_client_locales c) (catalog_media c) (catalog_keywords c) (catalog_keyword_locales c)
  (catalog_servers c) (catalog_client_keywords c) (catalog_client_servers c).
Definition set_catalog_clients t c := mkContent (bundles c) (bundle_artifacts c) t
  (catalog_client_locales c) (catalog_media c) (catalog_keywords c) (catalog_keyword_locales c)
  (catalog_servers c) (catalog_client_keywords c) (catalog_client_servers c).
Definition set_catalog_client_locales t c := mkContent (bundles c) (bundle_artifacts c)
  (catalog_clients c) t (catalog_media c) (catalog_keywords c) (catalog_keyword_locales c)
  (catalog_servers c) (catalog_client_keywords c) (catalog_client_servers c).
Definition set_catalog_media t c := mkContent (bundles c) (bundle_artifacts c)
  (catalog_clients c) (catalog_client_locales c) t (catalog_keywords c) (catalog_keyword_locales c)
  (catalog_servers c) (catalog_client_keywords c) (catalog_client_servers c).
Definition set_catalog_keywords t c := mkContent (bundles c) (bundle_artifacts c)
  (catalog_clients c) (catalog_client_locales c) (catalog_media c) t (catalog_keyword_locales c)
  (catalog_servers c) (catalog_client_keywords c) (catalog_client_servers c).
Definition set_catalog_keyword_locales t c := mkContent (bundles c) (bundle_artifacts c)
  (catalog_clients c) (catalog_client_locales c) (catalog_media c) (catalog_keywords c) t
  (catalog_servers c) (catalog_client_keywords c) (catalog_client_servers c).
Definition set_catalog_servers t c := mkContent (bundles c) (bundle_artifacts c)
  (catalog_clients c) (catalog_client_locales c) (catalog_media c) (catalog_keywords c)
  (catalog_keyword_locales c) t (catalog_client_keywords c) (catalog_client_servers c).
Definition set_catalog_client_keywords t c := mkContent (bundles c) (bundle_artifacts c)
  (catalog_clients c) (catalog_client_locales c) (catalog_media c) (catalog_keywords c)
  (catalog_keyword_locales c) (catalog_servers c) t (catalog_client_servers c).
Definition set_catalog_client_servers t c := mkContent (bundles c) (bundle_artifacts c)
  (catalog_clients c) (catalog_client_locales c) (catalog_media c) (catalog_keywords c)
  (catalog_keyword_locales c) (catalog_servers c) (catalog_client_keywords c) t.

(** ** What the constraints guarantee *)

Definition artifacts_ok (B : gmap N Bundle) : gmap N BundleArtifact → Prop :=
  table_ok [bundle_artifacts_bundle_path_uq] (λ _ a, ref (ba_bundle_id a) B).

Definition clients_ok (B : gmap N Bundle) : gmap N CatalogClient → Prop :=
  table_ok [catalog_clients_slug_key] (λ _ r, opt_ref (cc_bundle_id r) B).

Definition media_ok (C : gmap N CatalogClient) : gmap N CatalogMedia → Prop :=
  table_ok [] (λ _ r, ref (cm_client_id r) C ∧ cm_role r ∈ MEDIA_ROLES).

Record content_ok (c : Content) : Prop := {
  ok_bundles : table_ok [bundles_slug_key] (λ _ _, True) (bundles c);
  ok_artifacts : artifacts_ok (bundles c) (bundle_artifacts c);
  ok_clients : clients_ok (bundles c) (catalog_clients c);
  ok_client_locales : map_Forall (λ k _, ref k.1 (catalog_clients c)) (catalog_client_locales c);
  ok_media : media_ok (catalog_clients c) (catalog_media c);
  ok_keywords : table_ok [catalog_keywords_slug_key] (λ _ _, True) (catalog_keywords c);
  ok_keyword_locales :
    map_Forall (λ k _, ref k.1 (catalog_keywords c)) (catalog_keyword_locales c);
  ok_servers : table_ok [catalog_servers_slug_key] (λ _ _, True) (catalog_servers c);
  ok_client_keywords : map_Forall (λ k _, ref k.1 (catalog_clients c) ∧ ref k.2 (catalog_keywords c))
    (catalog_client_keywords c);
  ok_client_servers : map_Forall (λ k _, ref k.1 (catalog_clients c) ∧ ref k.2 (catalog_servers c))
    (catalog_client_servers c)
}.

Lemma content_ok_empty : content_ok content_empty.
Proof. split; first [apply table_ok_empty|apply map_Forall_empty]. Qed.

(** The same as a computation. *)
Definition content_okb (c : Content) : bool :=
  let C k := is_row k (catalog_clients c) in
  table_okb [bundles_slug_key] (λ _ _, true) (bundles c)
  && table_okb [bundle_artifacts_bundle_path_uq] (λ _ a, is_row (ba_bundle_id a) (bundles c))
       (bundle_artifacts c)
  && table_okb [catalog_clients_slug_key] (λ _ r, opt_refb (cc_bundle_id r) (bundles c))
       (catalog_clients c)
  && forallb (λ kr, C kr.1.1) (map_to_list (catalog_client_locales c))
  && table_okb [] (λ _ r, C (cm_client_id r) && bool_decide (cm_role r ∈ MEDIA_ROLES))
       (catalog_media c)
  && table_okb [catalog_keywords_slug_key] (λ _ _, true) (catalog_keywords c)
  && forallb (λ kr, is_row kr.1.1 (catalog_keywords c)) (map_to_list (catalog_keyword_locales c))
  && table_okb [catalog_servers_slug_key] (λ _ _, true) (catalog_servers c)
  && forallb (λ kr, C kr.1.1 && is_row kr.1.2 (catalog_keywords c))
       (map_to_list (catalog_client_keywords c))
  && forallb (λ kr, C kr.1.1 && is_row kr.1.2 (catalog_servers c))
       (map_to_list (catalog_client_servers c)).

Lemma forallb_map {K A} `{Countable K} (P : K → A → Prop) (p : K * A → bool) (m : gmap K A) :
  (∀ k a, p (k, a) = true → P k a) → forallb p (map_to_list m) = true → map_Forall P m.
Proof.
  intros Hp F k a Hk. rewrite forallb_forall in F. apply Hp, F, list_elem_of_In.
  by apply elem_of_map_to_list.
Qed.

Lemma content_okb_sound c : content_okb c = true → content_ok c.
Proof.
  unfold content_okb. cbv zeta. rewrite !andb_true_iff. intros E. destruct_and!.
  split; try (eapply table_okb_sound; [|eassumption]); try (eapply forallb_map; [|eassumption]);
    simpl; intros k r Hc; try done; rewrite ?andb_true_iff, ?is_row_true, ?bool_decide_eq_true in Hc;
    try done; by apply opt_refb_sound.
Qed.

Lemma bundles_slug_key_sym : index_sym bundles_slug_key.
Proof. intros a b. apply String.eqb_sym. Qed.
Lemma bundle_artifacts_bundle_path_uq_sym : index_sym bundle_artifacts_bundle_path_uq.
Proof. intros a b. simpl. by rewrite N.eqb_sym, String.eqb_sym. Qed.
Lemma catalog_clients_slug_key_sym : index_sym catalog_clients_slug_key.
Proof. intros a b. apply String.eqb_sym. Qed.
Lemma catalog_keywords_slug_key_sym : index_sym catalog_keywords_slug_key.
Proof. intros a b. apply String.eqb_sym. Qed.
Lemma catalog_servers_slug_key_sym : index_sym catalog_servers_slug_key.
Proof. intros a b. apply String.eqb_sym. Qed.

#[export] Hint Resolve bundles_slug_key_sym bundle_artifacts_bundle_path_uq_sym
  catalog_clients_slug_key_sym catalog_keywords_slug_key_sym catalog_servers_slug_key_sym : loon.

(** ** The directory tree of the bundle store *)

(** A directory's time is that of its creation. *)
Inductive Node : Type :=
| File (content : string) (modified : Time)
| Dir (modified : Time).

#[export] Instance Node_eq_dec : EqDecision Node.
Proof. solve_decision. Defined.

(** By path. *)
Abbreviation Tree := (gmap string Node) (only parsing).
