(* ===== verification/Schema.v ===== *)
(** * The database and the service's state

    The tables of [migrations/], as the last migration leaves them, with their unique
    indexes; the configuration values the handlers read; and the whole mutable state of
    a running service. *)

From S2P Require Import Prelude Errors Models Table Realtime Content.

(** ** Rows *)

Record Session : Type := mkSession {
  s_user_id : Uuid;
  s_token_hash : string;
  s_expires_at : Time;
  s_revoked_at : option Time;
  s_created_at : Time
}.

Record YggToken : Type := mkYggToken {
  yt_user_id : Uuid;
  yt_access_token_hash : string;
  yt_client_token : string;
  yt_issued_at : Time;
  yt_expires_at : Time
}.

Record FriendRequest : Type := mkFriendRequest {
  fr_from_user_id : Uuid;
  fr_to_user_id : Uuid;
  fr_status : RequestStatus;
  fr_created_at : Time;
  fr_updated_at : Time
}.

Record Friendship : Type := mkFriendship {
  fs_user_a_id : Uuid;
  fs_user_b_id : Uuid;
  fs_created_at : Time
}.

(** Keyed by the user's id. *)
Record Presence : Type := mkPresence {
  p_status : string;
  p_last_heartbeat_at : Time;
  p_minecraft_version : option string;
  p_mod_version : option string;
  p_loader : option string;
  p_current_world_session_id : option Uuid;
  p_updated_at : Time
}.

Record WorldSession : Type := mkWorldSession {
  ws_host_user_id : Uuid;
  ws_status : WorldStatus;
  ws_max_players : Z;
  ws_current_players : Z;
  ws_invite_policy : InvitePolicy;
  ws_created_at : Time;
  ws_closed_at : option Time
}.

Record JoinRequest : Type := mkJoinRequest {
  jr_requester_user_id : Uuid;
  jr_host_user_id : Uuid;
  jr_world_session_id : Uuid;
  jr_status : RequestStatus;
  jr_expires_at : Time;
  jr_created_at : Time;
  jr_updated_at : Time
}.

Record JoinTicket : Type := mkJoinTicket {
  jk_user_id : Uuid;
  jk_world_session_id : Uuid;
  jk_token_hash : string;
  jk_expires_at : Time;
  jk_consumed_at : option Time;
  jk_created_at : Time
}.

Record RelaySession : Type := mkRelaySession {
  rs_world_session_id : Uuid;
  rs_host_user_id : Uuid;
  rs_guest_user_id : option Uuid;
  rs_join_ticket_id : option Uuid;
  rs_status : string;
  rs_created_at : Time;
  rs_closed_at : option Time
}.

Record WorldInvite : Type := mkWorldInvite {
  wi_world_session_id : Uuid;
  wi_host_user_id : Uuid;
  wi_inviter_user_id : Uuid;
  wi_invitee_user_id : Uuid;
  wi_status : RequestStatus;
  wi_expires_at : Time;
  wi_created_at : Time;
  wi_updated_at : Time
}.

Record UserEvent : Type := mkUserEvent {
  ue_user_id : option Uuid;
  ue_event_type : string;
  ue_created_at : Time
}.

(** Keyed by the user's id and the kind, ['skin'] or ['cape']. *)
Record UserTexture : Type := mkUserTexture {
  ut_profile_uuid : string;
  ut_username : string;
  ut_file_path : string;
  ut_file_url : string;
  ut_file_size : Z;
  ut_variant : option string;
  ut_updated_at : Time
}.

Record Db : Type := mkDb {
  users : gmap Uuid User;
  sessions : gmap Uuid Session;
  yggdrasil_tokens : gmap Uuid YggToken;
  friend_requests : gmap Uuid FriendRequest;
  friendships : gmap Uuid Friendship;
  presence : gmap Uuid Presence;
  world_sessions : gmap Uuid WorldSession;
  join_requests : gmap Uuid JoinRequest;
  join_tickets : gmap Uuid JoinTicket;
  relay_sessions : gmap Uuid RelaySession;
  world_invites : gmap Uuid WorldInvite;
  user_events : gmap Uuid UserEvent;
  user_textures : gmap (Uuid * string) UserTexture;
  content : Content
}.

Definition db_empty : Db := mkDb ∅ ∅ ∅ ∅ ∅ ∅ ∅ ∅ ∅ ∅ ∅ ∅ ∅ content_empty.

Definition set_users t db := mkDb t (sessions db) (yggdrasil_tokens db) (friend_requests db)
  (friendships db) (presence db) (world_sessions db) (join_requests db) (join_tickets db)
  (relay_sessions db) (world_invites db) (user_events db)
  (user_textures db) (content db).
Definition set_sessions t db := mkDb (users db) t (yggdrasil_tokens db) (friend_requests db)
  (friendships db) (presence db) (world_sessions db) (join_requests db) (join_tickets db)
  (relay_sessions db) (world_invites db) (user_events db)
  (user_textures db) (content db).
Definition set_yggdrasil_tokens t db := mkDb (users db) (sessions db) t (friend_requests db)
  (friendships db) (presence db) (world_sessions db) (join_requests db) (join_tickets db)
  (relay_sessions db) (world_invites db) (user_events db)
  (user_textures db) (content db).
Definition set_friend_requests t db := mkDb (users db) (sessions db) (yggdrasil_tokens db) t
  (friendships db) (presence db) (world_sessions db) (join_requests db) (join_tickets db)
  (relay_sessions db) (world_invites db) (user_events db)
  (user_textures db) (content db).
Definition set_friendships t db := mkDb (users db) (sessions db) (yggdrasil_tokens db)
  (friend_requests db) t (presence db) (world_sessions db) (join_requests db)
  (join_tickets db) (relay_sessions db) (world_invites db) (user_events db)
  (user_textures db) (content db).
Definition set_presence t db := mkDb (users db) (sessions db) (yggdrasil_tokens db)
  (friend_requests db) (friendships db) t (world_sessions db) (join_requests db)
  (join_tickets db) (relay_sessions db) (world_invites db) (user_events db)
  (user_textures db) (content db).
Definition set_world_sessions t db := mkDb (users db) (sessions db) (yggdrasil_tokens db)
  (friend_requests db) (friendships db) (presence db) t (join_requests db)
  (join_tickets db) (relay_sessions db) (world_invites db) (user_events db)
  (user_textures db) (content db).
Definition set_join_requests t db := mkDb (users db) (sessions db) (yggdrasil_tokens db)
  (friend_requests db) (friendships db) (presence db) (world_sessions db) t
  (join_tickets db) (relay_sessions db) (world_invites db) (user_events db)
  (user_textures db) (content db).
Definition set_join_tickets t db := mkDb (users db) (sessions db) (yggdrasil_tokens db)
  (friend_requests db) (friendships db) (presence db) (world_sessions db)
  (join_requests db) t (relay_sessions db) (world_invites db) (user_events db)
  (user_textures db) (content db).
Definition set_relay_sessions t db := mkDb (users db) (sessions db) (yggdrasil_tokens db)
  (friend_requests db) (friendships db) (presence db) (world_sessions db)
  (join_requests db) (join_tickets db) t (world_invites db) (user_events db)
  (user_textures db) (content db).
Definition set_world_invites t db := mkDb (users db) (sessions db) (yggdrasil_tokens db)
  (friend_requests db) (friendships db) (presence db) (world_sessions db)
  (join_requests db) (join_tickets db) (relay_sessions db) t (user_events db)
  (user_textures db) (content db).
Definition set_user_events t db := mkDb (users db) (sessions db) (yggdrasil_tokens db)
  (friend_requests db) (friendships db) (presence db) (world_sessions db)
  (join_requests db) (join_tickets db) (relay_sessions db) (world_invites db) t
  (user_textures db) (content db).
Definition set_user_textures t db := mkDb (users db) (sessions db) (yggdrasil_tokens db)
  (friend_requests db) (friendships db) (presence db) (world_sessions db)
  (join_requests db) (join_tickets db) (relay_sessions db) (world_invites db) (user_events db)
  t (content db).
Definition set_content t db := mkDb (users db) (sessions db) (yggdrasil_tokens db)
  (friend_requests db) (friendships db) (presence db) (world_sessions db)
  (join_requests db) (join_tickets db) (relay_sessions db) (world_invites db) (user_events db)
  (user_textures db) t.

Lemma set_world_sessions_same db : set_world_sessions (world_sessions db) db = db.
Proof. by destruct db. Qed.

Lemma set_friendships_same db : set_friendships (friendships db) db = db.
Proof. by destruct db. Qed.

(** ** Unique indexes and check constraints *)

Definition sessions_token_hash_key : Index Session :=
  mkIndex "network_sessions_token_hash_key"
    (λ a b, (s_token_hash a =? s_token_hash b)%string).

Definition yggdrasil_tokens_access_token_key : Index YggToken :=
  mkIndex "yggdrasil_tokens_access_token_key"
    (λ a b, (yt_access_token_hash a =? yt_access_token_hash b)%string).

Definition is_pending (s : RequestStatus) : bool := bool_decide (s = Pending).

(** [status IN ('pending', 'pending_approval')]. *)
Definition is_active (s : RequestStatus) : bool :=
  bool_decide (s = Pending) || bool_decide (s = PendingApproval).

Definition friend_requests_pending_unique : Index FriendRequest :=
  mkIndex "friend_requests_pending_unique"
    (λ a b, is_pending (fr_status a) && is_pending (fr_status b)
            && (fr_from_user_id a =? fr_from_user_id b)%N
            && (fr_to_user_id a =? fr_to_user_id b)%N).

Definition friendships_pair_unique : Index Friendship :=
  mkIndex "friendships_pair_unique"
    (λ a b, (fs_user_a_id a =? fs_user_a_id b)%N && (fs_user_b_id a =? fs_user_b_id b)%N).

Definition is_open (s : WorldStatus) : bool := bool_decide (s = Open).

Definition world_sessions_one_open_per_host : Index WorldSession :=
  mkIndex "world_sessions_one_open_per_host"
    (λ a b, is_open (ws_status a) && is_open (ws_status b)
            && (ws_host_user_id a =? ws_host_user_id b)%N).

Definition join_requests_pending_unique : Index JoinRequest :=
  mkIndex "join_requests_pending_unique"
    (λ a b, is_pending (jr_status a) && is_pending (jr_status b)
            && (jr_world_session_id a =? jr_world_session_id b)%N
            && (jr_requester_user_id a =? jr_requester_user_id b)%N).

Definition join_tickets_token_hash_key : Index JoinTicket :=
  mkIndex "join_tickets_token_hash_key"
    (λ a b, (jk_token_hash a =? jk_token_hash b)%string).

Definition world_invites_active_unique : Index WorldInvite :=
  mkIndex "world_invites_active_unique"
    (λ a b, is_active (wi_status a) && is_active (wi_status b)
            && (wi_world_session_id a =? wi_world_session_id b)%N
            && (wi_invitee_user_id a =? wi_invitee_user_id b)%N).

Definition users_minecraft_uuid_key : Index User :=
  mkIndex "users_minecraft_uuid_key"
    (λ a b, sql_eq (u_minecraft_uuid a) (u_minecraft_uuid b)).

Definition users_normalized_username_uniq : Index User :=
  mkIndex "users_normalized_username_uniq"
    (λ a b, (u_normalized_username a =? u_normalized_username b)%string).

Definition users_profile_uuid_uniq : Index User :=
  mkIndex "users_profile_uuid_uniq"
    (λ a b, sql_eq (u_profile_uuid a) (u_profile_uuid b)).

(** The functional index on [lower(email)]. Postgres' [lower] and Rust's [to_lowercase]
    agree on what is stored and looked up through it. *)
Definition users_email_uniq `{Lowercase} : Index User :=
  mkIndex "users_email_uniq"
    (λ a b, sql_eq (to_lowercase <$> u_email a) (to_lowercase <$> u_email b)).

Definition users_indexes `{Lowercase} : list (Index User) :=
  [users_minecraft_uuid_key; users_email_uniq; users_profile_uuid_uniq;
   users_normalized_username_uniq].

(** ** Configuration: the fields of [crates/core/src/config.rs] the modelled code reads *)

Record Config : Type := mkConfig {
  session_ttl : Duration;
  heartbeat_timeout : Duration;
  max_players_per_world : Z;
  join_request_ttl : Duration;
  join_ticket_ttl : Duration;
  invite_ttl : Duration;
  search_min_query_length : nat;
  search_max_results : nat;
  ygg_token_ttl : Duration;
  ygg_max_tokens_per_user : Z;
  ygg_public_url : string;
  ygg_skin_domains : list string;
  textures_root : string;
  catalog_root : string;
  bundles_root : string;
  bundles_url : string;
  admin_cookie_name : string
}.

(** The defaults of [Config::from_env]. *)
Definition default_config : Config :=
  mkConfig (secs 86400) (secs 60) 5 (secs 60) (secs 60) (secs 600) 2 20
    (secs 1296000) 10 "/api/yggdrasil" [".loontail.dev"; "localhost"] "data/textures"
    "data/catalog-media" "data/bundle-registry" "/bundle-registry" "loontail_admin".

(** [chrono::Duration::from_std]: fails past [i64::MAX] milliseconds. *)
Definition from_std (d : Duration) : option Duration :=
  if (d <=? (2 ^ 63 - 1) * 1000)%Z then Some d else None.

(** ** Metrics: relaxed [AtomicU64] counters that wrap around *)

Record Metrics : Type := mkMetrics {
  bootstraps : Z;
  heartbeats : Z;
  friend_requests_created : Z;
  join_tickets_issued : Z;
  relay_sessions_opened : Z;
  relay_bytes_forwarded : Z;
  signaling_connections : Z
}.

Definition U64 : Z := 2 ^ 64.

Definition metrics_new : Metrics := mkMetrics 0 0 0 0 0 0 0.

(** [Metrics::add] and [Metrics::incr] on one counter. *)
Definition counter_add (value counter : Z) : Z := ((counter + value) mod U64)%Z.
Definition counter_incr (counter : Z) : Z := counter_add 1 counter.

(** ** The state of the service *)

(** [JoinSession] of [crates/yggdrasil/src/join_sessions.rs]: the store is a process-wide
    static there, and a field of the state here. *)
Record JoinSession : Type := mkJoinSession {
  js_user_id : Uuid;
  js_ip : option string;
  js_expires_at : Time
}.

(** The files the service keeps, by path: contents as bytes. *)
Abbreviation Files := (gmap string (list Z)) (only parsing).

Record AppState : Type := mkState {
  st_db : Db;
  st_signaling : SignalingHub;
  st_relay : RelayHub;
  st_metrics : Metrics;
  st_join_sessions : gmap string JoinSession;
  st_files : Files;
  st_tree : Tree
}.

Definition state_new : AppState := mkState db_empty signaling_new relay_new metrics_new ∅ ∅ ∅.

Definition set_db db st :=
  mkState db (st_signaling st) (st_relay st) (st_metrics st) (st_join_sessions st) (st_files st) (st_tree st).
Definition set_signaling h st :=
  mkState (st_db st) h (st_relay st) (st_metrics st) (st_join_sessions st) (st_files st) (st_tree st).
Definition set_relay h st :=
  mkState (st_db st) (st_signaling st) h (st_metrics st) (st_join_sessions st) (st_files st) (st_tree st).
Definition set_metrics m st :=
  mkState (st_db st) (st_signaling st) (st_relay st) m (st_join_sessions st) (st_files st) (st_tree st).
Definition set_join_sessions j st :=
  mkState (st_db st) (st_signaling st) (st_relay st) (st_metrics st) j (st_files st) (st_tree st).
Definition set_files f st :=
  mkState (st_db st) (st_signaling st) (st_relay st) (st_metrics st) (st_join_sessions st) f (st_tree st).
Definition set_tree t st :=
  mkState (st_db st) (st_signaling st) (st_relay st) (st_metrics st) (st_join_sessions st)
    (st_files st) t.

(** ** Symmetry of the index relations *)

Lemma sessions_token_hash_key_sym : index_sym sessions_token_hash_key.
Proof. intros a b. simpl. apply String.eqb_sym. Qed.
Lemma yggdrasil_tokens_access_token_key_sym : index_sym yggdrasil_tokens_access_token_key.
Proof. intros a b. simpl. apply String.eqb_sym. Qed.
Lemma join_tickets_token_hash_key_sym : index_sym join_tickets_token_hash_key.
Proof. intros a b. simpl. apply String.eqb_sym. Qed.

Lemma friendships_pair_unique_sym : index_sym friendships_pair_unique.
Proof. intros a b. simpl. by rewrite N.eqb_sym, (N.eqb_sym (fs_user_b_id a)). Qed.
Lemma friend_requests_pending_unique_sym : index_sym friend_requests_pending_unique.
Proof.
  intros a b. simpl. rewrite (andb_comm (is_pending (fr_status a))).
  by rewrite N.eqb_sym, (N.eqb_sym (fr_to_user_id a)).
Qed.
Lemma world_sessions_one_open_per_host_sym : index_sym world_sessions_one_open_per_host.
Proof. intros a b. simpl. by rewrite (andb_comm (is_open (ws_status a))), N.eqb_sym. Qed.
Lemma join_requests_pending_unique_sym : index_sym join_requests_pending_unique.
Proof.
  intros a b. simpl. rewrite (andb_comm (is_pending (jr_status a))).
  by rewrite N.eqb_sym, (N.eqb_sym (jr_requester_user_id a)).
Qed.
Lemma world_invites_active_unique_sym : index_sym world_invites_active_unique.
Proof.
  intros a b. simpl. rewrite (andb_comm (is_active (wi_status a))).
  by rewrite N.eqb_sym, (N.eqb_sym (wi_invitee_user_id a)).
Qed.
Lemma users_minecraft_uuid_key_sym : index_sym users_minecraft_uuid_key.
Proof. intros a b. apply sql_eq_sym. Qed.
Lemma users_normalized_username_uniq_sym : index_sym users_normalized_username_uniq.
Proof. intros a b. apply String.eqb_sym. Qed.
Lemma users_profile_uuid_uniq_sym : index_sym users_profile_uuid_uniq.
Proof. intros a b. apply sql_eq_sym. Qed.
Lemma users_email_uniq_sym `{Lowercase} : index_sym users_email_uniq.
Proof. intros a b. apply sql_eq_sym. Qed.

#[export] Hint Resolve sessions_token_hash_key_sym yggdrasil_tokens_access_token_key_sym
  join_tickets_token_hash_key_sym friendships_pair_unique_sym
  friend_requests_pending_unique_sym world_sessions_one_open_per_host_sym
  join_requests_pending_unique_sym world_invites_active_unique_sym
  users_minecraft_uuid_key_sym users_normalized_username_uniq_sym
  users_profile_uuid_uniq_sym users_email_uniq_sym : loon.
