(* ===== verification/Config.v ===== *)
(** * Configuration

    [crates/core/src/config.rs]: how the environment's text becomes settings. The
    environment is a function from names to values; the machine integers of the settings
    are integers with the ranges their parsers enforce. *)

From stdpp Require Import pretty.
From S2P Require Import Prelude RustStr Models Schema.

(** [env::var(key).ok()]: unset, or not UTF-8, is [None]. *)
Definition Env : Type := string → option string.

(** ** Integers: [str::parse] *)

Definition digit_value (c : ascii) : option Z :=
  if is_ascii_digit c then Some (Z.of_N (byte_of c) - 48)%Z else None.

(** The digits of a decimal numeral, after [acc]. *)
Fixpoint parse_digits (acc : Z) (s : string) : option Z :=
  match s with
  | "" => Some acc
  | String c s =>
      match digit_value c with
      | Some d => parse_digits (10 * acc + d) s
      | None => None
      end
  end.

Definition parse_magnitude (s : string) : option Z :=
  if (s =? "")%string then None else parse_digits 0 s.

Definition in_range (lo hi : Z) (o : option Z) : option Z :=
  match o with
  | Some z => if (lo <=? z)%Z && (z <=? hi)%Z then Some z else None
  | None => None
  end.

(** [from_str] of an integer type with the given range: an optional [+], for a signed type
    also [-], and at least one digit. *)
Definition parse_int (lo hi : Z) (s : string) : option Z :=
  match s with
  | String c rest =>
      if Ascii.eqb c "+" then in_range lo hi (parse_magnitude rest)
      else if Ascii.eqb c "-" && (lo <? 0)%Z then in_range lo hi (Z.opp <$> parse_magnitude rest)
      else in_range lo hi (parse_magnitude s)
  | "" => None
  end.

Definition parse_u16 : string → option Z := parse_int 0 (2 ^ 16 - 1).
Definition parse_u32 : string → option Z := parse_int 0 (2 ^ 32 - 1).
Definition parse_u64 : string → option Z := parse_int 0 (2 ^ 64 - 1).
Definition parse_usize : string → option Z := parse_int 0 (2 ^ 64 - 1).
Definition parse_i32 : string → option Z := parse_int (- 2 ^ 31) (2 ^ 31 - 1).
Definition parse_i64 : string → option Z := parse_int (- 2 ^ 63) (2 ^ 63 - 1).

(** ** Reading the environment *)

Section Env.
Context (env : Env).

Definition parse_env {T} (parse : string → option T) (key : string) (def : T) : T :=
  match env key with Some value => default def (parse value) | None => def end.

Definition parse_bool_env (key : string) (def : bool) : bool :=
  match env key with
  | Some value =>
      let v := to_ascii_lowercase (trim value) in
      (v =? "true")%string || (v =? "1")%string || (v =? "yes")%string || (v =? "on")%string
  | None => def
  end.

Definition var_or (key def : string) : string := default def (env key).

(** [env::var(key).ok().filter(|v| !v.is_empty())]. *)
Definition non_empty_var (key : string) : option string :=
  match env key with
  | Some v => if (v =? "")%string then None else Some v
  | None => None
  end.
End Env.

(** [raw.split(',')], trimmed, the empty pieces dropped. *)
Definition parse_skin_domains (raw : string) : list string :=
  List.filter (λ d, negb (d =? "")%string) (map trim (str_split "," raw)).

Definition DEFAULT_SKIN_DOMAINS : string := ".loontail.dev,localhost".

Record RateLimitConfig : Type := mkRateLimitConfig { rl_max_attempts : Z; rl_window : Duration }.

Record RequestLogConfig : Type := mkRequestLogConfig { rq_retention_days : Z }.

Record EventRetentionConfig : Type := mkEventRetentionConfig { er_retention_days : Z }.

Record YggdrasilConfig : Type := mkYggdrasilConfig {
  yg_public_url : string;
  yg_key_path : string;
  yg_token_ttl : Duration;
  yg_max_tokens_per_user : Z;
  yg_skin_domains : list string
}.

Record TexturesConfig : Type := mkTexturesConfig { tx_storage_root : string }.

Record CatalogConfig : Type := mkCatalogConfig { ca_storage_root : string }.

Record BundlesConfig : Type := mkBundlesConfig { bu_storage_root : string; bu_public_url : string }.

Record AdminConfig : Type := mkAdminConfig {
  ad_session_ttl : Duration;
  ad_cookie_name : string;
  ad_bootstrap_username : string;
  ad_bootstrap_password : option string
}.

(** The source's [Config]; the model's [Schema.Config] is the part the handlers read. *)
Record Settings : Type := mkSettings {
  http_host : string;
  http_port : Z;
  database_url : string;
  cors_allowed_origins : list string;
  cfg_trusted_proxy : bool;
  metrics_token : option string;
  cfg_session_ttl : Duration;
  cfg_heartbeat_timeout : Duration;
  cfg_max_players_per_world : Z;
  cfg_join_request_ttl : Duration;
  cfg_join_ticket_ttl : Duration;
  cfg_invite_ttl : Duration;
  cfg_search_min_query_length : Z;
  cfg_search_max_results : Z;
  rate_limit : RateLimitConfig;
  request_log : RequestLogConfig;
  event_retention : EventRetentionConfig;
  yggdrasil : YggdrasilConfig;
  textures : TexturesConfig;
  catalog : CatalogConfig;
  bundles : BundlesConfig;
  admin : AdminConfig
}.

(** [Duration::from_secs] of a [u64]. *)
Definition env_secs (env : Env) (key : string) (def : Z) : Duration := secs (parse_env env parse_u64 key def).

(** The [from_env] of each part. *)
Definition rate_limit_from_env (env : Env) : RateLimitConfig :=
  mkRateLimitConfig (parse_env env parse_u32 "RATE_LIMIT_MAX_ATTEMPTS" 10%Z)
    (env_secs env "RATE_LIMIT_WINDOW_SECONDS" 60%Z).

Definition request_log_from_env (env : Env) : RequestLogConfig :=
  mkRequestLogConfig (parse_env env parse_i64 "REQUEST_LOG_RETENTION_DAYS" 7%Z).

Definition event_retention_from_env (env : Env) : EventRetentionConfig :=
  mkEventRetentionConfig (parse_env env parse_i64 "EVENT_RETENTION_DAYS" 30%Z).

Definition yggdrasil_from_env (env : Env) : YggdrasilConfig :=
  mkYggdrasilConfig (var_or env "YGGDRASIL_PUBLIC_URL" "/api/yggdrasil")
    (var_or env "YGGDRASIL_KEY_PATH" "data/yggdrasil/keys/active.key.pem")
    (env_secs env "YGGDRASIL_TOKEN_TTL_SECONDS" 1296000%Z)
    (parse_env env parse_i64 "YGGDRASIL_MAX_TOKENS_PER_USER" 10%Z)
    (parse_skin_domains (var_or env "YGGDRASIL_SKIN_DOMAINS" DEFAULT_SKIN_DOMAINS)).

Definition textures_from_env (env : Env) : TexturesConfig :=
  mkTexturesConfig (var_or env "TEXTURES_STORAGE_ROOT" "data/textures").

Definition catalog_from_env (env : Env) : CatalogConfig :=
  mkCatalogConfig (var_or env "CATALOG_MEDIA_STORAGE_ROOT" "data/catalog-media").

Definition bundles_from_env (env : Env) : BundlesConfig :=
  mkBundlesConfig (var_or env "BUNDLES_STORAGE_ROOT" "data/bundle-registry")
    (var_or env "BUNDLES_PUBLIC_URL" "/bundle-registry").

Definition admin_from_env (env : Env) : AdminConfig :=
  mkAdminConfig (env_secs env "ADMIN_SESSION_TTL_SECONDS" 604800%Z)
    (var_or env "ADMIN_COOKIE_NAME" "loontail_admin")
    (var_or env "ADMIN_BOOTSTRAP_USERNAME" "admin")
    (non_empty_var env "ADMIN_BOOTSTRAP_PASSWORD").

(** [Config::from_env]; the list of origins is split as the skin domains are. *)
Definition from_env (env : Env) : result Settings string :=
  match env "DATABASE_URL" with
  | None => Err "DATABASE_URL must be set"
  | Some database_url =>
      Ok (mkSettings
        (var_or env "HTTP_HOST" "0.0.0.0")
        (parse_env env parse_u16 "HTTP_PORT" 8080%Z)
        database_url
        (parse_skin_domains (var_or env "CORS_ALLOWED_ORIGINS" ""))
        (parse_bool_env env "TRUSTED_PROXY" false)
        (non_empty_var env "METRICS_TOKEN")
        (env_secs env "SESSION_TTL_SECONDS" 86400%Z)
        (env_secs env "HEARTBEAT_TIMEOUT_SECONDS" 60%Z)
        (parse_env env parse_i32 "MAX_PLAYERS_PER_WORLD" 5%Z)
        (env_secs env "JOIN_REQUEST_TTL_SECONDS" 60%Z)
        (env_secs env "JOIN_TICKET_TTL_SECONDS" 60%Z)
        (env_secs env "INVITE_TTL_SECONDS" 600%Z)
        (parse_env env parse_usize "SEARCH_MIN_QUERY_LENGTH" 2%Z)
        (parse_env env parse_i64 "SEARCH_MAX_RESULTS" 20%Z)
        (rate_limit_from_env env) (request_log_from_env env) (event_retention_from_env env)
        (yggdrasil_from_env env) (textures_from_env env) (catalog_from_env env) (bundles_from_env env)
        (admin_from_env env))
  end.

(** ** [parse_public_url] *)

(** [&s[n..]]. *)
Fixpoint str_drop (n : nat) (s : string) : string :=
  match n, s with S n, String _ s => str_drop n s | _, _ => s end.

Definition parse_public_url (public_url : string) : option string * string :=
  match String.index 0 "://" public_url with
  | None => (None, public_url)
  | Some scheme_end =>
      let after_scheme := scheme_end + 3 in
      let rest := str_drop after_scheme public_url in
      let authority_len := default (String.length rest) (String.index 0 "/" rest) in
      if (authority_len =? 0)%nat then (None, rest)
      else (Some (String.substring 0 (after_scheme + authority_len) public_url),
            str_drop (after_scheme + authority_len) public_url)
  end.

(** The tests of the source. *)
Example parse_public_url_tests :
  parse_public_url "https://auth.loontail.com/api/yggdrasil"
    = (Some "https://auth.loontail.com", "/api/yggdrasil") ∧
  parse_public_url "http://localhost:8080/api/yggdrasil"
    = (Some "http://localhost:8080", "/api/yggdrasil") ∧
  parse_public_url "https://auth.loontail.com" = (Some "https://auth.loontail.com", "") ∧
  parse_public_url "/api/yggdrasil" = (None, "/api/yggdrasil") ∧ parse_public_url "" = (None, "").
Proof. vm_compute. auto. Qed.

Example skin_domain_tests :
  parse_skin_domains DEFAULT_SKIN_DOMAINS = [".loontail.dev"; "localhost"] ∧
  parse_skin_domains " cms.loontail.dev , .loontail.dev ,, " = ["cms.loontail.dev"; ".loontail.dev"].
Proof. vm_compute. auto. Qed.

(** ** Lemmas *)

Lemma str_drop_app a b : str_drop (String.length a) (a +:+ b) = b.
Proof. induction a; simpl; [by destruct b|done]. Qed.

Lemma substring_app a b : String.substring 0 (String.length a) (a +:+ b) = a.
Proof. induction a as [|c a IH]; simpl; [by destruct b|]. by rewrite IH. Qed.

Lemma str_drop_all a : str_drop (String.length a) a = "".
Proof. rewrite <- (str_app_nil_r a) at 2. apply str_drop_app. Qed.

Lemma substring_all a : String.substring 0 (String.length a) a = a.
Proof. rewrite <- (str_app_nil_r a) at 2. apply substring_app. Qed.

Lemma prefix_split p s : String.prefix p s = true → s = p +:+ str_drop (String.length p) s.
Proof.
  revert s. induction p as [|c p IH]; intros [|d s]; simpl; try done.
  destruct (ascii_dec c d) as [->|]; [|done]. intros H. by rewrite str_app_cons, <- IH.
Qed.

Lemma index_found p s n :
  String.index 0 p s = Some n → ∃ a b, s = a +:+ p +:+ b ∧ String.length a = n.
Proof.
  revert n. induction s as [|c s IH]; intros n.
  - destruct p; [|done]. intros [= <-]. by exists "", "".
  - cbn [String.index]. destruct (String.prefix p (String c s)) eqn:P.
    + intros [= <-]. apply prefix_split in P. by exists "", (str_drop (String.length p) (String c s)).
    + destruct (String.index 0 p s) as [m|]; [|done]. intros [= <-].
      destruct (IH m eq_refl) as (a & b & -> & <-). by exists (String c a), b.
Qed.

Lemma str_contains_cons c d a : str_contains c (String d a) = Ascii.eqb c d || str_contains c a.
Proof. unfold str_contains. simpl. by destruct (Ascii.eqb c d). Qed.

(** The split at the first occurrence of a character. *)
Lemma index_char (c : ascii) s :
  match String.index 0 (String c "") s with
  | Some n => ∃ a b, s = a +:+ String c b ∧ String.length a = n ∧ str_contains c a = false
  | None => str_contains c s = false
  end.
Proof.
  induction s as [|d s IH]; [done|]. cbn [String.index String.prefix].
  destruct (ascii_dec c d) as [->|Hn].
  - replace (String.prefix "" s) with true by (by destruct s). by exists "", s.
  - apply Ascii.eqb_neq in Hn. destruct (String.index 0 (String c "") s) as [n|].
    + destruct IH as (a & b & -> & <- & Hc). exists (String d a), b.
      by rewrite str_contains_cons, Hn, Hc.
    + by rewrite str_contains_cons, Hn, IH.
Qed.

(** *** Decimal numerals *)

Lemma digit_of_char n : (n < 10)%N → digit_value (pretty_N_char n) = Some (Z.of_N n).
Proof.
  intros H. assert (n ∈ [0; 1; 2; 3; 4; 5; 6; 7; 8; 9])%N as Hn.
  { rewrite !elem_of_cons. lia. }
  repeat (apply elem_of_cons in Hn as [->|Hn]; [done|]). by apply not_elem_of_nil in Hn.
Qed.

Lemma parse_digits_go x s : parse_digits 0 (pretty_N_go x s) = parse_digits (Z.of_N x) s.
Proof.
  revert s. induction (N.lt_wf_0 x) as [x _ IH]; intros s.
  destruct (decide (x = 0%N)) as [->|Hx]; [by rewrite pretty_N_go_0|].
  rewrite pretty_N_go_step by lia. rewrite IH by (apply N.div_lt; lia). simpl.
  rewrite digit_of_char by (apply N.mod_lt; done). f_equal.
  rewrite N2Z.inj_div, N2Z.inj_mod. rewrite <- Z.div_mod; done.
Qed.

Lemma pretty_go_not_empty x s : (0 < x)%N → (pretty_N_go x s =? "")%string = false.
Proof.
  revert s. induction (N.lt_wf_0 x) as [x _ IH]; intros s Hx. rewrite pretty_N_go_step by done.
  destruct (decide (x / 10 = 0)%N) as [E|E]; [by rewrite E, pretty_N_go_0|].
  apply IH; [by apply N.div_lt|by apply N.neq_0_lt_0].
Qed.

Lemma parse_magnitude_pretty n : parse_magnitude (pretty n) = Some (Z.of_N n).
Proof.
  unfold parse_magnitude, pretty, pretty_N. case_decide as E; [by subst|].
  by rewrite pretty_go_not_empty, parse_digits_go by lia.
Qed.

(** A numeral starts with a digit. *)
Lemma parse_digits_head acc c s z : parse_digits acc (String c s) = Some z → is_ascii_digit c = true.
Proof. simpl. unfold digit_value. by destruct (is_ascii_digit c). Qed.

Lemma parse_int_pretty lo hi z :
  (lo ≤ z ≤ hi)%Z → parse_int lo hi (pretty z) = Some z.
Proof.
  intros Hz. assert (R : in_range lo hi (Some z) = Some z).
  { simpl. by rewrite (proj2 (Z.leb_le _ _)), (proj2 (Z.leb_le _ _)) by lia. }
  destruct z as [|p|p].
  - change (parse_int lo hi "0" = Some 0%Z). exact R.
  - assert (M := parse_magnitude_pretty (N.pos p)). change (pretty (Z.pos p)) with (pretty (N.pos p)).
    destruct (pretty (N.pos p)) as [|c s] eqn:E; [done|].
    assert (Hc : is_ascii_digit c = true) by exact (parse_digits_head 0 c s _ M).
    unfold parse_int. destruct (Ascii.eqb_spec c "+") as [->|_]; [done|].
    destruct (Ascii.eqb_spec c "-") as [->|_]; [done|]. cbn [andb]. by rewrite M.
  - change (pretty (Z.neg p)) with (String "-" (pretty (N.pos p))). unfold parse_int.
    rewrite (proj2 (Z.ltb_lt lo 0)) by lia. by rewrite parse_magnitude_pretty.
Qed.

Lemma parse_int_range lo hi s z : parse_int lo hi s = Some z → (lo ≤ z ≤ hi)%Z.
Proof.
  assert (R : ∀ o, in_range lo hi o = Some z → (lo ≤ z ≤ hi)%Z).
  { intros [y|]; simpl; [|done]. destruct (_ && _) eqn:E; [|done]. intros [= <-]. bool_simpl. lia. }
  unfold parse_int. destruct s; [done|]. repeat case_match; apply R.
Qed.

(** *** The pieces of the settings *)

Lemma parse_env_range env lo hi key def :
  (lo ≤ def ≤ hi)%Z → (lo ≤ parse_env env (parse_int lo hi) key def ≤ hi)%Z.
Proof.
  intros Hd. unfold parse_env. destruct (env key) as [v|]; [|done].
  destruct (parse_int lo hi v) eqn:E; simpl; [|done]. by eapply parse_int_range.
Qed.

Lemma env_secs_range env key def :
  (0 ≤ def ≤ 2 ^ 64 - 1)%Z → ∃ n, env_secs env key def = secs n ∧ (0 ≤ n ≤ 2 ^ 64 - 1)%Z.
Proof. intros Hd. eexists. split; [done|]. by apply parse_env_range. Qed.

Lemma non_empty_var_spec env key : non_empty_var env key ≠ Some "".
Proof.
  unfold non_empty_var. destruct (env key) as [v|]; [|done].
  destruct (String.eqb_spec v ""); [done|]. by intros [= ?].
Qed.

Lemma elem_of_domains raw d :
  d ∈ parse_skin_domains raw ↔ d ≠ "" ∧ ∃ piece, piece ∈ str_split "," raw ∧ trim piece = d.
Proof.
  unfold parse_skin_domains. rewrite list_elem_of_In, List.filter_In, <- list_elem_of_In, list_elem_of_fmap.
  destruct (String.eqb_spec d ""); cbn [negb]; naive_solver.
Qed.

Lemma skin_domain_named raw : "" ∉ parse_skin_domains raw.
Proof. rewrite elem_of_domains. naive_solver. Qed.

Lemma origins_named env origin :
  origin ∈ parse_skin_domains (var_or env "CORS_ALLOWED_ORIGINS" "") ↔ origin ≠ "" ∧
    ∃ v piece, env "CORS_ALLOWED_ORIGINS" = Some v ∧ piece ∈ str_split "," v ∧ trim piece = origin.
Proof.
  rewrite elem_of_domains. unfold var_or. destruct (env "CORS_ALLOWED_ORIGINS") as [v|]; simpl; [naive_solver|].
  split; [|naive_solver]. intros [Hne (piece & Hp & <-)]. apply list_elem_of_singleton in Hp as ->. done.
Qed.

Lemma trusted_proxy_words env :
  parse_bool_env env "TRUSTED_PROXY" false = true ↔
  ∃ v, env "TRUSTED_PROXY" = Some v ∧ to_ascii_lowercase (trim v) ∈ ["true"; "1"; "yes"; "on"].
Proof.
  unfold parse_bool_env. destruct (env "TRUSTED_PROXY") as [v|]; [|naive_solver].
  rewrite !orb_true_iff, !String.eqb_eq. split.
  - intros H. exists v. rewrite !elem_of_cons. naive_solver.
  - intros (w & [= <-] & H). rewrite !elem_of_cons, elem_of_nil in H. naive_solver.
Qed.

(** ** Properties *)

(** Integers in the environment. A setting is always in the range of its type; the
    decimal form of an integer in the range is read as that integer; an unset variable, or
    one with any other text that is not a numeral in the range, leaves the default. *)
Theorem env_integer env key lo hi def :
  (lo ≤ def ≤ hi)%Z →
  (lo ≤ parse_env env (parse_int lo hi) key def ≤ hi)%Z ∧
  (∀ z, (lo ≤ z ≤ hi)%Z → env key = Some (pretty z) → parse_env env (parse_int lo hi) key def = z) ∧
  (env key = None → parse_env env (parse_int lo hi) key def = def) ∧
  (∀ v, env key = Some v → parse_int lo hi v = None → parse_env env (parse_int lo hi) key def = def).
Proof.
  intros Hd. unfold parse_env. split; [|split; [|split]].
  - by apply parse_env_range.
  - intros z Hz ->. by rewrite parse_int_pretty.
  - by intros ->.
  - by intros v -> ->.
Qed.

(** Splitting a public URL. A value without [://] is a path. Otherwise the value is an
    origin followed by a path that is empty or starts with a slash, the origin being
    everything up to the end of a non-empty authority without a slash; with an empty
    authority what follows the scheme is the path. *)
Theorem parse_public_url_spec url :
  match parse_public_url url with
  | (Some origin, path) =>
      url = origin +:+ path ∧ (path = "" ∨ starts_with "/" path = true) ∧
      ∃ scheme authority, origin = scheme +:+ "://" +:+ authority ∧ authority ≠ "" ∧
        str_contains "/" authority = false
  | (None, path) =>
      path = url ∨ (∃ scheme, url = scheme +:+ "://" +:+ path) ∧ (path = "" ∨ starts_with "/" path = true)
  end.
Proof.
  unfold parse_public_url. destruct (String.index 0 "://" url) as [n|] eqn:I; [|by left].
  apply index_found in I as (scheme & rest & -> & <-).
  assert (L : String.length scheme + 3 = String.length (scheme +:+ "://"))
    by (rewrite str_app_length; simpl; lia).
  rewrite L, str_app_assoc, str_drop_app.
  assert (C := index_char "/" rest). destruct (String.index 0 "/" rest) as [m|].
  - destruct C as (auth & path & -> & <- & Hc). simpl default.
    destruct (Nat.eqb_spec (String.length auth) 0) as [E|E].
    + right. destruct auth; [|done]. split; [exists scheme; symmetry; apply str_app_assoc|]. by right.
    + rewrite <- str_app_length. rewrite (str_app_assoc _ auth), str_drop_app, substring_app.
      split; [done|]. split; [by right|]. exists scheme, auth. split; [symmetry; apply str_app_assoc|]. split; [by intros ->|done].
  - simpl default. destruct (Nat.eqb_spec (String.length rest) 0) as [E|E].
    + right. destruct rest; [|done]. split; [exists scheme; symmetry; apply str_app_assoc|]. by left.
    + rewrite <- str_app_length, str_drop_all, substring_all, str_app_nil_r.
      split; [done|]. split; [by left|].
      exists scheme, rest. split; [symmetry; apply str_app_assoc|]. split; [by intros ->|done].
Qed.

(** C40. What the environment cannot do. Settings exist exactly when [DATABASE_URL] is set.
    Then forwarding headers are trusted only if [TRUSTED_PROXY] says so in one of four
    words; the cross-origin callers that are allowed are exactly the non-empty pieces of
    [CORS_ALLOWED_ORIGINS] between commas, none if it is unset, and no skin domain is
    empty; there is no empty metrics token and no empty bootstrap password; and every number
    is within its machine type, a duration being a whole number of seconds in a [u64]. *)
Theorem settings_closed env :
  match from_env env with
  | Err _ => env "DATABASE_URL" = None
  | Ok s =>
      env "DATABASE_URL" = Some (database_url s) ∧
      (cfg_trusted_proxy s = true ↔ ∃ v, env "TRUSTED_PROXY" = Some v ∧
         to_ascii_lowercase (trim v) ∈ ["true"; "1"; "yes"; "on"]) ∧
      (∀ origin, origin ∈ cors_allowed_origins s ↔ origin ≠ "" ∧
         ∃ v piece, env "CORS_ALLOWED_ORIGINS" = Some v ∧ piece ∈ str_split "," v ∧ trim piece = origin) ∧
      ("" ∉ yg_skin_domains (yggdrasil s)) ∧
      metrics_token s ≠ Some "" ∧ ad_bootstrap_password (admin s) ≠ Some "" ∧
      (0 ≤ http_port s ≤ 2 ^ 16 - 1)%Z ∧ (0 ≤ rl_max_attempts (rate_limit s) ≤ 2 ^ 32 - 1)%Z ∧
      ((- 2 ^ 31) ≤ cfg_max_players_per_world s ≤ 2 ^ 31 - 1)%Z ∧
      (0 ≤ cfg_search_min_query_length s ≤ 2 ^ 64 - 1)%Z ∧
      Forall (λ n, - 2 ^ 63 ≤ n ≤ 2 ^ 63 - 1)%Z
        [cfg_search_max_results s; rq_retention_days (request_log s);
         er_retention_days (event_retention s); yg_max_tokens_per_user (yggdrasil s)] ∧
      Forall (λ d, ∃ n, d = secs n ∧ 0 ≤ n ≤ 2 ^ 64 - 1)%Z
        [cfg_session_ttl s; cfg_heartbeat_timeout s; cfg_join_request_ttl s; cfg_join_ticket_ttl s;
         cfg_invite_ttl s; rl_window (rate_limit s); yg_token_ttl (yggdrasil s); ad_session_ttl (admin s)]
  end.
Proof.
  unfold from_env. destruct (env "DATABASE_URL") as [url|]; [|done].
  cbn [database_url cfg_trusted_proxy cors_allowed_origins yggdrasil yg_skin_domains metrics_token].
  split_and!; [done|apply trusted_proxy_words|apply origins_named|apply skin_domain_named|
    apply non_empty_var_spec|apply non_empty_var_spec|by apply parse_env_range..| |].
  - repeat apply Forall_cons_2; try apply Forall_nil_2; by apply parse_env_range.
  - repeat apply Forall_cons_2; try apply Forall_nil_2; by apply env_secs_range.
Qed.

(** With nothing else set, the handlers run with the model's default configuration. *)
Example defaults :
  match from_env (λ key, if (key =? "DATABASE_URL")%string then Some "postgres://" else None) with
  | Ok s =>
      mkConfig (cfg_session_ttl s) (cfg_heartbeat_timeout s) (cfg_max_players_per_world s)
        (cfg_join_request_ttl s) (cfg_join_ticket_ttl s) (cfg_invite_ttl s)
        (Z.to_nat (cfg_search_min_query_length s)) (Z.to_nat (cfg_search_max_results s))
        (yg_token_ttl (yggdrasil s)) (yg_max_tokens_per_user (yggdrasil s))
        (yg_public_url (yggdrasil s)) (yg_skin_domains (yggdrasil s))
        (tx_storage_root (textures s)) (ca_storage_root (catalog s)) (bu_storage_root (bundles s))
        (bu_public_url (bundles s)) (ad_cookie_name (admin s)) = default_config
  | Err _ => False
  end.
Proof. reflexivity. Qed.

(** The comment on [parse_bool_env] says that everything but the four words reads as the
    default; a set value that is none of them reads as [false]. *)
Theorem bool_env_ignores_default :
  parse_bool_env (λ _, Some "maybe") "FLAG" true = false.
Proof. reflexivity. Qed.

Lemma env_integer_witness :
  (0 ≤ 8080 ≤ 2 ^ 16 - 1)%Z ∧
  parse_env (λ _, Some "443") (parse_int 0 (2 ^ 16 - 1)) "HTTP_PORT" 8080%Z = 443%Z.
Proof.
  assert (H : (0 ≤ 8080 ≤ 2 ^ 16 - 1)%Z) by lia. split; [exact H|].
  apply (env_integer (λ _, Some "443") "HTTP_PORT" 0 (2 ^ 16 - 1) 8080 H); [lia|].
  reflexivity.
Defined.
