(* ===== verification/Prog.v ===== *)
(** * Handlers as programs

    A handler is a value of the free monad [prog]: a sequence of atomic actions on the
    service's state, each of which reads what the outside world supplies at that moment
    (a [Tick]: the clocks, fresh randomness, and whether a statement fails), and of
    transactions. [run] executes a handler alone; [pool_step] interleaves the actions of
    any number of handlers. [wp] is the weakest precondition for all ticks of a given
    kind, and [prog_rel] says that every action of a handler stays within a relation,
    which is what survives interleaving. *)

From S2P Require Import Prelude Errors Realtime Schema.

(** ** What the outside world supplies *)

Record Tick : Type := mkTick {
  t_app : Time;      (* [Utc::now()], [Instant::now()] *)
  t_db : Time;       (* Postgres [now()] *)
  t_uuid : Uuid;     (* [Uuid::new_v4()], [gen_random_uuid()] *)
  t_random : string; (* bytes of the random generator *)
  t_fault : bool     (* the database statement fails with an I/O error *)
}.

(** [now()] is the transaction's start time throughout a transaction. *)
Definition pin (t0 t : Tick) : Tick :=
  mkTick (t_app t) (t_db t0) (t_uuid t) (t_random t) (t_fault t).

(** ** Programs *)

Inductive prog : Type → Type :=
| Ret {A} (a : A) : prog A
| Act {A B} (f : Tick → AppState → AppState * B) (k : B → prog A) : prog A
| Txn {A B} (body : prog (AppResult B)) (k : AppResult B → prog A) : prog A.

Fixpoint bind {A B} (p : prog A) (g : A → prog B) : prog B :=
  match p in prog A return (A → prog B) → prog B with
  | Ret a => λ g, g a
  | Act f k => λ g, Act f (λ b, bind (k b) g)
  | Txn body k => λ g, Txn body (λ r, bind (k r) g)
  end g.

(** The answer of a handler that has finished. *)
Definition ret_val {A} (p : prog A) : option A :=
  match p with Ret a => Some a | _ => None end.

(** Rust's [?] in a handler: an error is the handler's result. *)
Definition bind_ok {A B E} (p : prog (result A E)) (g : A → prog (result B E))
  : prog (result B E) :=
  bind p (λ r, match r with Ok a => g a | Err e => Ret (Err e) end).

Notation "'let*' x ':=' p 'in' q" := (bind p (λ x, q))
  (at level 10, x name, p at level 100, q at level 200, only parsing) : loon_scope.
Notation "'let*' ' x ':=' p 'in' q" := (bind p (λ y, match y with x => q end))
  (at level 10, x strict pattern, p at level 100, q at level 200, only parsing) : loon_scope.
Notation "'let?' x ':=' p 'in' q" := (bind_ok p (λ x, q))
  (at level 10, x name, p at level 100, q at level 200, only parsing) : loon_scope.
Notation "'let?' ' x ':=' p 'in' q" := (bind_ok p (λ y, match y with x => q end))
  (at level 10, x strict pattern, p at level 100, q at level 200, only parsing) : loon_scope.
Notation "'do?' p ';' q" := (bind_ok p (λ _, q))
  (at level 10, p at level 100, q at level 200, only parsing) : loon_scope.
Notation "'do*' p ';' q" := (bind p (λ _, q))
  (at level 10, p at level 100, q at level 200, only parsing) : loon_scope.

Definition ret_ok {A E} (a : A) : prog (result A E) := Ret (Ok a).
Definition ret_err {A E} (e : E) : prog (result A E) := Ret (Err e).

(** A plain result used with [?]. *)
Definition lift {A E} (r : result A E) : prog (result A E) := Ret r.

Definition prog_map {A B} (f : A → B) (p : prog A) : prog B := bind p (λ a, Ret (f a)).

(** ** Actions *)

Definition act {B} (f : Tick → AppState → AppState * B) : prog B := Act f Ret.

(** One SQL statement: it changes the database or fails and changes nothing. *)
Definition sql {B} (f : Tick → Db → SqlResult (Db * B)) : prog (SqlResult B) :=
  act (λ t st,
    if t_fault t then (st, Err Io)
    else match f t (st_db st) with
         | Ok (db, b) => (set_db db st, Ok b)
         | Err e => (st, Err e)
         end).

(** [impl From<sqlx::Error> for AppError]: [statement.await?]. *)
Definition sql_app {B} (f : Tick → Db → SqlResult (Db * B)) : prog (AppResult B) :=
  prog_map (map_err Database) (sql f).

(** A query. *)
Definition select {B} (f : Tick → Db → B) : prog (AppResult B) :=
  sql_app (λ t db, Ok (db, f t db)).

(** A statement whose outcome the handler ignores ([let _ = ....await]). *)
Definition ignore {A} (p : prog A) : prog unit := prog_map (λ _, ()) p.

Definition utc_now : prog Time := act (λ t st, (st, t_app t)).
Definition new_uuid : prog Uuid := act (λ t st, (st, t_uuid t)).

(** [state.signaling.send_to(user, event)]. *)
Definition signal (user_id : Uuid) (event : ServerEvent) : prog unit :=
  act (λ _ st, (set_signaling (send_to user_id event (st_signaling st)) st, ())).

Definition on_signaling {B} (f : Tick → SignalingHub → SignalingHub * B) : prog B :=
  act (λ t st, let '(h, b) := f t (st_signaling st) in (set_signaling h st, b)).

Definition on_relay {B} (f : RelayHub → RelayHub * B) : prog B :=
  act (λ _ st, let '(h, b) := f (st_relay st) in (set_relay h st, b)).

Definition on_metrics (f : Metrics → Metrics) : prog unit :=
  act (λ _ st, (set_metrics (f (st_metrics st)) st, ())).

(** [pool.begin()] .. [tx.commit()]. *)
Definition transaction {B} (body : prog (AppResult B)) : prog (AppResult B) := Txn body Ret.

(** [for x in xs { f(x) }] *)
Fixpoint for_each {A} (xs : list A) (f : A → prog unit) : prog unit :=
  match xs with
  | [] => Ret ()
  | x :: xs => do* f x; for_each xs f
  end.

(** ** Execution of one handler

    A transaction that ends in an error, or whose commit fails, leaves the database as it
    found it; what it did to the service's memory stays. *)

Definition rollback (st st' : AppState) : AppState := set_db (st_db st) st'.

Fixpoint run {A} (p : prog A) (o : nat → Tick) (n : nat) (st : AppState)
  : nat * AppState * A :=
  match p in prog A return nat * AppState * A with
  | Ret a => (n, st, a)
  | Act f k => let '(st', b) := f (o n) st in run (k b) o (S n) st'
  | Txn body k =>
      if t_fault (o n) then run (k (Err (Database Io))) o (S n) st
      else
        let '(n', st', r) := run body (λ i, pin (o n) (o i)) (S n) st in
        match r with
        | Ok b =>
            if t_fault (o n')
            then run (k (Err (Database Io))) o (S n') (rollback st st')
            else run (k (Ok b)) o (S n') st'
        | Err e => run (k (Err e)) o n' (rollback st st')
        end
  end.

Definition exec {A} (p : prog A) (o : nat → Tick) (st : AppState) : AppState * A :=
  let '(_, st', a) := run p o 0 st in (st', a).

(** ** Interleaving

    The handlers being served, each reduced to what remains of it. A step runs the next
    action of one of them, or its next transaction as a whole: the row locks and the
    guarded updates of the source make its transactions serializable. *)

Definition prog_step {A} (p : prog A) (st : AppState) (p' : prog A) (st' : AppState) : Prop :=
  match p in prog A return prog A → Prop with
  | Ret _ => λ _, False
  | Act f k => λ p', ∃ t, p' = k (f t st).2 ∧ st' = (f t st).1
  | Txn body k => λ p',
      (st' = st ∧ p' = k (Err (Database Io)))
      ∨ ∃ o n n' st1 r, run body o n st = (n', st1, r) ∧
          ((∃ b, r = Ok b ∧ st' = st1 ∧ p' = k (Ok b))
           ∨ ∃ e, st' = rollback st st1 ∧ p' = k (Err e))
  end p'.

Inductive pool_step {A} : list (prog A) * AppState → list (prog A) * AppState → Prop :=
| pool_step_at l1 l2 p p' st st' :
    prog_step p st p' st' →
    pool_step (l1 ++ p :: l2, st) (l1 ++ p' :: l2, st').

(** ** What every action of a program does *)

Fixpoint prog_rel {A} (R : relation AppState) (p : prog A) : Prop :=
  match p with
  | Ret _ => True
  | Act f k => (∀ t st, R st (f t st).1) ∧ ∀ b, prog_rel R (k b)
  | Txn body k =>
      (∀ o n st n' st' r, run body o n st = (n', st', r) →
        (is_ok r = true → R st st') ∧ R st (rollback st st'))
      ∧ ∀ r, prog_rel R (k r)
  end.

(** ** The weakest precondition, for every tick in [T] *)

Fixpoint wp {A} (p : prog A) (T : Tick → Prop) (st : AppState)
  (Q : AppState → A → Prop) : Prop :=
  match p in prog A return (AppState → A → Prop) → Prop with
  | Ret a => λ Q, Q st a
  | Act f k => λ Q, ∀ t, T t → wp (k (f t st).2) T (f t st).1 Q
  | Txn body k => λ Q,
      ∀ t0, T t0 →
      if t_fault t0 then wp (k (Err (Database Io))) T st Q
      else wp body (λ t, ∃ t1, T t1 ∧ t = pin t0 t1) st (λ st' r,
        match r with
        | Ok b => ∀ t1, T t1 →
            if t_fault t1 then wp (k (Err (Database Io))) T (rollback st st') Q
            else wp (k (Ok b)) T st' Q
        | Err e => wp (k (Err e)) T (rollback st st') Q
        end)
  end Q.

(** ** Laws of [wp] *)

Lemma wp_mono {A} (p : prog A) (T T' : Tick → Prop) st (Q Q' : AppState → A → Prop) :
  (∀ t, T' t → T t) → (∀ st' a, Q st' a → Q' st' a) → wp p T st Q → wp p T' st Q'.
Proof.
  revert T T' st Q Q'.
  induction p as [A a|A B f k IH|A B body IHb k IHk]; intros T T' st Q Q' HT HQ; simpl.
  - apply HQ.
  - intros H t Ht. by eapply IH; eauto.
  - intros H t0 Ht0. specialize (H t0 (HT t0 Ht0)). destruct (t_fault t0).
    { by eapply IHk; eauto. }
    eapply IHb; [| |exact H].
    + intros t (t1 & ? & ->). eauto.
    + intros st' [b|e] Hr; [|by eapply IHk; eauto].
      intros t1 Ht1. specialize (Hr t1 (HT t1 Ht1)). destruct (t_fault t1); by eapply IHk; eauto.
Qed.

Lemma wp_conseq {A} (p : prog A) T st (Q Q' : AppState → A → Prop) :
  wp p T st Q → (∀ st' a, Q st' a → Q' st' a) → wp p T st Q'.
Proof. intros H HQ. by eapply wp_mono; [|exact HQ|exact H]. Qed.

Lemma wp_bind {A B} (p : prog A) (g : A → prog B) T st Q :
  wp p T st (λ st' a, wp (g a) T st' Q) → wp (bind p g) T st Q.
Proof.
  revert st. induction p as [A a|A C f k IH|A C body IHb k IHk]; intros st; simpl.
  - done.
  - intros H t Ht. by apply IH, H.
  - intros H t0 Ht0. specialize (H t0 Ht0). destruct (t_fault t0); [by apply IHk|].
    eapply wp_conseq; [exact H|]. intros st' [b|e] Hr; [|by apply IHk].
    intros t1 Ht1. specialize (Hr t1 Ht1). destruct (t_fault t1); by apply IHk.
Qed.

Lemma wp_bind_ok {A B E} (p : prog (result A E)) (g : A → prog (result B E)) T st Q :
  wp p T st (λ st' r, match r with Ok a => wp (g a) T st' Q | Err e => Q st' (Err e) end) →
  wp (bind_ok p g) T st Q.
Proof.
  intros H. apply wp_bind. eapply wp_conseq; [exact H|]. by intros st' [a|e].
Qed.

(** What [wp] promises holds of every execution. *)
Lemma wp_run {A} (p : prog A) T o n st (Q : AppState → A → Prop) :
  (∀ i, T (o i)) → wp p T st Q →
  let '(_, st', a) := run p o n st in Q st' a.
Proof.
  revert T o n st Q.
  induction p as [A a|A C f k IH|A C body IHb k IHk]; intros T o n st Q HT; simpl.
  - done.
  - intros H. specialize (H (o n) (HT n)). destruct (f (o n) st) as [st' b].
    by eapply IH.
  - intros H. specialize (H (o n) (HT n)). destruct (t_fault (o n)); [by eapply IHk|].
    eapply (IHb _ (λ i, pin (o n) (o i)) (S n)) in H; [|by eauto].
    destruct (run body _ (S n) st) as [[n' st'] [b|e]]; [|by eapply IHk].
    specialize (H (o n') (HT n')). destruct (t_fault (o n')); by eapply IHk.
Qed.

Lemma wp_exec {A} (p : prog A) T o st (Q : AppState → A → Prop) st' a :
  (∀ i, T (o i)) → exec p o st = (st', a) → wp p T st Q → Q st' a.
Proof.
  intros HT E H. eapply (wp_run p T o 0) in H; [|done]. unfold exec in E.
  destruct (run p o 0 st) as [[n' st''] a']. by simplify_eq.
Qed.

(** An answer that is only mapped or dropped. *)
Lemma run_prog_map {A B} (f : A → B) (p : prog A) o n st :
  run (prog_map f p) o n st = (let '(n', st', a) := run p o n st in (n', st', f a)).
Proof.
  unfold prog_map. revert o n st. induction p as [A a|A C g k IH|A C body IHb k IHk]; intros o n st; [done|..]; simpl.
  - destruct (g (o n) st) as [st' b]. apply IH.
  - destruct (t_fault (o n)); [apply IHk|]. destruct (run body _ _ st) as [[n' st'] [b|e]]; [|apply IHk].
    destruct (t_fault (o n')); apply IHk.
Qed.

Lemma exec_ignore {A} (p : prog A) o st : exec (ignore p) o st = ((exec p o st).1, ()).
Proof. unfold exec, ignore. rewrite run_prog_map. by destruct (run p o 0 st) as [[n st'] a]. Qed.

Definition any_tick (t : Tick) : Prop := True.

(** The database answers every statement and both clocks show [now]. *)
Definition calm (now : Time) (t : Tick) : Prop :=
  t_fault t = false ∧ t_db t = now ∧ t_app t = now.

(** Both clocks show [now]; a statement may fail. *)
Definition timed (now : Time) (t : Tick) : Prop := t_db t = now ∧ t_app t = now.

Lemma calm_timed now t : calm now t → timed now t.
Proof. by intros (_ & D & A). Qed.

(** The database answers every statement. *)
Definition no_fault (t : Tick) : Prop := t_fault t = false.

Definition calm_oracle (now : Time) : nat → Tick :=
  λ i, mkTick now now (N.of_nat i + 1000) "" false.

Definition random_oracle (now : Time) (bytes : string) : nat → Tick :=
  λ i, mkTick now now (N.of_nat i + 1000) bytes false.

Lemma calm_oracle_calm now i : calm now (calm_oracle now i).
Proof. done. Qed.

(** ** Laws of [prog_rel] *)

(** A relation that a rollback stays within: whatever [st'] did, going back to the
    database of [st] is a step too. *)
Class Rollback (R : relation AppState) : Prop :=
  rollback_rel : ∀ st st', R st st' → R st (rollback st st').

Lemma prog_rel_bind {A B} R (p : prog A) (g : A → prog B) :
  prog_rel R p → (∀ a, prog_rel R (g a)) → prog_rel R (bind p g).
Proof.
  induction p as [A a|A C f k IH|A C body IHb k IHk]; simpl; [auto| |].
  - intros [H1 H2] Hg. eauto.
  - intros [H1 H2] Hg. eauto.
Qed.

Lemma prog_rel_bind_ok {A B E} R (p : prog (result A E)) (g : A → prog (result B E)) :
  prog_rel R p → (∀ a, prog_rel R (g a)) → prog_rel R (bind_ok p g).
Proof. intros Hp Hg. apply prog_rel_bind; [done|]. intros [a|e]; [apply Hg|done]. Qed.

Lemma prog_rel_run {A} R `{!PreOrder R, !Rollback R} (p : prog A) o n st n' st' a :
  prog_rel R p → run p o n st = (n', st', a) → R st st'.
Proof.
  revert o n st. induction p as [A a'|A C f k IH|A C body IHb k IHk]; intros o n st; simpl.
  - by intros _ [= <- <- <-].
  - intros [H1 H2] E. specialize (H1 (o n) st). destruct (f (o n) st) as [st1 b].
    etrans; [exact H1|]. by eapply IH.
  - intros [H1 H2] E. destruct (t_fault (o n)); [by eapply IHk|].
    destruct (run body _ (S n) st) as [[n1 st1] r] eqn:Eb.
    apply H1 in Eb as [C1 C2]. destruct r as [b|e].
    + destruct (t_fault (o n1)); [etrans; [exact C2|]|etrans; [by apply C1|]]; by eapply IHk.
    + etrans; [exact C2|]. by eapply IHk.
Qed.

Lemma prog_rel_mono {A} (R R' : relation AppState) (p : prog A) :
  (∀ st st', R st st' → R' st st') → prog_rel R p → prog_rel R' p.
Proof.
  intros HR. induction p as [A a|A C f k IH|A C body IHb k IHk]; simpl; [done| |].
  - intros [H1 H2]. split; [auto|]. intros b. apply IH, H2.
  - intros [H1 H2]. split; [|auto]. intros o n st n' st' r E.
    destruct (H1 _ _ _ _ _ _ E). auto.
Qed.

(** A transaction all of whose actions stay within a relation does so too. *)
Lemma prog_rel_transaction {B} R `{!PreOrder R, !Rollback R} (body : prog (AppResult B)) :
  prog_rel R body → prog_rel R (transaction body).
Proof.
  intros H. split; [|done]. intros o n st n' st' r E.
  pose proof (prog_rel_run R body o n st n' st' r H E). split; [done|by apply rollback_rel].
Qed.

(** A transaction as a whole, whatever its statements do on the way. *)
Lemma prog_rel_commit {B} R `{!Reflexive R} (body : prog (AppResult B)) :
  (∀ st st', R st (rollback st st')) →
  (∀ st, wp body any_tick st (λ st' r, is_ok r = true → R st st')) → prog_rel R (transaction body).
Proof.
  intros HR H. split; [|done]. intros o n st n' st' r E. split; [|apply HR].
  pose proof (wp_run body any_tick o n st _ (λ _, I) (H st)) as W. by rewrite E in W.
Qed.

Lemma prog_rel_wp {B} R `{!PreOrder R, !Rollback R} (body : prog (AppResult B)) :
  (∀ st, wp body any_tick st (λ st' _, R st st')) → prog_rel R (transaction body).
Proof.
  intros H. split; [|done]. intros o n st n' st' r E.
  assert (HR : R st st').
  { pose proof (wp_run body any_tick o n st _ (λ _, I) (H st)) as W. by rewrite E in W. }
  split; [done|by apply rollback_rel].
Qed.

(** Every interleaving of such programs stays within the relation. *)
Lemma prog_step_rel {A} R `{!PreOrder R, !Rollback R} (p p' : prog A) st st' :
  prog_step p st p' st' → prog_rel R p → R st st' ∧ prog_rel R p'.
Proof.
  destruct p as [A a|A C f k|A C body k]; simpl; [done| |].
  - intros (t & -> & ->) [H1 H2]. auto.
  - intros [[-> ->]|(o & n & n' & st1 & r & E & H)] [H1 H2]; [by split|].
    apply H1 in E as [C1 C2].
    destruct H as [(b & -> & -> & ->)|(e & -> & ->)]; split; auto.
Qed.

Lemma pool_step_rel {A} R `{!PreOrder R, !Rollback R} (s s' : list (prog A) * AppState) :
  rtc pool_step s s' → Forall (prog_rel R) s.1 → R s.2 s'.2 ∧ Forall (prog_rel R) s'.1.
Proof.
  induction 1 as [s|s s1 s' Hs Hr IH]; intros HF; [by split|].
  destruct Hs as [l1 l2 p p' st st' S]; simpl in *.
  apply Forall_app in HF as [F1 F2]. apply Forall_cons in F2 as [Fp F2].
  destruct (prog_step_rel R p p' st st' S Fp) as [HR Fp'].
  destruct IH as [IH1 IH2]; [apply Forall_app; split; [done|by constructor]|].
  split; [by etrans|done].
Qed.

(** A handler that runs alone is one of the interleavings. *)
Lemma run_pool {A} (p : prog A) o n st n' st' a :
  run p o n st = (n', st', a) → rtc pool_step ([p], st) ([Ret a], st').
Proof.
  assert (one : ∀ p p' (st st' : AppState), prog_step p st p' st' →
    @pool_step A ([p], st) ([p'], st')).
  { intros q q' s s' S. by apply (pool_step_at [] [] q q' s s'). }
  revert o n st. induction p as [A a'|A C f k IH|A C body IHb k IHk]; intros o n st; simpl.
  - intros [= <- <- <-]. done.
  - destruct (f (o n) st) as [st1 b] eqn:Ef. intros E. eapply rtc_l; [|by eapply IH].
    apply one. simpl. exists (o n). by rewrite Ef.
  - destruct (t_fault (o n)).
    { intros E. eapply rtc_l; [|by eapply IHk]. apply one. simpl. by left. }
    destruct (run body _ (S n) st) as [[n1 st1] r] eqn:Eb.
    destruct r as [b|e]; [destruct (t_fault (o n1))|];
      intros E; (eapply rtc_l; [|by eapply IHk]); apply one; simpl; right;
      eauto 15.
Qed.

(** ** Schedules

    An interleaving given as the list of the handlers that take the successive steps. *)

Definition prog_next {A} (p : prog A) (o : nat → Tick) (n : nat) (st : AppState)
  : option (prog A * AppState) :=
  match p in prog A return option (prog A * AppState) with
  | Ret _ => None
  | Act f k => Some (k (f (o n) st).2, (f (o n) st).1)
  | Txn body k =>
      let '(_, st1, r) := run body o n st in
      match r with
      | Ok b => Some (k (Ok b), st1)
      | Err e => Some (k (Err e), rollback st st1)
      end
  end.

Definition step_at {A} (o : nat → Tick) (n i : nat) (s : list (prog A) * AppState)
  : list (prog A) * AppState :=
  match s.1 !! i with
  | Some p =>
      match prog_next p o n s.2 with
      | Some (p', st') => (<[i := p']> s.1, st')
      | None => s
      end
  | None => s
  end.

Fixpoint sched {A} (o : nat → Tick) (n : nat) (order : list nat) (s : list (prog A) * AppState)
  : list (prog A) * AppState :=
  match order with
  | [] => s
  | i :: order => sched o (S n) order (step_at o n i s)
  end.

Lemma prog_next_step {A} (p : prog A) o n st p' st' :
  prog_next p o n st = Some (p', st') → prog_step p st p' st'.
Proof.
  destruct p as [A a|A C f k|A C body k]; simpl; [done| |].
  - intros [= <- <-]. eauto.
  - destruct (run body o n st) as [[n' st1] [b|e]] eqn:E; intros [= <- <-]; right;
      exists o, n, n', st1; eauto 10.
Qed.

(** A schedule is one of the interleavings. *)
Lemma sched_pool {A} o n order (s : list (prog A) * AppState) : rtc pool_step s (sched o n order s).
Proof.
  revert n s. induction order as [|i order IH]; intros n s; simpl; [done|].
  etrans; [|apply IH]. unfold step_at. destruct s as [ps st]; simpl.
  destruct (ps !! i) as [p|] eqn:Hi; [|done].
  destruct (prog_next p o n st) as [[p' st']|] eqn:E; [|done].
  apply rtc_once. apply prog_next_step in E.
  rewrite <- (take_drop_middle ps i p Hi) at 1.
  rewrite insert_take_drop by (by eapply lookup_lt_Some). by constructor.
Qed.

(** ** Rules for the actions *)

Section rules.
Context {A : Type} (T : Tick → Prop) (st : AppState).

Lemma wp_ret (a : A) (Q : AppState → A → Prop) : Q st a → wp (Ret a) T st Q.
Proof. done. Qed.

Lemma wp_sql f (Q : AppState → SqlResult A → Prop) :
  (∀ t, T t →
    if t_fault t then Q st (Err Io)
    else match f t (st_db st) with
         | Ok (db, b) => Q (set_db db st) (Ok b)
         | Err e => Q st (Err e)
         end) →
  wp (sql f) T st Q.
Proof.
  intros H t Ht. specialize (H t Ht). simpl. destruct (t_fault t); [done|].
  by destruct (f t (st_db st)) as [[db b]|e].
Qed.

Lemma wp_sql_app f (Q : AppState → AppResult A → Prop) :
  (∀ t, T t →
    if t_fault t then Q st (Err (Database Io))
    else match f t (st_db st) with
         | Ok (db, b) => Q (set_db db st) (Ok b)
         | Err e => Q st (Err (Database e))
         end) →
  wp (sql_app f) T st Q.
Proof.
  intros H. apply wp_bind, wp_sql. intros t Ht. specialize (H t Ht).
  destruct (t_fault t); [done|]. by destruct (f t (st_db st)) as [[db b]|e].
Qed.

Lemma set_db_same : set_db (st_db st) st = st.
Proof. by destruct st. Qed.

Lemma wp_select f (Q : AppState → AppResult A → Prop) :
  (∀ t, T t → if t_fault t then Q st (Err (Database Io)) else Q st (Ok (f t (st_db st)))) →
  wp (select f) T st Q.
Proof.
  intros H. apply wp_sql_app. intros t Ht. specialize (H t Ht).
  destruct (t_fault t); [done|]. by rewrite set_db_same.
Qed.

Lemma wp_ignore (p : prog A) (Q : AppState → unit → Prop) :
  wp p T st (λ st' _, Q st' ()) → wp (ignore p) T st Q.
Proof. intros H. by apply wp_bind. Qed.

Lemma wp_transaction (body : prog (AppResult A)) (Q : AppState → AppResult A → Prop) :
  (∀ t0, T t0 →
    if t_fault t0 then Q st (Err (Database Io))
    else wp body (λ t, ∃ t1, T t1 ∧ t = pin t0 t1) st (λ st' r,
      match r with
      | Ok b => ∀ t1, T t1 →
          if t_fault t1 then Q (rollback st st') (Err (Database Io)) else Q st' (Ok b)
      | Err e => Q (rollback st st') (Err e)
      end)) →
  wp (transaction body) T st Q.
Proof. done. Qed.

(** When the database answers every statement. *)
Lemma wp_transaction_calm now (body : prog (AppResult A)) (Q : AppState → AppResult A → Prop) :
  wp body (calm now) st (λ st' r,
    match r with Ok b => Q st' (Ok b) | Err e => Q (rollback st st') (Err e) end) →
  wp (transaction body) (calm now) st Q.
Proof.
  intros H t0 (F & D & A0). rewrite F. eapply wp_mono; [| |exact H].
  - intros t (t1 & (F1 & D1 & A1) & ->). by repeat split.
  - intros st' [b|e] HQ; [|done]. intros t1 (F1 & _). by rewrite F1.
Qed.

(** When it may also fail: a transaction that is refused, or not begun or committed, leaves the
    database alone. *)
Lemma wp_transaction_timed now (body : prog (AppResult A)) (Q : AppState → AppResult A → Prop) :
  (∀ t, T t → timed now t) → (∀ st' e, st_db st' = st_db st → Q st' (Err e)) →
  wp body (timed now) st (λ st' r, match r with Ok b => Q st' (Ok b) | Err _ => True end) →
  wp (transaction body) T st Q.
Proof.
  intros HT HE H t0 H0. destruct (t_fault t0); [by apply HE|]. destruct (HT _ H0) as [D0 _].
  eapply wp_mono; [| |exact H].
  - intros t (t1 & H1 & ->). by destruct (HT _ H1).
  - intros st' [b|e] HQ; [|by apply HE]. intros t1 _. destruct (t_fault t1); [by apply HE|exact HQ].
Qed.

Lemma wp_transaction_quiet now (body : prog (AppResult A)) (Q : AppState → AppResult A → Prop) :
  (∀ t, T t → calm now t) →
  wp body T st (λ st' r,
    match r with Ok b => Q st' (Ok b) | Err e => Q (rollback st st') (Err e) end) →
  wp (transaction body) T st Q.
Proof.
  intros HT H t0 H0. destruct (HT _ H0) as (F & D & A0). rewrite F.
  eapply wp_mono; [| |exact H].
  - intros t (t1 & H1 & ->). destruct (HT _ H1) as (F1 & D1 & A1).
    unfold pin. rewrite D, <- D1. by destruct t1.
  - intros st' [b|e] HQ; [|done]. intros t1 H1. destruct (HT _ H1) as (F1 & _). by rewrite F1.
Qed.
End rules.

(** Calm ticks whose identifiers avoid those in use. *)
Definition quiet (now : Time) (avoid : Uuid → bool) (t : Tick) : Prop :=
  calm now t ∧ avoid (t_uuid t) = false.

Lemma quiet_calm now avoid t : quiet now avoid t → calm now t.
Proof. by intros [H _]. Qed.

Lemma wp_utc_now T st Q : (∀ t, T t → Q st (t_app t)) → wp utc_now T st Q.
Proof. done. Qed.
Lemma wp_new_uuid T st Q : (∀ t, T t → Q st (t_uuid t)) → wp new_uuid T st Q.
Proof. done. Qed.
Lemma wp_signal T st u ev Q :
  Q (set_signaling (send_to u ev (st_signaling st)) st) () → wp (signal u ev) T st Q.
Proof. by intros H t _. Qed.
Lemma wp_on_metrics T st f Q : Q (set_metrics (f (st_metrics st)) st) () → wp (on_metrics f) T st Q.
Proof. by intros H t _. Qed.

Lemma wp_on_signaling {B} T st (f : Tick → SignalingHub → SignalingHub * B) Q :
  (∀ t, T t → Q (set_signaling (f t (st_signaling st)).1 st) (f t (st_signaling st)).2) →
  wp (on_signaling f) T st Q.
Proof.
  intros H t Ht. specialize (H t Ht). simpl. by destruct (f t (st_signaling st)).
Qed.

(** Relations on the database alone. *)
Definition db_rel (R : relation Db) : relation AppState := λ st st', R (st_db st) (st_db st').

#[export] Instance db_rel_preorder R `{!PreOrder R} : PreOrder (db_rel R).
Proof.
  split; [intros st; unfold db_rel; reflexivity|].
  intros st1 st2 st3 H1 H2. unfold db_rel in *. by etrans.
Qed.

#[export] Instance db_rel_rollback R `{!Reflexive R} : Rollback (db_rel R).
Proof. intros st st' _. unfold db_rel. simpl. reflexivity. Qed.

Section db_rel_rules.
Context (R : relation Db) `{!PreOrder R} {A : Type}.

Lemma prog_rel_sql (f : Tick → Db → SqlResult (Db * A)) :
  (∀ t db db' b, f t db = Ok (db', b) → R db db') → prog_rel (db_rel R) (sql f).
Proof.
  intros H. split; [|done]. intros t st. unfold db_rel. destruct (t_fault t); [simpl; reflexivity|].
  destruct (f t (st_db st)) as [[db b]|e] eqn:E; simpl; [by eapply H|reflexivity].
Qed.

Lemma prog_rel_sql_app (f : Tick → Db → SqlResult (Db * A)) :
  (∀ t db db' b, f t db = Ok (db', b) → R db db') → prog_rel (db_rel R) (sql_app f).
Proof. intros H. apply prog_rel_bind; [by apply prog_rel_sql|done]. Qed.

Lemma prog_rel_select (f : Tick → Db → A) : prog_rel (db_rel R) (select f).
Proof. apply prog_rel_sql_app. intros t db db' b [= <- <-]. reflexivity. Qed.

(** An action on the service's memory. *)
Lemma prog_rel_memory (f : Tick → AppState → AppState * A) :
  (∀ t st, st_db (f t st).1 = st_db st) → prog_rel (db_rel R) (act f).
Proof. intros H. split; [|done]. intros t st. unfold db_rel. rewrite H. reflexivity. Qed.

Lemma prog_rel_ignore (p : prog A) : prog_rel (db_rel R) p → prog_rel (db_rel R) (ignore p).
Proof. intros H. by apply prog_rel_bind. Qed.
End db_rel_rules.

Lemma prog_rel_for_each {A} R (xs : list A) f :
  (∀ x, prog_rel R (f x)) → prog_rel R (for_each xs f).
Proof. intros H. induction xs; simpl; [done|]. by apply prog_rel_bind. Qed.

(** Go through a handler action by action: leaves one goal per statement that writes. *)
Ltac prog_rel_step :=
  match goal with
  | |- prog_rel _ (Ret _) => exact I
  | |- prog_rel _ (ret_ok _) => exact I
  | |- prog_rel _ (ret_err _) => exact I
  | |- prog_rel _ (lift _) => exact I
  | |- prog_rel _ (bind_ok _ _) => apply prog_rel_bind_ok; [|intros]
  | |- prog_rel _ (bind _ _) => apply prog_rel_bind; [|intros]
  | |- prog_rel _ (prog_map _ _) => apply prog_rel_bind; [|intros; exact I]
  | |- prog_rel _ (select _) => apply prog_rel_select; exact _
  | |- prog_rel _ (ignore _) => apply prog_rel_ignore
  | |- prog_rel _ (for_each _ _) => apply prog_rel_for_each; intros
  | |- prog_rel _ (transaction _) => apply prog_rel_transaction; [exact _|exact _|]
  | |- prog_rel _ utc_now => apply prog_rel_memory; [exact _|intros; reflexivity]
  | |- prog_rel _ new_uuid => apply prog_rel_memory; [exact _|intros; reflexivity]
  | |- prog_rel _ (signal _ _) => apply prog_rel_memory; [exact _|intros; reflexivity]
  | |- prog_rel _ (on_metrics _) => apply prog_rel_memory; [exact _|intros; reflexivity]
  | |- prog_rel _ (on_signaling _) =>
      apply prog_rel_memory; [exact _|intros ? ?; simpl; repeat case_match; reflexivity]
  | |- prog_rel _ (on_relay _) => apply prog_rel_memory; [exact _|intros ? ?; simpl; repeat case_match; reflexivity]
  | |- prog_rel _ (sql_app _) => apply prog_rel_sql_app; [exact _|]
  | |- prog_rel _ (sql _) => apply prog_rel_sql; [exact _|]
  | |- prog_rel _ (match ?x with _ => _ end) => destruct x
  end.

(** ** Once-only transactions

    A handler whose first action is a transaction that succeeds only from a database where
    the gate [G] does not hold and leaves one where it does. However many of them run, and
    whatever runs beside them that keeps [G], at most one passes. *)
Section Gate.
Context {A B : Type} (G : Db → Prop).

Definition keeps_gate : relation Db := λ db db', G db → G db'.

#[export] Instance keeps_gate_preorder : PreOrder keeps_gate.
Proof. split; [intros db K; exact K|]. intros a b c H1 H2 H3. exact (H2 (H1 H3)). Qed.

Definition gated (body : prog (AppResult B)) : Prop :=
  ∀ o n st n' st' b, run body o n st = (n', st', Ok b) → ¬ G (st_db st) ∧ G (st_db st').

Lemma gated_wp body :
  (∀ st, wp body any_tick st (λ st' r, is_ok r = true → ¬ G (st_db st) ∧ G (st_db st'))) →
  gated body.
Proof.
  intros H o n st n' st' b E. pose proof (wp_run _ any_tick o n _ _ (λ _, I) (H st)) as W.
  rewrite E in W. by apply W.
Qed.

Context (body : B → prog (AppResult A)) (txs : list (prog (AppResult B))).

(** The [i]-th handler: its transaction, then the rest. *)
Definition gate_threads : list (prog (AppResult A)) :=
  map (λ tx, bind_ok (transaction tx) body) txs.

Context (Htx : Forall gated txs).
Context (Hbody : ∀ b, prog_rel (db_rel keeps_gate) (body b)).

(** The threads that have passed the gate are [W]. *)
Definition gate_inv (W : nat → Prop) (s : list (prog (AppResult A)) * AppState) : Prop :=
  (∀ i j, W i → W j → i = j) ∧
  (∀ i, W i → i < length txs ∧ G (st_db s.2)) ∧
  ∀ i p, s.1 !! i = Some p →
    (i < length txs ∧ ¬ W i ∧
      ((∃ tx, gated tx ∧ p = bind_ok (transaction tx) body) ∨ ∃ e, p = Ret (Err e)))
    ∨ ((W i ∨ length txs ≤ i) ∧ prog_rel (db_rel keeps_gate) p).

Lemma gate_inv_update W l1 l2 p p' st st' :
  gate_inv W (l1 ++ p :: l2, st) → (G (st_db st) → G (st_db st')) →
  ((length l1 < length txs ∧ ¬ W (length l1) ∧ ∃ e, p' = Ret (Err e))
   ∨ ((W (length l1) ∨ length txs ≤ length l1) ∧ prog_rel (db_rel keeps_gate) p')) →
  gate_inv W (l1 ++ p' :: l2, st').
Proof.
  intros (I1 & I2 & I3) HG Hp. split; [done|]. split.
  - intros i Hi. destruct (I2 i Hi). auto.
  - simpl in *. intros i q Hq. destruct (decide (i = length l1)) as [->|Hne].
    + rewrite list_lookup_middle in Hq by done. injection Hq as <-. naive_solver.
    + apply (I3 i q). rewrite <- Hq. destruct (decide (i < length l1)).
      * by rewrite !lookup_app_l.
      * rewrite !lookup_app_r by lia. destruct (i - length l1) eqn:E; [lia|]. done.
Qed.

Lemma gate_inv_pass W l1 l2 p p' st st' :
  gate_inv W (l1 ++ p :: l2, st) → ¬ G (st_db st) → G (st_db st') →
  length l1 < length txs → prog_rel (db_rel keeps_gate) p' →
  gate_inv (λ i, i = length l1) (l1 ++ p' :: l2, st').
Proof.
  intros (I1 & I2 & I3) HN HG Hl Hp. split; [by intros i j -> ->|]. split; [by intros i ->|].
  simpl in *. intros i q Hq. destruct (decide (i = length l1)) as [->|Hne].
  - rewrite list_lookup_middle in Hq by done. injection Hq as <-. right. auto.
  - assert (Hq' : (l1 ++ p :: l2) !! i = Some q).
    { rewrite <- Hq. destruct (decide (i < length l1)).
      - by rewrite !lookup_app_l.
      - rewrite !lookup_app_r by lia. destruct (i - length l1) eqn:E; [lia|]. done. }
    destruct (I3 i q Hq') as [(H1 & H2 & H3)|[[H1|H1] H2]].
    + left. split; [done|]. split; [done|]. done.
    + destruct (I2 i H1). done.
    + right. auto.
Qed.

Lemma gate_inv_step W s s' : gate_inv W s → pool_step s s' → ∃ W', gate_inv W' s'.
Proof.
  intros HI Hs. destruct Hs as [l1 l2 p p' st st' Hp].
  assert (Hlk : (l1 ++ p :: l2) !! length l1 = Some p) by by apply list_lookup_middle.
  pose proof (proj2 (proj2 HI) _ _ Hlk) as [(Hl & HW & [(tx & Htx' & ->)|[e ->]])|[HW HR]].
  - simpl in Hp. destruct Hp as [[-> ->]|(o & n & n' & st1 & r & E & H)].
    + exists W. eapply gate_inv_update; [done|done|]. left. eauto.
    + destruct H as [(b & -> & -> & ->)|(e & -> & ->)].
      * destruct (Htx' _ _ _ _ _ _ E) as [HN HG].
        exists (λ i, i = length l1). eapply gate_inv_pass; [done..|]. apply Hbody.
      * exists W. eapply gate_inv_update; [done|done|]. left. eauto.
  - done.
  - exists W. destruct (prog_step_rel (db_rel keeps_gate) p p' st st' Hp HR) as [HG HR'].
    eapply gate_inv_update; [done|exact HG|]. by right.
Qed.

Lemma gate_once others st ps st' :
  Forall (prog_rel (db_rel keeps_gate)) others →
  rtc pool_step (gate_threads ++ others, st) (ps, st') →
  ∀ i j a b, i < length txs → j < length txs →
    ps !! i = Some (Ret (Ok a)) → ps !! j = Some (Ret (Ok b)) → i = j.
Proof.
  intros Ho Hr. assert (H0 : ∃ W, gate_inv W (gate_threads ++ others, st)).
  { exists (λ _, False). split; [done|]. split; [done|]. simpl. intros i p Hi.
    unfold gate_threads in Hi. apply lookup_app_Some in Hi as [Hi|[Hl Hi]].
    - left. apply list_lookup_fmap_Some in Hi as (tx & -> & Hi).
      split; [by eapply lookup_lt_Some|]. split; [tauto|]. left. exists tx.
      split; [|done]. by eapply Forall_lookup_1.
    - right. rewrite length_map in Hl. split; [auto|]. by eapply Forall_lookup_1. }
  assert (H1 : ∃ W, gate_inv W (ps, st')).
  { revert H0. generalize dependent (gate_threads ++ others, st).
    intros s Hr. remember (ps, st') as s' eqn:Es. clear Es. induction Hr as [|x y z Hxy _ IH]; [done|].
    intros [W HW]. apply IH. by eapply gate_inv_step. }
  destruct H1 as (W & I1 & I2 & I3). intros i j a b Hi Hj Pi Pj.
  assert (HW : ∀ i a, i < length txs → ps !! i = Some (Ret (Ok a)) → W i).
  { intros k c Hk Pk. destruct (I3 k _ Pk) as [(_ & _ & [(tx & _ & E)|[e E]])|[[E|E] _]];
      [| |done|lia]; apply (f_equal ret_val) in E; cbn in E; congruence. }
  eauto.
Qed.
End Gate.

(** From an execution [E] to a [wp] goal over the ticks in [T]; the second form is for
    an execution whose result [r] is not a variable. *)
Ltac exec_start E T :=
  match type of E with
  | exec ?p ?o ?st = (?st', ?r) =>
      tryif is_var r then idtac
      else (let rr := fresh "r" in let Hr := fresh "Hr" in
            remember r as rr eqn:Hr in E; revert Hr)
  end;
  match type of E with
  | exec ?p ?o ?st = (?st', ?r) =>
      pattern st', r; refine (wp_exec p T o st _ st' r _ E _); [try done|];
      clear E; try clear r; try clear st'
  end.

(** Symbolic execution. [wp_step] goes through one action of the goal's program; what the
    tick of the action is known to satisfy stays in the context. [wp_calm] goes through
    every action it can when the ticks are calm, up to the first case analysis. *)
Ltac wp_red := cbn [ok_or map_err and_then is_ok fst snd st_db set_db negb]; cbv beta iota.

Ltac wp_step :=
  lazymatch goal with
  | |- wp (bind_ok _ _) _ _ _ => apply wp_bind_ok
  | |- wp (bind _ _) _ _ _ => apply wp_bind
  | |- wp (prog_map _ _) _ _ _ => unfold prog_map; apply wp_bind
  | |- wp (Ret _) _ _ _ => apply wp_ret
  | |- wp (ret_ok _) _ _ _ => unfold ret_ok; apply wp_ret
  | |- wp (ret_err _) _ _ _ => unfold ret_err; apply wp_ret
  | |- wp (lift _) _ _ _ => unfold lift; apply wp_ret
  | |- wp (select _) _ _ _ => apply wp_select; intros ? ?
  | |- wp (sql_app _) _ _ _ => apply wp_sql_app; intros ? ?
  | |- wp (sql _) _ _ _ => apply wp_sql; intros ? ?
  | |- wp utc_now _ _ _ => apply wp_utc_now; intros ? ?
  | |- wp new_uuid _ _ _ => apply wp_new_uuid; intros ? ?
  | |- wp (signal _ _) _ _ _ => apply wp_signal
  | |- wp (on_metrics _) _ _ _ => apply wp_on_metrics
  | |- wp (transaction _) (calm _) _ _ => apply wp_transaction_calm
  | |- wp (transaction _) (quiet _ _) _ _ =>
      eapply wp_transaction_quiet; [apply quiet_calm|]
  | |- wp (act _) _ _ _ => intros ? ?
  end; wp_red.

(** Use what a calm tick says. *)
Ltac calm_tick :=
  match goal with
  | H : calm _ ?t |- _ =>
      let F := fresh "F" in let D := fresh "D" in let A := fresh "A" in
      destruct H as (F & D & A); rewrite ?F; rewrite ?D, ?A
  | H : quiet _ _ ?t |- _ =>
      let F := fresh "F" in let D := fresh "D" in let A := fresh "A" in
      let U := fresh "U" in
      destruct H as ((F & D & A) & U); rewrite ?F; rewrite ?D, ?A
  end.

Ltac wp_calm := wp_red; repeat (wp_step; repeat calm_tick; wp_red).

(** Whether the statement at hand fails. *)
Ltac fault_case F :=
  match goal with |- context [t_fault ?t] => destruct (t_fault t) eqn:F end.

(** [prog_rel] by the hints of the called handlers, or action by action. *)
Ltac prog_rel_go := repeat first [solve [auto with loon nocore] | prog_rel_step].

#[export] Hint Resolve db_rel_preorder db_rel_rollback : loon.
#[export] Hint Extern 1 (PreOrder _) => exact _ : loon.

(** The combinators are reduced by the rules above only. *)
#[global] Arguments bind : simpl never.
#[global] Arguments wp : simpl never.
#[global] Arguments prog_rel : simpl never.
#[global] Arguments prog_map : simpl never.
