(* ===== verification/Auth.v ===== *)
(** * Sessions and request authentication

    [crates/core/src/auth/mod.rs] and [csrf.rs]: the opaque session tokens, of which the
    database holds only the hash; the token a request presents; the extractors
    [AuthUser] and [AdminUser]; the CSRF double submit. *)

From S2P Require Import Prelude RustStr Errors Models Table Realtime Schema Prog.

(** The third-party primitives: SHA-256, hexadecimal encoding, constant-time comparison.
    Only the documented result of the comparison is relied on. *)
Class Primitives := {
  sha256 : string → string;
  hex_encode : string → string;
  ct_eq : string → string → bool;
  ct_eq_spec : ∀ a b, ct_eq a b = true ↔ a = b
}.

Inductive Method : Type := GET | HEAD | OPTIONS | POST | PUT | PATCH | DELETE.

(** What a handler reads of a [HeaderMap]: the text of the first value of a header
    ([headers.get(name)] and [to_str().ok()]), [None] when there is none or it is not
    visible ASCII. *)
Abbreviation HeaderMap := (string → option string) (only parsing).

Definition AUTHORIZATION : string := "authorization".
Definition COOKIE : string := "cookie".
Definition CSRF_COOKIE_NAME : string := "loontail_csrf".
Definition CSRF_HEADER_NAME : string := "x-csrf-token".

Record ResolvedPrincipal : Type := mkPrincipal {
  pr_user_id : option Uuid;
  pr_auth_kind : string
}.

Definition anon : ResolvedPrincipal := mkPrincipal None "anon".

(** [PrincipalSlot]: written once per request, later writes are no-ops. *)
Abbreviation PrincipalSlot := (option ResolvedPrincipal) (only parsing).

Definition slot_set (principal : ResolvedPrincipal) (slot : PrincipalSlot) : PrincipalSlot :=
  match slot with Some p => Some p | None => Some principal end.

Record Parts : Type := mkParts { method : Method; headers : HeaderMap }.

(** ** The token a request presents *)

Definition or_else {A} (o : option A) (k : option A) : option A :=
  match o with Some a => Some a | None => k end.

Definition bearer_token_from_headers (h : HeaderMap) : option string :=
  match h AUTHORIZATION with
  | None => None
  | Some header =>
      match or_else (strip_prefix "Bearer " header) (strip_prefix "bearer " header) with
      | None => None
      | Some token =>
          let token := trim token in
          if (token =? "")%string then None else Some token
      end
  end.

(** The closure of [find_map]: a cookie pair of the given name. *)
Definition cookie_pair (name pair : string) : option string :=
  match split_once "=" (trim pair) with
  | None => None
  | Some (k, v) => if (trim k =? name)%string then Some (trim v) else None
  end.

Fixpoint find_map {A B} (f : A → option B) (l : list A) : option B :=
  match l with
  | [] => None
  | a :: l => match f a with Some b => Some b | None => find_map f l end
  end.

Definition cookie_value (h : HeaderMap) (name : string) : option string :=
  match h COOKIE with
  | None => None
  | Some header => find_map (cookie_pair name) (str_split ";" header)
  end.

Definition session_token_from_headers (h : HeaderMap) (cookie_name : string) : option string :=
  or_else (bearer_token_from_headers h) (cookie_value h cookie_name).

Inductive TokenSource : Type := Bearer | Cookie.

#[export] Instance TokenSource_eq_dec : EqDecision TokenSource.
Proof. solve_decision. Defined.

Definition session_token (parts : Parts) (cookie_name : string)
  : option (string * TokenSource) :=
  match bearer_token_from_headers (headers parts) with
  | Some token => Some (token, Bearer)
  | None =>
      match cookie_value (headers parts) cookie_name with
      | Some t => Some (t, Cookie)
      | None => None
      end
  end.

Definition is_mutating (m : Method) : bool :=
  match m with GET | HEAD | OPTIONS => false | _ => true end.

Section Auth.
Context `{Primitives}.

(** [hash_token]: the hexadecimal SHA-256 of the token. *)
Definition hash_token (token : string) : string := hex_encode (sha256 token).

(** [generate_token]: 32 random bytes in hexadecimal. *)
Definition generate_token : prog string := act (λ t st, (st, hex_encode (t_random t))).

Definition generate_csrf_token : prog string := generate_token.

Definition constant_time_eq (a b : string) : bool := ct_eq a b.

Definition verify_csrf (h : HeaderMap) : AppResult unit :=
  try cookie := ok_or Forbidden (cookie_value h CSRF_COOKIE_NAME) in
  try header := ok_or Forbidden (h CSRF_HEADER_NAME) in
  if (cookie =? "")%string || (header =? "")%string
     || negb (constant_time_eq cookie header)
  then Err Forbidden
  else Ok ().

(** ** Sessions *)

Record IssuedSession : Type := mkIssued { token : string; is_expires_at : Time }.

Definition insert_session (user_id : Uuid) (hash : string) (expires_at : Time)
  (t : Tick) (db : Db) : SqlResult (Db * unit) :=
  try _ := fk "sessions_user_id_fkey" user_id (users db) in
  try m := insert_row "sessions_pkey" [sessions_token_hash_key] (t_uuid t)
             (mkSession user_id hash expires_at None (t_db t)) (sessions db) in
  Ok (set_sessions m db, ()).

Definition issue_session (user_id : Uuid) (ttl : Duration) : prog (AppResult IssuedSession) :=
  let* token := generate_token in
  let* now := utc_now in
  let expires_at := (now + default (secs 604800) (from_std ttl))%Z in
  do? sql_app (insert_session user_id (hash_token token) expires_at);
  ret_ok (mkIssued token expires_at).

(** The join of [user_from_token]: the session is live and its user not blocked. *)
Definition live_session (hash : string) (now : Time) (db : Db) (s : Session) : bool :=
  (s_token_hash s =? hash)%string
  && bool_decide (s_revoked_at s = None)
  && (now <? s_expires_at s)%Z
  && match users db !! s_user_id s with Some u => negb (u_blocked u) | None => false end.

Definition query_user_of_token (hash : string) (t : Tick) (db : Db) : option (Keyed User) :=
  match find_row (λ _ s, live_session hash (t_db t) db s) (sessions db) with
  | Some s =>
      match users db !! s_user_id (row s) with
      | Some u => Some (mkKeyed (s_user_id (row s)) u)
      | None => None
      end
  | None => None
  end.

Definition user_from_token (token : string) : prog (AppResult (Keyed User)) :=
  let? user := select (query_user_of_token (hash_token token)) in
  lift (ok_or Unauthorized user).

(** [UPDATE sessions SET revoked_at = now() WHERE p AND revoked_at IS NULL], with the
    number of rows affected. *)
Definition revoke_where (p : Session → bool) (t : Tick) (db : Db) : SqlResult (Db * nat) :=
  let c := λ (_ : Uuid) s, p s && bool_decide (s_revoked_at s = None) in
  Ok (set_sessions
        (update_where c
           (λ s, mkSession (s_user_id s) (s_token_hash s) (s_expires_at s)
                   (Some (t_db t)) (s_created_at s)) (sessions db)) db,
      count_rows c (sessions db)).

Definition revoke_session (token : string) : prog (AppResult nat) :=
  sql_app (revoke_where (λ s, (s_token_hash s =? hash_token token)%string)).

Definition revoke_all_sessions_for_user (user_id : Uuid) : prog (AppResult nat) :=
  sql_app (revoke_where (λ s, (s_user_id s =? user_id)%N)).

Definition dead_session (now : Time) (s : Session) : bool :=
  (s_expires_at s <=? now)%Z || negb (bool_decide (s_revoked_at s = None)).

Definition cleanup_expired_sessions : prog (AppResult nat) :=
  sql_app (λ t db,
    Ok (set_sessions (delete_where (λ _ s, dead_session (t_db t) s) (sessions db)) db,
        count_rows (λ _ s, dead_session (t_db t) s) (sessions db))).

(** ** The extractors

    A request's slot is threaded through; an extractor answers with the slot as it
    leaves it and the user or the rejection. *)

Definition auth_user (cfg : Config) (parts : Parts) (slot : PrincipalSlot)
  : prog (PrincipalSlot * AppResult (Keyed User)) :=
  match session_token parts (admin_cookie_name cfg) with
  | None => Ret (slot_set anon slot, Err Unauthorized)
  | Some (token, source) =>
      let csrf :=
        if bool_decide (source = Cookie) && is_mutating (method parts)
        then verify_csrf (headers parts) else Ok () in
      match csrf with
      | Err e => Ret (slot, Err e)
      | Ok _ =>
          let* r := user_from_token token in
          match r with
          | Err err => Ret (slot_set anon slot, Err err)
          | Ok user =>
              let kind := if u_is_admin (row user) then "admin" else "session" in
              Ret (slot_set (mkPrincipal (Some (key user)) kind) slot, Ok user)
          end
      end
  end.

Definition admin_user (cfg : Config) (parts : Parts) (slot : PrincipalSlot)
  : prog (PrincipalSlot * AppResult (Keyed User)) :=
  let* '(slot, r) := auth_user cfg parts slot in
  match r with
  | Err e => Ret (slot, Err e)
  | Ok user =>
      if u_is_admin (row user) then Ret (slot, Ok user) else Ret (slot, Err Forbidden)
  end.
End Auth.

(** ** Lemmas *)

Section AuthLemmas.
Context `{Primitives}.

(** A live session of an unblocked user. *)
Definition authenticates (tok : string) (now : Time) (db : Db) (id : Uuid) (u : User) : Prop :=
  ∃ k s, sessions db !! k = Some s ∧ s_token_hash s = hash_token tok
    ∧ s_revoked_at s = None ∧ (now < s_expires_at s)%Z
    ∧ s_user_id s = id ∧ users db !! id = Some u ∧ u_blocked u = false.

Lemma live_session_true hash now db s :
  live_session hash now db s = true ↔
  s_token_hash s = hash ∧ s_revoked_at s = None ∧ (now < s_expires_at s)%Z
  ∧ ∃ u, users db !! s_user_id s = Some u ∧ u_blocked u = false.
Proof.
  unfold live_session. rewrite !andb_true_iff, String.eqb_eq, bool_decide_eq_true, Z.ltb_lt.
  destruct (users db !! s_user_id s) as [u|]; [|naive_solver].
  rewrite negb_true_iff. naive_solver.
Qed.

Lemma query_user_of_token_spec tok t db id u :
  uniq sessions_token_hash_key (sessions db) →
  query_user_of_token (hash_token tok) t db = Some (mkKeyed id u) ↔
  authenticates tok (t_db t) db id u.
Proof.
  intros Hu. unfold query_user_of_token. split.
  - destruct (find_row _ _) as [[k s]|] eqn:E; [|done].
    apply find_row_Some in E as [Ek L]; simpl in *.
    apply live_session_true in L as (Lh & Lr & Le & u' & Lu & Lb). rewrite Lu.
    intros [= <- <-]. unfold authenticates. eauto 12.
  - intros (k & s & Hs & Hh & Hr & He & <- & Hus & Hb).
    rewrite (find_row_unique _ _ k s Hs).
    + simpl. by rewrite Hus.
    + apply live_session_true. eauto 8.
    + intros k' s' Hs' L. apply live_session_true in L as (Lh & _).
      eapply (Hu k' k s' s Hs' Hs). simpl. apply String.eqb_eq. congruence.
Qed.

Lemma query_user_of_token_auth tok t db x :
  query_user_of_token (hash_token tok) t db = Some x →
  authenticates tok (t_db t) db (key x) (row x).
Proof.
  unfold query_user_of_token. destruct (find_row _ _) as [[k s]|] eqn:E; [|done].
  apply find_row_Some in E as [Ek L]; simpl in *.
  apply live_session_true in L as (Lh & Lr & Le & u' & Lu & Lb). rewrite Lu.
  intros [= <-]. unfold authenticates. simpl. eauto 12.
Qed.

Lemma wp_user_from_token tok T st (Q : AppState → AppResult (Keyed User) → Prop) :
  (∀ t, T t → t_fault t = true → Q st (Err (Database Io))) →
  (∀ t, T t → t_fault t = false →
    match query_user_of_token (hash_token tok) t (st_db st) with
    | Some x => Q st (Ok x)
    | None => Q st (Err Unauthorized)
    end) →
  wp (user_from_token tok) T st Q.
Proof.
  intros HF HOk. apply wp_bind_ok, wp_select. intros t Ht.
  destruct (t_fault t) eqn:F; [by eauto|]. specialize (HOk t Ht F).
  by destruct (query_user_of_token _ t (st_db st)).
Qed.

Lemma verify_csrf_ok h :
  verify_csrf h = Ok () ↔
  ∃ v, v ≠ "" ∧ cookie_value h CSRF_COOKIE_NAME = Some v ∧ h CSRF_HEADER_NAME = Some v.
Proof.
  unfold verify_csrf, constant_time_eq.
  destruct (cookie_value h CSRF_COOKIE_NAME) as [c|], (h CSRF_HEADER_NAME) as [x|];
    simpl; try naive_solver.
  destruct (String.eqb_spec c ""), (String.eqb_spec x ""); simpl; try naive_solver.
  pose proof (ct_eq_spec c x) as S. destruct (ct_eq c x); simpl; naive_solver.
Qed.

Lemma verify_csrf_err h e : verify_csrf h = Err e → e = Forbidden.
Proof.
  unfold verify_csrf. destruct (cookie_value h CSRF_COOKIE_NAME), (h CSRF_HEADER_NAME);
    simpl; try congruence. destruct (_ || _); congruence.
Qed.

Lemma insert_session_ok user_id hash exp t db db' u :
  insert_session user_id hash exp t db = Ok (db', u) →
  is_Some (users db !! user_id) ∧ sessions db !! t_uuid t = None
  ∧ db' = set_sessions (<[t_uuid t := mkSession user_id hash exp None (t_db t)]> (sessions db)) db
  ∧ violated [sessions_token_hash_key] (t_uuid t)
      (mkSession user_id hash exp None (t_db t)) (sessions db) = None.
Proof.
  unfold insert_session. rewrite and_then_ok. intros (? & Hfk & H1).
  apply and_then_ok in H1 as (m & Hi & [= <- <-]).
  apply insert_row_ok in Hi as (Hn & -> & Hv). destruct x. by apply fk_ok in Hfk.
Qed.
End AuthLemmas.

Section AuthProofs.
Context `{Primitives}.

Lemma wp_issue_session user_id ttl T st (Q : AppState → AppResult IssuedSession → Prop) :
  (∀ e, Q st (Err e)) →
  (∀ t0 t1 t2, T t0 → T t1 → T t2 →
    let tok := hex_encode (t_random t0) in
    let exp := (t_app t1 + default (secs 604800) (from_std ttl))%Z in
    ∀ db', insert_session user_id (hash_token tok) exp t2 (st_db st) = Ok (db', ()) →
    Q (set_db db' st) (Ok (mkIssued tok exp))) →
  wp (issue_session user_id ttl) T st Q.
Proof.
  intros HE HOk. apply wp_bind. intros t0 H0. apply wp_bind. intros t1 H1.
  apply wp_bind_ok, wp_sql_app. intros t2 H2. cbn [snd fst].
  destruct (t_fault t2); [apply HE|].
  destruct (insert_session _ _ _ _ _) as [[db' []]|e] eqn:E; [|apply HE].
  apply (HOk t0 t1 t2); done.
Qed.

Lemma authenticates_new tok now' db k s id u :
  uniq sessions_token_hash_key (sessions db) →
  sessions db !! k = Some s → s_token_hash s = hash_token tok →
  authenticates tok now' db id u ↔
  s_revoked_at s = None ∧ (now' < s_expires_at s)%Z ∧ s_user_id s = id
  ∧ users db !! id = Some u ∧ u_blocked u = false.
Proof.
  intros Hu Hk Hh. split.
  - intros (k' & s' & Hk' & Hh' & H').
    assert (k' = k) as ->.
    { eapply (Hu k' k s' s Hk' Hk). simpl. apply String.eqb_eq. congruence. }
    by simplify_eq.
  - intros (Hr & He & Hid & Hus & Hb). exists k, s. by rewrite Hid.
Qed.

Lemma revoke_where_authenticates p t db db' n tok now id :
  (∀ s, p s = true ↔ s_user_id s = id) →
  revoke_where p t db = Ok (db', n) →
  ∀ id' u, authenticates tok now db' id' u ↔ authenticates tok now db id' u ∧ id' ≠ id.
Proof.
  intros Hp [= <- <-] id' u'. unfold authenticates. simpl. split.
  - intros (k & s & Hs & Hh & Hr & He & Hid & Hus & Hb).
    apply lookup_update_where_Some in Hs as (s0 & Hs0 & ->).
    destruct (p s0 && _) eqn:P; simpl in *; [done|].
    split; [by eauto 12|]. intros ->. rewrite Hr, (proj2 (Hp s0) Hid) in P. done.
  - intros ((k & s & Hs & Hh & Hr & He & Hid & Hus & Hb) & Hne).
    exists k, s. repeat split; try done. apply lookup_update_where_Some.
    exists s. split; [done|]. destruct (p s && _) eqn:P; [|done].
    apply andb_true_iff in P as [P _]. apply Hp in P. congruence.
Qed.

(** The requests [auth_user] lets through. *)
Definition presents (cfg : Config) (parts : Parts) (tok : string) : Prop :=
  ∃ source, session_token parts (admin_cookie_name cfg) = Some (tok, source)
    ∧ (source = Cookie → is_mutating (method parts) = true →
       ∃ v, v ≠ "" ∧ cookie_value (headers parts) CSRF_COOKIE_NAME = Some v
            ∧ headers parts CSRF_HEADER_NAME = Some v).

Lemma presents_fun cfg parts tok tok' :
  presents cfg parts tok → presents cfg parts tok' → tok = tok'.
Proof. intros (s & E & _) (s' & E' & _). congruence. Qed.

Lemma authenticates_fun tok now db id u id' u' :
  uniq sessions_token_hash_key (sessions db) →
  authenticates tok now db id u → authenticates tok now db id' u' → id = id' ∧ u = u'.
Proof.
  intros Hu (k & s & Hs & Hh & _ & _ & <- & Hus & _) (k' & s' & Hs' & Hh' & _ & _ & <- & Hus' & _).
  assert (k = k') as <-; [|by simplify_eq].
  eapply (Hu k k' s s' Hs Hs'). simpl. apply String.eqb_eq. congruence.
Qed.

Lemma wp_auth_user cfg parts slot now st (Q : AppState → PrincipalSlot * AppResult (Keyed User) → Prop) :
  uniq sessions_token_hash_key (sessions (st_db st)) →
  (∀ tok x, presents cfg parts tok → authenticates tok now (st_db st) (key x) (row x) →
    Q st (slot_set (mkPrincipal (Some (key x)) (if u_is_admin (row x) then "admin" else "session")) slot,
          Ok x)) →
  ((∀ tok id u, presents cfg parts tok → ¬ authenticates tok now (st_db st) id u) →
    ∀ slot' e, Q st (slot', Err e)) →
  wp (auth_user cfg parts slot) (calm now) st Q.
Proof.
  intros Hu HOk HErr. unfold auth_user.
  destruct (session_token parts (admin_cookie_name cfg)) as [[tok src]|] eqn:E; cycle 1.
  { apply wp_ret, HErr. intros tok id u (s & E' & _). congruence. }
  destruct (if _ && _ then _ else _) as [[]|e] eqn:C; cycle 1.
  { apply wp_ret, HErr. intros tok' id u (s & E' & HC). simplify_eq.
    destruct (bool_decide (src = Cookie) && is_mutating (method parts)) eqn:B; [|done].
    apply andb_true_iff in B as [B M]. apply bool_decide_eq_true in B.
    rewrite (proj2 (verify_csrf_ok (headers parts)) (HC B M)) in C. done. }
  assert (P : presents cfg parts tok).
  { exists src. split; [done|]. intros -> M. rewrite M in C. by apply verify_csrf_ok. }
  apply wp_bind, wp_user_from_token; [intros t (F & _); congruence|].
  intros t (F & D & A) _.
  destruct (query_user_of_token (hash_token tok) t (st_db st)) as [x|] eqn:X.
  - apply wp_ret. apply query_user_of_token_auth in X. rewrite D in X. by eapply HOk.
  - apply wp_ret, HErr. intros tok' id u (s & E' & _) Ha. rewrite E in E'. injection E' as <- <-.
    rewrite <- D in Ha. apply (query_user_of_token_spec tok t _ id u Hu) in Ha. congruence.
Qed.
End AuthProofs.

(** ** Properties *)

Section AuthProperties.
Context `{Primitives}.

(** A session issued for a user authenticates exactly that user: from the state the
    issuing left, until the expiry it returned and while the user is not blocked,
    presenting the token resolves to the user's current row; afterwards, or when the
    user is blocked, it is [Unauthorized]. The lookup changes nothing. *)
Theorem session_roundtrip user_id ttl o st st' issued now o' :
  uniq sessions_token_hash_key (sessions (st_db st)) →
  exec (issue_session user_id ttl) o st = (st', Ok issued) →
  (∀ i, calm now (o' i)) →
  exec (user_from_token (token issued)) o' st' =
  (st', match users (st_db st') !! user_id with
        | Some u => if (now <? is_expires_at issued)%Z && negb (u_blocked u)
                    then Ok (mkKeyed user_id u) else Err Unauthorized
        | None => Err Unauthorized
        end).
Proof.
  intros Hu Hex Ho'.
  exec_start Hex any_tick.
  apply wp_issue_session; [done|]. intros t0 t1 t2 _ _ _ tok exp db' Hi [= <-].
  apply insert_session_ok in Hi as (_ & Hn & -> & Hv).
  destruct (exec (user_from_token _) o' _) as [st1 r] eqn:E.
  exec_start E (calm now).
  apply wp_user_from_token; [by intros t (F & _) ?; congruence|].
  intros t (_ & D & _) _. cbn [st_db set_db token is_expires_at].
  set (s := mkSession user_id (hash_token tok) exp None (t_db t2)) in *.
  set (db := set_sessions _ _).
  assert (Hu' : uniq sessions_token_hash_key (sessions db)).
  { apply uniq_insert; auto with loon. by apply (proj1 (violated_None _ _ _ _) Hv), list_elem_of_singleton. }
  assert (Hs : sessions db !! t_uuid t2 = Some s) by apply lookup_insert_eq.
  pose proof (λ id u, authenticates_new tok now db _ s id u Hu' Hs eq_refl) as HA.
  destruct (query_user_of_token _ t db) as [[id u]|] eqn:X.
  - apply query_user_of_token_auth in X. rewrite D in X. apply HA in X as (_ & He & Hid & Hus & Hb).
    simpl in He, Hid, Hus, Hb. subst id. cbn [key row].
    change (users db) with (users (st_db st)) in Hus |- *. rewrite Hus, Hb.
    by rewrite (proj2 (Z.ltb_lt _ _) He).
  - destruct (users db !! user_id) as [u|] eqn:U; [|done].
    destruct (now <? exp)%Z eqn:He; [|done]. destruct (u_blocked u) eqn:Hb; [done|].
    exfalso. apply Z.ltb_lt in He. rewrite <- D in HA.
    assert (Ha : authenticates tok (t_db t) db user_id u) by (apply HA; simpl; subst now; auto).
    apply query_user_of_token_spec in Ha; [|done]. congruence.
Qed.

(** Revoking all of a user's sessions ends exactly those: afterwards no token
    authenticates that user, at any later time, and every token of another user
    authenticates as before. *)
Theorem revoke_all_exact user_id o st st' n tok now id u :
  exec (revoke_all_sessions_for_user user_id) o st = (st', Ok n) →
  authenticates tok now (st_db st') id u ↔
  authenticates tok now (st_db st) id u ∧ id ≠ user_id.
Proof.
  intros Hex. exec_start Hex any_tick.
  apply wp_sql_app. intros t _. destruct (t_fault t); [done|].
  destruct (revoke_where _ t (st_db st)) as [[db' n']|e] eqn:E; [|done]. intros _.
  eapply revoke_where_authenticates in E; [apply E|]. intros s. simpl. apply N.eqb_eq.
Qed.

Definition admitted (cfg : Config) (parts : Parts) (now : Time) (db : Db) : Prop :=
  ∃ tok id u, presents cfg parts tok ∧ authenticates tok now db id u ∧ u_is_admin u = true.

Lemma wp_admin_user cfg parts slot now st (Q : AppState → PrincipalSlot * AppResult (Keyed User) → Prop) :
  uniq sessions_token_hash_key (sessions (st_db st)) →
  (∀ answer, is_ok answer.2 = true ↔ admitted cfg parts now (st_db st) → Q st answer) →
  wp (admin_user cfg parts slot) (calm now) st Q.
Proof.
  intros Hu HQ. apply wp_bind, wp_auth_user; [done| |].
  - intros tok x P A. destruct (u_is_admin (row x)) eqn:Ad; apply wp_ret, HQ; simpl.
    + split; [|done]. intros _. unfold admitted. eauto 8.
    + split; [done|]. intros (tok' & id & u & P' & A' & Adm).
      rewrite (presents_fun _ _ _ _ P' P) in A'.
      destruct (authenticates_fun _ _ _ _ _ _ _ Hu A' A). congruence.
  - intros HN slot1 e. apply wp_ret, HQ. simpl. split; [done|].
    intros (tok & id & u & P & Ha & _). by eapply HN in Ha.
Qed.

(** C15. The admin gate. A request passes [AdminUser] exactly when the token it presents
    (the Bearer header first, then the cookie) is that of a live session of an
    unblocked administrator and, if it came in the cookie of a mutating request, the
    CSRF header is present, non-empty and equal to the CSRF cookie. Neither answer
    changes the state. *)
Theorem admin_gate cfg parts slot o st now st' answer :
  uniq sessions_token_hash_key (sessions (st_db st)) →
  (∀ i, calm now (o i)) →
  exec (admin_user cfg parts slot) o st = (st', answer) →
  st' = st ∧
  (is_ok answer.2 = true ↔ ∃ tok id u, presents cfg parts tok
     ∧ authenticates tok now (st_db st) id u ∧ u_is_admin u = true).
Proof.
  intros Hu Ho Hex. exec_start Hex (calm now). apply wp_admin_user; [done|].
  intros answer E. by split.
Qed.
End AuthProperties.

(** ** Concrete instances *)

(** Primitives that compute, for evaluation. *)
Definition toy_primitives : Primitives.
Proof.
  refine {| sha256 := λ s, "#" +:+ s; hex_encode := λ s, s; ct_eq := String.eqb |}.
  apply String.eqb_eq.
Defined.

Definition ada : User :=
  mkUser None "Ada" "ada" None None None 0 0 0 0 None None "launcher" None true false true.

Definition st_ada : AppState := set_db (set_users {[ 7%N := ada ]} db_empty) state_new.

Lemma session_roundtrip_witness :
  let issue := exec (issue_session (H := toy_primitives) 7 (secs 60)) (calm_oracle 5) st_ada in
  let issued := mkIssued "" (secs 60 + 5) in
  uniq sessions_token_hash_key (sessions (st_db st_ada)) ∧ issue = (issue.1, Ok issued) ∧
  exec (user_from_token (H := toy_primitives) (token issued)) (calm_oracle 6) issue.1
  = (issue.1, match users (st_db issue.1) !! 7%N with
              | Some u => if (6 <? is_expires_at issued)%Z && negb (u_blocked u)
                          then Ok (mkKeyed 7%N u) else Err Unauthorized
              | None => Err Unauthorized
              end).
Proof.
  intros issue issued.
  assert (U : uniq sessions_token_hash_key (sessions (st_db st_ada))) by (intros k1 k2 r1 r2; done).
  assert (E : issue = (issue.1, Ok issued)) by (vm_compute; reflexivity).
  split; [exact U|]. split; [exact E|].
  exact (session_roundtrip (H := toy_primitives) 7 (secs 60) (calm_oracle 5) st_ada issue.1
           issued 6 (calm_oracle 6) U E (calm_oracle_calm 6)).
Defined.

(** The state in which user 7 holds a live session for the token [""]. *)
Definition st_ada_in : AppState :=
  (exec (issue_session (H := toy_primitives) 7 (secs 60)) (calm_oracle 5) st_ada).1.

Lemma revoke_all_exact_witness :
  let r := exec (revoke_all_sessions_for_user 7) (calm_oracle 6) st_ada_in in
  r = (r.1, Ok 1%nat) ∧
  (authenticates (H := toy_primitives) "" 7 (st_db r.1) 7 ada ↔
   authenticates (H := toy_primitives) "" 7 (st_db st_ada_in) 7 ada ∧ 7%N ≠ 7%N).
Proof.
  intros r. assert (E : r = (r.1, Ok 1%nat)) by (vm_compute; reflexivity).
  split; [exact E|].
  exact (revoke_all_exact (H := toy_primitives) 7 (calm_oracle 6) st_ada_in r.1 1 "" 7 7 ada E).
Defined.

Definition cookie_post (csrf : string) : Parts :=
  mkParts POST (λ name,
    if (name =? COOKIE)%string then Some "loontail_csrf=k1; loontail_admin=abc"
    else if (name =? CSRF_HEADER_NAME)%string then Some csrf
    else None).

(** As [st_ada_in], with the token ["abc"]. *)
Definition st_ada_abc : AppState :=
  (exec (issue_session (H := toy_primitives) 7 (secs 60)) (λ i, mkTick 5 5 1000 "abc" false) st_ada).1.

Lemma admin_gate_witness :
  let r := exec (admin_user (H := toy_primitives) default_config (cookie_post "k1") None)
             (calm_oracle 6) st_ada_abc in
  uniq sessions_token_hash_key (sessions (st_db st_ada_abc)) ∧
  is_ok r.2.2 = true ∧
  r.1 = st_ada_abc ∧
  (is_ok r.2.2 = true ↔ ∃ tok id u,
     presents default_config (cookie_post "k1") tok
     ∧ authenticates (H := toy_primitives) tok 6 (st_db st_ada_abc) id u ∧ u_is_admin u = true).
Proof.
  intros r.
  assert (U : uniq sessions_token_hash_key (sessions (st_db st_ada_abc))).
  { apply uniqb_sound. vm_compute. reflexivity. }
  assert (E : r = (r.1, r.2)) by (by destruct r).
  split; [exact U|]. split; [vm_compute; reflexivity|].
  exact (admin_gate (H := toy_primitives) default_config (cookie_post "k1") None (calm_oracle 6)
           st_ada_abc 6 r.1 r.2 U (calm_oracle_calm 6) E).
Defined.

Example admin_gate_csrf_mismatch :
  (exec (admin_user (H := toy_primitives) default_config (cookie_post "k2") None)
     (calm_oracle 6) st_ada_abc).2 = (None, Err Forbidden).
Proof. vm_compute. reflexivity. Qed.
