(* ===== verification/RateLimit.v ===== *)
(** * The credential rate limiter

    [crates/server/src/ip.rs]: which address a request counts against, and
    [crates/server/src/ratelimit.rs]: the sliding windows per address, their sweep and
    their eviction at the cap, and the middleware's decision. Each check holds the lock
    throughout, so it is one function on the limiter's state. Instants are microseconds
    of the monotonic clock. *)

From S2P Require Import Prelude RustStr Errors Auth.

(** ** Addresses *)

(** The 32 or 128 bits of the address, first octet most significant. *)
Inductive IpAddr : Type :=
| V4 (bits : N)
| V6 (bits : N).

#[export] Instance IpAddr_eq_dec : EqDecision IpAddr.
Proof. solve_decision. Defined.

#[export] Instance IpAddr_countable : Countable IpAddr.
Proof.
  apply (inj_countable' (λ ip, match ip with V4 b => inl b | V6 b => inr b end)
           (λ s, match s with inl b => V4 b | inr b => V6 b end)).
  by intros [].
Defined.

(** [impl Ord for IpAddr]. *)
Definition ip_le (a b : IpAddr) : bool :=
  match a, b with
  | V4 x, V4 y => (x <=? y)%N
  | V4 _, V6 _ => true
  | V6 _, V4 _ => false
  | V6 x, V6 y => (x <=? y)%N
  end.

(** [str::parse::<IpAddr>]. *)
Class IpParser := parse_ip : string → option IpAddr.

Section ClientIp.
Context `{IpParser}.

(** The first element of a list that [f] maps to something. *)
Fixpoint find_map {A B} (f : A → option B) (l : list A) : option B :=
  match l with
  | [] => None
  | x :: l => match f x with Some y => Some y | None => find_map f l end
  end.

Definition forwarded_for_rightmost (headers : HeaderMap) : option IpAddr :=
  match headers "x-forwarded-for" with
  | Some v => find_map (λ hop, parse_ip (trim hop)) (rev (str_split "," v))
  | None => None
  end.

Definition real_ip (headers : HeaderMap) : option IpAddr :=
  match headers "x-real-ip" with Some raw => parse_ip (trim raw) | None => None end.

Definition client_ip (headers : HeaderMap) (peer_addr : option IpAddr) (trusted_proxy : bool)
  : option IpAddr :=
  if negb trusted_proxy then peer_addr
  else match forwarded_for_rightmost headers with
       | Some ip => Some ip
       | None => match real_ip headers with Some ip => Some ip | None => peer_addr end
       end.
End ClientIp.

(** [limiter_key]: the low 8 of the 16 octets of an IPv6 address are zeroed. *)
Definition limiter_key (ip : IpAddr) : IpAddr :=
  match ip with
  | V4 _ => ip
  | V6 v6 => V6 (N.shiftl (N.shiftr v6 64) 64)
  end.

(** ** State *)

Record RateLimiter : Type := mkLimiter {
  max_attempts : nat;       (* u32 *)
  window : Duration;
  trusted_proxy : bool;
  throttled : list string
}.

Record Buckets : Type := mkBuckets {
  bk_map : gmap IpAddr (list Time);    (* oldest hit first *)
  last_sweep : option Time
}.

Record LimiterState : Type := mkLimiterState {
  hits : Buckets;
  unresolved : list Time
}.

Definition limiter_new : LimiterState := mkLimiterState (mkBuckets ∅ None) [].

Definition MAX_TRACKED_IPS : Z := 100000.
Definition EVICT_BATCH : Z := MAX_TRACKED_IPS / 10.

(** The earliest [Instant]: [i64] seconds. *)
Definition INSTANT_MIN : Time := (- 2 ^ 63 * 1000000)%Z.

(** [now.checked_sub(window).unwrap_or(now)]. *)
Definition cutoff_at (now : Time) (window : Duration) : Time :=
  if (INSTANT_MIN <=? now - window)%Z then (now - window)%Z else now.

(** ** Operations *)

(** [while bucket.front().is_some_and(|&t| t <= cutoff) { bucket.pop_front(); }]. *)
Fixpoint prune (cutoff : Time) (bucket : list Time) : list Time :=
  match bucket with
  | t :: rest => if (t <=? cutoff)%Z then prune cutoff rest else bucket
  | [] => []
  end.

(** [Buckets::sweep_if_due]; [duration_since] saturates at zero. *)
Definition sweep_if_due (now cutoff : Time) (window : Duration) (b : Buckets) : Buckets :=
  let due := match last_sweep b with
             | Some previous => (window <=? Z.max 0 (now - previous))%Z
             | None => true
             end in
  if negb due then b
  else mkBuckets
         (map_imap (λ _ bucket, match last bucket with
                                | Some t => if (cutoff <? t)%Z then Some bucket else None
                                | None => None
                                end) (bk_map b)) (Some now).

(** The order of the [(Option<Instant>, IpAddr)] pairs. *)
Definition staler (a b : option Time * IpAddr) : Prop :=
  match a.1, b.1 with
  | None, None => ip_le a.2 b.2 = true
  | None, Some _ => True
  | Some _, None => False
  | Some s, Some t => (s < t)%Z ∨ (s = t ∧ ip_le a.2 b.2 = true)
  end.
#[export] Instance staler_dec : RelDecision staler.
Proof. intros [[s|] i] [[t|] j]; unfold staler; simpl; apply _. Defined.

(** [Buckets::evict_stalest]. *)
Definition evict_stalest (count : Z) (b : Buckets) : Buckets :=
  let count := Z.min count (Z.of_nat (size (bk_map b))) in
  if (count =? 0)%Z then b
  else
    let recency := map (λ kb, (last kb.2, kb.1)) (map_to_list (bk_map b)) in
    mkBuckets (foldr (λ sk m, delete sk.2 m) (bk_map b)
                 (take (Z.to_nat count) (merge_sort staler recency))) (last_sweep b).

(** [bucket.len() >= max], or one more hit. *)
Definition admit_hit (max : nat) (now : Time) (bucket : list Time) : list Time * bool :=
  if (max <=? length bucket)%nat then (bucket, false) else (bucket ++ [now], true).

(** [RateLimiter::check_at]. *)
Definition check_at (lim : RateLimiter) (ip : IpAddr) (now : Time) (s : LimiterState)
  : LimiterState * bool :=
  let key := limiter_key ip in
  let cutoff := cutoff_at now (window lim) in
  let b := sweep_if_due now cutoff (window lim) (hits s) in
  let b := if (MAX_TRACKED_IPS <=? Z.of_nat (size (bk_map b)))%Z
              && negb (bool_decide (is_Some (bk_map b !! key)))
           then evict_stalest EVICT_BATCH b else b in
  let '(bucket, ok) :=
    admit_hit (max_attempts lim) now (prune cutoff (default [] (bk_map b !! key))) in
  (mkLimiterState (mkBuckets (<[key := bucket]> (bk_map b)) (last_sweep b)) (unresolved s), ok).

(** [RateLimiter::check_unresolved_at]. *)
Definition check_unresolved_at (lim : RateLimiter) (now : Time) (s : LimiterState)
  : LimiterState * bool :=
  let cutoff := cutoff_at now (window lim) in
  let '(bucket, ok) := admit_hit (max_attempts lim) now (prune cutoff (unresolved s)) in
  (mkLimiterState (hits s) bucket, ok).

(** [RateLimiter::throttled_paths]. *)
Definition throttled_paths (yggdrasil_mount_prefix : string) : list string :=
  ["/admin/auth/login"; "/api/auth/login"; "/api/auth/register";
   yggdrasil_mount_prefix +:+ "/authserver/authenticate";
   yggdrasil_mount_prefix +:+ "/authserver/refresh"].

Definition is_throttled_path (lim : RateLimiter) (path : string) : bool :=
  existsb (λ p, (p =? path)%string) (throttled lim).

(** [rate_limit_middleware]: [Ok] when the request is passed on. *)
Definition rate_limit_middleware `{IpParser} (lim : RateLimiter) (path : string)
  (headers : HeaderMap) (peer : option IpAddr) (now : Time) (s : LimiterState)
  : LimiterState * AppResult unit :=
  if negb (is_throttled_path lim path) then (s, Ok ())
  else
    let '(s, allowed) :=
      match client_ip headers peer (trusted_proxy lim) with
      | Some ip => check_at lim ip now s
      | None => check_unresolved_at lim now s
      end in
    (s, if negb allowed then Err TooManyRequests else Ok ()).

(** ** The reference: a log of attempts *)

Record Attempt : Type := mkAttempt { at_key : IpAddr; at_time : Time; at_ok : bool }.

(** The admitted attempts of a key, oldest first. *)
Definition admitted (k : IpAddr) (log : list Attempt) : list Time :=
  map at_time (List.filter (λ a, bool_decide (at_key a = k) && at_ok a) log).

(** An attempt passes when fewer than the maximum were admitted in the window before it. *)
Definition within_budget (lim : RateLimiter) (k : IpAddr) (now : Time) (log : list Attempt) : bool :=
  (length (List.filter (λ t, (now - window lim <? t)%Z) (admitted k log)) <? max_attempts lim)%nat.

Fixpoint log_of (lim : RateLimiter) (log : list Attempt) (calls : list (IpAddr * Time)) : list Attempt :=
  match calls with
  | [] => log
  | (ip, now) :: calls =>
      let k := limiter_key ip in
      log_of lim (log ++ [mkAttempt k now (within_budget lim k now log)]) calls
  end.

(** The attempts the limiter itself decides, as a log. *)
Fixpoint run_checks (lim : RateLimiter) (calls : list (IpAddr * Time)) (s : LimiterState)
  : list Attempt :=
  match calls with
  | [] => []
  | (ip, now) :: calls =>
      let '(s, ok) := check_at lim ip now s in
      mkAttempt (limiter_key ip) now ok :: run_checks lim calls s
  end.

(** ** Lemmas *)

Lemma prune_split c l : ∃ d, l = d ++ prune c l ∧ Forall (λ t, (t ≤ c)%Z) d.
Proof.
  induction l as [|t l IH]; simpl; [by exists []|]. destruct (Z.leb_spec t c); [|by exists []].
  destruct IH as (d & E & F). exists (t :: d). split; [by rewrite E at 1|by constructor].
Qed.

Lemma filter_old c d : Forall (λ t, (t ≤ c)%Z) d → List.filter (λ t, (c <? t)%Z) d = [].
Proof.
  induction 1 as [|t d Ht _ IH]; simpl; [done|]. by rewrite (proj2 (Z.ltb_ge _ _) Ht).
Qed.

Lemma prune_filter c l :
  StronglySorted Z.le l → prune c l = List.filter (λ t, (c <? t)%Z) l.
Proof.
  induction 1 as [|t l Hs IH Hall]; simpl; [done|].
  destruct (Z.leb_spec t c).
  - by rewrite (proj2 (Z.ltb_ge c t)).
  - rewrite (proj2 (Z.ltb_lt c t)) by done. f_equal. clear -Hall H. symmetry.
    induction Hall as [|u l Hu _ IH]; simpl; [done|].
    rewrite (proj2 (Z.ltb_lt c u)) by lia. by f_equal.
Qed.

Lemma sorted_snoc l t : StronglySorted Z.le l → Forall (λ u, (u ≤ t)%Z) l → StronglySorted Z.le (l ++ [t]).
Proof.
  induction 1 as [|u l Hs IH Hall]; simpl; intros F; [repeat constructor|].
  apply Forall_cons in F as [Hu F]. constructor; [by apply IH|].
  apply Forall_app. split; [done|]. by repeat constructor.
Qed.

(** The newest hit of a sorted bucket bounds it. *)
Lemma last_bounds (l : list Time) c :
  StronglySorted Z.le l →
  match last l with Some t => (t ≤ c)%Z | None => True end → Forall (λ t, (t ≤ c)%Z) l.
Proof.
  induction l as [|t l IH] using rev_ind; [constructor|]. rewrite last_snoc.
  intros Hs Ht. apply Forall_app. split; [|by repeat constructor].
  apply StronglySorted_app in Hs as (Hlt & _ & _). apply Forall_forall. intros u Hu.
  specialize (Hlt u t Hu ltac:(by constructor)). lia.
Qed.

Lemma admitted_snoc k a log :
  admitted k (log ++ [a])
  = admitted k log ++ (if bool_decide (at_key a = k) && at_ok a then [at_time a] else []).
Proof.
  unfold admitted. rewrite List.filter_app, map_app. simpl. by destruct (_ && _).
Qed.

Definition bucket_of (b : Buckets) (k : IpAddr) : list Time := default [] (bk_map b !! k).

(** The buckets [b] hold what the log says up to instants that no window from [now] on
    reaches; they are kept only for keys in [keys]. *)
Record tracks (lim : RateLimiter) (keys : list IpAddr) (now : Time) (b : Buckets)
  (log : list Attempt) : Prop := {
  tr_sorted : ∀ k, StronglySorted Z.le (admitted k log);
  tr_past : ∀ k, Forall (λ t, (t ≤ now)%Z) (admitted k log);
  tr_split : ∀ k, ∃ d, admitted k log = d ++ bucket_of b k ∧ Forall (λ t, (t ≤ now - window lim)%Z) d;
  tr_keys : ∀ k, is_Some (bk_map b !! k) → k ∈ keys
}.

Lemma tracks_later lim keys now now' b log :
  (now ≤ now')%Z → tracks lim keys now b log → tracks lim keys now' b log.
Proof.
  intros Hle [T1 T2 T3 T4]. split; [done| | |done].
  - intros k. eapply Forall_impl; [apply T2|]. simpl. lia.
  - intros k. destruct (T3 k) as (d & E & F). exists d. split; [done|].
    eapply Forall_impl; [exact F|]. simpl. lia.
Qed.

Lemma bucket_sorted lim keys now b log k : tracks lim keys now b log → StronglySorted Z.le (bucket_of b k).
Proof.
  intros [T1 _ T3 _]. destruct (T3 k) as (d & E & _). specialize (T1 k). rewrite E in T1.
  by apply StronglySorted_app in T1 as (_ & _ & ?).
Qed.

Lemma tracks_sweep lim keys now b log :
  tracks lim keys now b log → tracks lim keys now (sweep_if_due now (now - window lim) (window lim) b) log.
Proof.
  intros T. unfold sweep_if_due. destruct (negb _); [done|].
  split; [apply T|apply T| |].
  - intros k. destruct (tr_split _ _ _ _ _ T k) as (d & E & F).
    assert (Hs := bucket_sorted _ _ _ _ _ k T).
    unfold bucket_of in *. simpl. rewrite map_lookup_imap.
    destruct (bk_map b !! k) as [l|]; simpl in *; [|eauto].
    destruct (last l) as [t|] eqn:L; [destruct (Z.ltb_spec (now - window lim) t)|]; [by eauto| |];
      exists (d ++ l); rewrite app_nil_r; (split; [done|]); apply Forall_app; (split; [done|]);
      apply last_bounds; rewrite ?L; done.
  - intros k. simpl. rewrite map_lookup_imap. intros [x Hx]. apply (tr_keys _ _ _ _ _ T).
    destruct (bk_map b !! k); [eauto|done].
Qed.

Lemma size_keys (m : gmap IpAddr (list Time)) keys :
  (∀ k, is_Some (m !! k) → k ∈ keys) → (size m ≤ length keys)%nat.
Proof.
  intros Hk. rewrite <- length_map_to_list, <- (length_fmap fst).
  apply submseteq_length, NoDup_submseteq; [apply NoDup_fst_map_to_list|].
  intros k ([k' l] & -> & Hin)%list_elem_of_fmap. apply elem_of_map_to_list in Hin. eauto.
Qed.

(** With no more keys than the cap a newcomer always finds room. *)
Lemma tracks_room lim keys now b log k :
  tracks lim keys now b log → k ∈ keys → (Z.of_nat (length keys) ≤ MAX_TRACKED_IPS)%Z →
  (MAX_TRACKED_IPS <=? Z.of_nat (size (bk_map b)))%Z && negb (bool_decide (is_Some (bk_map b !! k)))
  = false.
Proof.
  intros T Hk Hn. destruct (bk_map b !! k) as [l|] eqn:E.
  { rewrite bool_decide_true by eauto. apply andb_false_r. }
  apply andb_false_iff. left. apply Z.leb_gt.
  assert (size (<[k := []]> (bk_map b)) ≤ length keys)%nat as Hs.
  { apply size_keys. intros k'. rewrite lookup_insert. case_decide; [by subst|]. apply T. }
  rewrite map_size_insert_None in Hs by done. lia.
Qed.

Lemma check_at_tracks lim keys t ip now s log :
  let k := limiter_key ip in
  tracks lim keys t (hits s) log → (t ≤ now)%Z → (INSTANT_MIN ≤ now - window lim)%Z →
  k ∈ keys → (Z.of_nat (length keys) ≤ MAX_TRACKED_IPS)%Z →
  let '(s', ok) := check_at lim ip now s in
  ok = within_budget lim k now log ∧ tracks lim keys now (hits s') (log ++ [mkAttempt k now ok]).
Proof.
  intros k T Hle Hmin Hk Hn. unfold check_at, cutoff_at. fold k. rewrite (proj2 (Z.leb_le _ _) Hmin).
  apply (tracks_later _ _ _ now) in T; [|done]. apply tracks_sweep in T.
  set (b := sweep_if_due _ _ _ _) in *. rewrite (tracks_room _ _ _ _ _ _ T Hk Hn).
  fold (bucket_of b k). set (c := (now - window lim)%Z) in *.
  destruct (tr_split _ _ _ _ _ T k) as (d & E & F).
  destruct (prune_split c (bucket_of b k)) as (d' & E' & F').
  assert (Hlen : within_budget lim k now log = (length (prune c (bucket_of b k)) <? max_attempts lim)%nat).
  { unfold within_budget. fold c. rewrite E, List.filter_app, (filter_old c d F).
    by rewrite <- prune_filter by (by eapply bucket_sorted). }
  set (l := prune c (bucket_of b k)) in *. unfold admit_hit.
  assert (Ht : ∀ (ok : bool), tracks lim keys now
      (mkBuckets (<[k := l ++ if ok then [now] else []]> (bk_map b)) (last_sweep b))
      (log ++ [mkAttempt k now ok])).
  { intros ok. split.
    - intros k'. rewrite admitted_snoc. simpl. destruct (bool_decide (k = k') && ok).
      + apply sorted_snoc; apply T.
      + rewrite app_nil_r. apply T.
    - intros k'. rewrite admitted_snoc. apply Forall_app. split; [apply T|].
      destruct (_ && _); repeat constructor. simpl. lia.
    - intros k'. rewrite admitted_snoc. unfold bucket_of. simpl. rewrite lookup_insert.
      case_decide as Hkk; simpl.
      + subst k'. rewrite bool_decide_true by done. simpl. exists (d ++ d').
        split; [|by apply Forall_app]. rewrite E, E' at 1. fold l. by rewrite <- !app_assoc.
      + rewrite bool_decide_false by done. simpl. rewrite app_nil_r. apply T.
    - intros k'. simpl. rewrite lookup_insert. case_decide; [by subst|]. apply T. }
  rewrite Hlen, Nat.leb_antisym. destruct (length l <? max_attempts lim)%nat; cbn [negb hits].
  - split; [done|]. exact (Ht true).
  - split; [done|]. specialize (Ht false). by rewrite app_nil_r in Ht.
Qed.

(** A sequence of calls as the monotonic clock produces it, from addresses with no more
    keys than the limiter tracks. *)
Record clocked (lim : RateLimiter) (keys : list IpAddr) (from : Time) (calls : list (IpAddr * Time))
  : Prop := {
  ck_order : StronglySorted Z.le (from :: map snd calls);
  ck_min : Forall (λ c, (INSTANT_MIN ≤ c.2 - window lim)%Z) calls;
  ck_keys : Forall (λ c, limiter_key c.1 ∈ keys) calls;
  ck_room : (Z.of_nat (length keys) ≤ MAX_TRACKED_IPS)%Z
}.

Lemma clocked_cons lim keys from ip now calls :
  clocked lim keys from ((ip, now) :: calls) →
  (from ≤ now)%Z ∧ (INSTANT_MIN ≤ now - window lim)%Z ∧ limiter_key ip ∈ keys
  ∧ (Z.of_nat (length keys) ≤ MAX_TRACKED_IPS)%Z ∧ clocked lim keys now calls.
Proof.
  intros [C1 C2 C3 C4]. simpl in *. apply Forall_cons in C2 as [? ?], C3 as [? ?]. simpl in *.
  apply StronglySorted_inv in C1 as [Hs Hf]. apply Forall_cons in Hf as [? _]. done.
Qed.

Lemma run_checks_log lim keys from calls s log :
  clocked lim keys from calls → tracks lim keys from (hits s) log →
  log ++ run_checks lim calls s = log_of lim log calls.
Proof.
  revert from s log. induction calls as [|[ip now] calls IH]; intros from s log C T;
    cbn [run_checks log_of]; [apply app_nil_r|].
  apply clocked_cons in C as (H1 & H2 & H3 & H4 & C).
  assert (E := check_at_tracks lim keys from ip now s log T H1 H2 H3 H4).
  destruct (check_at lim ip now s) as [s' ok]. destruct E as [-> T'].
  rewrite <- (IH now s' _ C T'), <- app_assoc. done.
Qed.

Lemma tracks_new lim keys from : tracks lim keys from (hits limiter_new) [].
Proof.
  split; simpl.
  - constructor.
  - constructor.
  - intros k. exists []. split; [|constructor]. done.
  - intros k. rewrite lookup_empty. by intros [].
Qed.

Definition in_window (w : Duration) (upto t : Time) : bool := (upto - w <? t)%Z && (t <=? upto)%Z.

(** No window holds more admitted attempts than the maximum. *)
Definition budgeted (lim : RateLimiter) (now : Time) (log : list Attempt) : Prop :=
  ∀ k, Forall (λ t, (t ≤ now)%Z) (admitted k log) ∧
  ∀ upto, (length (List.filter (in_window (window lim) upto) (admitted k log)) ≤ max_attempts lim)%nat.

Lemma filter_le {A} (p q : A → bool) l :
  (∀ x, x ∈ l → p x = true → q x = true) → (length (List.filter p l) ≤ length (List.filter q l))%nat.
Proof.
  induction l as [|x l IH]; simpl; intros H; [done|].
  assert (IH' := IH ltac:(intros y Hy; apply H; by constructor)).
  specialize (H x ltac:(by constructor)). destruct (p x); [rewrite H by done; simpl; lia|].
  destruct (q x); simpl; lia.
Qed.

Lemma budgeted_snoc lim from now log k :
  (from ≤ now)%Z → budgeted lim from log →
  budgeted lim now (log ++ [mkAttempt k now (within_budget lim k now log)]).
Proof.
  intros Hle B k'. destruct (B k') as [B1 B2]. rewrite admitted_snoc. simpl.
  assert (P : Forall (λ t, (t ≤ now)%Z) (admitted k' log))
    by (eapply Forall_impl; [exact B1|]; simpl; lia).
  destruct (bool_decide (k = k') && within_budget lim k now log) eqn:W.
  - apply andb_true_iff in W as [->%bool_decide_eq_true W].
    split; [apply Forall_app; split; [done|]; repeat constructor; lia|]. intros upto.
    rewrite List.filter_app, length_app. simpl. destruct (in_window _ upto now) eqn:I; simpl.
    + unfold within_budget in W. apply Nat.ltb_lt in W.
      assert (length (List.filter (in_window (window lim) upto) (admitted k' log))
        ≤ length (List.filter (λ t, (now - window lim <? t)%Z) (admitted k' log)))%nat; [|lia].
      apply filter_le. unfold in_window in *. intros t _ Ht. bool_simpl. apply Z.ltb_lt. lia.
    + rewrite Nat.add_0_r. apply B2.
  - rewrite app_nil_r. by split.
Qed.

Lemma log_of_budgeted lim keys from calls log :
  clocked lim keys from calls → budgeted lim from log →
  ∃ now, budgeted lim now (log_of lim log calls).
Proof.
  revert from log. induction calls as [|[ip now] calls IH]; intros from log C B; cbn [log_of]; [eauto|].
  apply clocked_cons in C as (H1 & _ & _ & _ & C). eapply IH; [exact C|]. by eapply budgeted_snoc.
Qed.

(** *** Memory *)

Lemma size_delete_keys (l : list (option Time * IpAddr)) (m : gmap IpAddr (list Time)) :
  (size (foldr (λ sk m, delete sk.2 m) m l) ≤ size m)%nat ∧
  ∀ k, foldr (λ sk m, delete sk.2 m) m l !! k = if existsb (λ sk, bool_decide (sk.2 = k)) l then None else m !! k.
Proof.
  induction l as [|[s k] l [IH1 IH2]]; simpl; [done|]. split.
  - rewrite map_size_delete. destruct (foldr _ _ l !! k); simpl; lia.
  - intros k'. rewrite lookup_delete. case_decide as E.
    + subst. by rewrite bool_decide_true.
    + rewrite bool_decide_false by done. apply IH2.
Qed.

Lemma evict_shrinks count b :
  (0 < count)%Z → bk_map b ≠ ∅ →
  (size (bk_map (evict_stalest count b)) < size (bk_map b))%nat.
Proof.
  intros Hc Hne. unfold evict_stalest. set (m := bk_map b) in *.
  assert (0 < size m)%nat as Hs.
  { destruct (size m) eqn:E; [|lia]. by apply map_size_empty_iff in E. }
  rewrite (proj2 (Z.eqb_neq _ _)) by lia. set (n := Z.to_nat _). simpl.
  set (r := map _ (map_to_list m)).
  destruct (merge_sort staler r) as [|[s k] l] eqn:M.
  { assert (r ≡ₚ []) as Hr by (rewrite <- M; symmetry; apply merge_sort_Permutation).
    apply Permutation_length in Hr. unfold r in Hr. rewrite length_map, length_map_to_list in Hr.
    simpl in Hr. lia. }
  assert (is_Some (m !! k)) as [v Hv].
  { assert ((s, k) ∈ r) as Hin by (rewrite <- (merge_sort_Permutation staler), M; constructor).
    unfold r in Hin. apply list_elem_of_fmap in Hin as ([k' l'] & [= _ ->] & Hin).
    apply elem_of_map_to_list in Hin. eauto. }
  assert (0 < n)%nat as Hn by lia. clearbody n. destruct n as [|n]; [lia|]. simpl.
  destruct (size_delete_keys (take n l) m) as [Sz Lk]. rewrite map_size_delete, Lk.
  destruct (existsb _ _) eqn:X; [|rewrite Hv; simpl; lia].
  assert (size (foldr (λ sk m, delete sk.2 m) m (take n l)) < size m)%nat; [|simpl; lia].
  rewrite <- (insert_delete_id m k v Hv) at 2. rewrite map_size_insert_None by apply lookup_delete_eq.
  apply le_n_S. apply map_subseteq_size, map_subseteq_spec. intros k' v'. rewrite Lk.
  destruct (existsb (λ sk, bool_decide (sk.2 = k')) _) eqn:X'; [done|]. intros Hk'.
  rewrite lookup_delete_ne; [done|]. by intros ->; rewrite X in X'.
Qed.

(** The limiter's memory. *)
Definition buckets_bounded (max : nat) (m : gmap IpAddr (list Time)) : Prop :=
  (Z.of_nat (size m) ≤ MAX_TRACKED_IPS)%Z ∧ ∀ k l, m !! k = Some l → (length l ≤ max)%nat.

Lemma prune_length c l : (length (prune c l) ≤ length l)%nat.
Proof. destruct (prune_split c l) as (d & E & _). rewrite E at 2. rewrite length_app. lia. Qed.

Lemma bounded_sub max m m' : m' ⊆ m → buckets_bounded max m → buckets_bounded max m'.
Proof.
  intros Hs [B1 B2]. split; [apply map_subseteq_size in Hs; lia|]. intros k l Hk.
  by eapply B2, map_subseteq_spec.
Qed.

Lemma sweep_sub now c w b : bk_map (sweep_if_due now c w b) ⊆ bk_map b.
Proof.
  unfold sweep_if_due. destruct (negb _); [done|]. apply map_subseteq_spec. intros k l. simpl.
  rewrite map_lookup_imap. destruct (bk_map b !! k) as [l'|]; [|done]. simpl.
  by repeat case_match.
Qed.

Lemma evict_sub count b : bk_map (evict_stalest count b) ⊆ bk_map b.
Proof.
  unfold evict_stalest. destruct (_ =? 0)%Z; [done|]. apply map_subseteq_spec. intros k l. simpl.
  rewrite (proj2 (size_delete_keys _ _)). by case_match.
Qed.

Lemma admit_hit_bounded max now l :
  (length l ≤ max)%nat → (length (admit_hit max now l).1 ≤ max)%nat.
Proof.
  unfold admit_hit. intros Hl. destruct (Nat.leb_spec max (length l)); [done|]. simpl.
  rewrite length_app. simpl. lia.
Qed.

(** The buckets a check works on: swept, and with room made for a newcomer. *)
Lemma check_at_room lim ip now s :
  buckets_bounded (max_attempts lim) (bk_map (hits s)) →
  ∃ b, bk_map b ⊆ bk_map (hits s) ∧
    (bk_map b !! limiter_key ip = None → (Z.of_nat (size (bk_map b)) < MAX_TRACKED_IPS)%Z) ∧
    check_at lim ip now s =
      let '(bucket, ok) := admit_hit (max_attempts lim) now
        (prune (cutoff_at now (window lim)) (default [] (bk_map b !! limiter_key ip))) in
      (mkLimiterState (mkBuckets (<[limiter_key ip := bucket]> (bk_map b)) (last_sweep b))
         (unresolved s), ok).
Proof.
  intros B. unfold check_at. set (c := cutoff_at _ _). set (b0 := sweep_if_due now c _ _).
  assert (S0 : bk_map b0 ⊆ bk_map (hits s)) by apply sweep_sub.
  assert (B0 := bounded_sub _ _ _ S0 B).
  destruct (_ && _) eqn:Full.
  - exists (evict_stalest EVICT_BATCH b0). split; [etrans; [apply evict_sub|done]|].
    split; [intros _|done]. apply andb_true_iff in Full as [F _]. apply Z.leb_le in F.
    assert (L := evict_shrinks EVICT_BATCH b0 ltac:(done)). destruct B0 as [B0 _].
    assert (bk_map b0 ≠ ∅) as Hne by (intros E; rewrite E, map_size_empty in F; done).
    specialize (L Hne). lia.
  - exists b0. split; [done|]. split; [|done]. intros Hn. apply andb_false_iff in Full.
    rewrite Hn, bool_decide_false, Z.leb_gt in Full by (by intros []). by destruct Full.
Qed.

Fixpoint after_checks (lim : RateLimiter) (calls : list (IpAddr * Time)) (s : LimiterState)
  : LimiterState :=
  match calls with
  | [] => s
  | (ip, now) :: calls => after_checks lim calls (check_at lim ip now s).1
  end.

Lemma check_at_bounded lim ip now s :
  buckets_bounded (max_attempts lim) (bk_map (hits s)) →
  buckets_bounded (max_attempts lim) (bk_map (hits (check_at lim ip now s).1)).
Proof.
  intros B. destruct (check_at_room lim ip now s B) as (b & Hs & Hroom & ->).
  destruct (bounded_sub _ _ _ Hs B) as [B1 B2].
  assert (Hl : (length (prune (cutoff_at now (window lim)) (default [] (bk_map b !! limiter_key ip)))
      ≤ max_attempts lim)%nat).
  { etrans; [apply prune_length|]. destruct (bk_map b !! limiter_key ip) eqn:E; simpl; [eauto|lia]. }
  assert (A := admit_hit_bounded (max_attempts lim) now _ Hl).
  destruct (admit_hit _ _ _) as [l ok]. simpl in *. split.
  - rewrite map_size_insert. destruct (bk_map b !! limiter_key ip) eqn:E; simpl; [done|].
    specialize (Hroom eq_refl). lia.
  - intros k l'. rewrite lookup_insert. case_decide; [by intros [= <-]|]. apply B2.
Qed.

(** ** Properties *)

(** C35. The limiter decides as a log of attempts would. Under the monotonic clock and with
    no more addresses than it tracks, every attempt is admitted exactly when fewer than the
    maximum number of attempts from the same address (for IPv6, the same /64) were admitted
    in the window before it; pruning, sweeping and sharing one map change no decision. *)
Theorem limiter_is_sliding_window lim keys from calls :
  clocked lim keys from calls → run_checks lim calls limiter_new = log_of lim [] calls.
Proof. intros C. by apply (run_checks_log lim keys from calls limiter_new []), tracks_new. Qed.

(** No window is overspent. In any interval of the window's length, wherever it lies,
    no address is admitted more often than the maximum. *)
Theorem limiter_window_bound lim keys from calls k upto :
  clocked lim keys from calls →
  (length (List.filter (in_window (window lim) upto) (admitted k (run_checks lim calls limiter_new)))
   ≤ max_attempts lim)%nat.
Proof.
  intros C. rewrite <- (app_nil_l (run_checks _ _ _)).
  rewrite (run_checks_log lim keys from calls limiter_new [] C) by apply tracks_new.
  destruct (log_of_budgeted lim keys from calls [] C) as [now B]; [|apply B].
  intros k'. split; [constructor|]. intros upto'. simpl. lia.
Qed.

(** Memory is bounded and nobody is locked out for it. Whatever the calls and their
    order, at most [MAX_TRACKED_IPS] addresses are tracked, each with at most the maximum of
    hits; and an address that is not tracked is admitted at once, even at the cap. *)
Theorem limiter_bounded lim calls ip now :
  let s := after_checks lim calls limiter_new in
  (Z.of_nat (size (bk_map (hits s))) ≤ MAX_TRACKED_IPS)%Z ∧
  (∀ k l, bk_map (hits s) !! k = Some l → (length l ≤ max_attempts lim)%nat) ∧
  (bk_map (hits s) !! limiter_key ip = None → (0 < max_attempts lim)%nat →
     (check_at lim ip now s).2 = true).
Proof.
  intros s. assert (B : buckets_bounded (max_attempts lim) (bk_map (hits s))).
  { unfold s. assert (B0 : buckets_bounded (max_attempts lim) (bk_map (hits limiter_new))) by done.
    revert B0. generalize limiter_new. induction calls as [|[ip' now'] calls IH]; intros s0 B0; [done|].
    by apply IH, check_at_bounded. }
  split; [apply B|]. split; [apply B|]. intros Hn Hmax.
  destruct (check_at_room lim ip now s B) as (b & Hs & _ & ->).
  rewrite (lookup_weaken_None _ _ _ Hn Hs). simpl. unfold admit_hit.
  by rewrite (proj2 (Nat.leb_gt _ _)).
Qed.

(** ** Concrete instances *)

Definition sample_limiter : RateLimiter :=
  mkLimiter 2 (secs 60) false (throttled_paths "/api/yggdrasil").

Definition sample_calls : list (IpAddr * Time) :=
  [(V6 1, secs 100); (V6 2, secs 110); (V6 3, secs 120); (V4 7, secs 130); (V6 4, secs 160)].

Lemma sample_clocked : clocked sample_limiter [V6 0; V4 7] 0 sample_calls.
Proof.
  unfold sample_calls. split; simpl.
  - by repeat first [apply SSorted_nil | apply SSorted_cons | apply Forall_nil | apply Forall_cons; split].
  - by repeat first [apply Forall_nil | apply Forall_cons; split].
  - repeat first [apply Forall_nil | apply Forall_cons; split]; try done; apply list_elem_of_In; simpl; auto.
  - done.
Qed.

Lemma limiter_is_sliding_window_witness :
  clocked sample_limiter [V6 0; V4 7] 0 sample_calls ∧
  map at_ok (run_checks sample_limiter sample_calls limiter_new) = [true; true; false; true; true] ∧
  run_checks sample_limiter sample_calls limiter_new = log_of sample_limiter [] sample_calls.
Proof.
  split; [exact sample_clocked|]. split; [vm_compute; reflexivity|].
  exact (limiter_is_sliding_window sample_limiter _ _ _ sample_clocked).
Defined.

Lemma limiter_window_bound_witness :
  clocked sample_limiter [V6 0; V4 7] 0 sample_calls ∧
  (length (List.filter (in_window (window sample_limiter) (secs 120))
     (admitted (V6 0) (run_checks sample_limiter sample_calls limiter_new))) ≤ 2)%nat.
Proof.
  split; [exact sample_clocked|].
  exact (limiter_window_bound sample_limiter _ _ _ (V6 0) (secs 120) sample_clocked).
Defined.

Lemma limiter_bounded_witness :
  let s := after_checks sample_limiter sample_calls limiter_new in
  size (bk_map (hits s)) = 2%nat ∧ (check_at sample_limiter (V4 9) (secs 161) s).2 = true.
Proof.
  intros s. split; [vm_compute; reflexivity|].
  apply (limiter_bounded sample_limiter sample_calls (V4 9) (secs 161)); [vm_compute; reflexivity|].
  simpl. lia.
Defined.
