(* ===== verification/Files.v ===== *)
(** * Stored files and uploads

    [crates/core/src/storage.rs]: the helpers that the texture and catalog stores share.
    The file system is a map from paths to contents; an operation that fails changes
    nothing (what a failed write leaves behind has a name that nothing refers to). *)

From stdpp Require pretty.
From S2P Require Import Prelude RustStr Errors Models Realtime Schema Prog Auth.

Definition on_files {B} (f : Tick → Files → Files * B) : prog B :=
  act (λ t st, let '(m, b) := f t (st_files st) in (set_files m st, b)).

(** [write_file]: whether it succeeded. Missing directories are made on the way. *)
Definition write_file (path : string) (bytes : list Z) : prog bool :=
  on_files (λ t m, if t_fault t then (m, false) else (<[path := bytes]> m, true)).

(** [unlink_quiet]: every failure is ignored. *)
Definition unlink_quiet (path : string) : prog unit :=
  on_files (λ t m, if t_fault t then (m, ()) else (delete path m, ())).

(** [tokio::fs::read(path).await.ok()]. *)
Definition read_file (path : string) : prog (option (list Z)) :=
  on_files (λ t m, (m, if t_fault t then None else m !! path)).

(** [tokio::fs::metadata(path).await.is_ok()]. *)
Definition file_exists (path : string) : prog bool :=
  on_files (λ t m, (m, negb (t_fault t) && bool_decide (is_Some (m !! path)))).

(** [Path::join] on text: an absolute second path replaces the first. *)
Definition path_join (a b : string) : string :=
  if starts_with "/" b then b
  else if (a =? "")%string then b
  else if starts_with "/" (str_rev a) then a +:+ b
  else a +:+ "/" +:+ b.

(** [revision_hex]: six random bytes. *)
Definition revision_hex `{Primitives} : prog string := act (λ t st, (st, hex_encode (t_random t))).

(** ** The capped upload

    A multipart body is the list of what [next_field] yields; a field has a name, the
    chunks of its content as they arrive, and possibly an error in their place. *)

Inductive Chunk : Type := Bytes (b : list Z) | ChunkError (e : string).

Inductive Field : Type :=
| FieldOf (name : option string) (chunks : list Chunk) (text : result string string)
| Malformed (e : string).

Section Upload.
Context (max_bytes : N) (text_field : string).

Definition show_max : string := pretty.pretty max_bytes.

(** The inner loop: [buf] is what has been read so far. *)
Fixpoint read_chunks (buf : list Z) (chunks : list Chunk) : AppResult (list Z) :=
  match chunks with
  | [] => Ok buf
  | ChunkError e :: _ => Err (BadRequest ("reading file: " +:+ e))
  | Bytes chunk :: chunks =>
      if (max_bytes <? N.of_nat (length buf + length chunk))%N
      then Err (BadRequest ("file is too large (max " +:+ show_max +:+ " bytes)"))
      else read_chunks (buf ++ chunk) chunks
  end.

(** The outer loop: [file] and [text] as found so far. *)
Fixpoint read_fields (file : option (list Z)) (text : option string) (fields : list Field)
  : AppResult (option (list Z) * option string) :=
  match fields with
  | [] => Ok (file, text)
  | Malformed e :: _ => Err (BadRequest ("malformed multipart: " +:+ e))
  | FieldOf name chunks value :: fields =>
      if bool_decide (name = Some "file") then
        try buf := read_chunks [] chunks in read_fields (Some buf) text fields
      else if bool_decide (name = Some text_field) then
        match value with
        | Err e => Err (BadRequest ("reading " +:+ text_field +:+ ": " +:+ e))
        | Ok value =>
            let trimmed := trim value in
            read_fields file (if (trimmed =? "")%string then text else Some trimmed) fields
        end
      else read_fields file text fields
  end.

Definition read_capped_upload (fields : list Field) : AppResult (option (list Z) * option string) :=
  read_fields None None fields.
End Upload.

(** ** Lemmas *)

(** The rules of the file actions. *)
Section FileRules.
Context {B : Type} (T : Tick → Prop) (st : AppState).

Lemma wp_on_files (f : Tick → Files → Files * B) (Q : AppState → B → Prop) :
  (∀ t, T t → Q (set_files (f t (st_files st)).1 st) (f t (st_files st)).2) →
  wp (on_files f) T st Q.
Proof. intros H t Ht. specialize (H t Ht). simpl. by destruct (f t (st_files st)). Qed.

Lemma on_files_rel (R : relation Db) `{!PreOrder R} (f : Tick → Files → Files * B) :
  prog_rel (db_rel R) (on_files f).
Proof.
  apply prog_rel_memory; [exact _|]. intros t st'. simpl. by destruct (f t (st_files st')).
Qed.
End FileRules.

#[export] Hint Resolve on_files_rel : loon.

Lemma set_files_same st : set_files (st_files st) st = st.
Proof. by destruct st. Qed.

Section CalmFiles.
Context (now : Time) (st : AppState).

Lemma wp_write_file path bytes (Q : AppState → bool → Prop) :
  Q (set_files (<[path := bytes]> (st_files st)) st) true → wp (write_file path bytes) (calm now) st Q.
Proof. intros H. apply wp_on_files. intros t (F & _). by rewrite F. Qed.

Lemma wp_unlink_quiet path (Q : AppState → unit → Prop) :
  Q (set_files (delete path (st_files st)) st) () → wp (unlink_quiet path) (calm now) st Q.
Proof. intros H. apply wp_on_files. intros t (F & _). by rewrite F. Qed.

Lemma wp_read_file path (Q : AppState → option (list Z) → Prop) :
  Q st (st_files st !! path) → wp (read_file path) (calm now) st Q.
Proof. intros H. apply wp_on_files. intros t (F & _). rewrite F. cbn [fst snd]. by rewrite set_files_same. Qed.

Lemma wp_file_exists path (Q : AppState → bool → Prop) :
  Q st (bool_decide (is_Some (st_files st !! path))) → wp (file_exists path) (calm now) st Q.
Proof. intros H. apply wp_on_files. intros t (F & _). rewrite F. cbn [fst snd]. by rewrite set_files_same. Qed.
End CalmFiles.

(** The bytes of a field whose chunks all arrive. *)
Fixpoint received (chunks : list Chunk) : option (list Z) :=
  match chunks with
  | [] => Some []
  | ChunkError _ :: _ => None
  | Bytes b :: chunks => option_map (app b) (received chunks)
  end.

Lemma read_chunks_ok max buf chunks r :
  (N.of_nat (length buf) ≤ max)%N →
  read_chunks max buf chunks = Ok r ↔
  ∃ b, received chunks = Some b ∧ r = buf ++ b ∧ (N.of_nat (length r) ≤ max)%N.
Proof.
  revert buf. induction chunks as [|[b|e] chunks IH]; intros buf Hb; cbn [read_chunks received].
  - split; [intros [= <-]; exists []; by rewrite app_nil_r|]. intros (b & [= <-] & -> & _). by rewrite app_nil_r.
  - destruct (N.ltb_spec max (N.of_nat (length buf + length b))) as [L|L].
    + split; [done|]. intros (c & Hc & -> & Hl). destruct (received chunks) as [d|]; [|done].
      injection Hc as <-. rewrite !length_app in Hl. lia.
    + rewrite IH by (rewrite length_app; lia). split.
      * intros (c & Hc & -> & Hl). exists (b ++ c). by rewrite Hc, app_assoc.
      * intros (c & Hc & -> & Hl). destruct (received chunks) as [d|]; [|done]. injection Hc as <-.
        exists d. by rewrite app_assoc in *.
  - split; [done|]. by intros (b & ? & _).
Qed.

(** A field that is a file of at most [max] bytes, or is read for its text, or is skipped. *)
Definition acceptable (max : N) (text_field : string) (f : Field) : Prop :=
  match f with
  | Malformed _ => False
  | FieldOf name chunks value =>
      if bool_decide (name = Some "file")
      then ∃ b, received chunks = Some b ∧ (N.of_nat (length b) ≤ max)%N
      else if bool_decide (name = Some text_field) then is_ok value = true
      else True
  end.

(** The file of a field, and its text. *)
Definition field_file (f : Field) : option (list Z) :=
  match f with
  | FieldOf name chunks _ => if bool_decide (name = Some "file") then received chunks else None
  | Malformed _ => None
  end.

Definition field_text (text_field : string) (f : Field) : option string :=
  match f with
  | FieldOf name _ (Ok value) =>
      if bool_decide (name = Some "file") then None
      else if bool_decide (name = Some text_field) && negb (trim value =? "")%string
      then Some (trim value) else None
  | _ => None
  end.

(** The last of the values that are there. *)
Definition last_or {A} (o : option A) (l : list A) : option A := foldl (λ _ a, Some a) o l.

Lemma last_or_cons {A} (o : option A) a l : last_or o (a :: l) = last_or (Some a) l.
Proof. reflexivity. Qed.

Lemma read_fields_ok max tf file text fields r :
  read_fields max tf file text fields = Ok r ↔
  Forall (acceptable max tf) fields ∧
  r = (last_or file (omap field_file fields), last_or text (omap (field_text tf) fields)).
Proof.
  revert file text. induction fields as [|f fields IH]; intros file text; cbn [read_fields].
  { split; [by intros [= <-]|by intros [_ ->]]. }
  rewrite Forall_cons. destruct f as [name chunks value|e]; cbn [acceptable]; [|by split; [|intros [[] _]]].
  cbn [omap list_omap field_file field_text].
  destruct (bool_decide (name = Some "file")) eqn:F.
  - rewrite and_then_ok. setoid_rewrite (read_chunks_ok max []); [|simpl; lia]. setoid_rewrite IH. split.
    + intros (b & (c & Hc & -> & Hl) & Hf & ->). split; [split; [by exists c|done]|]. simpl in *.
      rewrite Hc, last_or_cons. by destruct value.
    + intros [[(b & Hb & Hl) Hf] ->]. exists b. split; [by exists b|]. split; [done|].
      rewrite Hb, last_or_cons. by destruct value.
  - destruct (bool_decide (name = Some tf)) eqn:T; cbn [andb].
    + destruct value as [v|e]; [|by split; [|intros [[] _]]]. rewrite IH. cbn [is_ok].
      destruct (trim v =? "")%string; cbn [negb]; rewrite ?last_or_cons; intuition.
    + rewrite IH. destruct value; intuition.
Qed.

Lemma last_or_fits (max : N) (o : option (list Z)) (l : list (list Z)) :
  Forall (λ b, (N.of_nat (length b) ≤ max)%N) l →
  match o with Some b => (N.of_nat (length b) ≤ max)%N | None => True end →
  match last_or o l with Some b => (N.of_nat (length b) ≤ max)%N | None => True end.
Proof.
  revert o. induction l as [|b l IH]; intros o Hl Ho; [done|]. rewrite last_or_cons.
  apply Forall_cons in Hl as [Hb Hl]. by apply IH.
Qed.

Lemma files_fit max tf fields :
  Forall (acceptable max tf) fields →
  match last_or None (omap field_file fields) with
  | Some b => (N.of_nat (length b) ≤ max)%N
  | None => True
  end.
Proof.
  intros Hf. apply last_or_fits; [|done]. apply Forall_forall.
  intros b (f & Hin & Hb)%list_elem_of_omap.
  rewrite Forall_forall in Hf. specialize (Hf f Hin). destruct f as [name chunks value|]; [|done].
  cbn in Hf, Hb. destruct (bool_decide (name = Some "file")); [|done].
  destruct Hf as (c & Hc & Hl). congruence.
Qed.

(** ** Properties *)

(** C39. Capped uploads. Reading a multipart body succeeds exactly when
    no part of it is malformed, every part named [file] arrives whole and has at most
    [max] bytes, and the parts of the text field are readable; it then answers the contents
    of the last [file] part, at most [max] bytes, and the last text that is not blank, trimmed. *)
Theorem capped_upload_exact max text_field fields r :
  read_capped_upload max text_field fields = Ok r ↔
  Forall (acceptable max text_field) fields ∧
  r = (last_or None (omap field_file fields), last_or None (omap (field_text text_field) fields)) ∧
  match r.1 with Some b => (N.of_nat (length b) ≤ max)%N | None => True end.
Proof.
  unfold read_capped_upload. rewrite read_fields_ok. split; [|intros (H1 & H2 & _); done].
  intros [Hf ->]. split; [done|]. split; [done|]. cbn [fst].
  by eapply files_fit.
Qed.

(** A second [file] part replaces the first; a byte too many refuses the whole body. *)
Example two_files :
  read_capped_upload 2 "variant"
    [FieldOf (Some "file") [Bytes [1%Z]] (Err ""); FieldOf (Some "variant") [] (Ok " slim ");
     FieldOf (Some "file") [Bytes [2%Z]; Bytes [3%Z]] (Err "")] = Ok (Some [2; 3]%Z, Some "slim") ∧
  read_capped_upload 2 "variant" [FieldOf (Some "file") [Bytes [1; 2]%Z; Bytes [3%Z]] (Err "")]
  = Err (BadRequest "file is too large (max 2 bytes)").
Proof. split; vm_compute; reflexivity. Qed.
