(* ===== verification/YggTokens.v ===== *)
(** * The Yggdrasil token namespace

    [crates/core/src/auth/yggdrasil.rs]: the access and client token pairs of the game
    handshake. The access token is stored as its hash, the client token as it is. *)

From S2P Require Import Prelude RustStr Errors Models Table Realtime Schema Prog Auth.

Section YggTokens.
Context `{Primitives}.

Record YggdrasilTokens : Type := mkTokens {
  access_token : string;
  client_token : string;
  yk_expires_at : Time
}.

Definition random_64_hex : prog string := act (λ t st, (st, hex_encode (t_random t))).

Definition insert_ygg_token (user_id : Uuid) (hash client : string) (expires_at : Time)
  (t : Tick) (db : Db) : SqlResult (Db * unit) :=
  try _ := fk "yggdrasil_tokens_user_id_fkey" user_id (users db) in
  try m := insert_row "yggdrasil_tokens_pkey" [yggdrasil_tokens_access_token_key] (t_uuid t)
             (mkYggToken user_id hash client (t_db t) expires_at) (yggdrasil_tokens db) in
  Ok (set_yggdrasil_tokens m db, ()).

(** [DELETE ... WHERE p], with the number of rows affected. *)
Definition delete_ygg_tokens (p : Uuid → YggToken → bool) (db : Db) : SqlResult (Db * nat) :=
  Ok (set_yggdrasil_tokens (delete_where p (yggdrasil_tokens db)) db,
      count_rows p (yggdrasil_tokens db)).

(** The ids of a user's newest tokens: [ORDER BY issued_at DESC LIMIT max]. *)
Definition newest_tokens (user_id : Uuid) (max : Z) (m : gmap Uuid YggToken) : list Uuid :=
  map key (take (Z.to_nat max)
    (order_by_desc yt_issued_at (select_rows (λ _ r, (yt_user_id r =? user_id)%N) m))).

Definition evict_beyond (user_id : Uuid) (max : Z) (_ : Tick) (db : Db)
  : SqlResult (Db * nat) :=
  let kept := newest_tokens user_id max (yggdrasil_tokens db) in
  delete_ygg_tokens
    (λ k r, (yt_user_id r =? user_id)%N && negb (existsb (N.eqb k) kept)) db.

Definition issue_yggdrasil_tokens (user_id : Uuid) (client : option string)
  (ttl : Duration) (max_per_user : Z) : prog (AppResult YggdrasilTokens) :=
  let* access := random_64_hex in
  let* client :=
    match client with Some c => Ret c | None => random_64_hex end in
  let* now := utc_now in
  let expires_at := (now + default (secs 1296000) (from_std ttl))%Z in
  do? sql_app (insert_ygg_token user_id (hash_token access) client expires_at);
  do? (if (0 <? max_per_user)%Z then sql_app (evict_beyond user_id max_per_user)
       else ret_ok 0);
  ret_ok (mkTokens access client expires_at).

(** [SELECT user_id, client_token ... WHERE access_token_hash = $1 AND expires_at > now()]. *)
Definition select_pair (hash : string) (t : Tick) (db : Db) : option (Uuid * string) :=
  (λ r, (yt_user_id (row r), yt_client_token (row r))) <$>
  find_row (λ _ r, (yt_access_token_hash r =? hash)%string && (t_db t <? yt_expires_at r)%Z)
    (yggdrasil_tokens db).

Definition client_mismatch (supplied : option string) (stored : string) : bool :=
  match supplied with Some s => negb (s =? stored)%string | None => false end.

(** The part [validate_yggdrasil] and [refresh_yggdrasil] share: the pair is live, the
    supplied client token matches, the user is eligible. *)
Definition eligible_pair (access : string) (client : option string)
  : prog (AppResult (Keyed User * string)) :=
  let? row := select (select_pair (hash_token access)) in
  let? '(user_id, stored_client) := lift (ok_or Forbidden row) in
  if client_mismatch client stored_client then ret_err Forbidden
  else
    let? user := select (λ _ db, users db !! user_id) in
    let? user := lift (ok_or Forbidden user) in
    if u_blocked user || negb (u_confirmed user) then ret_err Forbidden
    else ret_ok (mkKeyed user_id user, stored_client).

Definition validate_yggdrasil (access : string) (client : option string)
  : prog (AppResult (Keyed User)) :=
  let? '(user, _) := eligible_pair access client in ret_ok user.

Definition refresh_yggdrasil (access : string) (client : option string) (ttl : Duration)
  (max_per_user : Z) : prog (AppResult (Keyed User * YggdrasilTokens)) :=
  let? '(user, stored_client) := eligible_pair access client in
  do? sql_app (λ _ db, delete_ygg_tokens
        (λ _ r, (yt_access_token_hash r =? hash_token access)%string) db);
  let? tokens := issue_yggdrasil_tokens (key user) (Some stored_client) ttl max_per_user in
  ret_ok (user, tokens).

Definition invalidate_yggdrasil (access : string) (client : option string)
  : prog (AppResult nat) :=
  match client with
  | Some ct => sql_app (λ _ db, delete_ygg_tokens
      (λ _ r, (yt_access_token_hash r =? hash_token access)%string
              && (yt_client_token r =? ct)%string) db)
  | None => sql_app (λ _ db, delete_ygg_tokens
      (λ _ r, (yt_access_token_hash r =? hash_token access)%string) db)
  end.

Definition invalidate_all_yggdrasil_for_user (user_id : Uuid) : prog (AppResult nat) :=
  sql_app (λ _ db, delete_ygg_tokens (λ _ r, (yt_user_id r =? user_id)%N) db).

Definition cleanup_expired_yggdrasil : prog (AppResult nat) :=
  sql_app (λ t db, delete_ygg_tokens (λ _ r, (yt_expires_at r <=? t_db t)%Z) db).

(** The extractor [YggdrasilUser]: the user and the access token presented. *)
Definition yggdrasil_user (h : HeaderMap) : prog (AppResult (Keyed User * string)) :=
  let? access := lift (ok_or Forbidden (bearer_token_from_headers h)) in
  let? user := validate_yggdrasil access None in
  ret_ok (user, access).
End YggTokens.

(** ** Lemmas *)

Section YggLemmas.
Context `{Primitives}.

Definition owned (user_id : Uuid) (_ : Uuid) (r : YggToken) : bool := (yt_user_id r =? user_id)%N.

Lemma insert_ygg_token_ok user_id hash client exp t db db' u :
  insert_ygg_token user_id hash client exp t db = Ok (db', u) →
  let r := mkYggToken user_id hash client (t_db t) exp in
  yggdrasil_tokens db !! t_uuid t = None
  ∧ db' = set_yggdrasil_tokens (<[t_uuid t := r]> (yggdrasil_tokens db)) db
  ∧ violated [yggdrasil_tokens_access_token_key] (t_uuid t) r (yggdrasil_tokens db) = None.
Proof.
  unfold insert_ygg_token. rewrite and_then_ok. intros (? & Hfk & H1).
  apply and_then_ok in H1 as (m & Hi & [= <- <-]). by apply insert_row_ok in Hi as (Hn & -> & Hv).
Qed.

Lemma newest_tokens_length user_id max m :
  (0 < max)%Z → (length (newest_tokens user_id max m) ≤ Z.to_nat max)%nat.
Proof. intros _. unfold newest_tokens. rewrite length_map, length_take. lia. Qed.

Lemma evict_beyond_cap user_id max t db db' n :
  (0 < max)%Z → evict_beyond user_id max t db = Ok (db', n) →
  (count_rows (owned user_id) (yggdrasil_tokens db') ≤ Z.to_nat max)%nat.
Proof.
  intros Hm [= <- _]. simpl.
  etrans; [|by apply (newest_tokens_length user_id max (yggdrasil_tokens db))].
  apply count_rows_le. intros k r Hk Ho.
  apply lookup_delete_where_Some in Hk as [Hk Hp]. unfold owned in Ho. rewrite Ho in Hp. simpl in Hp.
  apply negb_false_iff, existsb_spec in Hp as (k' & Hk' & E). apply N.eqb_eq in E. by subst.
Qed.

End YggLemmas.

Section YggProofs.
Context `{Primitives}.

Lemma newest_tokens_head user_id max m k r :
  (0 < max)%Z → m !! k = Some r → yt_user_id r = user_id →
  (∀ k' r', m !! k' = Some r' → k' ≠ k → yt_user_id r' = user_id →
    (yt_issued_at r' < yt_issued_at r)%Z) →
  k ∈ newest_tokens user_id max m.
Proof.
  intros Hm Hk Hu Hn. unfold newest_tokens.
  set (l := order_by_desc yt_issued_at _).
  assert (Hx : mkKeyed k r ∈ l).
  { apply elem_of_order_by_desc, elem_of_select_rows. simpl. by rewrite Hu, N.eqb_refl. }
  assert (Hs : StronglySorted (newer yt_issued_at) l) by apply order_by_desc_sorted.
  assert (Hl : ∀ y, y ∈ l → m !! key y = Some (row y) ∧ yt_user_id (row y) = user_id).
  { intros y Hy. apply elem_of_order_by_desc, elem_of_select_rows in Hy as [Hy E].
    by apply N.eqb_eq in E. }
  clearbody l. destruct l as [|y l]; [by apply not_elem_of_nil in Hx|].
  assert (Ek : key y = k).
  { apply elem_of_cons in Hx as [<-|Hx]; [done|].
    destruct (decide (key y = k)) as [|Hne]; [done|]. exfalso.
    apply StronglySorted_inv in Hs as [_ Hs]. rewrite Forall_forall in Hs.
    specialize (Hs _ Hx). unfold newer in Hs. simpl in Hs.
    destruct (Hl y) as [Hy Hyu]; [constructor|]. specialize (Hn _ _ Hy Hne Hyu). lia. }
  replace (Z.to_nat max) with (S (pred (Z.to_nat max))) by lia. simpl. rewrite Ek. constructor.
Qed.

(** The row a pair is looked up by. *)
Lemma select_pair_spec hash t db k r :
  uniq yggdrasil_tokens_access_token_key (yggdrasil_tokens db) →
  yggdrasil_tokens db !! k = Some r → yt_access_token_hash r = hash →
  select_pair hash t db =
  if (t_db t <? yt_expires_at r)%Z then Some (yt_user_id r, yt_client_token r) else None.
Proof.
  intros Hu Hk Hh. unfold select_pair.
  destruct (t_db t <? yt_expires_at r)%Z eqn:He.
  - rewrite (find_row_unique _ _ k r Hk); [done| |].
    + by rewrite Hh, String.eqb_refl, He.
    + intros k' r' Hk' Hp. bool_simpl. eapply (Hu k' k r' r Hk' Hk). apply String.eqb_eq. congruence.
  - rewrite (proj2 (find_row_None _ _)); [done|]. intros k' r' Hk'.
    destruct (String.eqb_spec (yt_access_token_hash r') hash) as [E|]; [|done].
    assert (k' = k) as ->; [|by simplify_eq].
    eapply (Hu k' k r' r Hk' Hk). apply String.eqb_eq. congruence.
Qed.

Lemma select_pair_Some hash t db u c :
  select_pair hash t db = Some (u, c) →
  ∃ k r, yggdrasil_tokens db !! k = Some r ∧ yt_access_token_hash r = hash
    ∧ (t_db t < yt_expires_at r)%Z ∧ yt_user_id r = u ∧ yt_client_token r = c.
Proof.
  unfold select_pair. destruct (find_row _ _) as [[k r]|] eqn:E; [|done].
  apply find_row_Some in E as [Ek P]; simpl in *. bool_simpl. intros [= <- <-]. eauto 10.
Qed.

Lemma wp_eligible_pair access client T st
  (Q : AppState → AppResult (Keyed User * string) → Prop) :
  ((∃ t, T t ∧ t_fault t = true) → ∀ e, Q st (Err e)) →
  (∀ t, T t → t_fault t = false →
    match select_pair (hash_token access) t (st_db st) with
    | Some (uid, stored) =>
        match users (st_db st) !! uid with
        | Some u =>
            if client_mismatch client stored || u_blocked u || negb (u_confirmed u)
            then Q st (Err Forbidden) else Q st (Ok (mkKeyed uid u, stored))
        | None => Q st (Err Forbidden)
        end
    | None => Q st (Err Forbidden)
    end) →
  wp (eligible_pair access client) T st Q.
Proof.
  intros HF HOk. unfold eligible_pair. repeat wp_step.
  destruct (t_fault _) eqn:F; [by eauto|]. specialize (HOk _ ltac:(eassumption) F).
  destruct (select_pair _ _ (st_db st)) as [[uid stored]|]; repeat wp_step; [|done].
  destruct (client_mismatch client stored) eqn:M; repeat wp_step.
  { by destruct (users (st_db st) !! uid). }
  fault_case F1; [by eauto|].
  destruct (users (st_db st) !! uid) as [u|]; repeat wp_step; [|done].
  simpl in HOk. by destruct (u_blocked u || negb (u_confirmed u)); repeat wp_step.
Qed.
End YggProofs.

(** ** Properties *)

Section YggProperties.
Context `{Primitives}.

Lemma wp_issue user_id client ttl max T st (Q : AppState → AppResult YggdrasilTokens → Prop) :
  (∀ st' e, Q st' (Err e)) →
  (∀ t0 t1 t2 t3 c db1 db2 n, T t0 → T t1 → T t2 → T t3 →
    (∀ c', client = Some c' → c = c') →
    let access := hex_encode (t_random t0) in
    let exp := (t_app t1 + default (secs 1296000) (from_std ttl))%Z in
    insert_ygg_token user_id (hash_token access) c exp t2 (st_db st) = Ok (db1, ()) →
    (if (0 <? max)%Z then evict_beyond user_id max t3 db1 = Ok (db2, n) else db2 = db1) →
    Q (set_db db2 st) (Ok (mkTokens access c exp))) →
  wp (issue_yggdrasil_tokens user_id client ttl max) T st Q.
Proof.
  intros HE HOk. unfold issue_yggdrasil_tokens, random_64_hex. apply wp_bind.
  intros t0 H0. apply wp_bind.
  enough (K : ∀ c, (∀ c', client = Some c' → c = c') →
    wp (let* now := utc_now in
        do? sql_app (insert_ygg_token user_id (hash_token (hex_encode (t_random t0))) c
               (now + default (secs 1296000) (from_std ttl))%Z);
        do? (if (0 <? max)%Z then sql_app (evict_beyond user_id max) else ret_ok 0);
        ret_ok (mkTokens (hex_encode (t_random t0)) c
                  (now + default (secs 1296000) (from_std ttl))%Z)) T st Q).
  { destruct client as [c|]; wp_step; apply K; congruence. }
  intros c Hc. apply wp_bind. intros t1 H1. apply wp_bind_ok, wp_sql_app. intros t2 H2.
  fault_case F; [apply HE|].
  destruct (insert_ygg_token _ _ _ _ t2 _) as [[db1 []]|e] eqn:E; [|apply HE].
  destruct (0 <? max)%Z eqn:M; repeat wp_step.
  - fault_case F'; [apply HE|]. cbn [st_db set_db].
    destruct (evict_beyond user_id max _ db1) as [[db2 n]|e] eqn:V; [|apply HE].
    repeat wp_step. by eapply (HOk t0 t1 t2 _ c db1 db2 n).
  - by apply (HOk t0 t1 t2 t2 c db1 db1 0).
Qed.

(** The rows [issue_yggdrasil_tokens] leaves. *)
Lemma issue_rows user_id hash c exp max t2 t3 db db1 db2 n :
  insert_ygg_token user_id hash c exp t2 db = Ok (db1, ()) →
  (if (0 <? max)%Z then evict_beyond user_id max t3 db1 = Ok (db2, n) else db2 = db1) →
  users db2 = users db ∧
  (∀ k r, yggdrasil_tokens db2 !! k = Some r →
     k = t_uuid t2 ∧ r = mkYggToken user_id hash c (t_db t2) exp
     ∨ yggdrasil_tokens db !! k = Some r) ∧
  (∀ k r, yt_user_id r ≠ user_id → yggdrasil_tokens db !! k = Some r →
     yggdrasil_tokens db2 !! k = Some r).
Proof.
  intros Hi Hev. apply insert_ygg_token_ok in Hi as (Hn & -> & Hv).
  assert (Hsub : users db2 = users db ∧ ∀ k r,
    (yggdrasil_tokens db2 !! k = Some r →
     <[t_uuid t2 := mkYggToken user_id hash c (t_db t2) exp]> (yggdrasil_tokens db) !! k = Some r) ∧
    (yt_user_id r ≠ user_id →
     <[t_uuid t2 := mkYggToken user_id hash c (t_db t2) exp]> (yggdrasil_tokens db) !! k = Some r →
     yggdrasil_tokens db2 !! k = Some r)).
  { destruct (0 <? max)%Z; [|by subst db2].
    injection Hev as <- _. split; [done|]. intros k r. simpl. rewrite lookup_delete_where_Some. split.
    - by intros [? _].
    - intros Hne Hk. split; [done|]. by rewrite (proj2 (N.eqb_neq _ _) Hne). }
  destruct Hsub as [HU Hsub]. split; [done|]. split; intros k r.
  - intros Hk. apply Hsub in Hk. apply lookup_insert_Some in Hk as [[<- <-]|[_ Hk]]; auto.
  - intros Hne Hk. apply Hsub; [done|]. rewrite lookup_insert_ne; [done|]. congruence.
Qed.

(** The new row survives the eviction when the user's other rows are older. *)
Lemma issue_row_kept user_id hash c exp max t2 t3 db db1 db2 n :
  insert_ygg_token user_id hash c exp t2 db = Ok (db1, ()) →
  (if (0 <? max)%Z then evict_beyond user_id max t3 db1 = Ok (db2, n) else db2 = db1) →
  (∀ k r, yggdrasil_tokens db !! k = Some r → (yt_issued_at r < t_db t2)%Z) →
  yggdrasil_tokens db2 !! t_uuid t2 = Some (mkYggToken user_id hash c (t_db t2) exp).
Proof.
  intros Hi Hev Hold. apply insert_ygg_token_ok in Hi as (Hn & -> & _).
  destruct (0 <? max)%Z eqn:M; [|subst db2; apply lookup_insert_eq].
  injection Hev as <- _. simpl. apply lookup_delete_where_Some.
  split; [apply lookup_insert_eq|]. apply andb_false_iff. right.
  apply negb_false_iff, existsb_spec. exists (t_uuid t2). rewrite N.eqb_refl. split; [|done].
  apply (newest_tokens_head _ _ _ _ (mkYggToken user_id hash c (t_db t2) exp)).
  - by apply Z.ltb_lt.
  - apply lookup_insert_eq.
  - done.
  - intros k' r' Hk' Hne _. rewrite lookup_insert_ne in Hk' by done. by eapply Hold.
Qed.

Lemma issue_uniq user_id hash c exp max t2 t3 db db1 db2 n :
  insert_ygg_token user_id hash c exp t2 db = Ok (db1, ()) →
  (if (0 <? max)%Z then evict_beyond user_id max t3 db1 = Ok (db2, n) else db2 = db1) →
  uniq yggdrasil_tokens_access_token_key (yggdrasil_tokens db) →
  uniq yggdrasil_tokens_access_token_key (yggdrasil_tokens db2).
Proof.
  intros Hi Hev Hu. apply insert_ygg_token_ok in Hi as (Hn & -> & Hv).
  assert (Hu1 : uniq yggdrasil_tokens_access_token_key
    (<[t_uuid t2 := mkYggToken user_id hash c (t_db t2) exp]> (yggdrasil_tokens db))).
  { apply uniq_insert; auto with loon.
    by apply (proj1 (violated_None _ _ _ _) Hv), list_elem_of_singleton. }
  destruct (0 <? max)%Z; [|by subst db2]. injection Hev as <- _. by apply uniq_delete_where.
Qed.

Lemma select_pair_none hash t db :
  (∀ k r, yggdrasil_tokens db !! k = Some r → yt_access_token_hash r ≠ hash) →
  select_pair hash t db = None.
Proof.
  intros Hn. destruct (select_pair hash t db) as [[u c]|] eqn:E; [|done].
  apply select_pair_Some in E as (k & r & Hk & Hh & _). by destruct (Hn k r Hk).
Qed.

(** The per-user cap. When issuing a token pair succeeds under a positive cap, the
    user holds at most that many pairs; no other user's pairs are touched. *)
Theorem issue_cap user_id client ttl max o st st' tokens :
  (0 < max)%Z →
  exec (issue_yggdrasil_tokens user_id client ttl max) o st = (st', Ok tokens) →
  (count_rows (owned user_id) (yggdrasil_tokens (st_db st')) ≤ Z.to_nat max)%nat ∧
  (∀ k r, yt_user_id r ≠ user_id →
     yggdrasil_tokens (st_db st') !! k = Some r ↔ yggdrasil_tokens (st_db st) !! k = Some r).
Proof.
  intros Hm Hex. exec_start Hex any_tick. apply wp_issue; [done|].
  intros t0 t1 t2 t3 c db1 db2 n _ _ _ _ _ access exp Hi Hev _. cbn [st_db set_db].
  destruct (issue_rows _ _ _ _ _ _ _ _ _ _ _ Hi Hev) as (_ & H1 & H2).
  rewrite (proj2 (Z.ltb_lt _ _) Hm) in Hev. split; [by eapply evict_beyond_cap|].
  intros k r Hne. split; [|by apply H2]. intros Hk.
  apply H1 in Hk as [[_ ->]|Hk]; [done|]. done.
Qed.

(** A well-formed row of the table determines what [validate_yggdrasil] answers. *)
Lemma wp_validate_row access client now st k r :
  uniq yggdrasil_tokens_access_token_key (yggdrasil_tokens (st_db st)) →
  yggdrasil_tokens (st_db st) !! k = Some r → yt_access_token_hash r = hash_token access →
  wp (validate_yggdrasil access client) (calm now) st (λ st' a, st' = st ∧ a =
    match users (st_db st) !! yt_user_id r with
    | Some u =>
        if (now <? yt_expires_at r)%Z && negb (client_mismatch client (yt_client_token r))
           && negb (u_blocked u) && u_confirmed u
        then Ok (mkKeyed (yt_user_id r) u) else Err Forbidden
    | None => Err Forbidden
    end).
Proof.
  intros Hu Hk Hh. unfold validate_yggdrasil. wp_step. apply wp_eligible_pair.
  { intros (t & (F & _) & F'). congruence. }
  intros t (F & D & A) _. rewrite (select_pair_spec _ t _ k r Hu Hk Hh), D.
  destruct (now <? yt_expires_at r)%Z; [|by destruct (users (st_db st) !! _)].
  destruct (users (st_db st) !! yt_user_id r) as [u|]; [|done].
  destruct (client_mismatch client (yt_client_token r)), (u_blocked u), (u_confirmed u);
    simpl; by try (split; reflexivity).
Qed.

(** Refreshing rotates the access token and keeps the client token. When a refresh
    succeeds and the user's other pairs are older, the answer's client token is the one
    stored with the refreshed pair; the new pair validates, until the expiry it was
    answered with, as the same user; and the refreshed access token no longer
    validates. *)
Theorem refresh_rotates access client ttl max o now st st' user tokens now' o' :
  uniq yggdrasil_tokens_access_token_key (yggdrasil_tokens (st_db st)) →
  (∀ k r, yggdrasil_tokens (st_db st) !! k = Some r → (yt_issued_at r < now)%Z) →
  (∀ i, calm now (o i)) → (∀ i, calm now' (o' i)) →
  exec (refresh_yggdrasil access client ttl max) o st = (st', Ok (user, tokens)) →
  (∃ k r, yggdrasil_tokens (st_db st) !! k = Some r
     ∧ yt_access_token_hash r = hash_token access ∧ yt_user_id r = key user
     ∧ yt_client_token r = client_token tokens) ∧
  ((now' < yk_expires_at tokens)%Z →
     exec (validate_yggdrasil (access_token tokens) (Some (client_token tokens))) o' st'
     = (st', Ok user)) ∧
  (hash_token (access_token tokens) ≠ hash_token access →
     exec (validate_yggdrasil access None) o' st' = (st', Err Forbidden)).
Proof.
  intros Hu Hold Ho Ho' Hex. exec_start Hex (calm now). unfold refresh_yggdrasil.
  wp_step. apply wp_eligible_pair; [intros (t & (F & _) & F'); congruence|].
  intros t (F & D & A) _. destruct (select_pair _ t _) as [[uid stored]|] eqn:S; [|done].
  apply select_pair_Some in S as (k & r & Hk & Hh & _ & Hru & Hrc).
  destruct (users (st_db st) !! uid) as [u|] eqn:U; [|done].
  destruct (client_mismatch client stored || u_blocked u || negb (u_confirmed u)) eqn:C; [done|].
  bool_simpl. apply wp_bind_ok, wp_sql_app. intros t' (F' & D' & A'). rewrite F'.
  unfold delete_ygg_tokens at 1. cbn [key]. apply wp_bind_ok, wp_issue; [done|].
  intros t0 t1 t2 t3 c db1 db2 n _ (F1 & D1 & A1) (F2 & D2 & A2) _ Hc acc exp Hi Hev.
  apply wp_ret. intros [= <- <-]. specialize (Hc _ eq_refl). subst c.
  cbn [key client_token access_token yk_expires_at st_db set_db] in *.
  set (dbd := set_yggdrasil_tokens _ _) in Hi.
  assert (Hud : uniq yggdrasil_tokens_access_token_key (yggdrasil_tokens dbd))
    by by apply uniq_delete_where.
  assert (Hd : ∀ k r, yggdrasil_tokens dbd !! k = Some r →
    yggdrasil_tokens (st_db st) !! k = Some r ∧ yt_access_token_hash r ≠ hash_token access).
  { intros k' r' Hk'. apply lookup_delete_where_Some in Hk' as [Hk' E]. by bool_simpl. }
  split; [eauto 10|]. split.
  - intros He. destruct (exec _ o' _) as [st1 a] eqn:E. exec_start E (calm now').
    eapply wp_conseq; [eapply wp_validate_row|].
    + by eapply issue_uniq.
    + eapply issue_row_kept; [done|done|]. intros k' r' Hk'. rewrite D2.
      apply Hd in Hk' as [Hk' _]. by eapply Hold.
    + done.
    + cbn [yt_user_id yt_expires_at yt_client_token client_mismatch st_db set_db].
      destruct (issue_rows _ _ _ _ _ _ _ _ _ _ _ Hi Hev) as (HU & _).
      intros ? ? [-> ->]. rewrite HU. change (users dbd) with (users (st_db st)).
      rewrite U, String.eqb_refl, (proj2 (Z.ltb_lt _ _) He). simpl.
      repeat match goal with E : _ = true |- _ => rewrite E | E : _ = false |- _ => rewrite E end.
      done.
  - intros Hne. destruct (exec _ o' _) as [st1 a] eqn:E. exec_start E (calm now').
    unfold validate_yggdrasil. wp_step. apply wp_eligible_pair; [intros (t4 & (F4 & _) & F4'); congruence|].
    intros t4 _ _. rewrite select_pair_none; [done|]. intros k' r' Hk'.
    destruct (issue_rows _ _ _ _ _ _ _ _ _ _ _ Hi Hev) as (_ & Hrow & _).
    apply Hrow in Hk' as [[_ ->]|Hk']; [done|]. by apply Hd in Hk' as [_ ?].
Qed.
End YggProperties.

(** ** Concrete instances *)

Definition bob : User :=
  mkUser None "Bob" "bob" None None None 0 0 0 0 None None "launcher" None true false false.

(** Two pairs of user 7, the tokens issued at instants 1 and 2. *)
Definition st_pairs : AppState :=
  set_db (set_users {[ 7%N := bob ]} (set_yggdrasil_tokens
    {[ 1%N := mkYggToken 7 "#a1" "c1" 1 (secs 100);
       2%N := mkYggToken 7 "#a2" "c2" 2 (secs 100) ]} db_empty)) state_new.

Lemma issue_cap_witness :
  let r := exec (issue_yggdrasil_tokens (H := toy_primitives) 7 None (secs 60) 2)
             (random_oracle 5 "a3") st_pairs in
  let tokens := mkTokens "a3" "a3" (secs 60 + 5) in
  (0 < 2)%Z ∧ r = (r.1, Ok tokens) ∧
  (count_rows (owned 7) (yggdrasil_tokens (st_db r.1)) ≤ Z.to_nat 2)%nat ∧
  (∀ k t, yt_user_id t ≠ 7%N →
     yggdrasil_tokens (st_db r.1) !! k = Some t ↔ yggdrasil_tokens (st_db st_pairs) !! k = Some t).
Proof.
  intros r tokens. assert (E : r = (r.1, Ok tokens)) by (vm_compute; reflexivity).
  split; [lia|]. split; [exact E|].
  exact (issue_cap (H := toy_primitives) 7 None (secs 60) 2 (random_oracle 5 "a3") st_pairs r.1
           tokens ltac:(lia) E).
Defined.

Lemma refresh_rotates_witness :
  let r := exec (refresh_yggdrasil (H := toy_primitives) "a2" None (secs 60) 2)
             (random_oracle 5 "a3") st_pairs in
  let tokens := mkTokens "a3" "c2" (secs 60 + 5) in
  r = (r.1, Ok (mkKeyed 7%N bob, tokens)) ∧
  exec (validate_yggdrasil (H := toy_primitives) "a3" (Some "c2")) (calm_oracle 9) r.1
  = (r.1, Ok (mkKeyed 7%N bob)) ∧
  exec (validate_yggdrasil (H := toy_primitives) "a2" None) (calm_oracle 9) r.1
  = (r.1, Err Forbidden).
Proof.
  intros r tokens.
  assert (E : r = (r.1, Ok (mkKeyed 7%N bob, tokens))) by (vm_compute; reflexivity).
  assert (U : uniq yggdrasil_tokens_access_token_key (yggdrasil_tokens (st_db st_pairs)))
    by (apply uniqb_sound; vm_compute; reflexivity).
  assert (O : ∀ k r, yggdrasil_tokens (st_db st_pairs) !! k = Some r → (yt_issued_at r < 5)%Z).
  { intros k t Hk. unfold st_pairs in Hk. simpl in Hk.
    apply lookup_insert_Some in Hk as [[_ <-]|[_ Hk]]; [simpl; lia|].
    apply lookup_singleton_Some in Hk as [_ <-]. simpl. lia. }
  destruct (refresh_rotates (H := toy_primitives) "a2" None (secs 60) 2 (random_oracle 5 "a3") 5
              st_pairs r.1 (mkKeyed 7%N bob) tokens 9 (calm_oracle 9) U O (λ i, ltac:(done))
              (calm_oracle_calm 9) E) as (_ & H1 & H2).
  split; [exact E|]. split; [apply H1; unfold tokens, secs; simpl; lia|apply H2; done].
Defined.
