(* ===== verification/Invariant.v ===== *)
(** * The schema's invariant

    What the constraints of [migrations/] guarantee of the modelled tables: primary and
    unique keys, foreign keys, check constraints; and that no player count is negative,
    which no constraint says but every statement keeps. [schema_rel] is "if the database was
    well formed, it still is", the relation that every statement of every handler is
    proved to stay within. *)

From S2P Require Import Prelude RustStr Errors Models Table Realtime Content Schema Prog.

Section Invariant.
Context `{Lowercase}.

Definition users_ok (U : gmap N User) : Prop := table_ok users_indexes (λ _ _, True) U.

Definition sessions_ok (U : gmap N User) : gmap N Session → Prop :=
  table_ok [sessions_token_hash_key] (λ _ s, ref (s_user_id s) U).

Definition tokens_ok (U : gmap N User) : gmap N YggToken → Prop :=
  table_ok [yggdrasil_tokens_access_token_key] (λ _ r, ref (yt_user_id r) U).

(** [friend_requests_not_self]. *)
Definition friend_requests_ok (U : gmap N User) : gmap N FriendRequest → Prop :=
  table_ok [friend_requests_pending_unique] (λ _ r,
    ref (fr_from_user_id r) U ∧ ref (fr_to_user_id r) U ∧ fr_from_user_id r ≠ fr_to_user_id r).

(** [friendships_ordered]. *)
Definition friendships_ok (U : gmap N User) : gmap N Friendship → Prop :=
  table_ok [friendships_pair_unique] (λ _ f,
    ref (fs_user_a_id f) U ∧ ref (fs_user_b_id f) U ∧ (fs_user_a_id f < fs_user_b_id f)%N).

Definition presence_ok (U : gmap N User) (W : gmap N WorldSession) : gmap N Presence → Prop :=
  table_ok [] (λ k p, ref k U ∧ opt_ref (p_current_world_session_id p) W).

Definition worlds_ok (U : gmap N User) : gmap N WorldSession → Prop :=
  table_ok [world_sessions_one_open_per_host] (λ _ w,
    ref (ws_host_user_id w) U ∧ (0 ≤ ws_current_players w)%Z).

Definition join_requests_ok (U : gmap N User) (W : gmap N WorldSession)
  : gmap N JoinRequest → Prop :=
  table_ok [join_requests_pending_unique] (λ _ r,
    ref (jr_requester_user_id r) U ∧ ref (jr_host_user_id r) U ∧ ref (jr_world_session_id r) W).

Definition join_tickets_ok (U : gmap N User) (W : gmap N WorldSession)
  : gmap N JoinTicket → Prop :=
  table_ok [join_tickets_token_hash_key] (λ _ r,
    ref (jk_user_id r) U ∧ ref (jk_world_session_id r) W).

Definition relay_sessions_ok (U : gmap N User) (W : gmap N WorldSession) (K : gmap N JoinTicket)
  : gmap N RelaySession → Prop :=
  table_ok [] (λ _ r,
    ref (rs_world_session_id r) W ∧ ref (rs_host_user_id r) U
    ∧ opt_ref (rs_guest_user_id r) U ∧ opt_ref (rs_join_ticket_id r) K).

(** [world_invites_not_self]. *)
Definition world_invites_ok (U : gmap N User) (W : gmap N WorldSession)
  : gmap N WorldInvite → Prop :=
  table_ok [world_invites_active_unique] (λ _ r,
    ref (wi_world_session_id r) W ∧ ref (wi_host_user_id r) U ∧ ref (wi_inviter_user_id r) U
    ∧ ref (wi_invitee_user_id r) U ∧ wi_inviter_user_id r ≠ wi_invitee_user_id r).

Definition user_events_ok (U : gmap N User) : gmap N UserEvent → Prop :=
  table_ok [] (λ _ e, opt_ref (ue_user_id e) U).

(** The [CHECK]s on [kind] and [variant], [user_textures_variant_kind]. *)
Definition texture_check (kind : string) (r : UserTexture) : Prop :=
  (kind = "skin" ∧ (ut_variant r = Some "CLASSIC" ∨ ut_variant r = Some "SLIM"))
  ∨ (kind = "cape" ∧ ut_variant r = None).

#[export] Instance texture_check_dec kind r : Decision (texture_check kind r).
Proof. unfold texture_check. apply _. Defined.

Definition user_textures_ok (U : gmap N User) : gmap (N * string) UserTexture → Prop :=
  map_Forall (λ k r, ref k.1 U ∧ texture_check k.2 r).

Record schema_ok (db : Db) : Prop := {
  ok_users : users_ok (users db);
  ok_sessions : sessions_ok (users db) (sessions db);
  ok_tokens : tokens_ok (users db) (yggdrasil_tokens db);
  ok_friend_requests : friend_requests_ok (users db) (friend_requests db);
  ok_friendships : friendships_ok (users db) (friendships db);
  ok_presence : presence_ok (users db) (world_sessions db) (presence db);
  ok_worlds : worlds_ok (users db) (world_sessions db);
  ok_join_requests : join_requests_ok (users db) (world_sessions db) (join_requests db);
  ok_join_tickets : join_tickets_ok (users db) (world_sessions db) (join_tickets db);
  ok_relay_sessions :
    relay_sessions_ok (users db) (world_sessions db) (join_tickets db) (relay_sessions db);
  ok_world_invites : world_invites_ok (users db) (world_sessions db) (world_invites db);
  ok_user_events : user_events_ok (users db) (user_events db);
  ok_user_textures : user_textures_ok (users db) (user_textures db);
  ok_content : content_ok (content db)
}.

Definition schema_rel (db db' : Db) : Prop := schema_ok db → schema_ok db'.

#[export] Instance schema_rel_preorder : PreOrder schema_rel.
Proof. split; [intros db K; exact K|]. intros a b c H1 H2 H3. exact (H2 (H1 H3)). Qed.

Lemma schema_ok_empty : schema_ok db_empty.
Proof. split; first [apply table_ok_empty|apply map_Forall_empty|apply content_ok_empty]. Qed.
End Invariant.

(** ** The invariant as a computation *)

Section Decide.
Context `{Lowercase}.

Definition schema_okb (db : Db) : bool :=
  let U k := is_row k (users db) in
  let W k := is_row k (world_sessions db) in
  table_okb users_indexes (λ _ _, true) (users db)
  && table_okb [sessions_token_hash_key] (λ _ s, U (s_user_id s)) (sessions db)
  && table_okb [yggdrasil_tokens_access_token_key] (λ _ r, U (yt_user_id r))
       (yggdrasil_tokens db)
  && table_okb [friend_requests_pending_unique] (λ _ r,
       U (fr_from_user_id r) && U (fr_to_user_id r)
       && negb (fr_from_user_id r =? fr_to_user_id r)%N) (friend_requests db)
  && table_okb [friendships_pair_unique] (λ _ f,
       U (fs_user_a_id f) && U (fs_user_b_id f) && (fs_user_a_id f <? fs_user_b_id f)%N)
       (friendships db)
  && table_okb [] (λ k p, U k && opt_refb (p_current_world_session_id p) (world_sessions db))
       (presence db)
  && table_okb [world_sessions_one_open_per_host] (λ _ w,
       U (ws_host_user_id w) && (0 <=? ws_current_players w)%Z) (world_sessions db)
  && table_okb [join_requests_pending_unique] (λ _ r,
       U (jr_requester_user_id r) && U (jr_host_user_id r) && W (jr_world_session_id r))
       (join_requests db)
  && table_okb [join_tickets_token_hash_key] (λ _ r,
       U (jk_user_id r) && W (jk_world_session_id r)) (join_tickets db)
  && table_okb [] (λ _ r,
       W (rs_world_session_id r) && U (rs_host_user_id r)
       && opt_refb (rs_guest_user_id r) (users db)
       && opt_refb (rs_join_ticket_id r) (join_tickets db)) (relay_sessions db)
  && table_okb [world_invites_active_unique] (λ _ r,
       W (wi_world_session_id r) && U (wi_host_user_id r) && U (wi_inviter_user_id r)
       && U (wi_invitee_user_id r) && negb (wi_inviter_user_id r =? wi_invitee_user_id r)%N)
       (world_invites db)
  && table_okb [] (λ _ e, opt_refb (ue_user_id e) (users db)) (user_events db)
  && forallb (λ kr, let '((u, kind), r) := kr in
       U u && bool_decide (texture_check kind r)) (map_to_list (user_textures db))
  && content_okb (content db).

Lemma textures_okb_sound (U : gmap N User) (m : gmap (N * string) UserTexture) :
  forallb (λ kr, let '((u, kind), r) := kr in is_row u U && bool_decide (texture_check kind r))
    (map_to_list m) = true → user_textures_ok U m.
Proof.
  rewrite forallb_forall. intros Hf [u kind] r Hr. apply elem_of_map_to_list, list_elem_of_In in Hr.
  specialize (Hf _ Hr). simpl in *. apply andb_true_iff in Hf as [Hu Hk].
  split; [by apply is_row_true|by apply bool_decide_eq_true in Hk].
Qed.

Lemma schema_okb_sound db : schema_okb db = true → schema_ok db.
Proof.
  unfold schema_okb. cbv zeta. rewrite !andb_true_iff. intros E. destruct_and!.
  split; [..|by apply textures_okb_sound|by apply content_okb_sound];
    (eapply table_okb_sound; [|eassumption]); simpl; intros k r Hc; try done;
    repeat (apply andb_true_iff in Hc as [Hc ?]);
    repeat match goal with
    | H : is_row _ _ = true |- _ => apply is_row_true in H
    | H : opt_refb _ _ = true |- _ => apply opt_refb_sound in H
    | H : negb (_ =? _)%N = true |- _ => apply negb_true_iff, N.eqb_neq in H
    | H : (_ <? _)%N = true |- _ => apply N.ltb_lt in H
    | H : (_ <=? _)%Z = true |- _ => apply Z.leb_le in H
    end; repeat match goal with |- _ ∧ _ => split end; assumption.
Qed.
End Decide.

(** ** One table changes *)

Section OneTable.
Context `{Lowercase} (db : Db) (S : schema_ok db).

Ltac one_table := destruct S; split; done.

Lemma schema_set_sessions m : sessions_ok (users db) m → schema_ok (set_sessions m db).
Proof. one_table. Qed.
Lemma schema_set_tokens m : tokens_ok (users db) m → schema_ok (set_yggdrasil_tokens m db).
Proof. one_table. Qed.
Lemma schema_set_friend_requests m :
  friend_requests_ok (users db) m → schema_ok (set_friend_requests m db).
Proof. one_table. Qed.
Lemma schema_set_friendships m :
  friendships_ok (users db) m → schema_ok (set_friendships m db).
Proof. one_table. Qed.
Lemma schema_set_presence m :
  presence_ok (users db) (world_sessions db) m → schema_ok (set_presence m db).
Proof. one_table. Qed.
Lemma schema_set_join_requests m :
  join_requests_ok (users db) (world_sessions db) m → schema_ok (set_join_requests m db).
Proof. one_table. Qed.
Lemma schema_set_relay_sessions m :
  relay_sessions_ok (users db) (world_sessions db) (join_tickets db) m →
  schema_ok (set_relay_sessions m db).
Proof. one_table. Qed.
Lemma schema_set_world_invites m :
  world_invites_ok (users db) (world_sessions db) m → schema_ok (set_world_invites m db).
Proof. one_table. Qed.
Lemma schema_set_user_events m :
  user_events_ok (users db) m → schema_ok (set_user_events m db).
Proof. one_table. Qed.
Lemma schema_set_user_textures m :
  user_textures_ok (users db) m → schema_ok (set_user_textures m db).
Proof. one_table. Qed.
Lemma schema_set_content c : content_ok c → schema_ok (set_content c db).
Proof. one_table. Qed.
End OneTable.

(** ** Tables that others refer to: their keys may only grow *)

Section Referenced.
Context `{Lowercase} (db : Db) (S : schema_ok db).

Ltac widen :=
  match goal with
  | |- table_ok _ _ _ =>
      eapply table_ok_mono; [|eassumption]; simpl; intros; destruct_and?;
      repeat split; eauto using opt_ref_keeps
  | |- map_Forall _ _ =>
      eapply map_Forall_impl; [eassumption|]; simpl; intros; destruct_and?;
      repeat split; eauto; tauto
  end.

Lemma schema_set_world_sessions m :
  keeps (world_sessions db) m → worlds_ok (users db) m → schema_ok (set_world_sessions m db).
Proof.
  intros K Hm. destruct S.
  split; try done; simpl; unfold presence_ok, join_requests_ok, join_tickets_ok,
    relay_sessions_ok, world_invites_ok in *; widen.
Qed.

Lemma schema_set_join_tickets m :
  keeps (join_tickets db) m → join_tickets_ok (users db) (world_sessions db) m →
  schema_ok (set_join_tickets m db).
Proof.
  intros K Hm. destruct S. split; try done; simpl; unfold relay_sessions_ok in *; widen.
Qed.

Lemma schema_set_users m : keeps (users db) m → users_ok m → schema_ok (set_users m db).
Proof.
  intros K Hm. destruct S.
  split; try done; simpl; unfold sessions_ok, tokens_ok, friend_requests_ok, friendships_ok,
    presence_ok, worlds_ok, join_requests_ok, join_tickets_ok, relay_sessions_ok,
    world_invites_ok, user_events_ok, user_textures_ok in *; widen.
Qed.
End Referenced.

(** All the symmetry side conditions of the table rules. *)
Ltac index_side := repeat (apply Forall_cons; split); try apply Forall_nil; auto with loon.

(** ** A small well-formed state, for the concrete instances of the theorems

    Users 1, 2 and 3; 1 and 2 are friends, 2 and 3 are friends; user 2 hosts the open
    world 50 and is joinable; users 1, 2 and 3 are each connected once. *)

Definition sample_user (name : string) : User :=
  mkUser None name name None None None 0 0 0 0 None None "launcher" None true false false.

Definition sample_db : Db :=
  mkDb {[ 1%N := sample_user "ada"; 2%N := sample_user "bob"; 3%N := sample_user "cy" ]}
    ∅ ∅ ∅
    {[ 10%N := mkFriendship 1 2 0; 11%N := mkFriendship 2 3 0 ]}
    {[ 2%N := mkPresence "joinable" 5 (Some "1.20") None (Some "fabric") (Some 50%N) 5 ]}
    {[ 50%N := mkWorldSession 2 Open 3 0 FriendsOfFriends 0 None ]}
    ∅ ∅ ∅ ∅ ∅ ∅ content_empty.

Definition sample_hub : SignalingHub :=
  (hub_add 93 3 (hub_add 92 2 (hub_add 91 1 signaling_new).1).1).1.

Definition sample_state : AppState := mkState sample_db sample_hub relay_new metrics_new ∅ ∅ ∅.

Lemma sample_schema_ok : @schema_ok ascii_lowercase (st_db sample_state).
Proof. apply schema_okb_sound. vm_compute. reflexivity. Qed.

Lemma sample_hub_wf : hub_wf (st_signaling sample_state).
Proof. simpl. unfold sample_hub. auto 8 with loon. Qed.
