(* ===== verification/AuthSchema.v ===== *)
(** * The schema's invariant for sessions and launcher tokens

    The statements of [Auth] and [YggTokens] keep the invariant of [Invariant]. *)

From S2P Require Import Prelude RustStr Errors Models Table Realtime Schema Prog Auth YggTokens.
From S2P Require Import Invariant.

Section AuthSchema.
Context `{Lowercase} `{Primitives} (cfg : Config).

Lemma insert_session_schema u h e t db db' x : insert_session u h e t db = Ok (db', x) → schema_rel db db'.
Proof.
  unfold insert_session. rewrite and_then_ok. intros ([] & Hfk & E).
  apply and_then_ok in E as (m & (Hn & -> & Hv)%insert_row_ok & [= <- <-]). intros S.
  apply fk_ok in Hfk. apply schema_set_sessions; [done|].
  apply table_ok_insert; [by index_side|done|done|apply S].
Qed.

Lemma revoke_where_schema p t db db' n : revoke_where p t db = Ok (db', n) → schema_rel db db'.
Proof.
  intros [= <- <-] S. apply schema_set_sessions; [done|].
  apply table_ok_update; [by index_side|by index_side|by intros k s _|apply S].
Qed.

Lemma insert_ygg_token_schema u h c e t db db' x :
  insert_ygg_token u h c e t db = Ok (db', x) → schema_rel db db'.
Proof.
  unfold insert_ygg_token. rewrite and_then_ok. intros ([] & Hfk & E).
  apply and_then_ok in E as (m & (Hn & -> & Hv)%insert_row_ok & [= <- <-]). intros S.
  apply fk_ok in Hfk. apply schema_set_tokens; [done|].
  apply table_ok_insert; [by index_side|done|done|apply S].
Qed.

Lemma delete_ygg_schema p db db' n : delete_ygg_tokens p db = Ok (db', n) → schema_rel db db'.
Proof. intros [= <- <-] S. apply schema_set_tokens; [done|]. apply table_ok_delete, S. Qed.

Lemma generate_token_rel R `{!PreOrder R} : prog_rel (db_rel R) generate_token.
Proof. by apply prog_rel_memory; [exact _|]. Qed.
Hint Resolve generate_token_rel : loon.

Lemma issue_session_schema u ttl : prog_rel (db_rel schema_rel) (issue_session u ttl).
Proof. unfold issue_session. prog_rel_go. intros t db db' b. apply insert_session_schema. Qed.

Lemma revoke_schema p : prog_rel (db_rel schema_rel) (sql_app (revoke_where p)).
Proof. prog_rel_go. intros t db db' b. apply revoke_where_schema. Qed.

Lemma cleanup_sessions_schema : prog_rel (db_rel schema_rel) cleanup_expired_sessions.
Proof.
  unfold cleanup_expired_sessions. prog_rel_go. intros t db db' b [= <- <-] S.
  apply schema_set_sessions; [done|]. apply table_ok_delete, S.
Qed.

Lemma delete_ygg_prog p : prog_rel (db_rel schema_rel) (sql_app (λ t db, delete_ygg_tokens (p t) db)).
Proof. prog_rel_go. intros t db db' b. apply delete_ygg_schema. Qed.

Lemma ygg_issue_schema u c ttl m : prog_rel (db_rel schema_rel) (issue_yggdrasil_tokens u c ttl m).
Proof.
  unfold issue_yggdrasil_tokens, random_64_hex. prog_rel_go.
  - intros t db db' b. apply insert_ygg_token_schema.
  - intros t db db' b. apply delete_ygg_schema.
Qed.

Lemma eligible_rel R `{!PreOrder R} a c : prog_rel (db_rel R) (eligible_pair a c).
Proof. unfold eligible_pair. prog_rel_go. Qed.
End AuthSchema.

#[export] Hint Resolve generate_token_rel issue_session_schema revoke_schema cleanup_sessions_schema delete_ygg_prog
  ygg_issue_schema eligible_rel : loon.
