(* ===== verification/Identity.v ===== *)
(** * Accounts and passwords

    [crates/core/src/identity.rs]: password hashing, the three ways an account comes to
    be (the mod's bootstrap, registration, an administrator), the credential check, the
    rule that ties [profile_uuid] to [minecraft_uuid], and the administrative updates.
    Argon2 and the text of a UUID are third-party code: parameters with the laws below. *)

From S2P Require Import Prelude RustStr Errors YggUuid Models Table Realtime Schema Prog.
From S2P Require Import Auth Invariant.

(** [PasswordHash::new] is [phc_new]; [argon2_hash] takes the password and the salt's
    bytes, [None] when hashing fails. What it returns parses and verifies. *)
Class PasswordHashing := {
  Phc : Type;
  phc_new : string → option Phc;
  argon2_hash : string → string → option string;
  argon2_verify : string → Phc → bool;
  argon2_verifies : ∀ plain salt h, argon2_hash plain salt = Some h →
    ∃ c, phc_new h = Some c ∧ argon2_verify plain c = true
}.

(** [Uuid::simple]: 32 lower-case hexadecimal digits. *)
Class UuidText := {
  simple : Uuid → string;
  simple_canonical : ∀ u, canonical_undashed (simple u)
}.

Definition wrap_i64 : Z → Z := wrap_signed 64.

Section Identity.
Context `{Lowercase} `{PasswordHashing} `{UuidText}.

(** ** Passwords *)

Definition hash_password (plain : string) : prog (AppResult string) :=
  act (λ t st, (st, ok_or (Internal "password hash failed") (argon2_hash plain (t_random t)))).

Definition verify_password (plain hash : string) : bool :=
  match phc_new hash with
  | None => false
  | Some parsed => argon2_verify plain parsed
  end.

Definition random_profile_uuid : prog string := act (λ t st, (st, simple (t_uuid t))).

(** The hash is made once per process; its verification is always discarded, so which salt
    it has does not matter. *)
Definition dummy_password_hash : prog string :=
  let* h := hash_password "timing-equalizer-not-a-real-password" in
  Ret (match h with Ok h => h | Err _ => "" end).

Definition check_password_len (password : string) : AppResult unit :=
  if (password =? "")%string then Err (BadRequest "password is required")
  else if (1024 <? String.length password)%nat then Err (BadRequest "password is too long")
  else Ok ().

(** ** The profile rule *)

Definition invalid_minecraft_uuid (e : UuidError) : AppError :=
  let '(Invalid v) := e in BadRequest ("invalid minecraftUuid: value is not a valid UUID: " +:+ v).

Definition reconcile_profile_uuid (minecraft_uuid current_profile_uuid : option string)
  : prog (AppResult string) :=
  match minecraft_uuid with
  | Some mc => lift (map_err invalid_minecraft_uuid (undash_uuid mc))
  | None =>
      match current_profile_uuid with
      | Some p => ret_ok p
      | None => prog_map Ok random_profile_uuid
      end
  end.

(** ** Statements on [users] *)

Definition find_user (p : User → bool) (db : Db) : option (Keyed User) :=
  find_row (λ _ u, p u) (users db).

(** [UPDATE users SET f WHERE id = $1 RETURNING *], [None] when there is no such row. *)
Definition update_user_row (id : Uuid) (f : Tick → User → User) (t : Tick) (db : Db)
  : SqlResult (Db * option (Keyed User)) :=
  match users db !! id with
  | None => Ok (db, None)
  | Some u =>
      try m := update_row users_indexes id (f t u) (users db) in
      Ok (set_users m db, Some (mkKeyed id (f t u)))
  end.

(** The same with [fetch_one]. *)
Definition update_one_user (id : Uuid) (f : Tick → User → User) (t : Tick) (db : Db)
  : SqlResult (Db * Keyed User) :=
  match update_user_row id f t db with
  | Ok (db, Some u) => Ok (db, u)
  | Ok (_, None) => Err RowNotFound
  | Err e => Err e
  end.

Definition insert_user (f : Tick → User) (t : Tick) (db : Db) : SqlResult (Db * Keyed User) :=
  try m := insert_row "users_pkey" users_indexes (t_uuid t) (f t) (users db) in
  Ok (set_users m db, mkKeyed (t_uuid t) (f t)).

Definition map_username_conflict (normalized : string) (err : SqlError) : AppError :=
  if is_unique_violation_of err "users_normalized_username_uniq"
  then Conflict ("username '" +:+ normalized +:+ "' is already taken")
  else Database err.

Definition map_create_conflict (normalized email : string) (err : SqlError) : AppError :=
  if is_unique_violation_of err "users_normalized_username_uniq"
  then Conflict ("username '" +:+ normalized +:+ "' is already taken")
  else if is_unique_violation_of err "users_email_uniq"
  then Conflict ("email '" +:+ email +:+ "' is already registered")
  else Database err.

Definition load_user (id : Uuid) : prog (AppResult (Keyed User)) :=
  let? user := select (λ _ db, option_map (mkKeyed id) (users db !! id)) in
  lift (ok_or (NotFound "user not found") user).

Definition find_by_minecraft_uuid (minecraft_uuid : string)
  : prog (AppResult (option (Keyed User))) :=
  select (λ _ db, find_user (λ u, sql_eq (u_minecraft_uuid u) (Some minecraft_uuid)) db).

Definition find_by_profile_uuid (profile_uuid : string)
  : prog (AppResult (option (Keyed User))) :=
  select (λ _ db, find_user (λ u, sql_eq (u_profile_uuid u) (Some profile_uuid)) db).

(** ** The mod's bootstrap *)

Record BootstrapIdentity : Type := mkBootstrapIdentity {
  bi_minecraft_uuid : string;
  bi_username : string;
  bi_account_type : option string;
  bi_xuid : option string;
  bi_client_id : option string
}.

Definition refreshed (ident : BootstrapIdentity) (normalized : string)
  (minecraft_uuid profile_uuid : option string) (t : Tick) (u : User) : User :=
  mkUser (or_else minecraft_uuid (u_minecraft_uuid u)) (trim (bi_username ident)) normalized
    (or_else (bi_account_type ident) (u_account_type u)) (or_else (bi_xuid ident) (u_xuid u))
    (or_else (bi_client_id ident) (u_client_id u)) (u_first_seen_at u) (t_db t) (u_created_at u)
    (t_db t) (u_email u) (u_password_hash u) (u_origin u)
    (or_else profile_uuid (u_profile_uuid u)) (u_confirmed u) (u_blocked u) (u_is_admin u).

Definition refresh_bootstrap_row (id : Uuid) (ident : BootstrapIdentity) (normalized : string)
  (minecraft_uuid profile_uuid : option string) : prog (AppResult (Keyed User)) :=
  prog_map (map_err (map_username_conflict normalized))
    (sql (update_one_user id (refreshed ident normalized minecraft_uuid profile_uuid))).

(** The row of [INSERT INTO users] with the columns' defaults. *)
Definition bootstrap_row (minecraft_uuid username normalized : string) (ident : BootstrapIdentity)
  (profile_uuid : string) (t : Tick) : User :=
  mkUser (Some minecraft_uuid) username normalized (bi_account_type ident) (bi_xuid ident)
    (bi_client_id ident) (t_db t) (t_db t) (t_db t) (t_db t) None None "mod" (Some profile_uuid)
    false false false.

Definition find_or_create_from_bootstrap (ident : BootstrapIdentity)
  : prog (AppResult (Keyed User)) :=
  let minecraft_uuid := trim (bi_minecraft_uuid ident) in
  let username := trim (bi_username ident) in
  if (minecraft_uuid =? "")%string then ret_err (BadRequest "minecraftUuid is required")
  else if (username =? "")%string then ret_err (BadRequest "username is required")
  else
    let? profile_uuid := lift (map_err invalid_minecraft_uuid (undash_uuid minecraft_uuid)) in
    let normalized := normalize_username username in
    let? existing := find_by_minecraft_uuid minecraft_uuid in
    match existing with
    | Some existing =>
        refresh_bootstrap_row (key existing) ident normalized None (Some profile_uuid)
    | None =>
        let? existing := find_by_profile_uuid profile_uuid in
        match existing with
        | Some existing =>
            refresh_bootstrap_row (key existing) ident normalized (Some minecraft_uuid) None
        | None =>
            prog_map (map_err (map_username_conflict normalized))
              (sql (insert_user
                 (bootstrap_row minecraft_uuid username normalized ident profile_uuid)))
        end
    end.

(** ** Credentials *)

Definition with_profile_uuid (profile_uuid : string) (t : Tick) (u : User) : User :=
  mkUser (u_minecraft_uuid u) (u_username u) (u_normalized_username u) (u_account_type u)
    (u_xuid u) (u_client_id u) (u_first_seen_at u) (u_last_seen_at u) (u_created_at u) (t_db t)
    (u_email u) (u_password_hash u) (u_origin u) (Some profile_uuid) (u_confirmed u)
    (u_blocked u) (u_is_admin u).

Definition assign_or_reconcile_profile_uuid (user : Keyed User) : prog (AppResult (Keyed User)) :=
  let? desired :=
    reconcile_profile_uuid (u_minecraft_uuid (row user)) (u_profile_uuid (row user)) in
  if sql_eq (u_profile_uuid (row user)) (Some desired) then ret_ok user
  else sql_app (update_one_user (key user) (with_profile_uuid desired)).

(** [normalized_username = $1 OR lower(email) = $1]. *)
Definition identified (normalized : string) (u : User) : bool :=
  (u_normalized_username u =? normalized)%string
  || sql_eq (to_lowercase <$> u_email u) (Some normalized).

(** The verification whose result is thrown away. *)
Definition equalize_timing (password : string) : prog unit :=
  let* hash := dummy_password_hash in
  let _ := verify_password password hash in
  Ret ().

Definition authenticate_password (identifier password : string) : prog (AppResult (Keyed User)) :=
  let identifier := trim identifier in
  if (identifier =? "")%string || (password =? "")%string then ret_err Forbidden
  else
    let normalized := normalize_username identifier in
    let? user := select (λ _ db, find_user (identified normalized) db) in
    match user with
    | None => do* equalize_timing password; ret_err Forbidden
    | Some user =>
        match u_password_hash (row user) with
        | None => do* equalize_timing password; ret_err Forbidden
        | Some hash =>
            if negb (verify_password password hash) then ret_err Forbidden
            else if u_blocked (row user) || negb (u_confirmed (row user)) then ret_err Forbidden
            else assign_or_reconcile_profile_uuid user
        end
    end.

(** ** Creation *)

(** The row an account with credentials starts as. *)
Definition credential_row (minecraft_uuid : option string) (username normalized email : string)
  (password_hash origin profile_uuid : string) (is_admin : bool) (t : Tick) : User :=
  mkUser minecraft_uuid username normalized None None None (t_db t) (t_db t) (t_db t) (t_db t)
    (Some email) (Some password_hash) origin (Some profile_uuid) true false is_admin.

Record AdminCreateUser : Type := mkAdminCreateUser {
  ac_username : string;
  ac_email : string;
  ac_password : string;
  ac_minecraft_uuid : option string;
  ac_is_admin : bool
}.

Definition admin_create_user (input : AdminCreateUser) : prog (AppResult (Keyed User)) :=
  let username := trim (ac_username input) in
  let email := trim (ac_email input) in
  if (username =? "")%string then ret_err (BadRequest "username is required")
  else if (email =? "")%string then ret_err (BadRequest "email is required")
  else
    do? lift (check_password_len (ac_password input));
    let minecraft_uuid :=
      match trim <$> ac_minecraft_uuid input with
      | Some mc => if (mc =? "")%string then None else Some mc
      | None => None
      end in
    let normalized := normalize_username username in
    let? password_hash := hash_password (ac_password input) in
    let? profile_uuid := reconcile_profile_uuid minecraft_uuid None in
    prog_map (map_err (map_create_conflict normalized email))
      (sql (insert_user (credential_row minecraft_uuid username normalized email password_hash
              "admin" profile_uuid (ac_is_admin input)))).

Definition register_user (username email password : string) : prog (AppResult (Keyed User)) :=
  let username := trim username in
  let email := trim email in
  if (username =? "")%string then ret_err (BadRequest "username is required")
  else if negb (is_valid_email email) then ret_err (BadRequest "a valid email is required")
  else
    do? lift (check_password_len password);
    let normalized := normalize_username username in
    let? password_hash := hash_password password in
    let* profile_uuid := random_profile_uuid in
    prog_map (map_err (map_create_conflict normalized email))
      (sql (insert_user (credential_row None username normalized email password_hash
              "yggdrasil" profile_uuid false))).

(** ** Search *)

Record UserPage : Type := mkUserPage {
  up_users : list (Keyed User);
  up_total : Z;
  up_page : Z;
  up_page_size : Z
}.

Definition PAGE_SIZE : Z := 25.

(** [ORDER BY created_at DESC LIMIT $ OFFSET $]; Postgres refuses a negative offset. *)
Definition page_rows (p : User → bool) (offset : Z) (db : Db) : SqlResult (list (Keyed User)) :=
  if (offset <? 0)%Z then Err Io
  else Ok (take (Z.to_nat PAGE_SIZE)
             (drop (Z.to_nat offset)
                (order_by_desc u_created_at (select_rows (λ _ u, p u) (users db))))).

Definition search_page (p : User → bool) (page offset : Z) : prog (AppResult UserPage) :=
  let? total := select (λ _ db, count_rows (λ _ u, p u) (users db)) in
  let? users := sql_app (λ _ db, try l := page_rows p offset db in Ok (db, l)) in
  ret_ok (mkUserPage users (Z.of_nat total) page PAGE_SIZE).

Definition search_users_all (page offset : Z) : prog (AppResult UserPage) :=
  search_page (λ _, true) page offset.

(** [normalized_username LIKE $1 OR lower(email) LIKE $1]. *)
Definition like_user (pattern : string) (u : User) : bool :=
  like (u_normalized_username u) pattern
  || match u_email u with Some e => like (to_lowercase e) pattern | None => false end.

Definition search_users (q : string) (page : Z) : prog (AppResult UserPage) :=
  let page := Z.max page 1 in
  let offset := wrap_i64 ((page - 1) * PAGE_SIZE) in
  let trimmed := trim q in
  if (trimmed =? "")%string then search_users_all page offset
  else search_page (like_user (contains_pattern (to_lowercase trimmed))) page offset.

(** ** Updates by an administrator *)

Record UpdateUser : Type := mkUpdateUser {
  uu_username : option string;
  uu_email : option string;
  uu_is_admin : option bool;
  uu_confirmed : option bool
}.

Definition patched (patch : UpdateUser) (t : Tick) (u : User) : User :=
  mkUser (u_minecraft_uuid u) (default (u_username u) (uu_username patch))
    (default (u_normalized_username u) (normalize_username <$> uu_username patch))
    (u_account_type u) (u_xuid u) (u_client_id u) (u_first_seen_at u) (u_last_seen_at u)
    (u_created_at u) (t_db t) (or_else (uu_email patch) (u_email u)) (u_password_hash u)
    (u_origin u) (u_profile_uuid u) (default (u_confirmed u) (uu_confirmed patch)) (u_blocked u)
    (default (u_is_admin u) (uu_is_admin patch)).

Definition update_user (id : Uuid) (patch : UpdateUser) : prog (AppResult (Keyed User)) :=
  let normalized := default "" (normalize_username <$> uu_username patch) in
  let? updated :=
    prog_map (map_err (map_create_conflict normalized (default "" (uu_email patch))))
      (sql (update_user_row id (patched patch))) in
  lift (ok_or (NotFound "user not found") updated).

Definition with_password (hash : string) (t : Tick) (u : User) : User :=
  mkUser (u_minecraft_uuid u) (u_username u) (u_normalized_username u) (u_account_type u)
    (u_xuid u) (u_client_id u) (u_first_seen_at u) (u_last_seen_at u) (u_created_at u) (t_db t)
    (u_email u) (Some hash) (u_origin u) (u_profile_uuid u) (u_confirmed u) (u_blocked u)
    (u_is_admin u).

Definition set_password (id : Uuid) (new : string) : prog (AppResult unit) :=
  do? lift (check_password_len new);
  let? hash := hash_password new in
  let? updated := sql_app (update_user_row id (with_password hash)) in
  lift (found (match updated with Some _ => 1 | None => 0 end) "user").

Definition with_blocked (blocked : bool) (t : Tick) (u : User) : User :=
  mkUser (u_minecraft_uuid u) (u_username u) (u_normalized_username u) (u_account_type u)
    (u_xuid u) (u_client_id u) (u_first_seen_at u) (u_last_seen_at u) (u_created_at u) (t_db t)
    (u_email u) (u_password_hash u) (u_origin u) (u_profile_uuid u) (u_confirmed u) blocked
    (u_is_admin u).

Definition set_blocked (id : Uuid) (blocked : bool) : prog (AppResult (Keyed User)) :=
  let? updated := sql_app (update_user_row id (with_blocked blocked)) in
  lift (ok_or (NotFound "user not found") updated).

Definition block (id : Uuid) : prog (AppResult (Keyed User)) := set_blocked id true.
Definition unblock (id : Uuid) : prog (AppResult (Keyed User)) := set_blocked id false.
End Identity.

(** ** The schema's invariant *)

Section IdentitySchema.
Context `{Lowercase} `{PasswordHashing} `{UuidText}.

Lemma update_user_row_schema id f t db db' x :
  update_user_row id f t db = Ok (db', x) → schema_rel db db'.
Proof.
  unfold update_user_row. destruct (users db !! id) as [u|]; [|by intros [= <- <-]].
  rewrite and_then_ok. intros (m & [-> Hv]%update_row_ok & [= <- <-]) S.
  apply schema_set_users; [done|apply keeps_insert|].
  apply table_ok_insert; [by index_side|done|done|apply S].
Qed.

Lemma update_one_user_schema id f t db db' x :
  update_one_user id f t db = Ok (db', x) → schema_rel db db'.
Proof.
  unfold update_one_user. destruct (update_user_row id f t db) as [[d [u|]]|e] eqn:E; [|done..].
  intros [= <- <-]. by eapply update_user_row_schema.
Qed.

Lemma insert_user_schema f t db db' x : insert_user f t db = Ok (db', x) → schema_rel db db'.
Proof.
  unfold insert_user. rewrite and_then_ok. intros (m & (Hn & -> & Hv)%insert_row_ok & [= <- <-]) S.
  apply schema_set_users; [done|apply keeps_insert|].
  apply table_ok_insert; [by index_side|done|done|apply S].
Qed.
Hint Resolve update_user_row_schema update_one_user_schema insert_user_schema : loon.

Lemma hash_password_rel R `{!PreOrder R} plain : prog_rel (db_rel R) (hash_password plain).
Proof. apply prog_rel_memory; [exact _|done]. Qed.
Lemma random_profile_uuid_rel R `{!PreOrder R} : prog_rel (db_rel R) random_profile_uuid.
Proof. apply prog_rel_memory; [exact _|done]. Qed.
Hint Resolve hash_password_rel random_profile_uuid_rel : loon.

Lemma reconcile_rel R `{!PreOrder R} mc cur : prog_rel (db_rel R) (reconcile_profile_uuid mc cur).
Proof. unfold reconcile_profile_uuid. prog_rel_go. Qed.
Hint Resolve reconcile_rel : loon.

Lemma equalize_timing_rel R `{!PreOrder R} p : prog_rel (db_rel R) (equalize_timing p).
Proof. unfold equalize_timing, dummy_password_hash. prog_rel_go. Qed.
Hint Resolve equalize_timing_rel : loon.

Lemma load_user_rel R `{!PreOrder R} id : prog_rel (db_rel R) (load_user id).
Proof. unfold load_user. prog_rel_go. Qed.

Lemma find_by_profile_uuid_rel R `{!PreOrder R} p : prog_rel (db_rel R) (find_by_profile_uuid p).
Proof. unfold find_by_profile_uuid. prog_rel_go. Qed.

Lemma search_users_rel R `{!PreOrder R} q page : prog_rel (db_rel R) (search_users q page).
Proof.
  unfold search_users, search_users_all, search_page. prog_rel_go;
    intros t db db' l; rewrite and_then_ok; intros (? & _ & [= <- <-]); reflexivity.
Qed.

Lemma find_or_create_schema i : prog_rel (db_rel schema_rel) (find_or_create_from_bootstrap i).
Proof.
  unfold find_or_create_from_bootstrap, find_by_minecraft_uuid, find_by_profile_uuid,
    refresh_bootstrap_row. prog_rel_go; eauto with loon.
Qed.

Lemma assign_schema u : prog_rel (db_rel schema_rel) (assign_or_reconcile_profile_uuid u).
Proof. unfold assign_or_reconcile_profile_uuid. prog_rel_go; eauto with loon. Qed.
Hint Resolve assign_schema : loon.

Lemma authenticate_schema i p : prog_rel (db_rel schema_rel) (authenticate_password i p).
Proof. unfold authenticate_password. prog_rel_go; eauto with loon. Qed.

Lemma admin_create_schema i : prog_rel (db_rel schema_rel) (admin_create_user i).
Proof. unfold admin_create_user. prog_rel_go; eauto with loon. Qed.

Lemma register_schema u e p : prog_rel (db_rel schema_rel) (register_user u e p).
Proof. unfold register_user. prog_rel_go; eauto with loon. Qed.

Lemma update_user_schema id p : prog_rel (db_rel schema_rel) (update_user id p).
Proof. unfold update_user. prog_rel_go; eauto with loon. Qed.

Lemma set_password_schema id p : prog_rel (db_rel schema_rel) (set_password id p).
Proof. unfold set_password. prog_rel_go; eauto with loon. Qed.

Lemma set_blocked_schema id b : prog_rel (db_rel schema_rel) (set_blocked id b).
Proof. unfold set_blocked. prog_rel_go; eauto with loon. Qed.
End IdentitySchema.

#[export] Hint Resolve load_user_rel find_by_profile_uuid_rel search_users_rel
  find_or_create_schema authenticate_schema admin_create_schema register_schema
  update_user_schema set_password_schema set_blocked_schema : loon.

(** ** Lemmas *)

Section IdentityLemmas.
Context `{Lowercase} `{PasswordHashing} `{UuidText}.

(** What a user's [profile_uuid] may become by the reconciliation rule. *)
Definition reconciled (u : User) (p : string) : Prop :=
  match u_minecraft_uuid u with
  | Some mc => undash_uuid mc = Ok p
  | None =>
      match u_profile_uuid u with
      | Some q => p = q
      | None => canonical_undashed p
      end
  end.

Lemma wp_reconcile (u : User) T st (Q : AppState → AppResult string → Prop) :
  (∀ p, reconciled u p → Q st (Ok p)) →
  (∀ mc v, u_minecraft_uuid u = Some mc → undash_uuid mc = Err v →
     Q st (Err (invalid_minecraft_uuid v))) →
  wp (reconcile_profile_uuid (u_minecraft_uuid u) (u_profile_uuid u)) T st Q.
Proof.
  intros HOk HErr. unfold reconcile_profile_uuid, reconciled in *.
  destruct (u_minecraft_uuid u) as [mc|].
  - wp_step. destruct (undash_uuid mc) eqn:E; simpl; eauto.
  - destruct (u_profile_uuid u) as [q|]; [by apply HOk|]. unfold random_profile_uuid.
    repeat wp_step. apply HOk, simple_canonical.
Qed.

Lemma wp_equalize_timing p T st (Q : AppState → unit → Prop) :
  Q st () → wp (equalize_timing p) T st Q.
Proof. intros HQ. unfold equalize_timing, dummy_password_hash, hash_password. repeat wp_step. done. Qed.

(** The account's profile is brought in line; nothing else of it changes. *)
Lemma wp_assign x now st (Q : AppState → AppResult (Keyed User) → Prop) :
  users (st_db st) !! key x = Some (row x) →
  (∀ p, reconciled (row x) p → u_profile_uuid (row x) = Some p → Q st (Ok x)) →
  (∀ p t, reconciled (row x) p → u_profile_uuid (row x) ≠ Some p → calm now t →
     let u := with_profile_uuid p t (row x) in
     match violated users_indexes (key x) u (users (st_db st)) with
     | None => Q (set_db (set_users (<[key x := u]> (users (st_db st))) (st_db st)) st)
                 (Ok (mkKeyed (key x) u))
     | Some c => Q st (Err (Database (UniqueViolation c)))
     end) →
  (∀ mc v, u_minecraft_uuid (row x) = Some mc → undash_uuid mc = Err v →
     Q st (Err (invalid_minecraft_uuid v))) →
  wp (assign_or_reconcile_profile_uuid x) (calm now) st Q.
Proof.
  intros Hx Hsame Hnew Herr. unfold assign_or_reconcile_profile_uuid.
  apply wp_bind_ok, wp_reconcile; [|by eauto]. intros p Hp.
  destruct (sql_eq (u_profile_uuid (row x)) (Some p)) eqn:E.
  - apply sql_eq_true in E as (q & Hq & [= <-]). wp_step. by eapply Hsame.
  - assert (Hne : u_profile_uuid (row x) ≠ Some p).
    { intros Hq. rewrite Hq in E. simpl in E. by rewrite bool_decide_true in E. }
    apply wp_sql_app. intros t Ht. specialize (Hnew p t Hp Hne Ht). destruct Ht as (F & _). rewrite F.
    unfold update_one_user, update_user_row. rewrite Hx. unfold update_row.
    cbv zeta in Hnew. destruct (violated users_indexes _ _ _); exact Hnew.
Qed.

(** Whose password [password] is. *)
Definition has_password (u : User) (password : string) : Prop :=
  ∃ hash, u_password_hash u = Some hash ∧ verify_password password hash = true.

Lemma wp_authenticate ident password now st (Q : AppState → AppResult (Keyed User) → Prop) :
  (Q st (Err Forbidden)) →
  (∀ x, users (st_db st) !! key x = Some (row x) →
     identified (normalize_username (trim ident)) (row x) = true → has_password (row x) password →
     u_blocked (row x) = false → u_confirmed (row x) = true →
     trim ident ≠ "" → password ≠ "" →
     wp (assign_or_reconcile_profile_uuid x) (calm now) st Q) →
  wp (authenticate_password ident password) (calm now) st Q.
Proof.
  intros HF HOk. unfold authenticate_password.
  destruct (String.eqb_spec (trim ident) "") as [|Hi]; [by apply wp_ret|].
  destruct (String.eqb_spec password "") as [|Hp]; [by apply wp_ret|]. cbn [orb].
  wp_calm. destruct (find_user _ _) as [x|] eqn:E; cycle 1.
  { apply wp_bind, wp_equalize_timing. by wp_step. }
  unfold find_user in E. apply find_row_Some in E as [Hx Hid].
  destruct (u_password_hash (row x)) as [hash|] eqn:Hh; cycle 1.
  { apply wp_bind, wp_equalize_timing. by wp_step. }
  destruct (verify_password password hash) eqn:V; simpl; [|by wp_step].
  destruct (u_blocked (row x)) eqn:B; simpl; [by wp_step|].
  destruct (u_confirmed (row x)) eqn:C; simpl; [|by wp_step].
  apply HOk; try done. by exists hash.
Qed.

(** The account the identifier finds logs in. *)
Lemma wp_authenticate_as x ident password now st (Q : AppState → AppResult (Keyed User) → Prop) :
  find_user (identified (normalize_username (trim ident))) (st_db st) = Some x →
  has_password (row x) password → u_blocked (row x) = false → u_confirmed (row x) = true →
  trim ident ≠ "" → password ≠ "" →
  wp (assign_or_reconcile_profile_uuid x) (calm now) st Q →
  wp (authenticate_password ident password) (calm now) st Q.
Proof.
  intros Hx (hash & Hh & V) B C Hi Hp HQ. unfold authenticate_password.
  rewrite (proj2 (String.eqb_neq _ _) Hi), (proj2 (String.eqb_neq _ _) Hp). cbn [orb].
  wp_calm. rewrite Hx, Hh, V, B, C. exact HQ.
Qed.

Lemma check_password_len_ok p : check_password_len p = Ok () → p ≠ "".
Proof. intros E ->. done. Qed.

Lemma wp_hash_password plain T st (Q : AppState → AppResult string → Prop) :
  Q st (Err (Internal "password hash failed")) →
  (∀ hash, verify_password plain hash = true → Q st (Ok hash)) →
  wp (hash_password plain) T st Q.
Proof.
  intros HE HOk t _. simpl. destruct (argon2_hash plain (t_random t)) as [h|] eqn:E; [|done].
  apply HOk. apply argon2_verifies in E as (c & Hc & V). unfold verify_password. by rewrite Hc.
Qed.

Lemma wp_insert_user f T st (Q : AppState → SqlResult (Keyed User) → Prop) :
  (∀ e, Q st (Err e)) →
  (∀ t, T t → users (st_db st) !! t_uuid t = None →
     violated users_indexes (t_uuid t) (f t) (users (st_db st)) = None →
     Q (set_db (set_users (<[t_uuid t := f t]> (users (st_db st))) (st_db st)) st)
       (Ok (mkKeyed (t_uuid t) (f t)))) →
  wp (sql (insert_user f)) T st Q.
Proof.
  intros HE HOk. apply wp_sql. intros t Ht. destruct (t_fault t); [done|]. unfold insert_user.
  destruct (insert_row _ _ _ _ _) as [m|e] eqn:E; [|apply HE].
  apply insert_row_ok in E as (Hn & -> & Hv). by apply HOk.
Qed.

Lemma wp_register username email password T st (Q : AppState → AppResult (Keyed User) → Prop) :
  (∀ e, Q st (Err e)) →
  (∀ t hash p, password ≠ "" → verify_password password hash = true → canonical_undashed p →
     users (st_db st) !! t_uuid t = None →
     let u := credential_row None (trim username) (normalize_username (trim username))
                (trim email) hash "yggdrasil" p false t in
     Q (set_db (set_users (<[t_uuid t := u]> (users (st_db st))) (st_db st)) st)
       (Ok (mkKeyed (t_uuid t) u))) →
  wp (register_user username email password) T st Q.
Proof.
  intros HE HOk. unfold register_user.
  destruct (trim username =? "")%string; [by apply wp_ret|].
  destruct (negb (is_valid_email _)); [by apply wp_ret|].
  apply wp_bind_ok, wp_ret. destruct (check_password_len password) as [[]|e] eqn:C; [|done].
  apply check_password_len_ok in C. apply wp_bind_ok, wp_hash_password; [done|].
  intros hash V. apply wp_bind. unfold random_profile_uuid. intros tp _. simpl.
  unfold prog_map. apply wp_bind, wp_insert_user; [intros e; apply wp_ret, HE|].
  intros t _ Hn _. apply wp_ret. simpl. apply HOk; [done..|apply simple_canonical|done].
Qed.
End IdentityLemmas.

Section UserIndexes.
Context `{Lowercase}.

(** Somebody else already has the profile. *)
Definition profile_taken (me : Uuid) (p : string) (db : Db) : Prop :=
  ∃ k v, k ≠ me ∧ users db !! k = Some v ∧ u_profile_uuid v = Some p.

(** Of the unique indexes of [users], a new profile can only run into the profile's. *)
Lemma profile_violates me u p t db c :
  schema_ok db → users db !! me = Some u →
  violated users_indexes me (with_profile_uuid p t u) (users db) = Some c →
  c = "users_profile_uuid_uniq" ∧ profile_taken me p db.
Proof.
  intros S Hu Hv.
  destruct (violated_changed _ _ _ _ _ _ _ (ok_users _ S) Hu Hv)
    as (ix & k & v & Hix & <- & Hk & Hne & C & C').
  unfold users_indexes in Hix. rewrite !elem_of_cons, elem_of_nil in Hix.
  destruct Hix as [->|[->|[->|[->|[]]]]]; simpl in *; try congruence.
  split; [done|]. exists k, v. destruct (u_profile_uuid v) as [q|]; [|done].
  apply bool_decide_eq_true in C as ->. done.
Qed.
End UserIndexes.

Section Refresh.
Context `{Lowercase}.

(** [refresh_bootstrap_row] on a row that exists. *)
Lemma wp_update_named x ident n mc p now st (Q : AppState → AppResult (Keyed User) → Prop) :
  users (st_db st) !! key x = Some (row x) →
  (∀ c, Q st (Err (map_username_conflict n (UniqueViolation c)))) →
  (∀ t, let u := refreshed ident n mc p t (row x) in
     Q (set_db (set_users (<[key x := u]> (users (st_db st))) (st_db st)) st) (Ok (mkKeyed (key x) u))) →
  wp (refresh_bootstrap_row (key x) ident n mc p) (calm now) st Q.
Proof.
  intros Hx HE HOk. unfold refresh_bootstrap_row, prog_map. apply wp_bind, wp_sql.
  intros t (F & _). rewrite F. unfold update_one_user, update_user_row. rewrite Hx. unfold update_row.
  destruct (violated users_indexes _ _ _) as [c|]; apply wp_ret; [apply HE|apply HOk].
Qed.
End Refresh.

Section IdentityProperties.
Context `{Lowercase} `{PasswordHashing} `{UuidText}.

(** C18. The credential check, while the database answers. It succeeds only with the non-empty
    password of an account that the identifier names by user name or e-mail and that is
    confirmed and not blocked; the account then has the profile the reconciliation rule gives
    it, and nothing changed but that profile and the time of update written with it. A refusal
    changes nothing. It is [Forbidden], except for an account that passed every check and whose
    profile could not be brought in line: [BadRequest] when its Minecraft identity is not a
    UUID, and the database's refusal when another account has that profile. *)
Theorem login_exact ident password now o st st' r :
  schema_ok (st_db st) → (∀ i, calm now (o i)) →
  exec (authenticate_password ident password) o st = (st', r) →
  let passes := λ k u,
    users (st_db st) !! k = Some u ∧ identified (normalize_username (trim ident)) u = true ∧
    has_password u password ∧ password ≠ "" ∧ u_blocked u = false ∧ u_confirmed u = true in
  match r with
  | Ok x =>
      ∃ u p, passes (key x) u ∧ reconciled u p ∧ u_profile_uuid (row x) = Some p ∧
        (row x = u ∨ ∃ t, row x = with_profile_uuid p t u) ∧
        st' = set_db (set_users (<[key x := row x]> (users (st_db st))) (st_db st)) st
  | Err e =>
      st' = st ∧
      (e = Forbidden ∨
       ∃ k u, passes k u ∧
         ((∃ mc v, u_minecraft_uuid u = Some mc ∧ undash_uuid mc = Err v ∧
             e = invalid_minecraft_uuid v) ∨
          (∃ p, reconciled u p ∧ profile_taken k p (st_db st) ∧
             e = Database (UniqueViolation "users_profile_uuid_uniq"))))
  end.
Proof.
  intros S Ho Hex passes. exec_start Hex (calm now). apply wp_authenticate; [by auto|].
  intros x Hx Hid Hp Hb Hc Hi Hne. assert (P : passes (key x) (row x)) by done.
  apply wp_assign; [done|..].
  - intros p Hr Hpr. exists (row x), p. repeat (split; [done|]). split; [by left|].
    rewrite insert_id by done. by destruct st as [[]].
  - intros p t Hr Hpr Ht u. destruct (violated _ _ _ _) as [c|] eqn:V.
    + apply profile_violates in V as [-> V]; [|done..]. split; [done|]. right.
      exists (key x), (row x). split; [done|]. right. by exists p.
    + exists (row x), p. repeat (split; [done|]). split; [right; by exists t|]. done.
  - intros mc v Hmc Hv. split; [done|]. right. exists (key x), (row x). split; [done|]. left. eauto.
Qed.

(** C19. Registration and login agree. An account just registered has the trimmed name and
    e-mail, a fresh canonical profile, and no privilege; and from then on, by any
    identifier that names it and no other account, its password logs in as exactly that
    account, changing nothing. *)
Theorem register_then_login username email password ident o st st' x now o' :
  exec (register_user username email password) o st = (st', Ok x) →
  (∀ k u, users (st_db st) !! k = Some u →
     identified (normalize_username (trim ident)) u = false) →
  identified (normalize_username (trim ident)) (row x) = true → trim ident ≠ "" →
  (∀ i, calm now (o' i)) →
  users (st_db st) !! key x = None ∧
  st' = set_db (set_users (<[key x := row x]> (users (st_db st))) (st_db st)) st ∧
  u_username (row x) = trim username ∧ u_email (row x) = Some (trim email) ∧
  u_is_admin (row x) = false ∧
  (∃ p, u_profile_uuid (row x) = Some p ∧ canonical_undashed p) ∧
  exec (authenticate_password ident password) o' st' = (st', Ok x).
Proof.
  intros Hex Hfree Hid Hi Ho'. revert Hid. exec_start Hex any_tick.
  apply wp_register; [by intros e [=]|].
  intros t hash p Hp V Hc Hn u [= <-] Hid. cbn [key row] in *.
  repeat (split; [done|]). split; [by exists p|].
  destruct (exec (authenticate_password ident password) o' _) as [st2 r2] eqn:E. exec_start E (calm now).
  eapply (wp_authenticate_as (mkKeyed (t_uuid t) u)); [|by exists hash|done..|].
  - apply find_row_unique; [apply lookup_insert_eq|done|]. intros k v Hk Hv.
    cbn [st_db set_db users set_users] in Hk. apply lookup_insert_Some in Hk as [[<- _]|[_ Hk]]; [done|].
    by rewrite (Hfree k v Hk) in Hv.
  - apply wp_assign; [apply lookup_insert_eq|done|..].
    + intros q t' Hq Hne. cbn in Hq, Hne. congruence.
    + done.
Qed.

(** One account per Minecraft identity. A bootstrap that succeeds answers the account
    that now has the (trimmed) identity, the profile that is its undashed form and the
    trimmed name: the account that had the identity, else the one that had the profile,
    else a new one. No other account changes. One that fails changes nothing. *)
Theorem bootstrap_one_account ident now o st st' r :
  (∀ i, calm now (o i)) →
  exec (find_or_create_from_bootstrap ident) o st = (st', r) →
  let mc := trim (bi_minecraft_uuid ident) in
  let has_mc := λ k u, users (st_db st) !! k = Some u ∧ u_minecraft_uuid u = Some mc in
  match r with
  | Ok x =>
      ∃ p, undash_uuid mc = Ok p ∧
        let has_p := λ k u, users (st_db st) !! k = Some u ∧ u_profile_uuid u = Some p in
        st' = set_db (set_users (<[key x := row x]> (users (st_db st))) (st_db st)) st ∧
        u_minecraft_uuid (row x) = Some mc ∧ u_profile_uuid (row x) = Some p ∧
        u_username (row x) = trim (bi_username ident) ∧
        ((∃ u, has_mc (key x) u) ∨
         (∀ k u, ¬ has_mc k u) ∧ (∃ u, has_p (key x) u) ∨
         (∀ k u, ¬ has_mc k u) ∧ (∀ k u, ¬ has_p k u) ∧ users (st_db st) !! key x = None)
  | Err _ => st' = st
  end.
Proof.
  intros Ho Hex mc has_mc. exec_start Hex (calm now). unfold find_or_create_from_bootstrap.
  fold mc. destruct (mc =? "")%string; [by apply wp_ret|].
  destruct (trim (bi_username ident) =? "")%string; [by apply wp_ret|].
  apply wp_bind_ok, wp_ret. destruct (undash_uuid mc) as [p|[v]] eqn:Hp; simpl; [|done].
  apply wp_bind_ok. unfold find_by_minecraft_uuid. wp_calm.
  destruct (find_user _ _) as [x|] eqn:E.
  { apply find_row_Some in E as [Hx (y & Hm & [= <-])%sql_eq_true].
    apply wp_update_named; [done|intros c; done|]. intros t2. exists p.
    repeat (split; [done|]). left. by exists (row x). }
  assert (Hno : ∀ k u, ¬ has_mc k u).
  { intros k u [Hk Hm]. apply find_row_None with (k := k) (r := u) in E; [|done].
    rewrite Hm in E. simpl in E. by rewrite bool_decide_true in E. }
  apply wp_bind_ok. unfold find_by_profile_uuid. wp_calm.
  destruct (find_user (λ u, sql_eq (u_profile_uuid u) (Some p)) (st_db st)) as [x|] eqn:E'.
  { apply find_row_Some in E' as [Hx (y & Hm & [= <-])%sql_eq_true].
    apply wp_update_named; [done|intros c; done|]. intros t2. exists p.
    repeat (split; [done|]).
    right. left. split; [done|]. by exists (row x). }
  unfold prog_map. apply wp_bind, wp_insert_user; [intros e; by apply wp_ret|].
  intros t2 _ Hn _. apply wp_ret. exists p. repeat (split; [done|]). right. right.
  split; [done|]. split; [|done]. intros k u [Hk Hm].
  apply find_row_None with (k := k) (r := u) in E'; [|done].
  rewrite Hm in E'. simpl in E'. by rewrite bool_decide_true in E'.
Qed.
End IdentityProperties.

(** ** Concrete instances *)

(** A hash that is the password itself. *)
Definition toy_hashing : PasswordHashing.
Proof.
  refine {| Phc := string; phc_new := Some; argon2_hash := λ plain _, Some plain;
            argon2_verify := String.eqb |}.
  intros plain salt h [= <-]. exists plain. split; [done|apply String.eqb_refl].
Defined.

Definition hex_digit (d : N) : ascii := ascii_of_N (if (d <? 10)%N then 48 + d else 87 + d)%N.

Fixpoint hex_digits (n : nat) (u : N) : string :=
  match n with
  | O => ""
  | S n => String (hex_digit ((u / 16 ^ N.of_nat n) mod 16)) (hex_digits n u)
  end.

Lemma hex_digit_lower d :
  (d < 16)%N → is_ascii_hexdigit (hex_digit d) = true ∧ ascii_lower (hex_digit d) = hex_digit d.
Proof.
  intros Hd.
  assert (C : forallb (λ d, is_ascii_hexdigit (hex_digit d)
                            && Ascii.eqb (ascii_lower (hex_digit d)) (hex_digit d))
                (map N.of_nat (seq 0 16)) = true) by (vm_compute; reflexivity).
  rewrite forallb_forall in C. specialize (C d). rewrite andb_true_iff, Ascii.eqb_eq in C.
  apply C, in_map_iff. exists (N.to_nat d). split; [lia|]. apply in_seq. lia.
Qed.

Lemma hex_digits_canonical n u :
  String.length (hex_digits n u) = n ∧ str_forall is_ascii_hexdigit (hex_digits n u) = true
  ∧ to_ascii_lowercase (hex_digits n u) = hex_digits n u.
Proof.
  induction n as [|n (H1 & H2 & H3)]; [done|]. simpl.
  destruct (hex_digit_lower ((u / 16 ^ N.of_nat n) mod 16)) as [D1 D2]; [by apply N.mod_lt|].
  split; [by rewrite H1|]. split; [by rewrite D1|].
  unfold to_ascii_lowercase in *. simpl. by rewrite D2, H3.
Qed.

Definition hex_text : UuidText.
Proof.
  refine {| simple := hex_digits 32 |}. intros u.
  destruct (hex_digits_canonical 32 u) as (H1 & H2 & H3). split; [|done].
  unfold is_uuid_undashed. by rewrite H1, H2.
Defined.

Definition toy_register := register_user (H := ascii_lowercase) (H0 := toy_hashing) (H1 := hex_text).
Definition toy_login :=
  authenticate_password (H := ascii_lowercase) (H0 := toy_hashing) (H1 := hex_text).

(** dora registers; her row. *)
Definition dora : Keyed User :=
  mkKeyed 1002 (credential_row None "Dora" "dora" "dora@x.io" "pw" "yggdrasil"
    (hex_digits 32 1001) false (mkTick 5 5 1002 "" false)).

Definition with_dora : AppState :=
  (exec (toy_register " Dora " "dora@x.io" "pw") (calm_oracle 5) sample_state).1.

Lemma register_then_login_witness :
  exec (toy_register " Dora " "dora@x.io" "pw") (calm_oracle 5) sample_state = (with_dora, Ok dora) ∧
  exec (toy_login "DORA@x.io" "pw") (calm_oracle 9) with_dora = (with_dora, Ok dora).
Proof.
  assert (E : exec (toy_register " Dora " "dora@x.io" "pw") (calm_oracle 5) sample_state
              = (with_dora, Ok dora)).
  { rewrite (surjective_pairing (exec _ _ _)). by f_equal. }
  split; [exact E|].
  apply (register_then_login (H := ascii_lowercase) (H0 := toy_hashing) (H1 := hex_text)
           " Dora " "dora@x.io" "pw" "DORA@x.io" (calm_oracle 5) sample_state with_dora dora 9
           (calm_oracle 9)).
  - exact E.
  - apply (map_Forall_to_list (λ k u, @identified ascii_lowercase
             (@normalize_username ascii_lowercase (trim "DORA@x.io")) u = false)).
    vm_compute. repeat constructor.
  - vm_compute. reflexivity.
  - vm_compute. discriminate.
  - exact (calm_oracle_calm 9).
Defined.

Lemma with_dora_ok : @schema_ok ascii_lowercase (st_db with_dora).
Proof. apply schema_okb_sound. vm_compute. reflexivity. Qed.

Lemma login_exact_witness :
  let r := exec (toy_login "dora" "wrong") (calm_oracle 9) with_dora in
  r.2 = Err Forbidden ∧ r.1 = with_dora.
Proof.
  intros r. assert (E : r.2 = Err Forbidden) by (vm_compute; reflexivity). split; [exact E|].
  pose proof (login_exact (H := ascii_lowercase) (H0 := toy_hashing) (H1 := hex_text)
    "dora" "wrong" 9 (calm_oracle 9) with_dora r.1 r.2 with_dora_ok (calm_oracle_calm 9)) as L.
  rewrite E in L. apply L. rewrite <- E. unfold r, toy_login. by destruct (exec _ _ _).
Defined.

Definition dora_bootstrap : BootstrapIdentity :=
  mkBootstrapIdentity " 000000000000000000000000000003e9 " " Dora2 " None None None.

(** The bootstrap finds dora's account by its profile and binds the identity to it. *)
Lemma bootstrap_one_account_witness :
  let r := exec (find_or_create_from_bootstrap (H := ascii_lowercase) dora_bootstrap)
             (calm_oracle 9) with_dora in
  (key <$> match r.2 with Ok x => Some x | Err _ => None end) = Some 1002%N ∧
  ∃ x, r.2 = Ok x ∧ u_profile_uuid (row x) = Some (hex_digits 32 1001) ∧
    u_username (row x) = "Dora2".
Proof.
  intros r. split; [vm_compute; reflexivity|].
  pose proof (bootstrap_one_account (H := ascii_lowercase) dora_bootstrap 9 (calm_oracle 9) with_dora
    r.1 r.2 (calm_oracle_calm 9)) as B.
  destruct r.2 as [x|e] eqn:E; cycle 1.
  { exfalso. assert (is_ok r.2 = true) as K by (vm_compute; reflexivity).
    clear -E K. rewrite E in K. discriminate. }
  exists x. split; [reflexivity|].
  destruct B as (p & Hp & _ & _ & Hq & Hn & _).
  { rewrite <- E. unfold r. by destruct (exec _ _ _). }
  rewrite Hq, Hn. split; [|vm_compute; reflexivity].
  vm_compute in Hp. injection Hp as <-. vm_compute. reflexivity.
Defined.

(** ** What the model shows

    The login looks accounts up by name or e-mail at once, and nothing keeps a name from
    being somebody's e-mail. Eve registers the name that is dora's e-mail; when the
    database returns eve's row first, dora's own password is refused. *)
Definition with_eve : AppState :=
  (exec (toy_register "Dora@x.io" "eve@x.io" "evil")
     (λ i, mkTick 6 6 (N.of_nat i + 1020) "" false) with_dora).1.

Lemma username_shadows_email :
  (exec (toy_login "dora@x.io" "pw") (calm_oracle 9) with_dora).2 = Ok dora ∧
  (exec (toy_login "dora@x.io" "pw") (calm_oracle 9) with_eve).2 = Err Forbidden.
Proof. vm_compute. split; reflexivity. Qed.
