(* ===== verification/AdminUsers.v ===== *)
(** * User administration

    [crates/admin/src/users.rs], [auth.rs], [cookies.rs], [startup.rs] and the answers of
    [dto.rs] they use: the administrator's view of the accounts, the guard that keeps a
    last administrator, the deletion of an account with everything that hangs on it, the
    panel's login with its cookies, and the administrator made at start-up. Every handler
    of [users.rs] sits behind the extractor [Auth.admin_user], which is not repeated. *)

From stdpp Require Import pretty.
From S2P Require Import Prelude RustStr Errors YggUuid Models Table Realtime Schema Prog.
From S2P Require Import Auth YggTokens Invariant AuthSchema Identity.

(** ** Answers *)

Record AdminMeResponse : Type := mkAdminMe {
  am_id : Uuid;
  am_username : string;
  am_email : option string;
  am_is_admin : bool
}.

Definition admin_me (user : Keyed User) : AdminMeResponse :=
  mkAdminMe (key user) (u_username (row user)) (u_email (row user)) (u_is_admin (row user)).

Record AdminUserDto : Type := mkAdminUserDto {
  ad_id : Uuid;
  ad_username : string;
  ad_email : option string;
  ad_minecraft_uuid : option string;
  ad_profile_uuid : option string;
  ad_origin : string;
  ad_confirmed : bool;
  ad_blocked : bool;
  ad_is_admin : bool;
  ad_created_at : Time;
  ad_last_seen_at : Time
}.

Definition admin_user_dto (user : Keyed User) : AdminUserDto :=
  let u := row user in
  mkAdminUserDto (key user) (u_username u) (u_email u) (u_minecraft_uuid u) (u_profile_uuid u)
    (u_origin u) (u_confirmed u) (u_blocked u) (u_is_admin u) (u_created_at u) (u_last_seen_at u).

Record PageMeta : Type := mkPageMeta {
  pm_page : Z;
  pm_page_size : Z;
  pm_total : Z;
  pm_page_count : Z
}.

Record UserListResponse : Type := mkUserList { ul_data : list AdminUserDto; ul_meta : PageMeta }.

(** ** Deleting an account

    [DELETE FROM users WHERE id = $1] with the referential actions of the migrations:
    everything that refers to the account by a cascading key goes, in turn everything that
    refers to a world or a ticket that goes; [guest_user_id], [join_ticket_id] and
    [current_world_session_id] become null; [user_events.user_id] has no action, so one
    row that names the account makes the statement fail. *)

Definition gone_world (id : Uuid) (db : Db) (k : Uuid) : bool :=
  match world_sessions db !! k with Some w => (ws_host_user_id w =? id)%N | None => false end.

Definition gone_ticket (id : Uuid) (db : Db) (k : Uuid) : bool :=
  match join_tickets db !! k with
  | Some r => (jk_user_id r =? id)%N || gone_world id db (jk_world_session_id r)
  | None => false
  end.

(** [ON DELETE SET NULL]. *)
Definition set_null (gone : Uuid → bool) (k : option Uuid) : option Uuid :=
  match k with Some k => if gone k then None else Some k | None => None end.

Definition cascade (id : Uuid) (db : Db) : Db :=
  let me k := (k =? id)%N in
  let world := gone_world id db in
  mkDb
    (delete id (users db))
    (delete_where (λ _ s, me (s_user_id s)) (sessions db))
    (delete_where (λ _ r, me (yt_user_id r)) (yggdrasil_tokens db))
    (delete_where (λ _ r, me (fr_from_user_id r) || me (fr_to_user_id r)) (friend_requests db))
    (delete_where (λ _ f, me (fs_user_a_id f) || me (fs_user_b_id f)) (friendships db))
    (update_where (λ _ _, true)
       (λ p, mkPresence (p_status p) (p_last_heartbeat_at p) (p_minecraft_version p)
               (p_mod_version p) (p_loader p) (set_null world (p_current_world_session_id p))
               (p_updated_at p))
       (delete_where (λ k _, me k) (presence db)))
    (delete_where (λ _ w, me (ws_host_user_id w)) (world_sessions db))
    (delete_where (λ _ r, me (jr_requester_user_id r) || me (jr_host_user_id r)
                          || world (jr_world_session_id r)) (join_requests db))
    (delete_where (λ _ r, me (jk_user_id r) || world (jk_world_session_id r)) (join_tickets db))
    (update_where (λ _ _, true)
       (λ r, mkRelaySession (rs_world_session_id r) (rs_host_user_id r)
               (set_null me (rs_guest_user_id r)) (set_null (gone_ticket id db) (rs_join_ticket_id r))
               (rs_status r) (rs_created_at r) (rs_closed_at r))
       (delete_where (λ _ r, me (rs_host_user_id r) || world (rs_world_session_id r))
          (relay_sessions db)))
    (delete_where (λ _ r, me (wi_host_user_id r) || me (wi_inviter_user_id r)
                          || me (wi_invitee_user_id r) || world (wi_world_session_id r))
       (world_invites db))
    (user_events db)
    (filter (λ kr, kr.1.1 ≠ id) (user_textures db))
    (content db).

Definition names_user (id : Uuid) (_ : Uuid) (e : UserEvent) : bool :=
  bool_decide (ue_user_id e = Some id).

Definition delete_user_row (id : Uuid) (_ : Tick) (db : Db) : SqlResult (Db * unit) :=
  if negb (is_row id (users db)) then Ok (db, ())
  else if exists_row (names_user id) (user_events db)
  then Err (ForeignKeyViolation "user_events_user_id_fkey")
  else Ok (cascade id db, ()).

(** ** The handlers of [users.rs] *)

(** [is_admin = true AND blocked = false]. *)
Definition usable_admin (u : User) : bool := u_is_admin u && negb (u_blocked u).

Definition guard_last_admin (target : Uuid) : prog (AppResult unit) :=
  let? target_is_usable_admin :=
    select (λ _ db, exists_row (λ k u, (k =? target)%N && usable_admin u) (users db)) in
  if negb target_is_usable_admin then ret_ok ()
  else
    let? usable_admins := select (λ _ db, count_rows (λ _ u, usable_admin u) (users db)) in
    if (usable_admins <=? 1)%nat then ret_err (Conflict "cannot remove the last admin")
    else ret_ok ().

Section AdminUsers.
Context `{Lowercase} `{PasswordHashing} `{UuidText} `{Primitives} (cfg : Config).

Definition list_users (q : option string) (page : option Z) : prog (AppResult UserListResponse) :=
  let? result := search_users (default "" q) (default 1%Z page) in
  let page_count :=
    if (0 <? up_page_size result)%Z
    then Z.quot (up_total result + up_page_size result - 1) (up_page_size result) else 0%Z in
  ret_ok (mkUserList (map admin_user_dto (up_users result))
            (mkPageMeta (up_page result) (up_page_size result) (up_total result) page_count)).

Definition create_user (body : AdminCreateUser) : prog (AppResult AdminUserDto) :=
  let? user := admin_create_user body in ret_ok (admin_user_dto user).

Definition get_user (id : Uuid) : prog (AppResult AdminUserDto) :=
  let? user := load_user id in ret_ok (admin_user_dto user).

(** The first thing [patch] and the last: what is done when [is_admin] is lowered. *)
Definition if_demoting (patch : UpdateUser) (p : prog (AppResult unit)) : prog (AppResult unit) :=
  if bool_decide (uu_is_admin patch = Some false) then p else ret_ok ().

Definition patch_user (id : Uuid) (body : UpdateUser) : prog (AppResult AdminUserDto) :=
  do? if_demoting body (guard_last_admin id);
  let? user := update_user id body in
  do? if_demoting body (do? revoke_all_sessions_for_user id; ret_ok ());
  ret_ok (admin_user_dto user).

Definition delete_user (id : Uuid) : prog (AppResult unit) :=
  do? load_user id;
  do? guard_last_admin id;
  do? sql_app (delete_user_row id);
  ret_ok ().

Definition block_user (id : Uuid) : prog (AppResult AdminUserDto) :=
  do? guard_last_admin id;
  let? user := block id in ret_ok (admin_user_dto user).

Definition unblock_user (id : Uuid) : prog (AppResult AdminUserDto) :=
  let? user := unblock id in ret_ok (admin_user_dto user).

Definition reset_password (id : Uuid) (password : string) : prog (AppResult unit) :=
  do? set_password id password;
  do? revoke_all_sessions_for_user id;
  do? invalidate_all_yggdrasil_for_user id;
  ret_ok ().

Definition revoke_tokens (id : Uuid) : prog (AppResult unit) :=
  do? load_user id;
  do? revoke_all_sessions_for_user id;
  do? invalidate_all_yggdrasil_for_user id;
  ret_ok ().

(** ** The administrator made at start-up *)

Definition ensure_bootstrap_admin (username : string) (password : option string)
  : prog (AppResult bool) :=
  let? admin_exists := select (λ _ db, exists_row (λ _ u, u_is_admin u) (users db)) in
  if admin_exists then ret_ok false
  else
    match password with
    | None => ret_ok false
    | Some password =>
        let normalized := normalize_username username in
        let? existing :=
          select (λ _ db, find_user (λ u, (u_normalized_username u =? normalized)%string) db) in
        match existing with
        | Some u =>
            do? update_user (key u) (mkUpdateUser None None (Some true) (Some true));
            ret_ok true
        | None =>
            do? admin_create_user
                  (mkAdminCreateUser username (normalized +:+ "@admin.local") password None true);
            ret_ok true
        end
    end.

(** ** Login and logout of the panel

    The [Set-Cookie] headers of an answer, in order. [valid] is [HeaderValue::from_str],
    which refuses text that may not stand in a header. *)

Definition build_cookie (name value : string) (http_only : bool) (max_age : option Z) : string :=
  (name +:+ "=" +:+ value +:+ "; Path=/; Secure; SameSite=Lax")
  +:+ (if http_only then "; HttpOnly" else "")
  +:+ match max_age with
      | Some seconds => "; Max-Age=" +:+ pretty seconds
      | None => "; Max-Age=0; Expires=Thu, 01 Jan 1970 00:00:00 GMT"
      end.

Context (valid : string → bool) (admin_session_ttl : Duration).

Definition append (headers : list string) (cookie : string) : list string :=
  if valid cookie then headers ++ [cookie] else headers.

(** [num_seconds] drops the fraction. *)
Definition set_session_cookies (headers : list string) (cookie_name session_token csrf_token : string)
  (expires_at now : Time) : list string :=
  let max_age := Z.max (Z.quot (expires_at - now) MICROS_PER_SEC) 0 in
  append (append headers (build_cookie cookie_name session_token true (Some max_age)))
    (build_cookie CSRF_COOKIE_NAME csrf_token false (Some max_age)).

Definition clear_session_cookies (headers : list string) (cookie_name : string) : list string :=
  append (append headers (build_cookie cookie_name "" true None))
    (build_cookie CSRF_COOKIE_NAME "" false None).

Definition login (username password : string)
  : prog (AppResult (list string * AdminMeResponse)) :=
  let? user := authenticate_password username password in
  if negb (u_is_admin (row user)) then ret_err Forbidden
  else
    let? session := issue_session (key user) admin_session_ttl in
    let* csrf := generate_csrf_token in
    let* now := utc_now in
    ret_ok (set_session_cookies [] (admin_cookie_name cfg) (token session) csrf
              (is_expires_at session) now, admin_me user).

Definition logout (h : HeaderMap) : prog (AppResult (list string)) :=
  do? match cookie_value h (admin_cookie_name cfg) with
      | Some token => do? revoke_session token; ret_ok ()
      | None => ret_ok ()
      end;
  ret_ok (clear_session_cookies [] (admin_cookie_name cfg)).

Definition me (admin : Keyed User) : prog (AppResult AdminMeResponse) := ret_ok (admin_me admin).
End AdminUsers.

(** ** The schema's invariant *)

Section AdminSchema.
Context `{Lowercase}.

Lemma ref_left {R} (p : Uuid → R → bool) k (r : R) m :
  m !! k = Some r → p k r = false → ref k (delete_where p m).
Proof. intros Hk Hp. exists r. by apply lookup_delete_where_Some. Qed.

Lemma ref_user id k (U : gmap N User) : ref k U → (k =? id)%N = false → ref k (delete id U).
Proof. intros [u Hu] Hk%N.eqb_neq. exists u. by rewrite lookup_delete_ne. Qed.

Section Cascade.
Context (id : Uuid) (db : Db) (S : schema_ok db).
Context (Hfree : ∀ k e, user_events db !! k = Some e → ue_user_id e ≠ Some id).

Lemma ref_world k :
  ref k (world_sessions db) → gone_world id db k = false → ref k (world_sessions (cascade id db)).
Proof.
  intros [w Hw]. unfold gone_world. rewrite Hw. intros Hg. by apply (ref_left _ k w).
Qed.

Lemma ref_ticket k :
  ref k (join_tickets db) → gone_ticket id db k = false → ref k (join_tickets (cascade id db)).
Proof.
  intros [r Hr]. unfold gone_ticket. rewrite Hr. intros Hg. by apply (ref_left _ k r).
Qed.

Lemma opt_ref_null {R R'} (gone : Uuid → bool) k (m : gmap N R) (m' : gmap N R') :
  (∀ k, ref k m → gone k = false → ref k m') → opt_ref k m → opt_ref (set_null gone k) m'.
Proof. intros Hm. destruct k as [k|]; simpl; [|done]. destruct (gone k) eqn:G; simpl; auto. Qed.

Lemma events_ok_cascade : user_events_ok (users (cascade id db)) (user_events db).
Proof.
  split; [constructor|]. intros k e Hk. pose proof (proj2 (ok_user_events _ S) k e Hk) as O.
  pose proof (Hfree k e Hk) as F. simpl in O. destruct (ue_user_id e) as [u|]; simpl in *; [|done].
  apply ref_user; [done|]. apply N.eqb_neq. congruence.
Qed.

Ltac orbs := repeat match goal with
  | H : _ || _ = false |- _ => apply orb_false_iff in H as [? ?]
  end.
Ltac survive :=
  eapply table_ok_shrink; [|eassumption]; simpl; intros; orbs; destruct_and?;
  repeat split; eauto using ref_user, ref_world, opt_ref_null.

(** Deleting an account no event names leaves a well-formed database. *)
Lemma cascade_ok : schema_ok (cascade id db).
Proof.
  pose proof events_ok_cascade as E. pose proof ref_world as RW. pose proof ref_ticket as RT.
  destruct S. split; try exact E; simpl in *.
  - split; [|done].
    apply Forall_forall. intros ix Hix k1 k2 r1 r2 H1 H2 C.
    apply lookup_delete_Some in H1 as [_ H1]. apply lookup_delete_Some in H2 as [_ H2].
    eapply (table_ok_uniq _ _ ix _ Hix ok_users); eauto.
  - survive.
  - survive.
  - survive.
  - survive.
  - eapply table_ok_map; [|eapply table_ok_shrink; [|eassumption]; intros k p _ Hp Hc; exact (conj Hp Hc)].
    simpl. intros k p [Hk [Hu Hw]]. split; [by apply ref_user|].
    eapply opt_ref_null; [|exact Hw]. exact RW.
  - survive.
  - survive.
  - survive.
  - eapply table_ok_map; [|eapply table_ok_shrink; [|eassumption]; intros k r _ Hp Hc; exact (conj Hp Hc)].
    simpl. intros k r [Hk (Hw & Hh & Hg & Ht)]. orbs. repeat split.
    + by apply RW.
    + by apply ref_user.
    + eapply opt_ref_null; [|exact Hg]. intros j. apply ref_user.
    + eapply opt_ref_null; [|exact Ht]. exact RT.
  - survive.
  - intros k r [Hk Hne]%map_lookup_filter_Some. destruct (ok_user_textures k r Hk) as (Hu & Hc).
    split; [|done]. apply ref_user; [done|]. apply N.eqb_neq. exact Hne.
  - exact ok_content.
Qed.
End Cascade.

Lemma delete_user_row_schema id t db db' x :
  delete_user_row id t db = Ok (db', x) → schema_rel db db'.
Proof.
  unfold delete_user_row. destruct (negb _); [by intros [= <- <-]|].
  destruct (exists_row _ _) eqn:X; [done|]. intros [= <- <-] S. apply cascade_ok; [done|].
  intros k e Hk C. rewrite exists_row_false in X. specialize (X k e Hk).
  unfold names_user in X. by rewrite bool_decide_true in X.
Qed.
End AdminSchema.

Section HandlersSchema.
Context `{Lowercase} `{PasswordHashing} `{UuidText} `{Primitives} (cfg : Config).

Lemma guard_rel R `{!PreOrder R} id : prog_rel (db_rel R) (guard_last_admin id).
Proof. unfold guard_last_admin. prog_rel_go. Qed.
Hint Resolve guard_rel delete_user_row_schema : loon.

Ltac admin_go :=
  unfold if_demoting, block, unblock, revoke_all_sessions_for_user,
    invalidate_all_yggdrasil_for_user, revoke_session; prog_rel_go; eauto with loon.

Lemma list_users_rel R `{!PreOrder R} q p : prog_rel (db_rel R) (list_users q p).
Proof. unfold list_users. admin_go. Qed.
Lemma create_user_schema b : prog_rel (db_rel schema_rel) (create_user b).
Proof. unfold create_user. admin_go. Qed.
Lemma get_user_rel R `{!PreOrder R} id : prog_rel (db_rel R) (get_user id).
Proof. unfold get_user. admin_go. Qed.
Lemma patch_user_schema id b : prog_rel (db_rel schema_rel) (patch_user id b).
Proof. unfold patch_user. admin_go. Qed.
Lemma delete_user_schema id : prog_rel (db_rel schema_rel) (delete_user id).
Proof. unfold delete_user. admin_go. Qed.
Lemma block_user_schema id : prog_rel (db_rel schema_rel) (block_user id).
Proof. unfold block_user. admin_go. Qed.
Lemma unblock_user_schema id : prog_rel (db_rel schema_rel) (unblock_user id).
Proof. unfold unblock_user. admin_go. Qed.
Lemma reset_password_schema id p : prog_rel (db_rel schema_rel) (reset_password id p).
Proof. unfold reset_password. admin_go. Qed.
Lemma revoke_tokens_schema id : prog_rel (db_rel schema_rel) (revoke_tokens id).
Proof. unfold revoke_tokens. admin_go. Qed.
Lemma ensure_bootstrap_admin_schema u p : prog_rel (db_rel schema_rel) (ensure_bootstrap_admin u p).
Proof. unfold ensure_bootstrap_admin. admin_go. Qed.
Lemma login_schema valid ttl u p : prog_rel (db_rel schema_rel) (login cfg valid ttl u p).
Proof. unfold login, generate_csrf_token. admin_go. Qed.
Lemma logout_schema valid h : prog_rel (db_rel schema_rel) (logout cfg valid h).
Proof. unfold logout. admin_go. Qed.
End HandlersSchema.

#[export] Hint Resolve list_users_rel create_user_schema get_user_rel patch_user_schema
  delete_user_schema block_user_schema unblock_user_schema reset_password_schema
  revoke_tokens_schema ensure_bootstrap_admin_schema login_schema logout_schema : loon.

(** ** Lemmas *)

(** Somebody can administer the service. *)
Definition some_admin (db : Db) : Prop :=
  ∃ k u, users db !! k = Some u ∧ usable_admin u = true.

(** Somebody other than the target can. *)
Definition other_admin (target : Uuid) (db : Db) : Prop :=
  ∃ k u, k ≠ target ∧ users db !! k = Some u ∧ usable_admin u = true.

Lemma other_some target db : other_admin target db → some_admin db.
Proof. intros (k & u & _ & Hk). by exists k, u. Qed.

Lemma many_admins target db :
  (1 < count_rows (λ _ u, usable_admin u) (users db)) → other_admin target db.
Proof.
  intros Hc. destruct (exists_row (λ k u, negb (k =? target)%N && usable_admin u) (users db)) eqn:X.
  - apply exists_row_true in X as (k & u & Hk & E). bool_simpl. by exists k, u.
  - exfalso. rewrite exists_row_false in X.
    assert (Hl : count_rows (λ _ u, usable_admin u) (users db) ≤ length [target]).
    { apply count_rows_le. intros k u Hk Hu. apply list_elem_of_singleton.
      specialize (X k u Hk). rewrite Hu, andb_true_r in X.
      by apply negb_false_iff, N.eqb_eq in X. }
    simpl in Hl. lia.
Qed.

(** What the guard finds out: it passes when the target is no usable administrator, or
    not the only one. *)
Lemma wp_guard target T st (Q : AppState → AppResult unit → Prop) :
  (∀ e, Q st (Err e)) → (other_admin target (st_db st) ∨ ¬ (∃ u,
     users (st_db st) !! target = Some u ∧ usable_admin u = true) → Q st (Ok ())) →
  wp (guard_last_admin target) T st Q.
Proof.
  intros HE HOk. unfold guard_last_admin. repeat wp_step. fault_case F; [apply HE|].
  destruct (exists_row _ _) eqn:X; cbn [negb]; repeat wp_step.
  - fault_case F'; [apply HE|].
    destruct (Nat.leb_spec (count_rows (λ _ u, usable_admin u) (users (st_db st))) 1); wp_step; [apply HE|].
    apply HOk. left. by apply many_admins.
  - apply HOk. right. intros (u & Hu & Ha). rewrite exists_row_false in X.
    specialize (X target u Hu). by rewrite N.eqb_refl, Ha in X.
Qed.

Lemma wp_guard_calm target now st (Q : AppState → AppResult unit → Prop) :
  (some_admin (st_db st) → ¬ other_admin target (st_db st) →
   Q st (Err (Conflict "cannot remove the last admin"))) →
  Q st (Ok ()) → wp (guard_last_admin target) (calm now) st Q.
Proof.
  intros HE HOk. unfold guard_last_admin. wp_calm. destruct (exists_row _ _) eqn:X; wp_calm; [|done].
  destruct (Nat.leb_spec (count_rows (λ _ u, usable_admin u) (users (st_db st))) 1); wp_step; [|done].
  apply exists_row_true in X as (k & u & Hk & E). apply andb_true_iff in E as [->%N.eqb_eq Ha].
  apply HE; [by exists target, u|]. intros (k' & u' & Hne & Hk' & Ha').
  assert (length [target; k'] ≤ count_rows (λ _ u, usable_admin u) (users (st_db st))); [|simpl in *; lia].
  apply count_rows_ge.
  - apply NoDup_cons. rewrite list_elem_of_singleton. split; [congruence|apply NoDup_singleton].
  - intros j. rewrite elem_of_cons, list_elem_of_singleton. intros [->| ->]; eauto.
Qed.

(** With an administrator left, a passed guard leaves another one. *)
Lemma wp_guard_some target T st (Q : AppState → AppResult unit → Prop) :
  some_admin (st_db st) → (∀ e, Q st (Err e)) → (other_admin target (st_db st) → Q st (Ok ())) →
  wp (guard_last_admin target) T st Q.
Proof.
  intros (k & u & Hk & Ha) HE HOk. apply wp_guard; [done|]. intros [O|N]; [by apply HOk|].
  apply HOk. exists k, u. split; [|done]. intros ->. apply N. eauto.
Qed.

(** Administrators stay administrators. *)
Definition admins_stay (db db' : Db) : Prop :=
  ∀ k u, users db !! k = Some u → usable_admin u = true →
    ∃ u', users db' !! k = Some u' ∧ usable_admin u' = true.

#[export] Instance admins_stay_preorder : PreOrder admins_stay.
Proof.
  split; [intros db k u; eauto|]. intros a b c H1 H2 k u Hk Hu.
  destruct (H1 k u Hk Hu) as (u' & Hk' & Hu'). eauto.
Qed.

Lemma admins_stay_some db db' : admins_stay db db' → some_admin db → some_admin db'.
Proof. intros H (k & u & Hk & Hu). destruct (H k u Hk Hu) as (u' & ?). by exists k, u'. Qed.

Section AdminLemmas.
Context `{Lowercase}.

Lemma update_user_row_ok id f t db db' x :
  update_user_row id f t db = Ok (db', x) →
  match users db !! id with
  | Some u => db' = set_users (<[id := f t u]> (users db)) db ∧ x = Some (mkKeyed id (f t u))
  | None => db' = db ∧ x = None
  end.
Proof.
  unfold update_user_row. destruct (users db !! id) as [u|]; [|by intros [= <- <-]].
  rewrite and_then_ok. by intros (m & [-> _]%update_row_ok & [= <- <-]).
Qed.

Lemma update_stays id f t db db' x :
  (∀ u, usable_admin u = true → usable_admin (f t u) = true) →
  update_user_row id f t db = Ok (db', x) → admins_stay db db'.
Proof.
  intros Hf E%update_user_row_ok k u Hk Hu. destruct (users db !! id) as [v|] eqn:V.
  - destruct E as [-> _]. simpl. destruct (decide (k = id)) as [->|Hne].
    + rewrite lookup_insert_eq. simplify_eq. eauto.
    + rewrite lookup_insert_ne by done. eauto.
  - destruct E as [-> _]. eauto.
Qed.

Lemma update_other id f t db db' x :
  other_admin id db → update_user_row id f t db = Ok (db', x) → some_admin db'.
Proof.
  intros (k & u & Hne & Hk & Hu) E%update_user_row_ok. exists k, u. split; [|done].
  destruct (users db !! id); destruct E as [-> _]; [|done]. simpl. by rewrite lookup_insert_ne.
Qed.

Lemma insert_stays f t db db' x : insert_user f t db = Ok (db', x) → admins_stay db db'.
Proof.
  unfold insert_user. rewrite and_then_ok. intros (m & (Hn & -> & _)%insert_row_ok & [= <- <-]) k u Hk Hu.
  exists u. split; [|done]. simpl. rewrite lookup_insert_ne; [done|]. congruence.
Qed.

Lemma revoke_stays p t db db' n : revoke_where p t db = Ok (db', n) → admins_stay db db'.
Proof. intros [= <- <-] k u. simpl. eauto. Qed.

Lemma delete_ygg_stays p db db' n : delete_ygg_tokens p db = Ok (db', n) → admins_stay db db'.
Proof. intros [= <- <-] k u. simpl. eauto. Qed.
End AdminLemmas.

(** ** The requests of the panel *)

Section AdminRequests.
Context `{Lowercase} `{PasswordHashing} `{UuidText} `{Primitives}.

Inductive AdminRequest : Type :=
| AList (q : option string) (page : option Z)
| ACreate (body : AdminCreateUser)
| AGet (id : Uuid)
| APatch (id : Uuid) (body : UpdateUser)
| ADelete (id : Uuid)
| ABlock (id : Uuid)
| AUnblock (id : Uuid)
| AResetPassword (id : Uuid) (password : string)
| ARevokeTokens (id : Uuid).

Definition serve_admin (r : AdminRequest) : prog unit :=
  match r with
  | AList q p => ignore (list_users q p)
  | ACreate b => ignore (create_user b)
  | AGet id => ignore (get_user id)
  | APatch id b => ignore (patch_user id b)
  | ADelete id => ignore (delete_user id)
  | ABlock id => ignore (block_user id)
  | AUnblock id => ignore (unblock_user id)
  | AResetPassword id p => ignore (reset_password id p)
  | ARevokeTokens id => ignore (revoke_tokens id)
  end.

(** The requests that can take an administrator away. *)
Definition guarded (r : AdminRequest) : bool :=
  match r with
  | APatch _ b => bool_decide (uu_is_admin b = Some false)
  | ADelete _ | ABlock _ => true
  | _ => false
  end.
End AdminRequests.

Section AdminProofs.
Context `{Lowercase} `{PasswordHashing} `{UuidText} `{Primitives}.

Lemma revoke_all_stays id : prog_rel (db_rel admins_stay) (revoke_all_sessions_for_user id).
Proof.
  unfold revoke_all_sessions_for_user. prog_rel_go. intros t db db' b. apply revoke_stays.
Qed.

Lemma invalidate_all_stays id : prog_rel (db_rel admins_stay) (invalidate_all_yggdrasil_for_user id).
Proof.
  unfold invalidate_all_yggdrasil_for_user. prog_rel_go. intros t db db' b. apply delete_ygg_stays.
Qed.
Hint Resolve guard_rel revoke_all_stays invalidate_all_stays hash_password_rel
  reconcile_rel : loon.

(** No other request does. *)
Lemma unguarded_stays r : guarded r = false → prog_rel (db_rel admins_stay) (serve_admin r).
Proof.
  destruct r as [|b| |id b| | |id|id p|id]; cbn [guarded serve_admin]; try done; intros G.
  - prog_rel_go.
  - unfold create_user, admin_create_user. prog_rel_go. intros t db db' x. apply insert_stays.
  - prog_rel_go.
  - unfold patch_user, if_demoting, update_user. rewrite G. prog_rel_go.
    intros t db db' x. apply update_stays. intros u. unfold usable_admin. simpl.
    apply bool_decide_eq_false in G. rewrite !andb_true_iff. intros [Ha Hb]. split; [|done].
    by destruct (uu_is_admin b) as [[]|].
  - unfold unblock_user, unblock, set_blocked. prog_rel_go. intros t db db' x. apply update_stays.
    intros u. unfold usable_admin. simpl. by destruct (u_is_admin u).
  - unfold reset_password, set_password. prog_rel_go. intros t db db' x. by apply update_stays.
  - unfold revoke_tokens. prog_rel_go.
Qed.

(** A guarded request leaves an administrator. *)
Lemma guarded_some r T st :
  guarded r = true → some_admin (st_db st) →
  wp (serve_admin r) T st (λ st' _, some_admin (st_db st')).
Proof.
  destruct r as [| | |id b|id|id| | |]; cbn [guarded serve_admin]; try done; intros G S; apply wp_ignore.
  - unfold patch_user, if_demoting. rewrite G. apply wp_bind_ok, wp_guard_some; [done..|]. intros O.
    apply wp_bind_ok. unfold update_user. apply wp_bind_ok. unfold prog_map. apply wp_bind, wp_sql.
    intros t _. destruct (t_fault t); [done|].
    destruct (update_user_row _ _ _ _) as [[db x]|e] eqn:E; [|done].
    pose proof (update_other _ _ _ _ _ _ O E) as S'. repeat wp_step. destruct x as [x|]; [|done].
    simpl. unfold revoke_all_sessions_for_user. repeat wp_step. fault_case F; [done|].
    destruct (revoke_where _ _ _) as [[db2 n]|e] eqn:E2; [|done]. repeat wp_step.
    by apply (admins_stay_some db); [eapply revoke_stays|].
  - unfold delete_user, load_user. repeat wp_step. fault_case F; [done|].
    destruct (users (st_db st) !! id); cbn [option_map ok_or]; [|done].
    apply wp_bind_ok, wp_guard_some; [done..|]. intros O. repeat wp_step. fault_case F'; [done|].
    unfold delete_user_row. destruct (negb _); [by wp_step|]. destruct (exists_row _ _); [done|]. wp_step.
    destruct O as (k & v & Hne & Hk & Hu). exists k, v. simpl. by rewrite lookup_delete_ne.
  - unfold block_user, block, set_blocked. apply wp_bind_ok, wp_guard_some; [done..|]. intros O.
    repeat wp_step. fault_case F; [done|].
    destruct (update_user_row _ _ _ _) as [[db x]|e] eqn:E; [|done].
    pose proof (update_other _ _ _ _ _ _ O E). repeat wp_step. destruct x; repeat wp_step; done.
Qed.
End AdminProofs.

(** ** Properties *)

Section AdminProperties.
Context `{Lowercase} `{PasswordHashing} `{UuidText} `{Primitives}.

(** C20. The panel is never left without an administrator. Whatever one request does and
    whichever of its statements fail, if somebody could administer the service before it
    (an administrator who is not blocked), somebody can afterwards. *)
Theorem last_admin_survives r o st st' a :
  some_admin (st_db st) → exec (serve_admin r) o st = (st', a) → some_admin (st_db st').
Proof.
  intros S E. destruct (guarded r) eqn:G.
  - exact (wp_exec _ any_tick o st (λ st' _, some_admin (st_db st')) st' a (λ _, I) E
             (guarded_some r any_tick st G S)).
  - unfold exec in E. destruct (run (serve_admin r) o 0 st) as [[n st1] a'] eqn:R. injection E as <- <-.
    apply (admins_stay_some (st_db st)); [|done].
    exact (prog_rel_run (db_rel admins_stay) _ o 0 st n st1 a' (unguarded_stays r G) R).
Qed.

(** Deleting an account. An unknown account is [NotFound]; the last administrator and
    an account some event names cannot be deleted; a refusal changes nothing. Otherwise
    the account goes, with exactly the sessions, launcher tokens, friendships, worlds and
    tickets that hang on it; every other account and everything of theirs stays, and
    nothing refers to what went: the database is well formed. *)
Theorem delete_exact id now o st st' r :
  schema_ok (st_db st) → (∀ i, calm now (o i)) →
  exec (delete_user id) o st = (st', r) →
  let db := st_db st in let db' := st_db st' in
  let hosted := λ k, ∃ w, world_sessions db !! k = Some w ∧ ws_host_user_id w = id in
  match r with
  | Err e =>
      st' = st ∧
      (users db !! id = None ∧ e = NotFound "user not found" ∨
       some_admin db ∧ ¬ other_admin id db ∧ e = Conflict "cannot remove the last admin" ∨
       (∃ k v, user_events db !! k = Some v ∧ ue_user_id v = Some id) ∧
         e = Database (ForeignKeyViolation "user_events_user_id_fkey"))
  | Ok _ =>
      is_Some (users db !! id) ∧ users db' = delete id (users db) ∧ schema_ok db' ∧
      (∀ k s, sessions db' !! k = Some s ↔ sessions db !! k = Some s ∧ s_user_id s ≠ id) ∧
      (∀ k s, yggdrasil_tokens db' !! k = Some s ↔ yggdrasil_tokens db !! k = Some s ∧ yt_user_id s ≠ id) ∧
      (∀ k f, friendships db' !! k = Some f ↔
         friendships db !! k = Some f ∧ fs_user_a_id f ≠ id ∧ fs_user_b_id f ≠ id) ∧
      (∀ k w, world_sessions db' !! k = Some w ↔ world_sessions db !! k = Some w ∧ ws_host_user_id w ≠ id) ∧
      (∀ k j, join_tickets db' !! k = Some j ↔
         join_tickets db !! k = Some j ∧ jk_user_id j ≠ id ∧ ¬ hosted (jk_world_session_id j)) ∧
      user_events db' = user_events db
  end.
Proof.
  intros S Ho Hex db db' hosted. unfold db'. exec_start Hex (calm now). unfold delete_user, load_user.
  wp_calm. fold db. destruct (users db !! id) as [u|] eqn:Hu; cbn [option_map ok_or]; [|by auto].
  apply wp_bind_ok, wp_guard_calm; [by auto 8|]. wp_calm.
  unfold delete_user_row. fold db. unfold is_row. rewrite Hu, bool_decide_true by done. cbn [negb].
  destruct (exists_row _ _) eqn:X.
  { split; [done|]. right. right. apply exists_row_true in X as (k & v & Hk & Hv).
    apply bool_decide_eq_true in Hv. split; [|done]. by exists k, v. }
  wp_step. split; [done|]. split; [done|]. split.
  { apply cascade_ok; [done|]. intros k e Hk C. rewrite exists_row_false in X. specialize (X k e Hk).
    unfold names_user in X. by rewrite bool_decide_true in X. }
  cbn [cascade sessions yggdrasil_tokens friendships world_sessions join_tickets].
  assert (G : ∀ k, gone_world id db k = false ↔ ¬ hosted k).
  { intros k. unfold gone_world, hosted. destruct (world_sessions db !! k) as [w|]; [|naive_solver].
    rewrite N.eqb_neq. naive_solver. }
  repeat match goal with |- _ ∧ _ => split end; intros *;
    rewrite ?lookup_delete_where_Some, ?orb_false_iff, ?N.eqb_neq, ?G; first [done|tauto].
Qed.

(** Resetting a password shuts the old credential out. When it succeeds, the account
    has the new password and is otherwise unchanged, no other account changed, no token
    authenticates the account, now or later, and it has no launcher tokens; every other
    account's sessions and launcher tokens are as they were. *)
Theorem reset_password_exact id password now o st st' :
  (∀ i, calm now (o i)) →
  exec (reset_password id password) o st = (st', Ok ()) →
  ∃ u u', users (st_db st) !! id = Some u ∧
    users (st_db st') = <[id := u']> (users (st_db st)) ∧ has_password u' password ∧
    (∃ hash t, u' = with_password hash t u) ∧
    (∀ tok later v, ¬ authenticates tok later (st_db st') id v) ∧
    (∀ k r, yggdrasil_tokens (st_db st') !! k = Some r ↔
       yggdrasil_tokens (st_db st) !! k = Some r ∧ yt_user_id r ≠ id) ∧
    (∀ tok later k v, k ≠ id →
       authenticates tok later (st_db st') k v ↔ authenticates tok later (st_db st) k v).
Proof.
  intros Ho Hex. exec_start Hex (calm now). unfold reset_password, set_password.
  apply wp_bind_ok, wp_bind_ok, wp_ret. destruct (check_password_len password) as [[]|e]; [|done].
  apply wp_bind_ok, wp_hash_password; [done|]. intros hash V.
  apply wp_bind_ok, wp_sql_app. intros t (F & _). rewrite F.
  destruct (update_user_row _ _ _ _) as [[db x]|e] eqn:E; [|done].
  apply update_user_row_ok in E. destruct (users (st_db st) !! id) as [u|] eqn:Hu; cycle 1.
  { destruct E as [-> ->]. by wp_step. }
  destruct E as [-> ->]. wp_step. simpl. unfold revoke_all_sessions_for_user, invalidate_all_yggdrasil_for_user.
  apply wp_bind_ok, wp_sql_app. intros t2 (F2 & _). rewrite F2.
  set (p := λ s, _). set (db := set_users _ _).
  destruct (revoke_where p t2 _) as [[db2 n]|e] eqn:E2; [|done].
  apply wp_bind_ok, wp_sql_app. intros t3 (F3 & _). rewrite F3. unfold delete_ygg_tokens. wp_step.
  intros _. exists u, (with_password hash t u). split; [done|].
  assert (A : ∀ tok later k v, authenticates tok later db2 k v ↔ authenticates tok later db k v ∧ k ≠ id).
  { intros tok later k v. apply (revoke_where_authenticates p t2 db db2 n tok later id); [|exact E2].
    intros s. unfold p. apply N.eqb_eq. }
  injection E2 as <- <-. cbn [st_db set_db users set_users set_yggdrasil_tokens set_sessions].
  split; [done|]. split; [by exists hash|]. split; [by eauto|]. split.
  { intros tok later v C. by apply A in C as [_ C]. }
  split. { intros k r. cbn. by rewrite lookup_delete_where_Some, N.eqb_neq. }
  intros tok later k v Hne. etrans; [exact (A tok later k v)|].
  unfold authenticates, db. cbn. rewrite lookup_insert_ne by done. tauto.
Qed.
End AdminProperties.

(** ** Concrete instances

    As the sample state, with ada and bob administrators; cy has an event. *)

Definition make_admin (u : User) : User :=
  mkUser (u_minecraft_uuid u) (u_username u) (u_normalized_username u) (u_account_type u)
    (u_xuid u) (u_client_id u) (u_first_seen_at u) (u_last_seen_at u) (u_created_at u)
    (u_updated_at u) (u_email u) (u_password_hash u) (u_origin u) (u_profile_uuid u)
    (u_confirmed u) (u_blocked u) true.

Definition two_admins : AppState :=
  set_db (set_user_events {[ 70%N := mkUserEvent (Some 3%N) "bootstrap" 4 ]}
            (set_users (update_where (λ k _, (k <? 3)%N) make_admin (users sample_db)) sample_db))
    sample_state.

Lemma two_admins_ok : @schema_ok ascii_lowercase (st_db two_admins).
Proof. apply schema_okb_sound. vm_compute. reflexivity. Qed.

Lemma two_admins_some : some_admin (st_db two_admins).
Proof. exists 1%N, (make_admin (sample_user "ada")). split; vm_compute; reflexivity. Qed.

Definition toy_admin (r : AdminRequest) : prog unit :=
  serve_admin (H := ascii_lowercase) (H0 := toy_hashing) (H1 := hex_text) r.

Definition demote : UpdateUser := mkUpdateUser None None (Some false) None.

Lemma last_admin_survives_witness :
  let r := exec (toy_admin (APatch 1 demote)) (calm_oracle 9) two_admins in
  (u_is_admin <$> users (st_db r.1) !! 1%N) = Some false ∧ some_admin (st_db r.1).
Proof.
  intros r. split; [vm_compute; reflexivity|].
  apply (last_admin_survives (H := ascii_lowercase) (H0 := toy_hashing) (H1 := hex_text)
           (APatch 1 demote) (calm_oracle 9) two_admins r.1 r.2).
  - exact two_admins_some.
  - unfold r. by destruct (exec _ _ _).
Defined.

Lemma delete_exact_witness :
  let r := exec (delete_user 2) (calm_oracle 9) two_admins in
  r.2 = Ok () ∧ users (st_db r.1) = delete 2%N (users (st_db two_admins)) ∧
  @schema_ok ascii_lowercase (st_db r.1).
Proof.
  intros r. assert (E : r.2 = Ok ()) by (vm_compute; reflexivity). split; [exact E|].
  pose proof (delete_exact (H := ascii_lowercase) 2 9 (calm_oracle 9) two_admins r.1 r.2 two_admins_ok
                (calm_oracle_calm 9)) as D.
  rewrite E in D. destruct D as (_ & D1 & D2 & _); [|by split].
  rewrite <- E. unfold r. by destruct (exec _ _ _).
Defined.

Lemma reset_password_exact_witness :
  let r := exec (reset_password (H := ascii_lowercase) (H0 := toy_hashing) 7 "new")
             (calm_oracle 9) st_ada_in in
  r.2 = Ok () ∧
  ∀ tok later v, ¬ authenticates (H := toy_primitives) tok later (st_db r.1) 7 v.
Proof.
  intros r. assert (E : r.2 = Ok ()) by (vm_compute; reflexivity). split; [exact E|].
  destruct (reset_password_exact (H := ascii_lowercase) (H0 := toy_hashing) (H2 := toy_primitives) 7 "new" 9
    (calm_oracle 9) st_ada_in r.1) as (u & u' & _ & _ & _ & _ & A & _).
  - exact (calm_oracle_calm 9).
  - rewrite <- E. unfold r. by destruct (exec _ _ _).
  - exact A.
Defined.

(** ** What the model shows

    The guard reads and the statement that takes the administrator away is another one:
    two administrators who demote each other at once leave none. *)
Lemma mutual_demotion_locks_out :
  let r := sched (calm_oracle 9) 0 [0; 1; 0; 1; 0; 1; 0; 1]%nat
             ([toy_admin (APatch 2 demote); toy_admin (APatch 1 demote)], two_admins) in
  rtc pool_step ([toy_admin (APatch 2 demote); toy_admin (APatch 1 demote)], two_admins) r ∧
  r.1 = [Ret (); Ret ()] ∧
  count_rows (λ _ u, usable_admin u) (users (st_db r.2)) = 0%nat.
Proof. split; [apply sched_pool|]. split; vm_compute; reflexivity. Qed.

(** Every registration and bootstrap writes an event that names the account, and nothing
    removes it before the retention does: until then the account cannot be deleted. *)
Lemma event_blocks_deletion :
  (exec (delete_user 3) (calm_oracle 9) two_admins).2
  = Err (Database (ForeignKeyViolation "user_events_user_id_fkey")).
Proof. vm_compute. reflexivity. Qed.
