(* ===== verification/Textures.v ===== *)
(** * Skins and capes

    [crates/textures]: the registry [user_textures] (one row per user and kind) and the
    PNG files it points at. [public.rs]: look-up, reading, upload, deletion; [admin.rs]:
    the listing, deletion on behalf of a user, the scan for rows whose file is gone and
    their purge; [storage.rs]: kinds, paths and the statements they share. *)

From stdpp Require pretty.
From S2P Require Import Prelude RustStr Errors YggUuid Png Payload Models Table Realtime Schema.
From S2P Require Import Config Prog Auth Files Invariant Identity AdminUsers.

(** The two text forms of a [Uuid] that these handlers use: what is printed parses. *)
Class UuidParser := {
  hyphenated : Uuid → string;
  parse_str : string → option Uuid;
  parse_hyphenated : ∀ u, parse_str (hyphenated u) = Some u
}.

(** ** [storage.rs] *)

Inductive TextureKind : Type := Skin | Cape.

#[export] Instance TextureKind_eq_dec : EqDecision TextureKind.
Proof. solve_decision. Defined.

Definition kind_str (k : TextureKind) : string :=
  match k with Skin => "skin" | Cape => "cape" end.

Definition storage_dir (k : TextureKind) : string :=
  match k with Skin => "skins" | Cape => "capes" end.

Definition parse_kind (segment : string) : option TextureKind :=
  if (segment =? "skin")%string then Some Skin
  else if (segment =? "cape")%string then Some Cape
  else None.

Definition disk_path (storage_root : string) (kind : TextureKind) (profile_uuid revision : string)
  : string :=
  path_join (path_join storage_root (storage_dir kind))
    (profile_uuid +:+ "-" +:+ revision +:+ ".png").

Record AdminTextureRow : Type := mkAdminTextureRow {
  at_user_id : string;
  at_profile_uuid : string;
  at_username : string;
  at_file_url : string;
  at_file_path : string;
  at_file_size : Z;
  at_variant : option string;
  at_updated_at : Time
}.

(** A row with its key. *)
Abbreviation TextureRow := ((Uuid * string) * UserTexture)%type (only parsing).

(** [SELECT file_path ... WHERE user_id = $1 AND kind = $2]. *)
Definition path_of (user_id : Uuid) (kind : TextureKind) (_ : Tick) (db : Db) : option string :=
  ut_file_path <$> user_textures db !! (user_id, kind_str kind).

Definition delete_texture (user_id : Uuid) (kind : TextureKind) (t : Tick) (db : Db)
  : SqlResult (Db * option string) :=
  Ok (set_user_textures (delete (user_id, kind_str kind) (user_textures db)) db,
      path_of user_id kind t db).

Definition delete_by_user (kind : TextureKind) (user_id : Uuid) : prog (AppResult (option string)) :=
  sql_app (delete_texture user_id kind).

(** ** [lib.rs] *)

Definition MAX_UPLOAD_BYTES : N := 256 * 1024.

Definition relative_texture_url (profile_uuid kind : string) : string :=
  "/textures/" +:+ profile_uuid +:+ "/" +:+ kind.

Definition public_origin (public_url : string) : option string := (parse_public_url public_url).1.

Definition absolutize_url (cfg : Config) (relative : string) : string :=
  match public_origin (ygg_public_url cfg) with
  | Some origin => origin +:+ relative
  | None => relative
  end.

(** ** [public.rs] *)

Record LookupSkin : Type := mkLookupSkin { ls_url : string; ls_variant : SkinVariant }.
Record LookupCape : Type := mkLookupCape { lc_url : string }.
Record TexturesLookupResponse : Type := mkLookup {
  lk_skin : option LookupSkin;
  lk_cape : option LookupCape
}.

Definition no_textures : TexturesLookupResponse := mkLookup None None.

Definition parse_variant (value : string) : SkinVariant :=
  if (value =? "SLIM")%string || (value =? "slim")%string then Slim else Classic.

Definition variant_str (variant : SkinVariant) : string :=
  match variant with Slim => "SLIM" | Classic => "CLASSIC" end.

Definition kind_and_variant (user_id : Uuid) (r : TextureRow) : option (string * option string) :=
  if (r.1.1 =? user_id)%N then Some (r.1.2, ut_variant r.2) else None.

(** [SELECT kind, variant ... WHERE user_id = $1], in no particular order. *)
Definition variants_of (user_id : Uuid) (_ : Tick) (db : Db) : list (string * option string) :=
  omap (kind_and_variant user_id) (map_to_list (user_textures db)).

(** [SELECT id FROM users WHERE profile_uuid = $1]. *)
Definition resolve_user_id (profile_uuid : string) : prog (AppResult (option Uuid)) :=
  select (λ _ db,
    option_map key (find_user (λ u, sql_eq (u_profile_uuid u) (Some profile_uuid)) db)).

Definition invalid_profile {A} (r : result A UuidError) : AppResult A :=
  map_err (λ _, BadRequest "invalid profile uuid") r.

(** [PngError]'s [Display]. *)
Definition png_error_text (e : PngError) : string :=
  match e with
  | TooSmall => "file too small to be a PNG (need at least 24 bytes)"
  | BadSignature => "file is not a PNG (bad signature)"
  | BadIhdrLength n => "IHDR chunk length is " +:+ pretty.pretty n +:+ ", expected 13"
  | BadIhdrType => "first PNG chunk is not " +:+ quote +:+ "IHDR" +:+ quote
  | BadDimensions w h => "unsupported dimensions " +:+ pretty.pretty w +:+ "x" +:+ pretty.pretty h
  end.

(** The [validate_*] call; [None] stands for a panic of the parser, which
    [Png.validate_png_spec] excludes. *)
Definition check_png (kind : TextureKind) (file : list Z) : AppResult (Z * Z) :=
  match (match kind with Skin => validate_skin file | Cape => validate_cape file end) with
  | Some r =>
      map_err (λ e, BadRequest ("invalid " +:+ kind_str kind +:+ " png: " +:+ png_error_text e)) r
  | None => Err (Internal "panic")
  end.

Definition stored_variant (kind : TextureKind) (variant : option string) : option string :=
  match kind with
  | Skin => Some (variant_str (default Classic (parse_variant <$> variant)))
  | Cape => None
  end.

(** [INSERT ... ON CONFLICT (user_id, kind) DO UPDATE]: every other column is replaced. *)
Definition upsert_texture (user_id : Uuid) (kind : TextureKind) (r : Time → UserTexture)
  (t : Tick) (db : Db) : SqlResult (Db * unit) :=
  try _ := fk "user_textures_user_id_fkey" user_id (users db) in
  if bool_decide (texture_check (kind_str kind) (r (t_db t)))
  then Ok (set_user_textures (<[(user_id, kind_str kind) := r (t_db t)]> (user_textures db)) db, ())
  else Err (CheckViolation "user_textures_variant_kind").

Section Public.
Context `{Primitives} (cfg : Config).

Definition add_texture (profile_uuid : string) (response : TexturesLookupResponse)
  (row : string * option string) : TexturesLookupResponse :=
  let url := absolutize_url cfg (relative_texture_url profile_uuid row.1) in
  match parse_kind row.1 with
  | Some Skin =>
      mkLookup (Some (mkLookupSkin url (parse_variant (default "" row.2)))) (lk_cape response)
  | Some Cape => mkLookup (lk_skin response) (Some (mkLookupCape url))
  | None => response
  end.

Definition lookup (uuid : string) : prog (AppResult TexturesLookupResponse) :=
  let? profile_uuid := lift (invalid_profile (undash_uuid uuid)) in
  let? user_id := resolve_user_id profile_uuid in
  match user_id with
  | None => ret_ok no_textures
  | Some user_id =>
      let? rows := select (variants_of user_id) in
      ret_ok (foldl (add_texture profile_uuid) no_textures rows)
  end.

Definition read_png (uuid kind : string) : prog (AppResult (list Z)) :=
  let? kind := lift (ok_or (NotFound "unknown texture") (parse_kind kind)) in
  let? profile_uuid := lift (invalid_profile (undash_uuid uuid)) in
  let? user_id := resolve_user_id profile_uuid in
  let? user_id := lift (ok_or (NotFound "texture not found") user_id) in
  let? file_path := select (path_of user_id kind) in
  let? file_path := lift (ok_or (NotFound "texture not found") file_path) in
  let* bytes := read_file file_path in
  lift (ok_or (NotFound "texture file missing") bytes).

Record UploadFields : Type := mkUploadFields {
  uf_file : option (list Z);
  uf_variant : option string
}.

Definition read_upload (multipart : list Field) : AppResult UploadFields :=
  try '(file, variant) := read_capped_upload MAX_UPLOAD_BYTES "variant" multipart in
  Ok (mkUploadFields file variant).

Definition texture_row (user : User) (kind : TextureKind) (profile_uuid path : string)
  (file : list Z) (variant : option string) (now : Time) : UserTexture :=
  mkUserTexture profile_uuid (u_username user) path
    (relative_texture_url profile_uuid (kind_str kind)) (Z.of_nat (length file)) variant now.

(** The previous revision, unless it has the same path. *)
Definition unlink_old (old : option string) (path : string) : prog unit :=
  match old with
  | Some old => if (old =? path)%string then Ret () else unlink_quiet old
  | None => Ret ()
  end.

Definition upload (kind : string) (user : Keyed User) (multipart : list Field)
  : prog (AppResult unit) :=
  let? kind := lift (ok_or (NotFound "unknown texture") (parse_kind kind)) in
  let? fields := lift (read_upload multipart) in
  let? file := lift (ok_or (BadRequest "missing file field") (uf_file fields)) in
  do? lift (check_png kind file);
  let variant := stored_variant kind (uf_variant fields) in
  let? profile_uuid := lift (ok_or Forbidden (u_profile_uuid (row user))) in
  let* revision := revision_hex in
  let path := disk_path (textures_root cfg) kind profile_uuid revision in
  let* written := write_file path file in
  if negb written then ret_err (Internal "write texture")
  else
    let? old_path := select (path_of (key user) kind) in
    do? sql_app (upsert_texture (key user) kind
                   (texture_row (row user) kind profile_uuid path file variant));
    do* unlink_old old_path path;
    ret_ok ().

Definition unlink_removed (path : option string) : prog unit :=
  match path with Some path => unlink_quiet path | None => Ret () end.

Definition delete_own (kind : string) (user : Keyed User) : prog (AppResult unit) :=
  let? kind := lift (ok_or (NotFound "unknown texture") (parse_kind kind)) in
  let? path := delete_by_user kind (key user) in
  do* unlink_removed path;
  ret_ok ().
End Public.

(** ** [admin.rs] *)

Definition PAGE_SIZE : Z := 20.
Definition I64_MAX : Z := 2 ^ 63 - 1.

Section Admin.
Context `{Lowercase} `{UuidParser}.

Definition admin_row (r : TextureRow) : AdminTextureRow :=
  mkAdminTextureRow (hyphenated r.1.1) (ut_profile_uuid r.2) (ut_username r.2) (ut_file_url r.2)
    (ut_file_path r.2) (ut_file_size r.2) (ut_variant r.2) (ut_updated_at r.2).

(** [ILIKE]. *)
Definition ilike (value pattern : string) : bool := like (to_lowercase value) (to_lowercase pattern).

(** [kind = $1 AND ($2 = '' OR username ILIKE $3 OR profile_uuid ILIKE $3)]. *)
Definition registered (kind : TextureKind) (search : string) (r : TextureRow) : bool :=
  let pattern := "%" +:+ search +:+ "%" in
  (r.1.2 =? kind_str kind)%string
  && ((search =? "")%string || ilike (ut_username r.2) pattern || ilike (ut_profile_uuid r.2) pattern).

Definition texture_newer : relation TextureRow :=
  λ a b, (ut_updated_at b.2 ≤ ut_updated_at a.2)%Z.
#[export] Instance texture_newer_dec : RelDecision texture_newer.
Proof. intros a b. unfold texture_newer. apply _. Defined.

Definition registry (kind : TextureKind) (search : string) (db : Db) : list TextureRow :=
  merge_sort texture_newer (List.filter (registered kind search) (map_to_list (user_textures db))).

(** [LIMIT n] and [OFFSET n]: the rows before the first with [n] before it, and after. *)
Fixpoint sql_limit {A} (n : Z) (l : list A) : list A :=
  match l with a :: l => if (n <=? 0)%Z then [] else a :: sql_limit (n - 1) l | [] => [] end.

Fixpoint sql_offset {A} (n : Z) (l : list A) : list A :=
  match l with a :: l' => if (n <=? 0)%Z then l else sql_offset (n - 1) l' | [] => [] end.

(** A negative offset is an error. *)
Definition admin_list (kind : TextureKind) (search : string) (limit offset : Z)
  : prog (AppResult (list AdminTextureRow)) :=
  sql_app (λ _ db,
    if (offset <? 0)%Z then Err Io
    else Ok (db, map admin_row
                   (sql_limit limit (sql_offset offset (registry kind search db))))).

Definition admin_count (kind : TextureKind) (search : string) : prog (AppResult Z) :=
  select (λ _ db, Z.of_nat (length (registry kind search db))).

Definition admin_fetch_all (kind : TextureKind) : prog (AppResult (list AdminTextureRow)) :=
  admin_list kind "" I64_MAX 0.

Record TextureListResponse : Type := mkTextureList {
  tl_data : list AdminTextureRow;
  tl_meta : PageMeta
}.

Definition list_kind (kind : TextureKind) (q : option string) (page : option Z)
  : prog (AppResult TextureListResponse) :=
  let search := default "" q in
  let page := Z.max (default 1%Z page) 1 in
  let offset := wrap_i64 ((page - 1) * PAGE_SIZE) in
  let? data := admin_list kind search PAGE_SIZE offset in
  let? total := admin_count kind search in
  let page_count := if (0 <? total)%Z then Z.quot (total + PAGE_SIZE - 1) PAGE_SIZE else 0%Z in
  ret_ok (mkTextureList data (mkPageMeta page PAGE_SIZE total page_count)).

(** [DeleteAck]: whether there was a row. *)
Definition delete_of (kind : TextureKind) (user_id : string) : prog (AppResult bool) :=
  let? id := lift (ok_or (BadRequest "invalid user id") (parse_str user_id)) in
  let? removed := delete_by_user kind id in
  do* unlink_removed removed;
  ret_ok (bool_decide (is_Some removed)).

(** The loop: the rows whose file cannot be found. *)
Fixpoint keep_missing (rows : list AdminTextureRow) : prog (list AdminTextureRow) :=
  match rows with
  | [] => Ret []
  | r :: rows =>
      let* there := file_exists (at_file_path r) in
      let* orphans := keep_missing rows in
      Ret (if there then orphans else r :: orphans)
  end.

Definition collect_orphans (kind : TextureKind) : prog (AppResult (list AdminTextureRow)) :=
  let? rows := admin_fetch_all kind in
  let* orphans := keep_missing rows in
  ret_ok orphans.

Definition orphans : prog (AppResult (list AdminTextureRow * list AdminTextureRow)) :=
  let? skins := collect_orphans Skin in
  let? capes := collect_orphans Cape in
  ret_ok (skins, capes).

Fixpoint purge_rows (kind : TextureKind) (purged : nat) (rows : list AdminTextureRow)
  : prog (AppResult nat) :=
  match rows with
  | [] => ret_ok purged
  | r :: rows =>
      match parse_str (at_user_id r) with
      | Some id => do? delete_by_user kind id; purge_rows kind (S purged) rows
      | None => purge_rows kind purged rows
      end
  end.

Definition purge_kind (kind : TextureKind) : prog (AppResult nat) :=
  let? orphans := collect_orphans kind in
  purge_rows kind 0 orphans.

Definition purge_missing : prog (AppResult (nat * nat)) :=
  let? purged_skins := purge_kind Skin in
  let? purged_capes := purge_kind Cape in
  ret_ok (purged_skins, purged_capes).
End Admin.

(** ** Lemmas *)

Lemma parse_kind_str k : parse_kind (kind_str k) = Some k.
Proof. by destruct k. Qed.

Lemma parse_kind_Some s k : parse_kind s = Some k ↔ s = kind_str k.
Proof.
  unfold parse_kind. destruct (String.eqb_spec s "skin") as [->|]; [destruct k; naive_solver|].
  destruct (String.eqb_spec s "cape") as [->|]; destruct k; naive_solver.
Qed.

Lemma kind_str_inj k k' : kind_str k = kind_str k' → k = k'.
Proof. by destruct k, k'. Qed.

Lemma stored_variant_check k v r : ut_variant r = stored_variant k v → texture_check (kind_str k) r.
Proof.
  intros E. unfold texture_check. rewrite E. destruct k; [left|by right]. split; [done|].
  cbn [stored_variant]. destruct (default Classic _); auto.
Qed.

(** A user's row, found by the profile it has. *)
Lemma find_by_profile db k u p :
  uniq users_profile_uuid_uniq (users db) → users db !! k = Some u → u_profile_uuid u = Some p →
  find_user (λ u, sql_eq (u_profile_uuid u) (Some p)) db = Some (mkKeyed k u).
Proof.
  intros U Hk Hp. eapply find_row_unique; [exact Hk|by rewrite Hp; apply sql_eq_true; eauto|].
  intros k' u' Hk' (x & Hx & [= <-])%sql_eq_true.
  eapply U; [exact Hk'|exact Hk|]. apply sql_eq_true. eauto.
Qed.

Section TextureLemmas.
Context `{Primitives} (cfg : Config).

(** What a successful upload has done. *)
Record uploaded (now : Time) (kind : TextureKind) (user : Keyed User) (fields : list Field)
  (st st' : AppState) (file : list Z) (variant : option string) (p path : string) : Prop := {
  up_fields : read_upload fields = Ok (mkUploadFields (Some file) variant);
  up_profile : u_profile_uuid (row user) = Some p;
  up_db : st_db st' = set_user_textures
    (<[(key user, kind_str kind) :=
         texture_row (row user) kind p path file (stored_variant kind variant) now]>
       (user_textures (st_db st))) (st_db st);
  up_file : st_files st' !! path = Some file;
  up_rest : ∀ q, q ≠ path →
    path_of (key user) kind (mkTick now now 0 "" false) (st_db st) ≠ Some q →
    st_files st' !! q = st_files st !! q
}.

Lemma wp_unlink_old old path now st (Q : AppState → unit → Prop) :
  (∀ st', st_db st' = st_db st → st_files st' !! path = st_files st !! path →
     (∀ q, q ≠ path → old ≠ Some q → st_files st' !! q = st_files st !! q) → Q st' ()) →
  wp (unlink_old old path) (calm now) st Q.
Proof.
  intros HQ. unfold unlink_old. destruct old as [old|]; [|apply wp_ret; by apply HQ].
  destruct (String.eqb_spec old path) as [->|Hne]; [apply wp_ret; by apply HQ|].
  apply wp_unlink_quiet, HQ; [done|by apply lookup_delete_ne|].
  intros q _ Hq. apply lookup_delete_ne. congruence.
Qed.

Lemma wp_upload kind user fields now st (Q : AppState → AppResult unit → Prop) :
  (∀ st' e, Q st' (Err e)) →
  (∀ st' k file variant p path, parse_kind kind = Some k →
     uploaded now k user fields st st' file variant p path → Q st' (Ok ())) →
  wp (upload cfg kind user fields) (calm now) st Q.
Proof.
  intros HE HOk. unfold upload. apply wp_bind_ok, wp_ret.
  destruct (parse_kind kind) as [k|] eqn:Hk; [|apply HE]. apply wp_bind_ok, wp_ret.
  destruct (read_upload fields) as [[file variant]|e] eqn:Hf; [|apply HE].
  apply wp_bind_ok, wp_ret. cbn [uf_file uf_variant]. destruct file as [file|]; [|apply HE].
  apply wp_bind_ok, wp_ret. destruct (check_png k file) as [d|e]; [|apply HE].
  apply wp_bind_ok, wp_ret. destruct (u_profile_uuid (row user)) as [p|] eqn:Hp; [|apply HE].
  apply wp_bind. intros t _. cbn [fst snd]. apply wp_bind, wp_write_file. cbn [negb].
  apply wp_bind_ok, wp_select. intros t1 (F1 & _). rewrite F1.
  apply wp_bind_ok, wp_sql_app. intros t2 (F2 & D2 & _). rewrite F2. unfold upsert_texture. rewrite D2.
  destruct (fk _ _ _) as [[]|e]; [|apply HE]. cbn [and_then]. case_bool_decide; [|apply HE].
  apply wp_bind, wp_unlink_old. intros st' E1 E2 E3. apply wp_ret. eapply HOk; [done|].
  split; [done|done|exact E1|..].
  - rewrite E2. apply lookup_insert_eq.
  - intros q Hq Ho. rewrite (E3 q Hq Ho). by apply lookup_insert_ne.
Qed.

(** Reading by any spelling of the profile. *)
Lemma wp_read_png_row uuid p k kind u r now st (Q : AppState → AppResult (list Z) → Prop) :
  uniq users_profile_uuid_uniq (users (st_db st)) → undash_uuid uuid = Ok p →
  users (st_db st) !! k = Some u → u_profile_uuid u = Some p →
  user_textures (st_db st) !! (k, kind_str kind) = r →
  Q st (match r with
        | Some r => ok_or (NotFound "texture file missing") (st_files st !! ut_file_path r)
        | None => Err (NotFound "texture not found")
        end) →
  wp (read_png uuid (kind_str kind)) (calm now) st Q.
Proof.
  intros U Hu Hk Hp Hr HQ. unfold read_png. rewrite parse_kind_str, Hu. apply wp_bind_ok, wp_ret.
  cbn [ok_or invalid_profile map_err]. apply wp_bind_ok, wp_ret, wp_bind_ok, wp_select.
  intros t1 (F1 & _). rewrite F1, (find_by_profile _ k u p) by done. cbn [option_map key].
  apply wp_bind_ok, wp_ret, wp_bind_ok, wp_select. intros t2 (F2 & _). rewrite F2.
  unfold path_of. rewrite Hr. apply wp_bind_ok, wp_ret. destruct r as [r|]; [|done].
  by apply wp_bind, wp_read_file, wp_ret.
Qed.
End TextureLemmas.

(** ** The purge *)

Lemma sql_limit_all {A} n (l : list A) : (Z.of_nat (length l) ≤ n)%Z → sql_limit n l = l.
Proof.
  revert n. induction l as [|a l IH]; intros n Hn; [done|]. cbn [sql_limit length] in *.
  destruct (Z.leb_spec n 0); [lia|]. rewrite IH by lia. done.
Qed.

Lemma sql_offset_0 {A} (l : list A) : sql_offset 0 l = l.
Proof. by destruct l. Qed.

(** Rows whose keys differ, removed one after the other. *)
Definition delete_keys {K A} `{Countable K} (m : gmap K A) (rows : list (K * A)) : gmap K A :=
  foldl (λ m r, delete r.1 m) m rows.

Lemma delete_keys_cons {K A} `{Countable K} (m : gmap K A) x rows :
  delete_keys m (x :: rows) = delete_keys (delete x.1 m) rows.
Proof. reflexivity. Qed.

Lemma lookup_delete_keys {K A} `{Countable K} (m : gmap K A) rows k r :
  delete_keys m rows !! k = Some r ↔ m !! k = Some r ∧ k ∉ map fst rows.
Proof.
  revert m. induction rows as [|x rows IH]; intros m; cbn [map].
  - rewrite elem_of_nil. tauto.
  - rewrite delete_keys_cons, IH, lookup_delete_Some, elem_of_cons. split; [|naive_solver].
    intros [[? ?] ?]. split; [done|]. intros [->|?]; done.
Qed.

Lemma size_deleted_rows {K A} `{Countable K} (m : gmap K A) rows :
  NoDup (map fst rows) → (∀ x, x ∈ rows → m !! x.1 = Some x.2) →
  size (delete_keys m rows) + length rows = size m.
Proof.
  revert m. induction rows as [|x rows IH]; intros m N Hin; [cbn; lia|].
  cbn [map length] in *. rewrite delete_keys_cons. apply NoDup_cons in N as [N1 N2].
  assert (Hx : is_Some (m !! x.1)) by (exists x.2; apply Hin; constructor).
  assert (Hs : size m ≠ 0).
  { intros E. apply map_size_empty_inv in E. subst m. rewrite lookup_empty in Hx. by destruct Hx. }
  rewrite <- plus_n_Sm, IH; [|done|].
  - rewrite map_size_delete_Some by done. lia.
  - intros y Hy. rewrite lookup_delete_ne; [apply Hin; by constructor|].
    intros E. apply N1. rewrite E. by apply list_elem_of_fmap_2.
Qed.

Lemma filter_map_comm {A B} (f : A → B) (p : B → bool) l :
  List.filter p (map f l) = map f (List.filter (λ a, p (f a)) l).
Proof.
  induction l as [|a l IH]; simpl; [done|]. destruct (p (f a)); simpl; by rewrite IH.
Qed.

Section Purge.
Context `{Lowercase} `{UuidParser}.

Lemma elem_of_registry_all kind db k r :
  (k, r) ∈ registry kind "" db ↔ user_textures db !! k = Some r ∧ k.2 = kind_str kind.
Proof.
  unfold registry. rewrite merge_sort_Permutation, elem_of_filterb, elem_of_map_to_list.
  unfold registered. cbn [fst snd String.eqb orb]. rewrite andb_true_r, String.eqb_eq. tauto.
Qed.

Lemma registry_keys kind db : NoDup (map fst (registry kind "" db)).
Proof.
  unfold registry. rewrite merge_sort_Permutation. apply NoDup_map_filterb, NoDup_fst_map_to_list.
Qed.

Lemma registry_length kind db : length (registry kind "" db) ≤ size (user_textures db).
Proof.
  unfold registry. rewrite merge_sort_Permutation, <- length_map_to_list.
  apply List.filter_length_le.
Qed.

(** The rows of a kind whose file is not there. *)
Definition lacks_file (m : Files) (r : TextureRow) : bool :=
  negb (bool_decide (is_Some (m !! ut_file_path r.2))).

Definition missing_rows (kind : TextureKind) (st : AppState) : list TextureRow :=
  List.filter (lacks_file (st_files st)) (registry kind "" (st_db st)).

Lemma wp_keep_missing rows now st (Q : AppState → list AdminTextureRow → Prop) :
  Q st (List.filter (λ r, negb (bool_decide (is_Some (st_files st !! at_file_path r)))) rows) →
  wp (keep_missing rows) (calm now) st Q.
Proof.
  revert Q. induction rows as [|r rows IH]; intros Q HQ; [by apply wp_ret|].
  cbn [keep_missing]. apply wp_bind, wp_file_exists, wp_bind, IH, wp_ret. cbn [List.filter] in HQ.
  by destruct (bool_decide _).
Qed.

Lemma wp_collect_orphans kind now st (Q : AppState → AppResult (list AdminTextureRow) → Prop) :
  (Z.of_nat (size (user_textures (st_db st))) ≤ I64_MAX)%Z →
  Q st (Ok (map admin_row (missing_rows kind st))) → wp (collect_orphans kind) (calm now) st Q.
Proof.
  intros Hs HQ. unfold collect_orphans, admin_fetch_all, admin_list.
  apply wp_bind_ok, wp_sql_app. intros t (F & _). rewrite F. change (0 <? 0)%Z with false.
  cbv iota. rewrite set_db_same. apply wp_bind, wp_keep_missing, wp_ret. rewrite sql_offset_0, sql_limit_all.
  - rewrite filter_map_comm. exact HQ.
  - pose proof (registry_length kind (st_db st)). lia.
Qed.

Lemma wp_purge_rows kind (rows : list TextureRow) n now st (Q : AppState → AppResult nat → Prop) :
  Forall (λ r, r.1.2 = kind_str kind) rows →
  Q (set_db (set_user_textures (delete_keys (user_textures (st_db st)) rows) (st_db st)) st)
    (Ok (n + length rows)) →
  wp (purge_rows kind n (map admin_row rows)) (calm now) st Q.
Proof.
  revert n st. induction rows as [|r rows IH]; intros n st Hk HQ; cbn [map purge_rows].
  - apply wp_ret. cbn [delete_keys foldl length] in HQ. rewrite Nat.add_0_r in HQ.
    by destruct st as [[] ? ? ? ? ?].
  - apply Forall_cons in Hk as [Hr Hk]. cbn [admin_row at_user_id]. rewrite parse_hyphenated.
    apply wp_bind_ok, wp_sql_app. intros t (F & _). rewrite F. unfold delete_texture. apply IH; [done|].
    cbn [st_db set_db user_textures set_user_textures length] in *. rewrite <- Hr, <- surjective_pairing.
    rewrite <- plus_n_Sm in HQ. exact HQ.
Qed.

Lemma missing_rows_spec kind st k r :
  (k, r) ∈ missing_rows kind st ↔
  user_textures (st_db st) !! k = Some r ∧ k.2 = kind_str kind ∧ st_files st !! ut_file_path r = None.
Proof.
  unfold missing_rows, lacks_file. rewrite elem_of_filterb, elem_of_registry_all. cbn [snd].
  rewrite negb_true_iff, bool_decide_eq_false, <- eq_None_not_Some. tauto.
Qed.

(** One kind's purge: what goes, what stays, how many. *)
Lemma wp_purge_kind kind now st (Q : AppState → AppResult nat → Prop) :
  (Z.of_nat (size (user_textures (st_db st))) ≤ I64_MAX)%Z →
  (∀ m n, (∀ k r, m !! k = Some r ↔ user_textures (st_db st) !! k = Some r ∧
             (k.2 = kind_str kind → is_Some (st_files st !! ut_file_path r))) →
     n + size m = size (user_textures (st_db st)) →
     Q (set_db (set_user_textures m (st_db st)) st) (Ok n)) →
  wp (purge_kind kind) (calm now) st Q.
Proof.
  intros Hs HQ. unfold purge_kind. apply wp_bind_ok, wp_collect_orphans; [done|].
  apply wp_purge_rows.
  { apply Forall_forall. intros [k r] Hr. by apply missing_rows_spec in Hr as (_ & Hk & _). }
  apply HQ.
  - intros k r. rewrite lookup_delete_keys, list_elem_of_fmap. split.
    + intros [Hk Hn]. split; [done|]. intros Hkind. apply not_eq_None_Some. intros Hf. apply Hn.
      exists (k, r). split; [done|]. by apply missing_rows_spec.
    + intros [Hk Hf]. split; [done|]. intros ([k' r'] & E & Hr). cbn in E. subst k'.
      apply missing_rows_spec in Hr as (Hk' & Hkind & Hn). simplify_eq.
      rewrite Hn in Hf. by destruct (Hf Hkind).
  - rewrite Nat.add_0_l, Nat.add_comm. apply size_deleted_rows.
    + apply NoDup_map_filterb, registry_keys.
    + intros [k r] Hr. by apply missing_rows_spec in Hr as (Hk & _).
Qed.
End Purge.

(** ** The registry and the files *)

(** Every row's file is there, and no two rows share one. *)
Record backed (st : AppState) : Prop := {
  bk_file : ∀ k r, user_textures (st_db st) !! k = Some r → is_Some (st_files st !! ut_file_path r);
  bk_own : ∀ k1 k2 r1 r2, user_textures (st_db st) !! k1 = Some r1 →
    user_textures (st_db st) !! k2 = Some r2 → ut_file_path r1 = ut_file_path r2 → k1 = k2
}.

(** Fewer rows, and the files of those that remain. *)
Lemma backed_shrink st st' :
  backed st → user_textures (st_db st') ⊆ user_textures (st_db st) →
  (∀ k r, user_textures (st_db st') !! k = Some r →
     st_files st' !! ut_file_path r = st_files st !! ut_file_path r) →
  backed st'.
Proof.
  intros [B1 B2] Hm Hf. rewrite map_subseteq_spec in Hm. split.
  - intros k r Hk. rewrite (Hf k r Hk). eauto.
  - intros k1 k2 r1 r2 H1 H2. eapply B2; by apply Hm.
Qed.

Section Backed.
Context `{Lowercase} `{Primitives} `{UuidParser} (cfg : Config).

(** A tick whose random bytes make no path that a row has. *)
Definition fresh_path (st : AppState) (kind : TextureKind) (p : string) (t : Tick) : Prop :=
  ∀ k r, user_textures (st_db st) !! k = Some r →
    ut_file_path r ≠ disk_path (textures_root cfg) kind p (hex_encode (t_random t)).

Lemma wp_unlink_any (T : Tick → Prop) path st (Q : AppState → unit → Prop) :
  (∀ st', st_db st' = st_db st →
     (∀ q, q ≠ path → st_files st' !! q = st_files st !! q) → Q st' ()) →
  wp (unlink_quiet path) T st Q.
Proof.
  intros HQ. apply wp_on_files. intros t _. destruct (t_fault t); apply HQ; try done.
  intros q Hq. by apply lookup_delete_ne.
Qed.

(** A new file under a path that no row has, then its row in place of the old one. *)
Lemma backed_replace st path file key row' old st' :
  backed st → (∀ k r, user_textures (st_db st) !! k = Some r → ut_file_path r ≠ path) →
  ut_file_path row' = path → ut_file_path <$> user_textures (st_db st) !! key = old →
  user_textures (st_db st') = <[key := row']> (user_textures (st_db st)) →
  (∀ q, old ≠ Some q → st_files st' !! q = <[path := file]> (st_files st) !! q) →
  backed st'.
Proof.
  intros [B1 B2] Hfresh Hp Hold Hm Hf. split.
  - intros k r. rewrite Hm. intros [[<- <-]|[Hne Hk]]%lookup_insert_Some.
    + rewrite Hf, Hp, lookup_insert_eq; [done|]. rewrite Hp, <- Hold. intros E.
      destruct (user_textures (st_db st) !! key) as [r|] eqn:Hr; [|done]. injection E as E.
      by apply (Hfresh _ _ Hr).
    + rewrite Hf, lookup_insert_ne; [eauto|apply not_eq_sym; eauto|]. rewrite <- Hold. intros E.
      destruct (user_textures (st_db st) !! key) as [r0|] eqn:Hr; [|done]. injection E as E.
      apply Hne. by eapply B2.
  - intros k1 k2 r1 r2. rewrite Hm. intros [[<- <-]|[N1 L1]]%lookup_insert_Some
      [[<- <-]|[N2 L2]]%lookup_insert_Some E; [done|..].
    + rewrite Hp in E. by destruct (Hfresh _ _ L2).
    + rewrite Hp in E. by destruct (Hfresh _ _ L1).
    + by eapply B2.
Qed.

(** The registry as it was, with one more file. *)
Lemma backed_more_files st path file :
  backed st → backed (set_files (<[path := file]> (st_files st)) st).
Proof.
  intros [B1 B2]. split; [|exact B2]. intros k r Hk. cbn [st_files set_files].
  rewrite lookup_insert. case_decide; [done|]. by eapply B1.
Qed.

Lemma upload_backed kind user fields st :
  backed st →
  wp (upload cfg kind user fields)
    (λ t, ∀ k p, parse_kind kind = Some k → u_profile_uuid (row user) = Some p → fresh_path st k p t)
    st (λ st' _, backed st').
Proof.
  intros B. unfold upload. apply wp_bind_ok, wp_ret.
  destruct (parse_kind kind) as [k|]; [|done]. apply wp_bind_ok, wp_ret.
  destruct (read_upload fields) as [[file variant]|e]; [|done].
  apply wp_bind_ok, wp_ret. cbn [uf_file uf_variant]. destruct file as [file|]; [|done].
  apply wp_bind_ok, wp_ret. destruct (check_png k file) as [d|e]; [|done].
  apply wp_bind_ok, wp_ret. destruct (u_profile_uuid (row user)) as [p|]; [|done].
  apply wp_bind. intros t Hfresh. specialize (Hfresh k p eq_refl eq_refl). cbn [fst snd].
  set (path := disk_path (textures_root cfg) k p (hex_encode (t_random t))).
  apply wp_bind, wp_on_files. intros t1 _.
  destruct (t_fault t1); cbn [fst snd negb].
  { apply wp_ret. by rewrite set_files_same. }
  fold path. set (st1 := set_files _ st). assert (B1 : backed st1) by by apply backed_more_files.
  apply wp_bind_ok, wp_select. intros t2 _. destruct (t_fault t2); [done|].
  apply wp_bind_ok, wp_sql_app. intros t3 _. destruct (t_fault t3); [done|]. unfold upsert_texture.
  destruct (fk _ _ _) as [[]|e]; [|done]. cbn [and_then]. case_bool_decide; [|done].
  assert (Hp : ∀ old, path_of (key user) k t2 (st_db st1) = old → ∀ st',
    user_textures (st_db st') = <[(key user, kind_str k) :=
      texture_row (row user) k p path file (stored_variant k variant) (t_db t3)]>
        (user_textures (st_db st)) →
    (∀ q, old ≠ Some q → st_files st' !! q = <[path := file]> (st_files st) !! q) → backed st').
  { intros old Ho st' Hm Hf. eapply (backed_replace st path file (key user, kind_str k));
      [exact B|exact Hfresh| |exact Ho|exact Hm|exact Hf]; reflexivity. }
  apply wp_bind. unfold unlink_old. destruct (path_of _ _ _ _) as [old|] eqn:Ho.
  - destruct (old =? path)%string.
    + apply wp_ret, wp_ret. by eapply Hp.
    + apply wp_unlink_any. intros st' E1 E2. apply wp_ret. eapply Hp; [done|by rewrite E1|].
      intros q Hq. apply E2. congruence.
  - apply wp_ret, wp_ret. by eapply Hp.
Qed.

Lemma delete_backed kind id st T (Q : AppState → AppResult (option string) → Prop) :
  backed st →
  (∀ e, Q st (Err e)) →
  (∀ st' path, (∀ T' (Q' : AppState → unit → Prop), (∀ st'', backed st'' → Q' st'' ()) →
     wp (unlink_removed path) T' st' Q') → backed st' → Q st' (Ok path)) →
  wp (delete_by_user kind id) T st Q.
Proof.
  intros B HE HOk. apply wp_sql_app. intros t _. destruct (t_fault t); [apply HE|].
  unfold delete_texture. apply HOk.
  - intros T' Q' HQ'. unfold unlink_removed, path_of.
    destruct (user_textures (st_db st) !! (id, kind_str kind)) as [r|] eqn:Hr; cbn [fmap option_fmap option_map].
    + apply wp_unlink_any. intros st'' E1 E2. apply HQ'. eapply backed_shrink; [exact B|..].
      * rewrite E1. apply delete_subseteq.
      * intros k r'. rewrite E1. cbn. intros [Hne Hk]%lookup_delete_Some. rewrite E2; [done|].
        intros E. apply Hne. symmetry. by eapply (bk_own _ B).
    + apply wp_ret, HQ'. eapply backed_shrink; [exact B|apply delete_subseteq|done].
  - eapply backed_shrink; [exact B|apply delete_subseteq|done].
Qed.

Lemma purge_rows_backed kind rows n st T :
  backed st → wp (purge_rows kind n rows) T st (λ st' _, backed st').
Proof.
  revert n st. induction rows as [|r rows IH]; intros n st B; [by apply wp_ret|].
  cbn [purge_rows]. destruct (parse_str _) as [id|]; [|by apply IH].
  apply wp_bind_ok, delete_backed; [done|done|]. intros st' path _ B'. by apply IH.
Qed.

Lemma wp_keep_missing_any rows st T (Q : AppState → list AdminTextureRow → Prop) :
  (∀ l, Q st l) → wp (keep_missing rows) T st Q.
Proof.
  revert Q. induction rows as [|r rows IH]; intros Q HQ; [by apply wp_ret|].
  cbn [keep_missing]. apply wp_bind, wp_on_files. intros t _. cbn [fst snd]. rewrite set_files_same.
  apply wp_bind, IH. intros l. apply wp_ret, HQ.
Qed.

Lemma wp_collect_orphans_any kind st T (Q : AppState → AppResult (list AdminTextureRow) → Prop) :
  (∀ r, Q st r) → wp (collect_orphans kind) T st Q.
Proof.
  intros HQ. unfold collect_orphans, admin_fetch_all, admin_list.
  apply wp_bind_ok, wp_sql_app. intros t _. destruct (t_fault t); [apply HQ|]. cbn [Z.ltb Z.compare].
  rewrite set_db_same. apply wp_bind, wp_keep_missing_any. intros l. apply wp_ret, HQ.
Qed.

Lemma purge_kind_backed kind st T (Q : AppState → AppResult nat → Prop) :
  backed st → (∀ st' r, backed st' → Q st' r) → wp (purge_kind kind) T st Q.
Proof.
  intros B HQ. unfold purge_kind. apply wp_bind_ok, wp_collect_orphans_any. intros [l|e]; [|by apply HQ].
  eapply wp_conseq; [by apply purge_rows_backed|]. intros. by apply HQ.
Qed.

(** ** The handlers as requests *)

Inductive TextureRequest : Type :=
| TLookup (uuid : string)
| TRead (uuid kind : string)
| TUpload (kind : string) (user : Keyed User) (multipart : list Field)
| TDelete (kind : string) (user : Keyed User)
| TList (kind : TextureKind) (q : option string) (page : option Z)
| TAdminDelete (kind : TextureKind) (user_id : string)
| TOrphans
| TPurge.

Definition serve_texture (r : TextureRequest) : prog unit :=
  match r with
  | TLookup uuid => ignore (lookup cfg uuid)
  | TRead uuid kind => ignore (read_png uuid kind)
  | TUpload kind user multipart => ignore (upload cfg kind user multipart)
  | TDelete kind user => ignore (delete_own kind user)
  | TList kind q page => ignore (list_kind kind q page)
  | TAdminDelete kind user_id => ignore (delete_of kind user_id)
  | TOrphans => ignore orphans
  | TPurge => ignore purge_missing
  end.

(** The upload's random bytes make a path that no row has. *)
Definition fresh_upload (r : TextureRequest) (st : AppState) (t : Tick) : Prop :=
  match r with
  | TUpload kind user _ => ∀ k p, parse_kind kind = Some k → u_profile_uuid (row user) = Some p →
      fresh_path st k p t
  | _ => True
  end.

(** The database and the files as they were. *)
Lemma wp_read_only {A} (p : prog A) T st (Q : AppState → A → Prop) :
  (∀ a, Q st a) → wp p T st (λ st' _, st' = st) → wp p T st Q.
Proof. intros HQ W. eapply wp_conseq; [exact W|]. by intros st' a ->. Qed.

Lemma lookup_reads uuid T st : wp (lookup cfg uuid) T st (λ st' _, st' = st).
Proof.
  unfold lookup. apply wp_bind_ok, wp_ret. destruct (invalid_profile _) as [p|e]; [|done].
  apply wp_bind_ok, wp_select. intros t _. destruct (t_fault t); [done|].
  destruct (option_map _ _) as [id|]; [|by apply wp_ret].
  apply wp_bind_ok, wp_select. intros t' _. destruct (t_fault t'); [done|]. by apply wp_ret.
Qed.

Lemma read_png_reads uuid kind T st : wp (read_png uuid kind) T st (λ st' _, st' = st).
Proof.
  unfold read_png. apply wp_bind_ok, wp_ret. destruct (ok_or _ _) as [k|e]; [|done].
  apply wp_bind_ok, wp_ret. destruct (invalid_profile _) as [p|e]; [|done].
  apply wp_bind_ok, wp_select. intros t _. destruct (t_fault t); [done|].
  apply wp_bind_ok, wp_ret. destruct (ok_or _ _) as [id|e]; [|done].
  apply wp_bind_ok, wp_select. intros t' _. destruct (t_fault t'); [done|].
  apply wp_bind_ok, wp_ret. destruct (ok_or _ _) as [path|e]; [|done].
  apply wp_bind, wp_on_files. intros t2 _. cbn [fst snd]. rewrite set_files_same.
  by apply wp_ret.
Qed.

Lemma list_reads kind q page T st : wp (list_kind kind q page) T st (λ st' _, st' = st).
Proof.
  unfold list_kind, admin_list, admin_count. apply wp_bind_ok, wp_sql_app. intros t _.
  destruct (t_fault t); [done|]. destruct (_ <? 0)%Z; [done|]. rewrite set_db_same.
  apply wp_bind_ok, wp_select. intros t' _. destruct (t_fault t'); [done|]. by apply wp_ret.
Qed.

Lemma serve_texture_backed r st :
  backed st → wp (serve_texture r) (fresh_upload r st) st (λ st' _, backed st').
Proof.
  intros B. destruct r; cbn [serve_texture fresh_upload]; apply wp_ignore.
  - eapply wp_read_only; [done|apply lookup_reads].
  - eapply wp_read_only; [done|apply read_png_reads].
  - by apply upload_backed.
  - unfold delete_own. apply wp_bind_ok, wp_ret. destruct (ok_or _ _) as [k|e]; [|done].
    apply wp_bind_ok, delete_backed; [done|done|]. intros st' path Hu _.
    apply wp_bind, Hu. intros st'' B''. by apply wp_ret.
  - eapply wp_read_only; [done|apply list_reads].
  - unfold delete_of. apply wp_bind_ok, wp_ret. destruct (ok_or _ _) as [id|e]; [|done].
    apply wp_bind_ok, delete_backed; [done|done|]. intros st' path Hu _.
    apply wp_bind, Hu. intros st'' B''. by apply wp_ret.
  - unfold orphans. apply wp_bind_ok, wp_collect_orphans_any. intros [l|e]; [|done].
    apply wp_bind_ok, wp_collect_orphans_any. intros [l'|e]; [|done]. by apply wp_ret.
  - unfold purge_missing. apply wp_bind_ok, purge_kind_backed; [done|]. intros st' [n|e] B'; [|done].
    apply wp_bind_ok, purge_kind_backed; [done|]. intros st'' [n'|e] B''; [|done]. by apply wp_ret.
Qed.
End Backed.

(** ** The schema's invariant *)

Section TextureSchema.
Context `{Lowercase} `{Primitives} `{UuidParser} (cfg : Config).

Lemma upsert_texture_schema id kind f t db db' b :
  upsert_texture id kind f t db = Ok (db', b) → schema_rel db db'.
Proof.
  unfold upsert_texture. intros ([] & Hf & E)%and_then_ok S. case_bool_decide as C; [|done].
  injection E as <- _. apply schema_set_user_textures; [done|].
  apply map_Forall_insert_2; [|apply S]. split; [by apply fk_ok in Hf|done].
Qed.

Lemma delete_texture_schema id kind t db db' b :
  delete_texture id kind t db = Ok (db', b) → schema_rel db db'.
Proof.
  intros [= <- _] S. apply schema_set_user_textures; [done|]. apply map_Forall_delete, S.
Qed.

Lemma admin_list_schema kind q l o : prog_rel (db_rel schema_rel) (admin_list kind q l o).
Proof.
  unfold admin_list. prog_rel_go. intros t db db' b. destruct (_ <? 0)%Z; [done|].
  intros [= <- _]. reflexivity.
Qed.

Lemma delete_by_user_schema kind id : prog_rel (db_rel schema_rel) (delete_by_user kind id).
Proof. unfold delete_by_user. prog_rel_go; eauto using delete_texture_schema. Qed.

Lemma unlink_removed_schema path : prog_rel (db_rel schema_rel) (unlink_removed path).
Proof. unfold unlink_removed, unlink_quiet. prog_rel_go. Qed.
Hint Resolve upsert_texture_schema admin_list_schema delete_by_user_schema unlink_removed_schema : loon.

Lemma keep_missing_schema rows : prog_rel (db_rel schema_rel) (keep_missing rows).
Proof. induction rows; cbn [keep_missing]; unfold file_exists; prog_rel_go. Qed.
Hint Resolve keep_missing_schema : loon.

Lemma purge_rows_schema kind n rows : prog_rel (db_rel schema_rel) (purge_rows kind n rows).
Proof. revert n. induction rows; intros n; cbn [purge_rows]; prog_rel_go. Qed.
Hint Resolve purge_rows_schema : loon.

Lemma revision_hex_rel : prog_rel (db_rel schema_rel) revision_hex.
Proof. apply prog_rel_memory; [exact _|done]. Qed.
Hint Resolve revision_hex_rel : loon.

Lemma serve_texture_schema r : prog_rel (db_rel schema_rel) (serve_texture cfg r).
Proof.
  destruct r; cbn [serve_texture];
    unfold lookup, read_png, resolve_user_id, read_file, upload, write_file, unlink_old, unlink_quiet,
      delete_own, list_kind, admin_count, delete_of, orphans, purge_missing, purge_kind,
      collect_orphans, admin_fetch_all; prog_rel_go; eauto with loon.
Qed.
End TextureSchema.

#[export] Hint Resolve serve_texture_schema : loon.

(** ** Properties *)

Section TextureProperties.
Context `{Lowercase} `{Primitives} `{UuidParser} (cfg : Config).

(** What is uploaded is what is served. When a user's upload succeeds, the multipart body
    had a [file] part of at most 256 KiB, and from then on every spelling of the user's
    profile reads back exactly the bytes of the last such part. *)
Theorem upload_then_read kind user fields uuid p now now' o o' st st' :
  uniq users_profile_uuid_uniq (users (st_db st)) →
  users (st_db st) !! key user = Some (row user) → u_profile_uuid (row user) = Some p →
  undash_uuid uuid = Ok p → (∀ i, calm now (o i)) → (∀ i, calm now' (o' i)) →
  exec (upload cfg kind user fields) o st = (st', Ok ()) →
  ∃ file, last_or None (omap field_file fields) = Some file ∧
    (N.of_nat (length file) ≤ MAX_UPLOAD_BYTES)%N ∧
    exec (read_png uuid kind) o' st' = (st', Ok file).
Proof.
  intros U Hk Hp Hu Ho Ho' Hex. exec_start Hex (calm now). apply wp_upload; [done|].
  intros st1 k file variant q path Hkind [Hf Hq Hdb Hfile _] _.
  apply parse_kind_Some in Hkind as ->. rewrite Hp in Hq. injection Hq as <-.
  exists file. unfold read_upload in Hf. apply and_then_ok in Hf as ([file' v] & Hf & [= -> ->]).
  unfold read_capped_upload in Hf. apply read_fields_ok in Hf as [Hall E].
  pose proof (files_fit _ _ _ Hall) as Hfit. injection E as E1 E2. rewrite <- E1 in Hfit.
  split; [done|]. split; [exact Hfit|].
  destruct (exec _ o' st1) as [st2 r] eqn:E. exec_start E (calm now').
  eapply wp_read_png_row; [by rewrite Hdb|exact Hu|rewrite Hdb; exact Hk|exact Hp|done|].
  rewrite Hdb. cbn [user_textures set_user_textures]. rewrite lookup_insert_eq. cbn. by rewrite Hfile.
Qed.

(** C21. The registry never points at nothing. If every registry row has its file and no two
    rows share one, this is so after any request to the texture service that runs by
    itself, whatever statements and file operations fail on the way, as long as an
    upload's random revision is new. *)
Theorem registry_stays_backed r o st st' x :
  backed st → (∀ i, fresh_upload cfg r st (o i)) →
  exec (serve_texture cfg r) o st = (st', x) → backed st'.
Proof.
  intros B Hf Hex. apply (wp_exec (serve_texture cfg r) (fresh_upload cfg r st) o st (λ st1 _, backed st1) st' x); [exact Hf|exact Hex|].
  by apply serve_texture_backed.
Qed.

(** The purge removes exactly the rows whose file is gone, of both kinds, touches no
    file and nothing else in the database, and answers how many rows went. *)
Theorem purge_exact now o st st' r :
  schema_ok (st_db st) → (Z.of_nat (size (user_textures (st_db st))) ≤ I64_MAX)%Z →
  (∀ i, calm now (o i)) → exec purge_missing o st = (st', r) →
  ∃ m skins capes, st' = set_db (set_user_textures m (st_db st)) st ∧ r = Ok (skins, capes) ∧
    (∀ k t, m !! k = Some t ↔
       user_textures (st_db st) !! k = Some t ∧ is_Some (st_files st !! ut_file_path t)) ∧
    skins + capes + size m = size (user_textures (st_db st)).
Proof.
  intros S Hs Ho Hex. exec_start Hex (calm now). unfold purge_missing.
  apply wp_bind_ok, wp_purge_kind; [done|]. intros m1 n1 L1 E1.
  apply wp_bind_ok, wp_purge_kind; [cbn; lia|]. cbn [st_db set_db user_textures set_user_textures st_files].
  intros m2 n2 L2 E2. apply wp_ret. exists m2, n1, n2. split; [done|]. split; [done|].
  split; [|lia]. intros k t. rewrite L2, L1. split; [|tauto].
  intros [[Hk F1] F2]. split; [done|].
  destruct (ok_user_textures _ S _ _ Hk) as [_ [[Hsk _]|[Hc _]]]; auto.
Qed.
End TextureProperties.

(** ** Concrete instances *)

Definition toy_parser : UuidParser.
Proof.
  refine {| hyphenated := λ u, pretty.pretty u; parse_str := λ s, Z.to_N <$> parse_magnitude s |}.
  intros u. rewrite parse_magnitude_pretty. cbn. by rewrite N2Z.id.
Defined.

Definition slim_skin : list Field :=
  [FieldOf (Some "variant") [] (Ok "slim");
   FieldOf (Some "file") [Bytes (take 10 (png_header 64 64)); Bytes (drop 10 (png_header 64 64))] (Err "")].

(** The profile of dora, with dashes and capitals. *)
Definition dora_profile : string := "000000000000000000000000000003e9".
Definition dora_dashed : string := "00000000-0000-0000-0000-0000000003E9".

Definition toy_upload := upload (H := toy_primitives) default_config.
Definition dora_skinned : AppState := (exec (toy_upload "skin" dora slim_skin) (random_oracle 20 "r1") with_dora).1.

Lemma dora_uploads :
  exec (toy_upload "skin" dora slim_skin) (random_oracle 20 "r1") with_dora = (dora_skinned, Ok ()).
Proof. rewrite (surjective_pairing (exec _ _ _)). f_equal. Qed.

Lemma upload_then_read_witness :
  exec (toy_upload "skin" dora slim_skin) (random_oracle 20 "r1") with_dora = (dora_skinned, Ok ()) ∧
  exec (read_png dora_dashed "skin") (calm_oracle 30) dora_skinned
  = (dora_skinned, Ok (png_header 64 64)).
Proof.
  split; [exact dora_uploads|].
  destruct (upload_then_read (H0 := toy_primitives) default_config "skin" dora slim_skin dora_dashed dora_profile
    20 30 (random_oracle 20 "r1") (calm_oracle 30) with_dora dora_skinned) as (file & Hf & _ & Hr).
  - eapply (@table_ok_uniq _ (@users_indexes ascii_lowercase)); [|apply with_dora_ok].
    unfold users_indexes. set_solver.
  - vm_compute. reflexivity.
  - vm_compute. reflexivity.
  - vm_compute. reflexivity.
  - intros i. repeat split; reflexivity.
  - apply calm_oracle_calm.
  - exact dora_uploads.
  - rewrite Hr. vm_compute in Hf. by injection Hf as <-.
Defined.

(** dora's skin and its file; the file removed behind the registry's back. *)
Lemma dora_skinned_backed : backed dora_skinned.
Proof.
  assert (E : map_to_list (user_textures (st_db dora_skinned)) =
    [((1002%N, "skin"), texture_row (row dora) Skin dora_profile
        ("data/textures/skins/" +:+ dora_profile +:+ "-r1.png") (png_header 64 64) (Some "SLIM") 20)])
    by (vm_compute; reflexivity).
  assert (F : ∀ k r, user_textures (st_db dora_skinned) !! k = Some r → k = (1002%N, "skin") ∧
    st_files dora_skinned !! ut_file_path r = Some (png_header 64 64)).
  { intros k r Hk. apply elem_of_map_to_list in Hk. rewrite E in Hk.
    apply list_elem_of_singleton in Hk. injection Hk as -> ->. split; [done|]. vm_compute. reflexivity. }
  split.
  - intros k r Hk. apply F in Hk as [_ ->]. by eexists.
  - intros k1 k2 r1 r2 Hk1%F Hk2%F _. destruct Hk1 as [-> _], Hk2 as [-> _]. done.
Qed.

Definition toy_serve := serve_texture (H := ascii_lowercase) (H0 := toy_primitives) (H1 := toy_parser) default_config.

Lemma registry_stays_backed_witness :
  let r := exec (toy_serve (TUpload "skin" dora slim_skin)) (random_oracle 40 "r2") dora_skinned in
  backed r.1 ∧ map fst (map_to_list (st_files r.1))
  = ["data/textures/skins/" +:+ dora_profile +:+ "-r2.png"].
Proof.
  intros r. split; [|vm_compute; reflexivity].
  apply (registry_stays_backed (H := ascii_lowercase) (H0 := toy_primitives) (H1 := toy_parser) default_config
    (TUpload "skin" dora slim_skin) (random_oracle 40 "r2") dora_skinned r.1 r.2 dora_skinned_backed);
    [|apply surjective_pairing].
  intros i k p Hk Hp k' t Ht. assert (Et : ut_file_path t = "data/textures/skins/" +:+ dora_profile +:+ "-r1.png").
  { assert (A : map_Forall (λ _ t, ut_file_path t = "data/textures/skins/" +:+ dora_profile +:+ "-r1.png")
      (user_textures (st_db dora_skinned))).
    { apply (bool_decide_unpack _). vm_compute. reflexivity. }
    exact (A _ _ Ht). }
  rewrite Et. injection Hk as <-. vm_compute in Hp. injection Hp as <-. vm_compute. discriminate.
Defined.

Definition dora_lost : AppState := set_files ∅ dora_skinned.

Lemma dora_lost_ok : @schema_ok ascii_lowercase (st_db dora_lost).
Proof. apply schema_okb_sound. vm_compute. reflexivity. Qed.

Lemma purge_exact_witness :
  let r := exec (purge_missing (H := ascii_lowercase) (H0 := toy_parser)) (calm_oracle 50) dora_lost in
  r.2 = Ok (1, 0) ∧ ∃ m, r.1 = set_db (set_user_textures m (st_db dora_lost)) dora_lost ∧ size m = 0.
Proof.
  intros r. assert (E2 : r.2 = Ok (1, 0)) by (vm_compute; reflexivity). split; [exact E2|].
  destruct (purge_exact (H := ascii_lowercase) (H1 := toy_parser) 50 (calm_oracle 50) dora_lost r.1 r.2)
    as (m & s & c & E & Er & _ & Hn).
  - exact dora_lost_ok.
  - vm_compute. discriminate.
  - apply calm_oracle_calm.
  - apply surjective_pairing.
  - exists m. split; [exact E|]. rewrite E2 in Er. injection Er as <- <-.
    assert (Z1 : size (user_textures (st_db dora_lost)) = 1) by (vm_compute; reflexivity). lia.
Defined.

(** ** Races *)

(** An upload between the scan and the purge: the purge deletes the row of the new skin,
    whose file stays behind. *)
Example purge_race :
  let s := sched (random_oracle 60 "r3") 0 [0; 0; 1; 1; 1; 1; 1; 0; 0]
             ([toy_serve TPurge; toy_serve (TUpload "skin" dora slim_skin)], dora_lost) in
  rtc pool_step ([toy_serve TPurge; toy_serve (TUpload "skin" dora slim_skin)], dora_lost) s ∧
  ret_val <$> s.1 !! 1 = Some (Some ()) ∧
  map_to_list (user_textures (st_db s.2)) = [] ∧
  map fst (map_to_list (st_files s.2)) = ["data/textures/skins/" +:+ dora_profile +:+ "-r3.png"].
Proof. split; [apply sched_pool|]. repeat split; vm_compute; reflexivity. Qed.

(** Two uploads at once both see the same old revision: one of the new files is left with
    no row. *)
Example concurrent_uploads_leak :
  let o := λ i, mkTick 60 60 1000 (if (i =? 0)%nat then "ra" else "rb") false in
  let ps := [toy_serve (TUpload "skin" dora slim_skin); toy_serve (TUpload "skin" dora slim_skin)] in
  let s := sched o 0 [0; 1; 0; 1; 0; 1; 0; 1; 0; 1] (ps, dora_skinned) in
  rtc pool_step (ps, dora_skinned) s ∧
  map ret_val s.1 = [Some (); Some ()] ∧
  size (user_textures (st_db s.2)) = 1 ∧ size (st_files s.2) = 2.
Proof. split; [apply sched_pool|]. repeat split; vm_compute; reflexivity. Qed.
