(* ===== verification/BundlePaths.v ===== *)
(** * Paths of the bundle store

    The pure half of [crates/bundles/src/storage.rs]: slugs, relative paths from users and
    archives, where a build's files are. A path is text with ['/'] between its parts, as on
    the systems the service runs on ([Path::is_absolute] is "starts with a slash"). *)

From S2P Require Import Prelude RustStr Errors Files.

(** [replace('\\', "/")]. *)
Definition unify (raw : string) : string :=
  str_map (λ c, if Ascii.eqb c "\" then "/"%char else c) raw.

(** ** [std::path::Component] *)

Inductive Component : Type :=
| Normal (segment : string)
| CurDir
| ParentDir
| RootDir.

#[export] Instance Component_eq_dec : EqDecision Component.
Proof. solve_decision. Defined.

(** A part between slashes; an empty one and a [.] are skipped. *)
Definition component (segment : string) : option Component :=
  if (segment =? "")%string || (segment =? ".")%string then None
  else if (segment =? "..")%string then Some ParentDir
  else Some (Normal segment).

(** A leading slash is the root, a leading [.] is kept. *)
Definition components (path : string) : list Component :=
  (if starts_with "/" path then [RootDir]
   else match str_split "/" path with
        | first :: _ => if (first =? ".")%string then [CurDir] else []
        | [] => []
        end)
  ++ omap component (str_split "/" path).

(** [Path::starts_with], by components. *)
Definition path_starts_with (path base : string) : bool :=
  bool_decide (components base `prefix_of` components path).

(** ** [storage.rs] *)

Definition builds_root (storage_root : string) : string := path_join storage_root "builds".

Definition build_path (storage_root slug : string) : string :=
  path_join (builds_root storage_root) slug.

Definition validate_slug (slug : string) : AppResult unit :=
  if (slug =? "")%string || (slug =? ".")%string || (slug =? "..")%string
     || str_contains "/" slug || str_contains "\" slug || str_contains "000" slug
  then Err (BadRequest "invalid slug")
  else Ok ().

Definition files_path (storage_root slug : string) : string :=
  path_join (build_path storage_root slug) "files".

Definition manifest_path (storage_root slug : string) : string :=
  path_join (build_path storage_root slug) "artifacts.json".

Definition public_url (public_prefix slug relative_path : string) : string :=
  trim_end_matches "/" public_prefix +:+ "/builds/" +:+ slug +:+ "/files/" +:+ unify relative_path.

(** The loop over the components: [parts] is what has been kept. *)
Fixpoint take_parts (field : string) (parts : list string) (cs : list Component)
  : AppResult (list string) :=
  match cs with
  | [] => Ok parts
  | Normal segment :: cs =>
      take_parts field (if (segment =? "")%string then parts else parts ++ [segment]) cs
  | CurDir :: cs => take_parts field parts cs
  | (ParentDir | RootDir) :: _ => Err (BadRequest (field +:+ " escapes the build directory"))
  end.

Definition normalize_relative_path (raw field : string) : AppResult string :=
  let unified := unify raw in
  if starts_with "/" unified
  then Err (BadRequest ("invalid " +:+ field +:+ " — must be a relative path"))
  else
    try parts := take_parts field [] (components unified) in
    if bool_decide (parts = []) then Err (BadRequest (field +:+ " is required"))
    else Ok (String.concat "/" parts).

(** The last part and the first, or [root] when there is only one. *)
Definition split_relative_path (relative_path : string) : string * string :=
  let parts := str_split "/" relative_path in
  (List.last parts relative_path,
   if (1 <? length parts)%nat then hd "" parts else "root").

(** [repo.rs]: [PathBuf::push] of every part; the native join. *)
Definition rel_to_native (relative_path : string) : string :=
  foldl path_join "" (str_split "/" relative_path).

Definition join_files (files_root relative_path : string) : string :=
  path_join files_root (rel_to_native relative_path).

(** [archive.rs]: still inside, by components, and without a [..] anywhere. *)
Definition is_within (candidate base : string) : bool :=
  path_starts_with candidate base
  && negb (existsb (λ c, bool_decide (c = ParentDir)) (components candidate)).

(** The tests of the source. *)
Example storage_tests :
  is_ok (normalize_relative_path "../etc/passwd" "p") = false ∧
  is_ok (normalize_relative_path "a/../../b" "p") = false ∧
  is_ok (normalize_relative_path "/abs/path" "p") = false ∧
  is_ok (normalize_relative_path "" "p") = false ∧
  normalize_relative_path "mods\./a.jar" "p" = Ok "mods/a.jar" ∧
  normalize_relative_path "configs/b.cfg" "p" = Ok "configs/b.cfg" ∧
  validate_slug "my-build" = Ok () ∧ is_ok (validate_slug "../../etc") = false ∧
  is_ok (validate_slug "a\b") = false ∧
  split_relative_path "mods/a.jar" = ("a.jar", "mods") ∧
  split_relative_path "file.jar" = ("file.jar", "root") ∧
  public_url "/bundle-registry" "my-build" "mods/a.jar" = "/bundle-registry/builds/my-build/files/mods/a.jar".
Proof. vm_compute. repeat split. Qed.

(** ** Lemmas on splitting and joining *)

Definition lacks (c : ascii) (s : string) : Prop := str_contains c s = false.

Lemma lacks_cons c d s : lacks c (String d s) ↔ c ≠ d ∧ lacks c s.
Proof.
  unfold lacks, str_contains. simpl. rewrite negb_false_iff, andb_true_iff, negb_true_iff, Ascii.eqb_neq.
  by rewrite negb_false_iff.
Qed.

Lemma str_split_cons c s : ∃ p ps, str_split c s = p :: ps.
Proof.
  induction s as [|d s (p & ps & E)]; simpl; [eauto|]. rewrite E. destruct (Ascii.eqb c d); eauto.
Qed.

Lemma str_split_lacks c s : Forall (lacks c) (str_split c s).
Proof.
  induction s as [|d s IH]; simpl; [by repeat constructor|].
  destruct (Ascii.eqb_spec c d) as [<-|Hne]; [by constructor|].
  destruct (str_split_cons c s) as (p & ps & E). rewrite E in *. apply Forall_cons in IH as [Hp IH].
  constructor; [by apply lacks_cons|done].
Qed.

Lemma str_split_lacking c s : lacks c s → str_split c s = [s].
Proof.
  induction s as [|d s IH]; intros L; simpl; [done|]. apply lacks_cons in L as [Hne L].
  rewrite (proj2 (Ascii.eqb_neq c d)) by done. by rewrite IH.
Qed.

Lemma str_split_app c a s : lacks c a → str_split c (a +:+ String c s) = a :: str_split c s.
Proof.
  induction a as [|d a IH]; intros L; simpl.
  - by rewrite Ascii.eqb_refl.
  - apply lacks_cons in L as [Hne L]. rewrite (proj2 (Ascii.eqb_neq c d)) by done. simpl in IH. by rewrite IH.
Qed.

Definition slash : ascii := "/".

Lemma concat_cons a b l : String.concat "/" (a :: b :: l) = a +:+ String slash (String.concat "/" (b :: l)).
Proof. reflexivity. Qed.

Lemma split_concat l : l ≠ [] → Forall (lacks slash) l → str_split slash (String.concat "/" l) = l.
Proof.
  intros Hne Hl. induction l as [|a [|b l] IH]; [done| |]; apply Forall_cons in Hl as [Ha Hl].
  - by apply str_split_lacking.
  - rewrite concat_cons, str_split_app by done. by rewrite IH.
Qed.

Lemma concat_split s : String.concat "/" (str_split slash s) = s.
Proof.
  induction s as [|d s IH]; [done|]. cbn [str_split]. destruct (str_split_cons slash s) as (p & ps & E).
  destruct (Ascii.eqb_spec slash d) as [<-|Hne]; rewrite E in *.
  - rewrite concat_cons, IH. done.
  - rewrite <- IH. by destruct ps.
Qed.

Lemma starts_slash s : starts_with "/" s = true ↔ ∃ s', s = String slash s'.
Proof.
  unfold starts_with. change "/" with (String slash ""). destruct s as [|d s]; cbn [strip_prefix].
  { split; [done|by intros (? & ?)]. }
  destruct (Ascii.eqb_spec slash d) as [<-|Hne]; split; try done; [eauto|].
  by intros (s' & [= E _]).
Qed.

(** ** Relative paths *)

(** The parts that are neither empty nor [.]. *)
Definition segments (s : string) : list string :=
  List.filter (λ p, negb ((p =? "")%string || (p =? ".")%string)) (str_split slash s).

(** A part that names a child of a directory. *)
Definition inert (p : string) : Prop :=
  p ≠ "" ∧ p ≠ "." ∧ p ≠ ".." ∧ lacks slash p.

#[export] Instance inert_dec p : Decision (inert p).
Proof. unfold inert, lacks. apply _. Defined.

Lemma inert_component p : inert p → component p = Some (Normal p).
Proof.
  intros (H1 & H2 & H3 & _). unfold component.
  by rewrite (proj2 (String.eqb_neq _ _) H1), (proj2 (String.eqb_neq _ _) H2), (proj2 (String.eqb_neq _ _) H3).
Qed.

Lemma component_spec p c :
  component p = Some c ↔ p ≠ "" ∧ p ≠ "." ∧ c = (if (p =? "..")%string then ParentDir else Normal p).
Proof.
  unfold component. destruct (String.eqb_spec p ""), (String.eqb_spec p "."); simpl; try naive_solver.
  destruct (p =? "..")%string; naive_solver.
Qed.

Lemma take_parts_app field l parts r :
  take_parts field parts (omap component l) = Ok r ↔
  Forall (λ p, p ≠ "..") l ∧
  r = parts ++ List.filter (λ p, negb ((p =? "")%string || (p =? ".")%string)) l.
Proof.
  revert parts. induction l as [|p l IH]; intros parts; cbn [omap list_omap].
  { cbn. rewrite app_nil_r. split; [by intros [= <-]|by intros [_ ->]]. }
  rewrite Forall_cons. cbn [List.filter]. unfold component at 1.
  destruct (String.eqb_spec p "") as [->|H1]; cbn [orb negb]; [rewrite IH; naive_solver|].
  destruct (String.eqb_spec p ".") as [->|H2]; cbn [orb negb]; [rewrite IH; naive_solver|].
  destruct (String.eqb_spec p "..") as [->|H3]; cbn [take_parts]; [naive_solver|].
  rewrite (proj2 (String.eqb_neq _ _) H1), IH, <- app_assoc. cbn. naive_solver.
Qed.

Lemma take_components field s r :
  starts_with "/" s = false →
  take_parts field [] (components s) = Ok r ↔
  Forall (λ p, p ≠ "..") (str_split slash s) ∧ r = segments s.
Proof.
  intros Hs. unfold components. rewrite Hs. change "/"%char with slash.
  destruct (str_split slash s) as [|p ps] eqn:E; [by destruct (str_split_cons slash s) as (? & ? & ?); congruence|].
  rewrite <- E. destruct (p =? ".")%string; cbn [app take_parts]; apply (take_parts_app field _ []).
Qed.

(** Which paths are accepted, and as what. *)
Lemma normalize_ok raw field p :
  normalize_relative_path raw field = Ok p ↔
  starts_with "/" (unify raw) = false ∧ Forall (λ q, q ≠ "..") (str_split slash (unify raw)) ∧
  segments (unify raw) ≠ [] ∧ p = String.concat "/" (segments (unify raw)).
Proof.
  unfold normalize_relative_path. destruct (starts_with "/" (unify raw)) eqn:S; [naive_solver|].
  rewrite and_then_ok. setoid_rewrite (take_components field _ _ S). split.
  - intros (parts & [H ->] & E). case_bool_decide; [done|]. by injection E as <-.
  - intros (_ & H & Hne & ->). eexists. split; [done|]. by rewrite bool_decide_false.
Qed.

(** The parts of an accepted path are children of directories, without backslashes. *)
Lemma segments_inert s :
  Forall (λ q, q ≠ "..") (str_split slash s) → Forall inert (segments s).
Proof.
  intros H. apply Forall_forall. intros p Hp. apply elem_of_filterb in Hp as [Hp Hn].
  rewrite negb_true_iff, orb_false_iff, !String.eqb_neq in Hn. rewrite Forall_forall in H.
  pose proof (str_split_lacks slash s) as L. rewrite Forall_forall in L. split_and!; [apply Hn..|by apply H|by apply L].
Qed.

(** A path as [normalize_relative_path] answers it. *)
Definition normal_path (p : string) : Prop :=
  ∃ l, l ≠ [] ∧ Forall inert l ∧ p = String.concat "/" l.

Lemma normalized raw field p : normalize_relative_path raw field = Ok p → normal_path p.
Proof. intros (_ & H & Hne & ->)%normalize_ok. exists (segments (unify raw)). auto using segments_inert. Qed.

Lemma normal_split l : l ≠ [] → Forall inert l → str_split slash (String.concat "/" l) = l.
Proof. intros Hne H. apply split_concat; [done|]. eapply Forall_impl; [exact H|]. by intros p (_ & _ & _ & ?). Qed.

Lemma path_join_step a p : a ≠ "" → starts_with "/" (str_rev a) = false → inert p →
  path_join a p = a +:+ "/" +:+ p.
Proof.
  intros Ha Hr (H1 & _ & _ & L). unfold path_join.
  destruct (starts_with "/" p) eqn:S; [apply starts_slash in S as (s & ->); by apply lacks_cons in L as [[] _]|].
  by rewrite (proj2 (String.eqb_neq _ _) Ha), Hr.
Qed.

Lemma inert_end p : inert p → starts_with "/" (str_rev p) = false.
Proof.
  intros (_ & _ & _ & L). destruct (starts_with "/" (str_rev p)) eqn:S; [|done].
  apply starts_slash in S as (s & E). apply (f_equal str_rev) in E. rewrite str_rev_involutive in E.
  cbn [str_rev] in E. subst p. unfold lacks, str_contains in L. rewrite negb_false_iff, str_forall_app in L.
  simpl in L. by rewrite andb_comm in L.
Qed.

(** A path that something can be joined to with a slash. *)
Definition joinable (root : string) : Prop := root ≠ "" ∧ starts_with "/" (str_rev root) = false.

Lemma concat_snoc l p : l ≠ [] → String.concat "/" (l ++ [p]) = String.concat "/" l +:+ "/" +:+ p.
Proof.
  induction l as [|a [|b l] IH]; intros Hne; [done|done|]. cbn [app] in *.
  rewrite !concat_cons, IH by done. rewrite <- str_app_assoc. done.
Qed.

Lemma rev_join a p : str_rev (a +:+ "/" +:+ p) = str_rev p +:+ "/" +:+ str_rev a.
Proof. by rewrite !str_rev_app, <- str_app_assoc. Qed.

Lemma starts_with_app_slash s t : s ≠ "" → starts_with "/" (s +:+ t) = starts_with "/" s.
Proof.
  intros Hs. destruct s as [|d s]; [done|]. rewrite str_app_cons. unfold starts_with.
  change "/" with (String slash ""). cbn [strip_prefix]. by destruct (Ascii.eqb slash d).
Qed.

Lemma rev_not_empty p : p ≠ "" → str_rev p ≠ "".
Proof. intros H E. apply H. by rewrite <- (str_rev_involutive p), E. Qed.

Lemma joinable_join a p : a ≠ "" → inert p → joinable (a +:+ "/" +:+ p).
Proof.
  intros Ha Hp. split; [intros E; by destruct a|]. rewrite rev_join, starts_with_app_slash.
  - by apply inert_end.
  - apply rev_not_empty, Hp.
Qed.

Lemma inert_joinable p : inert p → joinable p.
Proof. intros H. split; [apply H|by apply inert_end]. Qed.

Lemma inert_no_slash p : inert p → starts_with "/" p = false.
Proof.
  intros (_ & _ & _ & L). destruct (starts_with "/" p) eqn:S; [|done].
  apply starts_slash in S as (s & ->). by apply lacks_cons in L as [[] _].
Qed.

Lemma fold_join l :
  l ≠ [] → Forall inert l →
  foldl path_join "" l = String.concat "/" l ∧ joinable (String.concat "/" l).
Proof.
  induction l as [|p l IH] using rev_ind; intros Hne H; [done|].
  apply Forall_app in H as [Hl Hp]. apply Forall_cons in Hp as [Hp _]. rewrite foldl_app. cbn [foldl].
  destruct (decide (l = [])) as [->|Hl0].
  - cbn [foldl app String.concat]. split; [|by apply inert_joinable]. unfold path_join. by rewrite inert_no_slash.
  - destruct (IH Hl0 Hl) as [-> [J1 J2]]. rewrite concat_snoc, path_join_step by done.
    split; [done|by apply joinable_join].
Qed.

Lemma native_normal p : normal_path p → rel_to_native p = p.
Proof.
  intros (l & Hne & H & ->). unfold rel_to_native. change "/"%char with slash.
  rewrite normal_split by done. by apply fold_join.
Qed.

Lemma normal_starts p : normal_path p → starts_with "/" p = false.
Proof.
  intros (l & Hne & H & ->). destruct l as [|a [|b l]]; [done| |]; apply Forall_cons in H as [Ha _].
  - by apply inert_no_slash.
  - rewrite concat_cons, starts_with_app_slash by apply Ha. by apply inert_no_slash.
Qed.

Lemma normal_joinable p : normal_path p → joinable p.
Proof. intros (l & Hne & H & ->). by apply fold_join. Qed.

(** Below the files root, and nowhere else. *)
Lemma join_files_normal root p :
  joinable root → normal_path p → join_files root p = root +:+ "/" +:+ p.
Proof.
  intros [J1 J2] Hp. unfold join_files. rewrite native_normal by done. unfold path_join.
  by rewrite normal_starts, (proj2 (String.eqb_neq _ _) J1), J2.
Qed.

Lemma path_join_inert root p : joinable root → inert p → path_join root p = root +:+ "/" +:+ p.
Proof. intros [J1 J2] Hp. by apply path_join_step. Qed.

(** ** Slugs *)

Lemma validate_slug_ok slug :
  validate_slug slug = Ok () ↔ inert slug ∧ lacks "\" slug ∧ lacks "000" slug.
Proof.
  unfold validate_slug, inert, lacks. change "/"%char with slash.
  destruct (String.eqb_spec slug "") as [|H1]; [by split; [|intros [(? & _) _]]|].
  destruct (String.eqb_spec slug ".") as [|H2]; [by split; [|intros [(_ & ? & _) _]]|].
  destruct (String.eqb_spec slug "..") as [|H3]; [by split; [|intros [(_ & _ & ? & _) _]]|].
  cbn [orb]. destruct (str_contains slash slug), (str_contains "\" slug), (str_contains "000" slug);
    cbn [orb]; split; try done; naive_solver.
Qed.

Lemma files_path_joinable root slug :
  joinable root → inert slug → joinable (files_path root slug) ∧
  files_path root slug = root +:+ "/builds/" +:+ slug +:+ "/files".
Proof.
  intros J S. assert (I1 : inert "builds") by done. assert (I2 : inert "files") by done.
  unfold files_path, build_path, builds_root. rewrite (path_join_inert root "builds") by done.
  assert (J1 : joinable (root +:+ "/" +:+ "builds")) by (apply joinable_join; [apply J|done]).
  rewrite (path_join_inert _ slug) by done.
  assert (J2 : joinable ((root +:+ "/" +:+ "builds") +:+ "/" +:+ slug)).
  { apply joinable_join; [apply J1|done]. }
  rewrite (path_join_inert _ "files") by done. split; [apply joinable_join; [apply J2|done]|].
  by rewrite <- !str_app_assoc.
Qed.

(** ** Properties *)

Lemma unify_lacks raw : lacks "\" (unify raw).
Proof.
  unfold lacks, str_contains, unify. rewrite negb_false_iff, str_forall_map.
  induction raw as [|c raw IH]; [done|]. cbn [str_forall]. rewrite IH, andb_true_r, negb_true_iff.
  apply Ascii.eqb_neq. by destruct (Ascii.eqb_spec c "\") as [|Hne]; [|apply not_eq_sym].
Qed.

Lemma lacks_app c a b : lacks c (a +:+ b) ↔ lacks c a ∧ lacks c b.
Proof. unfold lacks, str_contains. rewrite !negb_false_iff, str_forall_app, andb_true_iff. done. Qed.

Lemma split_parts_lack c s d : lacks d s → Forall (lacks d) (str_split c s).
Proof.
  induction s as [|e s IH]; intros L; simpl; [by repeat constructor|]. apply lacks_cons in L as [Hne L].
  specialize (IH L). destruct (Ascii.eqb c e); [by constructor|].
  destruct (str_split_cons c s) as (p & ps & E). rewrite E in *. apply Forall_cons in IH as [Hp IH].
  constructor; [by apply lacks_cons|done].
Qed.

Lemma concat_lacks d l : d ≠ slash → Forall (lacks d) l → lacks d (String.concat "/" l).
Proof.
  intros Hd. induction l as [|a [|b l] IH]; intros H; [done| |]; apply Forall_cons in H as [Ha H]; [done|].
  rewrite concat_cons. apply lacks_app. split; [done|]. apply lacks_cons. split; [done|by apply IH].
Qed.

Lemma unify_id s : lacks "\" s → unify s = s.
Proof.
  unfold unify. induction s as [|c s IH]; intros L; [done|]. apply lacks_cons in L as [Hne L]. simpl.
  rewrite IH by done. by rewrite (proj2 (Ascii.eqb_neq c "\")) by done.
Qed.

Lemma segments_concat l : l ≠ [] → Forall inert l → segments (String.concat "/" l) = l.
Proof.
  intros Hne H. unfold segments. rewrite normal_split by done.
  induction H as [|p l Hp Hl IH]; [done|]. cbn [List.filter]. destruct Hp as (H1 & H2 & _).
  rewrite (proj2 (String.eqb_neq _ _) H1), (proj2 (String.eqb_neq _ _) H2). cbn. f_equal.
  destruct l; [done|]. by apply IH.
Qed.

(** Paths cannot leave a build. For a storage root without a trailing slash and a slug that
    is accepted, a relative path that is accepted consists of names only (no empty part, no
    [.], no [..], no slash or backslash in any); joined to the build's directory of files
    it is that directory, a slash and the path; and normalising it again changes nothing. *)
Theorem accepted_paths_stay_inside root slug raw field field' p :
  joinable root → validate_slug slug = Ok () → normalize_relative_path raw field = Ok p →
  (∃ l, l ≠ [] ∧ Forall (λ q, inert q ∧ lacks "\" q) l ∧ p = String.concat "/" l) ∧
  join_files (files_path root slug) p = root +:+ "/builds/" +:+ slug +:+ "/files/" +:+ p ∧
  normalize_relative_path p field' = Ok p.
Proof.
  intros J S Hp. pose proof (normalized _ _ _ Hp) as N. apply validate_slug_ok in S as [S _].
  apply normalize_ok in Hp as (H1 & H2 & H3 & E).
  pose proof (segments_inert _ H2) as I.
  assert (B : Forall (lacks "\") (segments (unify raw))).
  { apply Forall_forall. intros q Hq. apply elem_of_filterb in Hq as [Hq _].
    pose proof (split_parts_lack slash _ _ (unify_lacks raw)) as L. rewrite Forall_forall in L. by apply L. }
  split; [|split].
  - exists (segments (unify raw)). split; [done|]. split; [|done]. by apply Forall_and.
  - destruct (files_path_joinable root slug J S) as [J' E']. rewrite join_files_normal, E' by done.
    by rewrite <- !str_app_assoc.
  - assert (U : unify p = p) by (apply unify_id; subst p; by apply concat_lacks).
    apply normalize_ok. rewrite U. split; [by apply normal_starts|]. rewrite E.
    rewrite normal_split, segments_concat by done. split; [|done].
    eapply Forall_impl; [exact I|]. by intros q (_ & _ & ? & _).
Qed.

Lemma accepted_paths_stay_inside_witness :
  validate_slug "pack" = Ok () ∧ normalize_relative_path ".//mods\./a.jar" "p" = Ok "mods/a.jar" ∧
  join_files (files_path "data" "pack") "mods/a.jar" = "data/builds/pack/files/mods/a.jar".
Proof.
  split; [reflexivity|]. split; [reflexivity|].
  apply (accepted_paths_stay_inside "data" "pack" ".//mods\./a.jar" "p" "q" "mods/a.jar");
    [split; [discriminate|reflexivity]|reflexivity|reflexivity].
Defined.
