(* ===== verification/BundleTree.v ===== *)
(** * The bundle store's files

    What the system calls of [crates/bundles] do to the directory tree, and
    [crates/bundles/src/archive.rs]: the extraction of an archive and the scan of a build's
    directory. The ZIP reader is third-party code: a parameter that answers the archive's
    entries. A blocking task (an extraction with the scan behind it) is one step. *)

From stdpp Require Import pretty.
From S2P Require Import Prelude RustStr Errors Table Content Schema Prog Auth Files BundlePaths.

(** ** System calls

    [None]: the call fails and changes nothing. *)

Definition is_file (m : Tree) (p : string) : bool :=
  match m !! p with Some (File _ _) => true | _ => false end.
Definition is_dir (m : Tree) (p : string) : bool :=
  match m !! p with Some (Dir _) => true | _ => false end.
Definition exists_at (m : Tree) (p : string) : bool := bool_decide (is_Some (m !! p)).

(** ** [realpath], as the system resolves symbolic links

    The canonical path is absolute, and none of its parts is empty, [.], [..] or has a slash;
    it need not be below anything the path given was below. *)

Definition canonical (q : string) : Prop := ∃ l, Forall inert l ∧ q = "/" +:+ String.concat "/" l.

Class Realpath := {
  realpath : Tree → string → option string;
  realpath_canonical m p q : realpath m p = Some q → canonical q
}.

Lemma components_canonical l :
  Forall inert l → components ("/" +:+ String.concat "/" l) = RootDir :: map Normal l.
Proof.
  intros I. change (components ("/" +:+ String.concat "/" l))
    with (RootDir :: omap component (str_split slash (String.concat "/" l))). f_equal.
  destruct l as [|p l]; [done|]. rewrite split_concat; [|done|].
  - induction I as [|p' l' Hp _ IH]; [done|]. cbn [omap list_omap map]. rewrite inert_component by done. by rewrite IH.
  - eapply Forall_impl; [exact I|]. by intros p' (_ & _ & _ & L).
Qed.

(** Below a canonical path, by components, is below it on disk. *)
Lemma canonical_inside p base : canonical p → canonical base → path_starts_with p base = true →
  ∃ l l', Forall inert (l ++ l') ∧ base = "/" +:+ String.concat "/" l ∧ p = "/" +:+ String.concat "/" (l ++ l').
Proof.
  intros (lp & Ip & ->) (lb & Ib & ->) S. unfold path_starts_with in S. apply bool_decide_eq_true in S.
  rewrite !components_canonical in S by done. apply prefix_cons_inv_2 in S as [k E].
  assert (P : ∃ l', lp = lb ++ l').
  { clear Ip Ib. revert lp E. induction lb as [|b lb IH]; intros lp E; [by exists lp|].
    destruct lp as [|b' lp]; [done|]. injection E as -> E. destruct (IH lp E) as [l' ->]. by exists l'. }
  destruct P as [l' ->]. by exists lb, l'.
Qed.

(** A system with the symbolic links [links], given by the parts of the paths they lead to; its
    working directory is [/srv]. *)
Definition linked (links : gmap string (list string)) : Realpath.
Proof.
  refine {|
    realpath m p :=
      let l := default ("srv" :: str_split "/" p) (links !! p) in
      if bool_decide (Forall inert l) && exists_at m p then Some ("/" +:+ String.concat "/" l) else None |}.
  intros m p q E. cbv zeta in E. case_bool_decide as I; [|done]. destruct (exists_at m p); [|done].
  injection E as <-. by eexists.
Defined.

(** A path and the directories above it, the topmost first. *)
Definition lineage (p : string) : list string :=
  let segs := str_split "/" p in
  List.filter (λ a, negb (a =? "")%string)
    (map (λ n, String.concat "/" (firstn n segs)) (seq 1 (length segs))).

(** [Path::parent]. *)
Definition parent (p : string) : string := String.concat "/" (removelast (str_split "/" p)).

(** The working directory and the root are always there. *)
Definition has_parent (m : Tree) (p : string) : bool :=
  let d := parent p in (d =? "")%string || is_dir m d.

Definition mkdir_one (now : Time) (m : Tree) (p : string) : Tree :=
  if exists_at m p then m else <[p := Dir now]> m.

Definition create_dir_all (now : Time) (p : string) (m : Tree) : option Tree :=
  if existsb (is_file m) (lineage p) then None
  else Some (foldl (mkdir_one now) m (lineage p)).

(** What follows the directory and a slash. *)
Definition under (dir q : string) : option string := strip_prefix (dir +:+ "/") q.
Definition below (dir q : string) : bool := bool_decide (is_Some (under dir q)).

(** [File::create] and the writes to it. *)
Definition create_file (now : Time) (p content : string) (m : Tree) : option Tree :=
  if is_dir m p || negb (has_parent m p) then None else Some (<[p := File content now]> m).

Definition remove_file (p : string) (m : Tree) : option Tree :=
  if is_file m p then Some (delete p m) else None.

Definition remove_tree (p : string) (m : Tree) : Tree :=
  filter (λ kv, (kv.1 =? p)%string || below p kv.1 = false) m.

Definition remove_dir_all (p : string) (m : Tree) : option Tree :=
  if is_dir m p then Some (remove_tree p m) else None.

(** Where a node goes when the directory [a] becomes [b]. *)
Definition relocate (a b q : string) : string :=
  if (q =? a)%string then b
  else match under a q with Some rest => b +:+ "/" +:+ rest | None => q end.

Definition move_tree (a b : string) (m : Tree) : Tree :=
  list_to_map (map (λ kv, (relocate a b kv.1, kv.2)) (map_to_list (delete b m))).

(** A file replaces a file; a directory replaces an empty directory. *)
Definition rename (a b : string) (m : Tree) : option Tree :=
  match m !! a with
  | None => None
  | Some (File c t) =>
      if is_dir m b || negb (has_parent m b) then None else Some (<[b := File c t]> (delete a m))
  | Some (Dir _) =>
      if (a =? b)%string then Some m
      else if is_file m b || existsb (λ kv, below b kv.1) (map_to_list m) || below a b
              || negb (has_parent m b) then None
      else Some (move_tree a b m)
  end.

(** ** As actions *)

Definition on_tree {B} (f : Tick → Tree → Tree * B) : prog B :=
  act (λ t st, let '(m, b) := f t (st_tree st) in (set_tree m st, b)).

(** A call that may fail; its error becomes [Internal]. *)
Definition fs_call (what : string) (f : Time → Tree → option Tree) : prog (AppResult unit) :=
  on_tree (λ t m,
    if t_fault t then (m, Err (Internal what))
    else match f (t_app t) m with Some m' => (m', Ok ()) | None => (m, Err (Internal what)) end).

(** A call whose outcome is ignored. *)
Definition fs_quiet (f : Tree → option Tree) : prog unit :=
  on_tree (λ t m, if t_fault t then (m, ()) else (default m (f m), ())).

(** A look at the tree. *)
Definition fs_look {B} (f : bool → Tree → B) : prog B := on_tree (λ t m, (m, f (t_fault t) m)).

(** ** [archive.rs] *)

Definition MAX_UNCOMPRESSED : Z := 10 * 1024 * 1024 * 1024.
Definition MAX_ENTRIES : N := 100000.

Record ScanEntry : Type := mkScanEntry {
  se_relative_path : string;
  se_name : string;
  se_category : string;
  se_size : Z;
  se_sha256 : option string;
  se_is_dir : bool;
  se_file_modified_at : option Time
}.

(** [ze_data]: the bytes that come out, and the error that ends them early. *)
Record ZipEntry : Type := mkZipEntry {
  ze_name : string;
  ze_size : Z;
  ze_is_dir : bool;
  ze_data : string * option string
}.

(** [ZipArchive::new] and [by_index]. *)
Class ZipReader := zip_entries : string → result (list (result ZipEntry string)) string.

Definition U64_MAX : Z := 2 ^ 64 - 1.
Definition saturating_add (a b : Z) : Z := Z.min (a + b) U64_MAX.

Definition zip_slip {A} (raw_name : string) : AppResult A :=
  Err (BadRequest ("zip-slip detected for entry: " +:+ raw_name)).

(** Where an entry goes: [Ok None] when it is skipped. *)
Definition entry_target (dest raw_name : string) : AppResult (option (string * string)) :=
  if (raw_name =? "__MACOSX")%string || starts_with "__MACOSX/" raw_name then Ok None
  else
    let trimmed := strip_leading "/" raw_name in
    if (trimmed =? "")%string then Ok None
    else
      match normalize_relative_path trimmed "entry" with
      | Ok safe =>
          let dest_entry := path_join dest safe in
          if is_within dest_entry dest then Ok (Some (safe, dest_entry)) else zip_slip raw_name
      | Err (BadRequest msg) => if str_find "is required" msg then Ok None else zip_slip raw_name
      | Err _ => zip_slip raw_name
      end.

(** An entry is written: the directories it needs, then its bytes as far as they come. *)
Definition write_entry (now : Time) (e : ZipEntry) (safe dest_entry : string) (m : Tree)
  : Tree * AppResult unit :=
  if ze_is_dir e then
    match create_dir_all now dest_entry m with
    | Some m => (m, Ok ())
    | None => (m, Err (Internal ("mkdir " +:+ safe)))
    end
  else
    match create_dir_all now (parent dest_entry) m with
    | None => (m, Err (Internal ("mkdir parent " +:+ safe)))
    | Some m =>
        match create_file now dest_entry (ze_data e).1 m with
        | None => (m, Err (Internal ("create " +:+ safe)))
        | Some m =>
            (m, match (ze_data e).2 with
                | None => Ok ()
                | Some _ => Err (Internal ("write " +:+ safe))
                end)
        end
    end.

Definition too_much : AppError :=
  BadRequest "ZIP total uncompressed size exceeds limit of 10737418240 bytes.".

(** The loop: what has been extracted stays when an entry is refused. *)
Fixpoint extract_entries (now : Time) (dest : string) (total : Z)
  (entries : list (result ZipEntry string)) (m : Tree) : Tree * AppResult unit :=
  match entries with
  | [] => (m, Ok ())
  | Err e :: _ => (m, Err (BadRequest ("read ZIP entry: " +:+ e)))
  | Ok e :: entries =>
      match entry_target dest (ze_name e) with
      | Err err => (m, Err err)
      | Ok None => extract_entries now dest total entries m
      | Ok (Some (safe, dest_entry)) =>
          let total := saturating_add total (ze_size e) in
          if (MAX_UNCOMPRESSED <? total)%Z then (m, Err too_much)
          else
            match write_entry now e safe dest_entry m with
            | (m, Err err) => (m, Err err)
            | (m, Ok _) => extract_entries now dest total entries m
            end
      end
  end.

Definition extract_zip `{ZipReader} (now : Time) (archive_path dest : string) (m : Tree)
  : Tree * AppResult unit :=
  match m !! archive_path with
  | Some (File content _) =>
      match zip_entries content with
      | Err e => (m, Err (BadRequest ("invalid ZIP archive: " +:+ e)))
      | Ok entries =>
          if (MAX_ENTRIES <? N.of_nat (length entries))%N
          then (m, Err (BadRequest ("ZIP contains too many entries ("
                 +:+ pretty (N.of_nat (length entries)) +:+ "). Limit is 100000.")))
          else extract_entries now dest 0 entries m
      end
  | _ => (m, Err (Internal "open archive"))
  end.

(** ** The scan *)

Definition text_le : relation string := λ a b, String.leb a b = true.
#[export] Instance text_le_dec : RelDecision text_le.
Proof. intros a b. unfold text_le. apply _. Defined.

(** The names in a directory, sorted. *)
Definition child_name (dir : string) (kv : string * Node) : option string :=
  match under dir kv.1 with
  | Some n => if (n =? "")%string || str_contains "/" n then None else Some n
  | None => None
  end.

Definition children (m : Tree) (dir : string) : list string :=
  merge_sort text_le (omap (child_name dir) (map_to_list m)).

(** [relative_forward_slash]. *)
Definition relative_to (base path : string) : string := unify (default "" (under base path)).

Section Scan.
Context `{Primitives}.

(** [hash_file]: the digest of the bytes as they are streamed. *)
Definition hash_file (content : string) : string := hex_encode (sha256 content).

Definition scan_entry (rel : string) (n : Node) : ScanEntry :=
  let '(name, category) := split_relative_path rel in
  match n with
  | Dir t => mkScanEntry rel name category 0 None true (Some t)
  | File content t =>
      mkScanEntry rel name category (Z.of_nat (String.length content)) (Some (hash_file content))
        false (Some t)
  end.

(** [fuel] bounds the depth. *)
Fixpoint walk (fuel : nat) (m : Tree) (base dir : string) : list ScanEntry :=
  match fuel with
  | O => []
  | S fuel =>
      concat (map (λ name,
        let path := path_join dir name in
        match m !! path with
        | Some n =>
            scan_entry (relative_to base path) n
            :: match n with Dir _ => walk fuel m base path | File _ _ => [] end
        | None => []
        end) (children m dir))
  end.

Definition longest (m : Tree) : nat := list_max (map (λ kv, String.length kv.1) (map_to_list m)).

Definition scan_directory (files_root : string) (m : Tree) : list ScanEntry :=
  if exists_at m files_root then walk (longest m) m files_root files_root else [].
End Scan.

(** ** Places: paths below a directory *)

(** The path of the node [l] parts below [root]. *)
Definition place (root : string) (l : list string) : string := String.concat "/" (root :: l).

Lemma place_app root l p : place root (l ++ [p]) = place root l +:+ "/" +:+ p.
Proof. unfold place. by rewrite app_comm_cons, concat_snoc. Qed.

Lemma place_below root l : l ≠ [] → place root l = root +:+ "/" +:+ String.concat "/" l.
Proof. by destruct l. Qed.

Lemma concat_split_app a l : String.concat "/" (str_split slash a ++ l) = place a l.
Proof.
  unfold place. rewrite <- (concat_split a) at 2.
  destruct (str_split_cons slash a) as (p & ps & ->). revert p.
  induction ps as [|q ps IH]; intros p; [by destruct l|]. cbn [app]. rewrite !concat_cons.
  specialize (IH q). destruct l as [|b l]; [by rewrite app_nil_r|]. rewrite concat_cons in *. cbn [app] in *.
  rewrite IH. by rewrite <- !str_app_assoc.
Qed.

Lemma split_join a l : l ≠ [] → Forall (lacks slash) l →
  str_split slash (a +:+ "/" +:+ String.concat "/" l) = str_split slash a ++ l.
Proof.
  intros Hne Hl. rewrite <- place_below, <- concat_split_app by done.
  apply split_concat; [by destruct (str_split_cons slash a) as (p & ps & ->)|].
  apply Forall_app. split; [apply str_split_lacks|done].
Qed.

Lemma inert_lack l : Forall inert l → Forall (lacks slash) l.
Proof. intros H. eapply Forall_impl; [exact H|]. by intros p (_ & _ & _ & ?). Qed.

Lemma split_place root l : Forall inert l → str_split slash (place root l) = str_split slash root ++ l.
Proof.
  intros H. destruct l as [|p l]; [by rewrite app_nil_r|].
  rewrite place_below by done. apply split_join; [done|by apply inert_lack].
Qed.

Lemma place_inj root l l' : Forall inert l → Forall inert l' → place root l = place root l' → l = l'.
Proof.
  intros H H' E. apply (f_equal (str_split slash)) in E. rewrite !split_place in E by done.
  by apply app_inv_head in E.
Qed.

Lemma strip_prefix_spec p s r : strip_prefix p s = Some r ↔ s = p +:+ r.
Proof.
  revert s. induction p as [|a p IH]; intros s; cbn [strip_prefix].
  { split; [by intros [= <-]|by intros ->]. }
  destruct s as [|b s]; [done|]. rewrite str_app_cons.
  destruct (Ascii.eqb_spec a b) as [<-|Hne]; [rewrite IH|]; split; intros E; try congruence.
Qed.

Lemma under_spec dir q r : under dir q = Some r ↔ q = dir +:+ "/" +:+ r.
Proof. unfold under. by rewrite strip_prefix_spec, <- str_app_assoc. Qed.

Lemma below_spec dir q : below dir q = true ↔ ∃ r, q = dir +:+ "/" +:+ r.
Proof. unfold below. rewrite bool_decide_eq_true. unfold is_Some. by setoid_rewrite under_spec. Qed.

Lemma below_place root l : l ≠ [] → below root (place root l) = true.
Proof. intros H. apply below_spec. rewrite place_below by done. eauto. Qed.

(** A name that an accepted path can have. *)
Definition tidy (p : string) : Prop := inert p ∧ lacks "\" p.

Lemma tidy_inert l : Forall tidy l → Forall inert l.
Proof. intros H. eapply Forall_impl; [exact H|]. by intros p []. Qed.

(** A directory whose nodes have names, each in a directory that is there. *)
Definition rooted (root : string) (m : Tree) : Prop :=
  is_dir m root = true ∧
  ∀ q, is_Some (m !! q) → below root q = true →
    ∃ l p, Forall tidy (l ++ [p]) ∧ q = place root (l ++ [p]) ∧ is_dir m (place root l) = true.

(** Every directory on the way to a node is there. *)
Lemma rooted_above root m l l' :
  rooted root m → Forall inert (l ++ l') → is_Some (m !! place root (l ++ l')) → l' ≠ [] →
  is_dir m (place root l) = true.
Proof.
  intros [R1 R2] I Hs Hne.
  assert (H : ∀ l0 p, Forall inert (l0 ++ [p]) → is_Some (m !! place root (l0 ++ [p])) →
             is_dir m (place root l0) = true).
  { intros l0 p I0 Hs0. destruct (R2 _ Hs0) as (l1 & p1 & I1 & E1 & D1).
    { apply below_place. by destruct l0. }
    apply place_inj in E1; [|done|by apply tidy_inert]. by apply app_inj_tail in E1 as [-> ->]. }
  induction l' as [|p l' IH] using rev_ind; [done|]. rewrite app_assoc in *.
  specialize (H _ _ I Hs). destruct (decide (l' = [])) as [->|Hne']; [by rewrite app_nil_r in H|].
  apply Forall_app in I as [I _]. apply IH; [done| |done].
  unfold is_dir in H. by destruct (m !! place root (l ++ l')).
Qed.

(** ** The scan *)

Lemma text_le_total a b : text_le a b ∨ text_le b a.
Proof. unfold text_le. destruct (String.leb_total a b); auto. Qed.

Lemma contains_lacks p : str_contains "/" p = false ↔ lacks slash p.
Proof. done. Qed.

Lemma elem_of_children m dir p :
  p ∈ children m dir ↔ p ≠ "" ∧ lacks slash p ∧ is_Some (m !! (dir +:+ "/" +:+ p)).
Proof.
  unfold children. rewrite merge_sort_Permutation, list_elem_of_omap. split.
  - intros ([q n] & Hq%elem_of_map_to_list & E). unfold child_name in E. cbn [fst] in E.
    destruct (under dir q) as [r|] eqn:U; [|done]. apply under_spec in U as ->.
    destruct (String.eqb_spec r ""), (str_contains "/" r) eqn:C; cbn in E; simplify_eq. eauto.
  - intros (H1 & H2 & [n Hn]). exists (dir +:+ "/" +:+ p, n). split; [by apply elem_of_map_to_list|].
    unfold child_name. cbn [fst]. rewrite (proj2 (under_spec dir _ p)) by done.
    rewrite (proj2 (String.eqb_neq _ _) H1). unfold lacks in H2. change "/"%char with slash. by rewrite H2.
Qed.

Lemma NoDup_children m dir : NoDup (children m dir).
Proof.
  unfold children. rewrite merge_sort_Permutation. rewrite <- (list_fmap_id (omap _ _)).
  apply (NoDup_map_omap (child_name dir) id); [apply NoDup_map_to_list|].
  intros [q n] [q' n'] b c Hq Hq' E E' Ebc. unfold child_name in *. cbn [fst] in *. change (b = c) in Ebc. subst c.
  apply elem_of_map_to_list in Hq, Hq'.
  destruct (under dir q) as [r|] eqn:U; [|done]. destruct (under dir q') as [r'|] eqn:U'; [|done].
  apply under_spec in U as ->. apply under_spec in U' as ->.
  assert (r = b) as -> by (by destruct ((r =? "")%string || _); simplify_eq).
  assert (r' = b) as -> by (by destruct ((r' =? "")%string || _); simplify_eq).
  congruence.
Qed.

Lemma place_joinable root l : joinable root → Forall inert l → joinable (place root l).
Proof.
  intros J H. induction l as [|p l IH] using rev_ind; [done|]. rewrite place_app.
  apply Forall_app in H as [Hl Hp]. apply Forall_cons in Hp as [Hp _].
  apply joinable_join; [by apply IH|done].
Qed.

Lemma path_join_place root l p :
  joinable root → Forall inert (l ++ [p]) → path_join (place root l) p = place root (l ++ [p]).
Proof.
  intros J H. apply Forall_app in H as [Hl Hp]. apply Forall_cons in Hp as [Hp _].
  rewrite place_app. apply path_join_inert; [by apply place_joinable|done].
Qed.

Lemma relative_place root l :
  l ≠ [] → Forall tidy l → relative_to root (place root l) = String.concat "/" l.
Proof.
  intros Hne H. unfold relative_to. rewrite (proj2 (under_spec root _ (String.concat "/" l))).
  - apply unify_id, concat_lacks; [done|]. eapply Forall_impl; [exact H|]. by intros p [].
  - by apply place_below.
Qed.

Lemma scan_entry_path `{Primitives} rel n : se_relative_path (scan_entry rel n) = rel.
Proof. unfold scan_entry. destruct (split_relative_path rel). by destruct n. Qed.

Section ScanLemmas.
Context `{Primitives} (root : string) (m : Tree) (J : joinable root) (R : rooted root m).

(** What the names in a directory stand for. *)
Lemma child_place l p :
  is_dir m (place root l) = true → Forall inert l →
  p ∈ children m (place root l) ↔ Forall tidy [p] ∧ ∃ n, m !! place root (l ++ [p]) = Some n.
Proof.
  intros D I. rewrite elem_of_children, place_app. split.
  - intros (H1 & H2 & Hs). split; [|done]. destruct R as [R1 R2]. rewrite <- place_app in Hs.
    destruct (R2 _ Hs) as (l1 & p1 & I1 & E1 & D1); [by apply below_place; destruct l|].
    apply (f_equal (str_split slash)) in E1.
    rewrite (split_place root (l1 ++ [p1])) in E1 by (by apply tidy_inert).
    assert (E2 : str_split slash (place root (l ++ [p])) = str_split slash root ++ (l ++ [p])).
    { rewrite place_below by (by destruct l). apply split_join; [by destruct l|].
      apply Forall_app. split; [by apply inert_lack|by repeat constructor]. }
    rewrite E2 in E1. apply app_inv_head, app_inj_tail in E1 as [-> ->].
    apply Forall_app in I1 as [_ I1]. done.
  - intros [I1 Hs]. apply Forall_cons in I1 as [[I1 _] _]. split_and!; [apply I1..|done].
Qed.

(** Deep enough for what is below. *)
Definition within (fuel : nat) (l : list string) : Prop :=
  ∀ l', Forall inert l' → is_Some (m !! place root (l ++ l')) → length l' ≤ fuel.

Lemma within_child fuel l p :
  inert p → within (S fuel) l → within fuel (l ++ [p]).
Proof.
  intros Hp W l' I Hs. rewrite <- app_assoc in Hs. apply W in Hs; [cbn in Hs; lia|].
  by constructor.
Qed.

Lemma walk_spec fuel l e :
  is_dir m (place root l) = true → Forall tidy l → within fuel l →
  e ∈ walk fuel m root (place root l) ↔
  ∃ l' n, l' ≠ [] ∧ Forall tidy l' ∧ m !! place root (l ++ l') = Some n ∧ e = scan_entry (String.concat "/" (l ++ l')) n.
Proof.
  revert l. induction fuel as [|fuel IH]; intros l D I W; cbn [walk].
  { split; [intros X; by apply not_elem_of_nil in X|]. intros (l' & n & Hne & I' & Hn & _).
    pose proof (W l' (tidy_inert _ I') (ex_intro _ n Hn)). by destruct l'; simpl in *; [|lia]. }
  rewrite list_elem_of_In, in_concat. setoid_rewrite in_map_iff. setoid_rewrite <- list_elem_of_In.
  split.
  - intros (es & (p & <- & Hp) & He). apply (child_place l p D (tidy_inert _ I)) in Hp as [Ip [n Hn]].
    assert (Ilp : Forall tidy (l ++ [p])) by (by apply Forall_app).
    rewrite path_join_place, Hn, relative_place in He by first [done|by apply tidy_inert|by destruct l].
    apply elem_of_cons in He as [->|He].
    { exists [p], n. split_and!; [done..]. }
    destruct n as [c t|t]; [by apply not_elem_of_nil in He|].
    apply IH in He as (l' & n & Hne & I' & Hn' & ->); [|by unfold is_dir; rewrite Hn|done|].
    + rewrite <- app_assoc in *. exists (p :: l'), n. split_and!; [done| |done..].
      apply Forall_cons. split; [by apply Forall_cons in Ip as [Ip _]|done].
    + apply within_child; [|done]. apply Forall_cons in Ip as [[Ip _] _]. done.
  - intros (l' & n & Hne & I' & Hn & ->). destruct l' as [|p l']; [done|].
    apply Forall_cons in I' as [Ip I'].
    assert (Ilp : Forall tidy (l ++ [p])) by (apply Forall_app; split; [done|by apply Forall_cons]).
    assert (Hs : ∃ n', m !! place root (l ++ [p]) = Some n' ∧ (l' = [] → n' = n) ∧ (l' ≠ [] → is_dir m (place root (l ++ [p])) = true)).
    { destruct l' as [|p' l']; [by exists n|].
      assert (D' : is_dir m (place root (l ++ [p])) = true).
      { eapply (rooted_above root m (l ++ [p]) (p' :: l')); [done| | |done].
        - rewrite <- app_assoc. apply tidy_inert, Forall_app. split; [done|]. by apply Forall_cons.
        - rewrite <- app_assoc. by exists n. }
      unfold is_dir in D' |- *. destruct (m !! place root (l ++ [p])) as [n'|]; [|done]. by exists n'. }
    destruct Hs as (n' & Hn' & E1 & E2). eexists. split; [exists p; split; [reflexivity|]|].
    { apply child_place; [done|by apply tidy_inert|]. split; [by apply Forall_cons|eauto]. }
    rewrite path_join_place, Hn', relative_place by first [done|by apply tidy_inert|by destruct l].
    destruct l' as [|p' l']; [rewrite E1 by done; left|]. right.
    specialize (E2 ltac:(done)). pose proof E2 as D'. unfold is_dir in E2. rewrite Hn' in E2.
    destruct n' as [|t]; [done|]. apply IH; [done|done| |].
    + apply within_child; [apply Ip|done].
    + exists (p' :: l'), n. rewrite <- !app_assoc. done.
Qed.

Lemma concat_inj l l' : l ≠ [] → l' ≠ [] → Forall tidy l → Forall tidy l' →
  String.concat "/" l = String.concat "/" l' → l = l'.
Proof.
  intros H1 H2 I I' E. apply (f_equal (str_split slash)) in E.
  by rewrite !normal_split in E by first [done|by apply tidy_inert].
Qed.

Lemma walk_nodup fuel l :
  is_dir m (place root l) = true → Forall tidy l → within fuel l →
  NoDup (map se_relative_path (walk fuel m root (place root l))).
Proof.
  revert l. induction fuel as [|fuel IH]; intros l D I W; [constructor|]. cbn [walk].
  assert (S : ∀ p, p ∈ children m (place root l) → ∃ n, Forall tidy (l ++ [p]) ∧
    m !! path_join (place root l) p = Some n ∧ path_join (place root l) p = place root (l ++ [p]) ∧
    relative_to root (place root (l ++ [p])) = String.concat "/" (l ++ [p]) ∧ within fuel (l ++ [p])).
  { intros p Hp. apply (child_place l p D (tidy_inert _ I)) in Hp as [Ip [n Hn]]. exists n.
    assert (Ilp : Forall tidy (l ++ [p])) by (by apply Forall_app).
    rewrite path_join_place by first [done|by apply tidy_inert]. split_and!; try done.
    - apply relative_place; [by destruct l|done].
    - apply within_child; [|done]. by apply Forall_cons in Ip as [[Ip _] _]. }
  apply NoDup_map_concat; [apply NoDup_children| |].
  - intros p Hp. apply S in Hp as (n & Ip & Hn & E & Er & W'). rewrite E in *. rewrite Hn, Er.
    cbn [map]. destruct n as [c t|t]; [apply NoDup_singleton|]. apply NoDup_cons. split.
    + intros (e & Ee & He)%list_elem_of_fmap.
      apply walk_spec in He as (l' & n & Hne & I' & _ & ->); [|by unfold is_dir; rewrite Hn|done..].
      rewrite !scan_entry_path in Ee.
      apply concat_inj in Ee; [|by destruct l|by destruct l|done|by apply Forall_app].
      rewrite <- (app_nil_r (l ++ [p])) in Ee at 1. by apply app_inv_head in Ee; subst l'.
    + apply IH; [by unfold is_dir; rewrite Hn|done..].
  - intros p p' e e' Hp Hp' He He' E.
    assert (X : ∀ q e0, q ∈ children m (place root l) →
      e0 ∈ (match m !! path_join (place root l) q with
            | Some n => scan_entry (relative_to root (path_join (place root l) q)) n
                :: match n with Dir _ => walk fuel m root (path_join (place root l) q) | File _ _ => [] end
            | None => [] end) →
      ∃ l', Forall tidy (l ++ q :: l') ∧ se_relative_path e0 = String.concat "/" (l ++ q :: l')).
    { intros q e0 Hq He0. apply S in Hq as (n & Ip & Hn & E0 & Er & W'). rewrite E0 in *. rewrite Hn, Er in He0.
      apply elem_of_cons in He0 as [->|He0]; [exists []; by rewrite scan_entry_path|].
      destruct n as [c t|t]; [by apply not_elem_of_nil in He0|].
      apply walk_spec in He0 as (l' & n & Hne & I' & _ & ->); [|by unfold is_dir; rewrite Hn|done..].
      exists l'. rewrite scan_entry_path. rewrite <- app_assoc. split; [|done].
      change (l ++ q :: l') with (l ++ [q] ++ l'). rewrite app_assoc. by apply Forall_app. }
    apply X in He as (k & Ik & Ek); [|done]. apply X in He' as (k' & Ik' & Ek'); [|done].
    rewrite Ek, Ek' in E. apply concat_inj in E; [|by destruct l|by destruct l|done..].
    apply app_inv_head in E. congruence.
Qed.

Lemma longest_within : within (longest m) [].
Proof.
  intros l I [n Hn]. cbn [app] in Hn.
  assert (L1 : length l ≤ String.length (place root l)).
  { clear Hn R J. induction l as [|p l IH] using rev_ind; [simpl; lia|].
    apply Forall_app in I as [I _]. rewrite place_app, !str_app_length, length_app. simpl.
    specialize (IH I). lia. }
  unfold longest. pose proof (proj1 (list_max_le (map (λ kv, String.length kv.1) (map_to_list m)) _) (le_n _)) as L.
  rewrite Forall_forall in L. etrans; [exact L1|]. apply L.
  apply (list_elem_of_fmap_2 (λ kv, String.length kv.1) _ (place root l, n)). by apply elem_of_map_to_list.
Qed.
End ScanLemmas.

(** ** Directories are made on the way *)

Lemma elem_of_lineage p a :
  a ∈ lineage p ↔
  a ≠ "" ∧ ∃ n, 0 < n ≤ length (str_split slash p) ∧ a = String.concat "/" (firstn n (str_split slash p)).
Proof.
  unfold lineage. change "/"%char with slash. rewrite elem_of_filterb, negb_true_iff, String.eqb_neq.
  rewrite list_elem_of_In, in_map_iff. setoid_rewrite in_seq. split.
  - intros [(n & <- & Hn) Ha]. split; [done|]. exists n. split; [lia|done].
  - intros [Ha (n & Hn & ->)]. split; [|done]. exists n. split; [done|lia].
Qed.

Lemma lineage_place root l a :
  Forall inert l → a ∈ lineage (place root l) →
  a ∈ lineage root ∨ ∃ l1 p l2, l = l1 ++ p :: l2 ∧ a = place root (l1 ++ [p]).
Proof.
  intros I. rewrite !elem_of_lineage, split_place by done. intros [Ha (n & Hn & ->)].
  rewrite length_app in Hn. destruct (decide (n ≤ length (str_split slash root))) as [L|L].
  - left. split; [done|]. exists n. rewrite take_app_le by done. split; [lia|done].
  - right. set (k := n - length (str_split slash root)).
    rewrite firstn_app, (firstn_all2 (str_split slash root)), concat_split_app by lia.
    fold k. assert (Hk : 0 < k ≤ length l) by lia.
    destruct (lookup_lt_is_Some_2 l (k - 1)) as [p Hp]; [lia|].
    exists (firstn (k - 1) l), p, (skipn k l). pose proof (take_S_r l (k - 1) p Hp) as E.
    replace (S (k - 1)) with k in E by lia. rewrite <- E. split; [|done].
    rewrite <- (firstn_skipn k l) at 1. rewrite E, <- app_assoc. done.
Qed.

Lemma place_in_lineage root l1 l2 :
  joinable root → Forall inert (l1 ++ l2) → place root l1 ∈ lineage (place root (l1 ++ l2)).
Proof.
  intros J I. apply elem_of_lineage. split.
  { apply place_joinable; [done|]. by apply Forall_app in I as []. }
  exists (length (str_split slash root ++ l1)). rewrite split_place, app_assoc, firstn_app, firstn_all by done.
  rewrite Nat.sub_diag, app_nil_r, concat_split_app. split; [|done].
  rewrite !length_app. destruct (str_split_cons slash root) as (p & ps & ->). simpl. lia.
Qed.

Lemma lineage_not_below root a : a ∈ lineage root → below root a = false.
Proof.
  intros [_ (n & Hn & ->)]%elem_of_lineage. apply not_true_iff_false. intros (r & E)%below_spec.
  assert (L : String.length (String.concat "/" (firstn n (str_split slash root))) ≤ String.length root).
  { rewrite <- (concat_split root) at 2. rewrite <- (firstn_skipn n (str_split slash root)) at 2.
    clear. generalize (firstn n (str_split slash root)) (skipn n (str_split slash root)). intros l l'.
    induction l as [|a [|b l] IH]; [simpl; lia| |].
    - destruct l'; [done|]. cbn [app]. rewrite concat_cons, str_app_length. simpl. lia.
    - cbn [app] in *. rewrite !concat_cons, !str_app_length. cbn [String.length]. lia. }
  rewrite E, !str_app_length in L. simpl in L. lia.
Qed.

Lemma mkdirs_spec now as_ m :
  let m' := foldl (mkdir_one now) m as_ in
  m ⊆ m' ∧ (∀ q, q ∉ as_ → m' !! q = m !! q) ∧ (∀ a, a ∈ as_ → is_Some (m' !! a)) ∧
  (∀ q, m !! q = None → m' !! q = None ∨ m' !! q = Some (Dir now)).
Proof.
  cbv zeta. revert m. induction as_ as [|a l IH]; intros m; cbn [foldl].
  { split_and!; [done|done|intros a Ha; by apply not_elem_of_nil in Ha|auto]. }
  destruct (IH (mkdir_one now m a)) as (H1 & H2 & H3 & H4).
  set (m' := foldl _ _ l) in *. clearbody m'. unfold mkdir_one, exists_at in *. case_bool_decide as Ea.
  - split_and!; [done| | |done].
    + intros q [_ Hq]%not_elem_of_cons. by apply H2.
    + intros b [->|Hb]%elem_of_cons; [|by apply H3]. destruct Ea as [n Hn]. exists n. by eapply lookup_weaken.
  - apply eq_None_not_Some in Ea. split_and!.
    + etrans; [|exact H1]; by apply insert_subseteq.
    + intros q [Hne Hq]%not_elem_of_cons. rewrite H2, lookup_insert_ne by done. done.
    + intros b [->|Hb]%elem_of_cons; [|by apply H3]. exists (Dir now). eapply lookup_weaken; [|exact H1].
      apply lookup_insert_eq.
    + intros q Hq. destruct (decide (a = q)) as [->|Hne].
      * right. eapply lookup_weaken; [|exact H1]. apply lookup_insert_eq.
      * apply H4. by rewrite lookup_insert_ne.
Qed.

Lemma is_dir_some m p : is_dir m p = true ↔ ∃ t, m !! p = Some (Dir t).
Proof. unfold is_dir. destruct (m !! p) as [[c t|t]|]; split; try done; eauto; by intros [? [=]]. Qed.

Lemma is_dir_mono m m' p : m ⊆ m' → is_dir m p = true → is_dir m' p = true.
Proof. intros S. rewrite !is_dir_some. intros [t Ht]. exists t. by eapply lookup_weaken. Qed.

Lemma create_dir_all_spec now p m m' :
  create_dir_all now p m = Some m' →
  m ⊆ m' ∧ (∀ q, q ∉ lineage p → m' !! q = m !! q) ∧ (∀ a, a ∈ lineage p → is_dir m' a = true) ∧
  (∀ q, m !! q = None → m' !! q = None ∨ m' !! q = Some (Dir now)).
Proof.
  unfold create_dir_all. destruct (existsb _ _) eqn:F; [done|]. intros [= <-].
  destruct (mkdirs_spec now (lineage p) m) as (H1 & H2 & H3 & H4). split_and!; try done.
  intros a Ha. destruct (H3 a Ha) as [n Hn]. rewrite existsb_none in F. specialize (F a Ha).
  unfold is_file, is_dir in *. destruct (m !! a) as [n'|] eqn:Hm.
  - rewrite (lookup_weaken _ _ _ _ Hm H1). by destruct n'.
  - destruct (H4 a Hm) as [E|E]; [congruence|]. by rewrite E.
Qed.

Lemma parent_place root l p : Forall inert (l ++ [p]) → parent (place root (l ++ [p])) = place root l.
Proof.
  intros I. unfold parent. change "/"%char with slash.
  rewrite split_place, app_assoc, removelast_last by done. apply concat_split_app.
Qed.

(** ** Extraction *)

(** The destination is there with all that is above it. *)
Definition settled (root : string) (m : Tree) : Prop :=
  rooted root m ∧ ∀ a, a ∈ lineage root → is_dir m a = true.

(** Nothing outside changes, nothing vanishes. *)
Definition grown (root : string) (m m' : Tree) : Prop :=
  (∀ q, below root q = false → m' !! q = m !! q) ∧ ∀ q, is_Some (m !! q) → is_Some (m' !! q).

#[export] Instance grown_preorder root : PreOrder (grown root).
Proof.
  split; [by split|]. intros m1 m2 m3 [A1 B1] [A2 B2]. split; [|auto].
  intros q Hq. by rewrite A2, A1.
Qed.

Section ExtractLemmas.
Context (root : string) (J : joinable root).

Lemma mkdirs_settled now l m m' :
  Forall tidy l → settled root m → create_dir_all now (place root l) m = Some m' →
  settled root m' ∧ grown root m m' ∧ is_dir m' (place root l) = true.
Proof.
  intros I [[R1 R2] S] E. pose proof (tidy_inert _ I) as I'.
  apply create_dir_all_spec in E as (H1 & H2 & H3 & H4).
  split_and!; [split; [split|]| |].
  - by eapply is_dir_mono.
  - intros q Hs Hb. destruct (m !! q) as [n|] eqn:Hq.
    + destruct (R2 q) as (l1 & p1 & I1 & -> & D1); [eauto|done|]. exists l1, p1. split_and!; [done..|].
      by eapply is_dir_mono.
    + destruct (decide (q ∈ lineage (place root l))) as [Hin|Hni].
      * apply lineage_place in Hin as [Hin|(l1 & p & l2 & -> & ->)]; [|exists l1, p|done].
        { apply lineage_not_below in Hin. congruence. }
        change (p :: l2) with ([p] ++ l2) in *. rewrite app_assoc in I.
        split_and!; [by apply Forall_app in I as []|done|]. apply H3. by apply place_in_lineage.
      * exfalso. rewrite H2, Hq in Hs by done. by destruct Hs.
  - intros a Ha. by eapply is_dir_mono, S.
  - split; [|intros q [n Hn]; exists n; by eapply lookup_weaken].
    intros q Hb. destruct (decide (q ∈ lineage (place root l))) as [Hin|Hni]; [|by apply H2].
    apply lineage_place in Hin as [Hin|(l1 & p & l2 & -> & ->)]; [| |done].
    + pose proof (S q Hin) as D. apply is_dir_some in D as [t Ht]. rewrite Ht. by eapply lookup_weaken.
    + by rewrite below_place in Hb by (by destruct l1).
  - apply H3. rewrite <- (app_nil_r l) at 2. apply place_in_lineage; [done|]. by rewrite app_nil_r.
Qed.

Lemma create_file_settled now l p c m m' :
  Forall tidy (l ++ [p]) → settled root m → create_file now (place root (l ++ [p])) c m = Some m' →
  settled root m' ∧ grown root m m' ∧ m' = <[place root (l ++ [p]) := File c now]> m.
Proof.
  intros I [[R1 R2] S] E. pose proof (tidy_inert _ I) as I'. unfold create_file, has_parent in E.
  rewrite parent_place in E by done. set (f := place root (l ++ [p])) in *.
  destruct (is_dir m f) eqn:D; cbn [orb] in E; [done|]. destruct (_ || _) eqn:P; [|done]. injection E as <-.
  assert (Bf : below root f = true) by (apply below_place; by destruct l).
  assert (K : ∀ a, is_dir m a = true → is_dir (<[f := File c now]> m) a = true).
  { intros a Da. unfold is_dir. rewrite lookup_insert_ne; [done|]. intros ->. congruence. }
  split_and!; [split; [split|]| |done].
  - by apply K.
  - intros q Hs Hb. destruct (decide (f = q)) as [<-|Hne].
    + exists l, p. split_and!; [done..|]. apply K. apply orb_true_iff in P as [P|P]; [|done].
      apply String.eqb_eq in P. apply Forall_app in I' as [Il _]. by destruct (place_joinable root l J Il).
    + rewrite lookup_insert_ne in Hs by done. destruct (R2 q Hs Hb) as (l1 & p1 & I1 & -> & D1).
      exists l1, p1. auto.
  - intros a Ha. by apply K, S.
  - split; intros q Hq; (destruct (decide (f = q)) as [<-|Hne]; [|by rewrite lookup_insert_ne]).
    + congruence.
    + rewrite lookup_insert_eq. eauto.
Qed.

(** Where an entry goes is below the destination. *)
Lemma entry_target_ok raw safe d :
  entry_target root raw = Ok (Some (safe, d)) →
  ∃ l p, Forall tidy (l ++ [p]) ∧ safe = String.concat "/" (l ++ [p]) ∧ d = place root (l ++ [p]).
Proof.
  unfold entry_target. destruct (_ || _); [done|]. destruct (_ =? "")%string; [done|].
  destruct (normalize_relative_path _ _) as [s|[]] eqn:N; [|destruct (str_find _ _)| |..]; try done.
  destruct (is_within _ _); [|done]. intros [= -> <-].
  pose proof (normalized _ _ _ N) as Ns. apply normalize_ok in N as (H1 & H2 & H3 & E).
  assert (T : Forall tidy (segments (unify (strip_leading "/" raw)))).
  { apply Forall_forall. intros q Hq. pose proof (segments_inert _ H2) as I. rewrite Forall_forall in I.
    split; [by apply I|]. apply elem_of_filterb in Hq as [Hq _].
    pose proof (split_parts_lack slash _ _ (unify_lacks (strip_leading "/" raw))) as L.
    rewrite Forall_forall in L. by apply L. }
  destruct (exists_last H3) as (l & p & E'). rewrite E' in *. exists l, p. split_and!; [done..|].
  rewrite place_below by (by destruct l). rewrite <- E. destruct J as [J1 J2].
  unfold path_join. rewrite normal_starts by done. by rewrite (proj2 (String.eqb_neq _ _) J1), J2.
Qed.

Definition same_files (m m' : Tree) : Prop :=
  ∀ q c t, m' !! q = Some (File c t) ↔ m !! q = Some (File c t).

Lemma mkdirs_files now p m m' : create_dir_all now p m = Some m' → same_files m m'.
Proof.
  intros (H1 & _ & _ & H4)%create_dir_all_spec q c t. split; intros Hq.
  - destruct (m !! q) as [n|] eqn:E; [|destruct (H4 q E); congruence].
    pose proof (lookup_weaken _ _ _ _ E H1). congruence.
  - by eapply lookup_weaken.
Qed.

Lemma write_entry_spec now e safe l p m m' r :
  Forall tidy (l ++ [p]) → settled root m →
  write_entry now e safe (place root (l ++ [p])) m = (m', r) →
  (settled root m' ∧ grown root m m') ∧
  (r = Ok () →
   if ze_is_dir e then same_files m m'
   else (ze_data e).2 = None ∧
        ∀ q c t, m' !! q = Some (File c t) ↔
          if decide (q = place root (l ++ [p])) then c = (ze_data e).1 ∧ t = now
          else m !! q = Some (File c t)).
Proof.
  intros I S. unfold write_entry. rewrite parent_place by (by apply tidy_inert).
  destruct (ze_is_dir e).
  { destruct (create_dir_all _ _ m) as [m1|] eqn:E; intros [= <- <-]; [|by split].
    split; [|intros _; by eapply mkdirs_files]. by apply mkdirs_settled in E as (? & ? & _). }
  destruct (create_dir_all _ _ m) as [m1|] eqn:E; [|by intros [= <- <-]].
  pose proof E as F. apply mkdirs_files in F.
  apply mkdirs_settled in E as (S1 & G1 & _); [|by apply Forall_app in I as []|done].
  destruct (create_file _ _ _ m1) as [m2|] eqn:E2; [|by intros [= <- <-]].
  apply create_file_settled in E2 as (S2 & G2 & ->); [|done..]. intros [= <- <-].
  split; [split; [done|by etrans]|].
  destruct (ze_data e).2; [done|]. intros _. split; [done|]. intros q c t.
  case_decide as D; [subst q; rewrite lookup_insert_eq; split; [by intros [= -> ->]|by intros [-> ->]]|].
  rewrite lookup_insert_ne by (by apply not_eq_sym). apply F.
Qed.

(** What the entries of an archive leave: the last one for a path counts. *)
Definition accepted (e : result ZipEntry string) : option (ZipEntry * string) :=
  match e with
  | Ok e => match entry_target root (ze_name e) with Ok (Some (_, d)) => Some (e, d) | _ => None end
  | Err _ => None
  end.

Definition put (e : result ZipEntry string) (w : gmap string string) : gmap string string :=
  match accepted e with
  | Some (e, d) => if ze_is_dir e then w else w ∪ {[d := (ze_data e).1]}
  | None => w
  end.

Definition extracted (entries : list (result ZipEntry string)) : gmap string string :=
  foldr put ∅ entries.

Definition declared (entries : list (result ZipEntry string)) : Z :=
  foldr (λ e n, (match accepted e with Some (e, _) => ze_size e | None => 0 end + n)%Z) 0%Z entries.

Lemma extract_entries_spec now entries total m m' r :
  settled root m → (total <= MAX_UNCOMPRESSED)%Z →
  extract_entries now root total entries m = (m', r) →
  (settled root m' ∧ grown root m m') ∧
  (r = Ok () →
   (total + declared entries <= MAX_UNCOMPRESSED)%Z ∧
   ∀ q c t, m' !! q = Some (File c t) ↔
     match extracted entries !! q with
     | Some c' => c = c' ∧ t = now
     | None => m !! q = Some (File c t)
     end).
Proof.
  revert total m. induction entries as [|[e|e] entries IH]; intros total m S L; cbn [extract_entries].
  - intros [= <- <-]. split; [done|]. intros _. split; [cbn; lia|]. intros q c t.
    change (extracted []) with (∅ : gmap string string). by rewrite lookup_empty.
  - unfold extracted, declared, put. cbn [foldr]. unfold accepted at 1 3.
    destruct (entry_target root (ze_name e)) as [[[safe d]|]|err] eqn:T.
    2: intros E; by apply IH in E. 2: by intros [= <- <-].
    apply entry_target_ok in T as (l & p & I & -> & ->).
    destruct (_ <? _)%Z eqn:C; [by intros [= <- <-]|]. apply Z.ltb_ge in C.
    destruct (write_entry _ _ _ _ m) as [m1 [[]|err]] eqn:W;
      (apply write_entry_spec in W as [[S1 G1] W]; [|done..]).
    2: by intros [= <- <-]. specialize (W eq_refl).
    intros E. apply IH in E as [[S2 G2] E]; [|done|done]. split; [split; [done|by etrans]|].
    intros Er. apply E in Er as [E1 E2]. unfold saturating_add, U64_MAX, MAX_UNCOMPRESSED in *.
    split; [change (foldr _ 0%Z entries) with (declared entries); lia|]. intros q c t. rewrite E2.
    change (foldr _ ∅ entries) with (extracted entries).
    destruct (ze_is_dir e); [by destruct (extracted entries !! q)|]. destruct W as [_ W].
    rewrite lookup_union. destruct (extracted entries !! q); [by destruct ({[_ := _]} !! q)|].
    rewrite W. case_decide as D.
    + subst q. by rewrite lookup_singleton_eq.
    + by rewrite lookup_singleton_ne by (by apply not_eq_sym).
  - by intros [= <- <-].
Qed.
End ExtractLemmas.

(** An empty directory. *)
Lemma settled_empty root m :
  forallb (is_dir m) (lineage root) && is_dir m root
  && forallb (λ kv, negb (below root kv.1)) (map_to_list m) = true → settled root m.
Proof.
  rewrite !andb_true_iff, !forallb_forall. intros [[L D] E]. split; [split; [done|]|].
  - intros q [n Hn] B. specialize (E (q, n)). rewrite <- list_elem_of_In, elem_of_map_to_list in E.
    specialize (E Hn). cbn [fst] in E. by rewrite B in E.
  - intros a Ha. apply L. by apply list_elem_of_In.
Qed.

(** A ZIP reader that knows one archive. *)
Definition sample_entries : list (result ZipEntry string) :=
  [Ok (mkZipEntry "__MACOSX/x" 9 false ("?", None)); Ok (mkZipEntry "./" 0 true ("", None));
   Ok (mkZipEntry "/mods/a.jar" 3 false ("aaa", None)); Ok (mkZipEntry "mods\b.jar" 2 false ("bb", None));
   Ok (mkZipEntry "mods/./a.jar" 1 false ("A", None)); Ok (mkZipEntry "empty/" 0 true ("", None))].

Definition toy_zip : ZipReader := λ content,
  if (content =? "sample")%string then Ok sample_entries
  else if (content =? "slip")%string
  then Ok [Ok (mkZipEntry "ok" 1 false ("1", None)); Ok (mkZipEntry "../evil" 1 false ("2", None))]
  else Err "not an archive".

Definition sample_tree (content : string) : Tree := {["d" := Dir 1; "up" := File content 2]}.

(** ** Properties *)

(** C30. Extraction cannot leave the build. Whatever the archive says, and also when it is
    refused half-way: only nodes below the destination change, nothing that was there
    vanishes, and the destination stays a tree of proper names whose directories are
    all there. *)
Theorem extraction_confined `{ZipReader} now archive dest m m' r :
  joinable dest → settled dest m → extract_zip now archive dest m = (m', r) →
  (∀ q, below dest q = false → m' !! q = m !! q) ∧ (∀ q, is_Some (m !! q) → is_Some (m' !! q)) ∧
  settled dest m'.
Proof.
  intros J S. unfold extract_zip. destruct (m !! archive) as [[c t|t]|]; try by intros [= <- <-].
  destruct (zip_entries c) as [entries|e]; [|by intros [= <- <-]].
  destruct (_ <? _)%N; [by intros [= <- <-]|]. intros E.
  apply extract_entries_spec in E as [(S' & G1 & G2) _]; [done|done..|by vm_compute].
Qed.

Lemma extraction_confined_witness :
  let r := extract_zip (H := toy_zip) 5 "up" "d" (sample_tree "slip") in
  r = ({["d" := Dir 1; "up" := File "slip" 2; "d/ok" := File "1" 5]},
       Err (BadRequest "zip-slip detected for entry: ../evil")) ∧ settled "d" r.1.
Proof.
  split; [vm_compute; reflexivity|].
  apply (extraction_confined (H := toy_zip) 5 "up" "d" (sample_tree "slip") _
           (extract_zip (H := toy_zip) 5 "up" "d" (sample_tree "slip")).2);
    [split; [discriminate|reflexivity]|apply settled_empty; reflexivity|].
  vm_compute. reflexivity.
Defined.

(** The scan is exact. Below a well-formed directory it lists every node once, as
    the entry of its relative path (the depth it recurses to is always enough). *)
Theorem scan_exact `{Primitives} root m :
  joinable root → rooted root m →
  NoDup (map se_relative_path (scan_directory root m)) ∧
  ∀ e, e ∈ scan_directory root m ↔
    ∃ l n, l ≠ [] ∧ Forall tidy l ∧ m !! place root l = Some n ∧ e = scan_entry (String.concat "/" l) n.
Proof.
  intros J R. unfold scan_directory, exists_at. pose proof R as [D _].
  rewrite bool_decide_true by (apply is_dir_some in D as [t ->]; eauto).
  change root with (place root []) at 2 4. split.
  - by apply walk_nodup; [..|apply longest_within].
  - intros e. by apply (walk_spec root m J R _ []); [..|apply longest_within].
Qed.

Definition scanned_tree : Tree :=
  {["d" := Dir 1; "d/mods" := Dir 1; "d/mods/a.jar" := File "A" 5; "dx" := File "" 2]}.

Lemma scanned_rooted : rooted "d" scanned_tree.
Proof.
  split; [reflexivity|]. intros q [n Hn] B. unfold scanned_tree in Hn.
  rewrite !lookup_insert_Some in Hn. rewrite lookup_singleton_Some in Hn.
  destruct Hn as [[<- _]|[_ [[<- _]|[_ [[<- _]|[_ [<- _]]]]]]]; try done.
  - exists [], "mods". split_and!; [repeat constructor; discriminate|reflexivity..].
  - exists ["mods"], "a.jar". split_and!; [repeat constructor; discriminate|reflexivity..].
Qed.

Lemma scan_exact_witness :
  map se_relative_path (scan_directory (H := toy_primitives) "d" scanned_tree) = ["mods"; "mods/a.jar"] ∧
  scan_entry (H := toy_primitives) "mods/a.jar" (File "A" 5) ∈ scan_directory (H := toy_primitives) "d" scanned_tree.
Proof.
  split; [vm_compute; reflexivity|].
  apply (scan_exact (H := toy_primitives) "d" scanned_tree); [split; [discriminate|reflexivity]|apply scanned_rooted|].
  exists ["mods"; "a.jar"], (File "A" 5). split_and!; [discriminate| |reflexivity|reflexivity].
  repeat constructor; discriminate.
Defined.

(** What an archive leaves behind. When the extraction succeeds, the archive was
    readable, had at most 100,000 entries and declared at most 10 GiB, and the files that the scan
    then lists are exactly these, with their size and digest: for a path that the archive writes, what its
    last entry for this path holds; for any other, what was there before. *)
Theorem extract_then_scan `{ZipReader, Primitives} now archive dest m m' :
  joinable dest → settled dest m → extract_zip now archive dest m = (m', Ok ()) →
  ∃ content t0 entries,
    m !! archive = Some (File content t0) ∧ zip_entries content = Ok entries ∧
    (N.of_nat (length entries) <= MAX_ENTRIES)%N ∧ (declared dest entries <= MAX_UNCOMPRESSED)%Z ∧
    ∀ e, e ∈ scan_directory dest m' ∧ se_is_dir e = false ↔
      ∃ l c t, l ≠ [] ∧ Forall tidy l ∧ e = scan_entry (String.concat "/" l) (File c t) ∧
        match extracted dest entries !! place dest l with
        | Some c' => c = c' ∧ t = now
        | None => m !! place dest l = Some (File c t)
        end.
Proof.
  intros J S. unfold extract_zip. destruct (m !! archive) as [[c t|t]|] eqn:A; try done.
  destruct (zip_entries c) as [entries|e] eqn:Z; [|done].
  destruct (_ <? _)%N eqn:N; [done|]. apply N.ltb_ge in N. intros E.
  apply extract_entries_spec in E as [[[R' S'] G] E]; [|done|done|by vm_compute].
  destruct (E eq_refl) as [E1 E2]. exists c, t, entries. split_and!; [done..|]. intros e.
  destruct (scan_exact dest m' J R') as [_ ->]. split.
  - intros [(l & [c' t'|t'] & Hne & I & Hn & ->) Hd]; [|].
    + exists l, c', t'. split_and!; [done..|]. by apply E2.
    + unfold scan_entry in Hd. by destruct (split_relative_path _).
  - intros (l & c' & t' & Hne & I & -> & M). apply E2 in M. split; [eauto 10|].
    unfold scan_entry. by destruct (split_relative_path _).
Qed.

Lemma extract_then_scan_witness :
  let r := extract_zip (H := toy_zip) 5 "up" "d" (sample_tree "sample") in
  r.2 = Ok () ∧
  map (λ e, (se_relative_path e, se_category e, se_size e)) (scan_directory (H := toy_primitives) "d" r.1)
  = [("empty", "root", 0%Z); ("mods", "root", 0%Z); ("mods/a.jar", "mods", 1%Z); ("mods/b.jar", "mods", 2%Z)] ∧
  scan_entry (H := toy_primitives) "mods/a.jar" (File "A" 5) ∈ scan_directory (H := toy_primitives) "d" r.1.
Proof.
  split; [vm_compute; reflexivity|]. split; [vm_compute; reflexivity|].
  destruct (extract_then_scan (H := toy_zip) (H0 := toy_primitives) 5 "up" "d" (sample_tree "sample")
              (extract_zip (H := toy_zip) 5 "up" "d" (sample_tree "sample")).1)
    as (content & t0 & entries & E1 & E2 & _ & _ & E3);
    [split; [discriminate|reflexivity]|apply settled_empty; reflexivity|vm_compute; reflexivity|].
  apply E3. exists ["mods"; "a.jar"], "A", 5%Z. injection E1 as <- _. injection E2 as <-.
  split_and!; [discriminate| |reflexivity|vm_compute; split; reflexivity].
  repeat constructor; discriminate.
Defined.

(** A storage root that contains [..] makes every entry look like an escape. *)
Example dotted_root :
  (extract_zip (H := toy_zip) 5 "up" "../d" {["up" := File "sample" 2; ".." := Dir 0; "../d" := Dir 1]}).2
  = Err (BadRequest "zip-slip detected for entry: /mods/a.jar").
Proof. vm_compute. reflexivity. Qed.
