(* ===== verification/Manifest.v ===== *)
(** * The manifest of a build

    [crates/bundles/src/manifest.rs]: the list of files the launcher fetches, grouped by
    category, and its JSON text, which the launcher hashes. *)

From stdpp Require Import pretty.
From S2P Require Import Prelude RustStr Table Content Payload BundlePaths.

Record ManifestEntry : Type := mkManifestEntry {
  me_path : string;
  me_name : string;
  me_size : Z;
  me_is_dir : bool;
  me_sha256 : option string;
  me_url : option string;
  me_download_once : option bool
}.

(** An [IndexMap]: categories in the order of their first entry. *)
Abbreviation Manifest := (list (string * list ManifestEntry)) (only parsing).

Record BuiltManifest : Type := mkBuiltManifest {
  manifest : Manifest;
  files_count : Z;
  total_size : Z
}.

(** [manifest.entry(category).or_default().push(entry)]. *)
Fixpoint push_entry (category : string) (e : ManifestEntry) (m : Manifest) : Manifest :=
  match m with
  | [] => [(category, [e])]
  | (c, es) :: m => if (c =? category)%string then (c, es ++ [e]) :: m
                    else (c, es) :: push_entry category e m
  end.

Definition category_of (a : BundleArtifact) : string :=
  if (ba_category a =? "")%string then "root" else ba_category a.

Section Build.
Context (slug public_prefix : string).

Definition entry_of (a : BundleArtifact) : ManifestEntry :=
  mkManifestEntry (ba_relative_path a) (ba_name a) (ba_size a) (ba_is_dir a)
    (if ba_is_dir a then None else ba_sha256 a)
    (if ba_is_dir a then None else Some (public_url public_prefix slug (ba_relative_path a)))
    (if ba_download_once a then Some true else None).

(** The totals are an [i32] and an [i64]. *)
Definition build_step (exists_ : BundleArtifact → bool) (b : BuiltManifest) (a : BundleArtifact)
  : BuiltManifest :=
  if negb (exists_ a) then b
  else
    mkBuiltManifest (push_entry (category_of a) (entry_of a) (manifest b))
      (if ba_is_dir a then files_count b else wrap_signed 32 (files_count b + 1))
      (if ba_is_dir a then total_size b else wrap_signed 64 (total_size b + Z.max (ba_size a) 0)).

Definition build_manifest (artifacts : list BundleArtifact) (exists_ : BundleArtifact → bool)
  : BuiltManifest :=
  foldl (build_step exists_) (mkBuiltManifest [] 0 0) artifacts.
End Build.

(** ** [to_json]: [serde_json::to_string_pretty] on these structs *)

Section Json.
Context `{PayloadText}.

Definition newline : string := bytes [10]%N.
Fixpoint indent (n : nat) : string :=
  match n with O => "" | S n => "  " +:+ indent n end.

(** Items one per line, between an opening and a closing mark. *)
Definition block (depth : nat) (open close : string) (items : list string) : string :=
  match items with
  | [] => open +:+ close
  | _ => open +:+ newline +:+ indent (S depth)
         +:+ String.concat ("," +:+ newline +:+ indent (S depth)) items
         +:+ newline +:+ indent depth +:+ close
  end.

Definition member (name value : string) : string := quote +:+ name +:+ quote +:+ ": " +:+ value.

Definition bool_text (b : bool) : string := if b then "true" else "false".

(** [skip_serializing_if = "Option::is_none"]. *)
Definition opt_member (name : string) (value : option string) : list string :=
  match value with Some v => [member name v] | None => [] end.

Definition entry_json (e : ManifestEntry) : string :=
  block 2 "{" "}"
    ([member "path" (json_string (me_path e)); member "name" (json_string (me_name e));
      member "size" (pretty (me_size e)); member "isDir" (bool_text (me_is_dir e))]
     ++ opt_member "sha256" (option_map json_string (me_sha256 e))
     ++ opt_member "url" (option_map json_string (me_url e))
     ++ opt_member "downloadOnce" (option_map bool_text (me_download_once e))).

Definition category_json (c : string * list ManifestEntry) : string :=
  json_string c.1 +:+ ": " +:+ block 1 "[" "]" (map entry_json c.2).

Definition to_json (m : Manifest) : string := block 0 "{" "}" (map category_json m).
End Json.

(** The tests of the source. *)
Definition test_artifact (path category : string) (is_dir download_once : bool) : BundleArtifact :=
  mkBundleArtifact 1 path (split_relative_path path).1 category (if is_dir then 0 else 100)
    (if is_dir then None else Some "deadbeef") is_dir download_once (Some 0%Z).

Definition lines (l : list string) : string := String.concat newline l.
Definition q (s : string) : string := quote +:+ s +:+ quote.

Example manifest_tests :
  let built := build_manifest "b" "/bundle-registry"
    [test_artifact "mods/a.jar" "mods" false true; test_artifact "mods" "root" true false]
    (λ _, true) in
  files_count built = 1%Z ∧ total_size built = 100%Z ∧
  to_json (H := plain_text) (manifest built) =
  lines ["{"; "  " +:+ q "mods" +:+ ": ["; "    {";
         "      " +:+ q "path" +:+ ": " +:+ q "mods/a.jar" +:+ ",";
         "      " +:+ q "name" +:+ ": " +:+ q "a.jar" +:+ ","; "      " +:+ q "size" +:+ ": 100,";
         "      " +:+ q "isDir" +:+ ": false,"; "      " +:+ q "sha256" +:+ ": " +:+ q "deadbeef" +:+ ",";
         "      " +:+ q "url" +:+ ": " +:+ q "/bundle-registry/builds/b/files/mods/a.jar" +:+ ",";
         "      " +:+ q "downloadOnce" +:+ ": true"; "    }"; "  ],"; "  " +:+ q "root" +:+ ": ["; "    {";
         "      " +:+ q "path" +:+ ": " +:+ q "mods" +:+ ","; "      " +:+ q "name" +:+ ": " +:+ q "mods" +:+ ",";
         "      " +:+ q "size" +:+ ": 0,"; "      " +:+ q "isDir" +:+ ": true"; "    }"; "  ]"; "}"] ∧
  to_json (H := plain_text) [] = "{}".
Proof. vm_compute. repeat split. Qed.

(** ** What is built *)

Section Exact.
Context (slug public_prefix : string) (exists_ : BundleArtifact → bool).

Definition in_category (c : string) (m : Manifest) : list ManifestEntry :=
  match List.find (λ ce, (ce.1 =? c)%string) m with Some ce => ce.2 | None => [] end.

Lemma push_categories c e m :
  map fst (push_entry c e m) = if bool_decide (c ∈ map fst m) then map fst m else map fst m ++ [c].
Proof.
  induction m as [|[c' es] m IH]; cbn [push_entry map fst app]; [done|].
  destruct (String.eqb_spec c' c) as [->|Hne]; cbn [map fst].
  - rewrite bool_decide_true; [done|]. by left.
  - rewrite IH. case_bool_decide as Hin; case_bool_decide as Hin'; try done.
    + destruct Hin'. by right.
    + apply elem_of_cons in Hin' as [->|?]; done.
Qed.

Lemma push_in_category c e m c' :
  in_category c' (push_entry c e m) = in_category c' m ++ (if (c =? c')%string then [e] else []).
Proof.
  unfold in_category. induction m as [|[c0 es] m IH]; cbn [push_entry List.find fst].
  { by destruct (c =? c')%string. }
  destruct (String.eqb_spec c0 c) as [->|Hne]; cbn [List.find fst].
  - destruct (String.eqb_spec c c') as [->|Hne']; cbn [snd]; [done|]. by rewrite app_nil_r.
  - destruct (String.eqb_spec c0 c') as [->|Hne']; cbn [snd]; [|apply IH].
    rewrite (proj2 (String.eqb_neq c c')) by (by apply not_eq_sym). by rewrite app_nil_r.
Qed.

Definition present (l : list BundleArtifact) : list BundleArtifact := List.filter exists_ l.
Definition files_of (l : list BundleArtifact) : list BundleArtifact :=
  List.filter (λ a, negb (ba_is_dir a)) l.
Definition size_sum (l : list BundleArtifact) : Z := foldr (λ a n, (Z.max (ba_size a) 0 + n)%Z) 0%Z l.

Lemma build_app l a :
  build_manifest slug public_prefix (l ++ [a]) exists_
  = build_step slug public_prefix exists_ (build_manifest slug public_prefix l exists_) a.
Proof. unfold build_manifest. by rewrite foldl_app. Qed.

Lemma size_sum_snoc l a : size_sum (l ++ [a]) = (size_sum l + Z.max (ba_size a) 0)%Z.
Proof. unfold size_sum. induction l as [|b l IH]; cbn [foldr app]; lia. Qed.

Lemma size_sum_nonneg l : (0 ≤ size_sum l)%Z.
Proof. unfold size_sum. induction l as [|b l IH]; cbn [foldr]; lia. Qed.

Lemma build_totals l :
  let b := build_manifest slug public_prefix l exists_ in
  files_count b = wrap_signed 32 (Z.of_nat (length (files_of (present l)))) ∧
  total_size b = wrap_signed 64 (size_sum (files_of (present l))).
Proof.
  cbv zeta. induction l as [|a l [IC IS]] using rev_ind; [done|]. rewrite build_app. unfold present, files_of in *.
  rewrite !List.filter_app. unfold build_step. cbn [List.filter].
  destruct (exists_ a); cbn [negb List.filter]; [|by rewrite app_nil_r].
  cbn [files_count total_size]. destruct (ba_is_dir a); cbn [negb List.filter]; [by rewrite app_nil_r|].
  rewrite IC, IS, !wrap_signed_add, size_sum_snoc, length_app by done. cbn [length]. split; f_equal. lia.
Qed.

Lemma build_categories l :
  let b := build_manifest slug public_prefix l exists_ in
  (∀ c, in_category c (manifest b)
        = map (entry_of slug public_prefix) (List.filter (λ a, (category_of a =? c)%string) (present l))) ∧
  NoDup (map fst (manifest b)) ∧
  (∀ c, c ∈ map fst (manifest b) ↔ ∃ a, a ∈ present l ∧ category_of a = c).
Proof.
  cbv zeta. induction l as [|a l (I1 & I2 & I3)] using rev_ind.
  { split_and!; [done|constructor|]. intros c. split; [intros X|intros (a & X & _)]; by apply not_elem_of_nil in X. }
  rewrite build_app. unfold present in *. rewrite List.filter_app.
  unfold build_step. cbn [List.filter]. destruct (exists_ a); cbn [negb]; [|by rewrite app_nil_r].
  cbn [manifest]. split_and!.
  - intros c. rewrite push_in_category, I1, List.filter_app, map_app. cbn [List.filter].
    by destruct (category_of a =? c)%string.
  - rewrite push_categories. case_bool_decide as Hin; [done|]. apply NoDup_app. split_and!; [done| |apply NoDup_singleton].
    by intros c Hc ->%list_elem_of_singleton.
  - intros c. rewrite push_categories. setoid_rewrite elem_of_app. setoid_rewrite list_elem_of_singleton.
    case_bool_decide as Hin.
    + rewrite I3. split; [naive_solver|]. intros (a' & [Ha| ->] & <-); [eauto|]. by apply I3.
    + rewrite elem_of_app, list_elem_of_singleton, I3. naive_solver.
Qed.
End Exact.

(** C31. The manifest is a grouping of the rows that are present. Every category holds, in the
    order of the rows, exactly the entries of the present rows of that category; no
    category appears twice or empty; the two totals are the number and the size of the files,
    directories excluded, as an [i32] and an [i64] wrap them, hence exactly as long as they fit. *)
Theorem manifest_exact slug prefix exists_ artifacts :
  let b := build_manifest slug prefix artifacts exists_ in
  let rows := present exists_ artifacts in
  (∀ c, in_category c (manifest b)
        = map (entry_of slug prefix) (List.filter (λ a, (category_of a =? c)%string) rows)) ∧
  NoDup (map fst (manifest b)) ∧
  (∀ c, c ∈ map fst (manifest b) ↔ ∃ a, a ∈ rows ∧ category_of a = c) ∧
  let count := Z.of_nat (length (files_of rows)) in
  let size := size_sum (files_of rows) in
  files_count b = wrap_signed 32 count ∧ total_size b = wrap_signed 64 size ∧
  ((count < 2 ^ 31)%Z → files_count b = count) ∧ ((size < 2 ^ 63)%Z → total_size b = size).
Proof.
  intros b rows. cbv zeta. subst b rows. destruct (build_categories slug prefix exists_ artifacts) as (I1 & I2 & I3).
  destruct (build_totals slug prefix exists_ artifacts) as [IC IS]. split_and!; [done..| |].
  - intros L. rewrite IC. apply wrap_signed_fits; lia.
  - intros L. rewrite IS. apply wrap_signed_fits; [lia|].
    pose proof (size_sum_nonneg (files_of (present exists_ artifacts))). lia.
Qed.

(** Past 2^63 bytes the total is negative: two rows of the largest size. *)
Example total_wraps :
  let row path := mkBundleArtifact 1 path "a" "mods" (2 ^ 63 - 1) None false false None in
  total_size (build_manifest "b" "/p" [row "x"; row "y"] (λ _, true)) = (-2)%Z.
Proof. reflexivity. Qed.
