(* ===== verification/BundleRepo.v ===== *)
(** * The bundle registry's database access

    [crates/bundles/src/repo.rs]: bundles and their artifact rows, the move of a subtree
    and the regeneration of a manifest, which tie the rows to the files below
    [builds/{slug}]. Directory trees are those of [BundleTree]. *)

From S2P Require Import Prelude RustStr Errors Models Table Content Schema Prog Auth Files Invariant.
From S2P Require Import Payload BundlePaths BundleTree Manifest.

(** ** Statements on the registry's tables *)

Definition on_content {B} (f : Tick → Content → SqlResult (Content * B)) : prog (AppResult B) :=
  sql_app (λ t db,
    try '(c, b) := f t (content db) in
    Ok (set_content c db, b)).

Definition look {B} (f : Content → B) : prog (AppResult B) := select (λ _ db, f (content db)).

(** ** Bundles *)

Definition list_bundles : prog (AppResult (list (Keyed Bundle))) :=
  look (λ c, order_by_desc b_created_at (select_rows (λ _ _, true) (bundles c))).

Definition has_slug (slug : string) : Uuid → Bundle → bool := λ _ b, (b_slug b =? slug)%string.

Definition find_by_slug (slug : string) : prog (AppResult (option (Keyed Bundle))) :=
  look (λ c, find_row (has_slug slug) (bundles c)).

Definition id_by_slug (slug : string) (c : Content) : option Uuid :=
  option_map key (find_row (has_slug slug) (bundles c)).

Definition find_bundle_id_by_slug (slug : string) : prog (AppResult (option Uuid)) :=
  look (id_by_slug slug).

Definition draft (slug name : string) (now : Time) : Bundle :=
  mkBundle slug name None None "draft" 0 0 None None now now.

Definition insert_bundle (slug name : string) (t : Tick) (c : Content)
  : SqlResult (Content * Uuid) :=
  try m := insert_row "bundles_pkey" [bundles_slug_key] (t_uuid t) (draft slug name (t_db t))
             (bundles c) in
  Ok (set_bundles m c, t_uuid t).

Definition provision_bundle_row (slug name : string) : prog (AppResult Uuid) :=
  do? lift (validate_slug slug);
  let? found := find_bundle_id_by_slug slug in
  match found with
  | Some _ => ret_err (Conflict "a build with this slug already exists")
  | None => on_content (insert_bundle slug name)
  end.

Definition ensure_bundle_dir (storage_root slug : string) : prog (AppResult unit) :=
  fs_call "mkdir build dir" (λ now, create_dir_all now (files_path storage_root slug)).

Definition provision_bundle (storage_root slug name : string) : prog (AppResult Uuid) :=
  let? id := transaction (provision_bundle_row slug name) in
  do? ensure_bundle_dir storage_root slug;
  ret_ok id.

Definition require_by_slug (slug : string) : prog (AppResult (Keyed Bundle)) :=
  let? found := find_by_slug slug in
  lift (ok_or (NotFound "build not found") found).

(** [UPDATE bundles SET f WHERE id = $1 RETURNING ..] with [fetch_one]. *)
Definition update_returning (id : Uuid) (f : Time → Bundle → Bundle) (t : Tick) (c : Content)
  : SqlResult (Content * Keyed Bundle) :=
  match bundles c !! id with
  | None => Err RowNotFound
  | Some b =>
      let b := f (t_db t) b in
      Ok (set_bundles (<[id := b]> (bundles c)) c, mkKeyed id b)
  end.

(** [COALESCE($2, name)], [$3], [$4]. *)
Definition with_meta (name description version : option string) (now : Time) (b : Bundle) : Bundle :=
  mkBundle (b_slug b) (default (b_name b) name) description version (b_status b) (b_files_count b)
    (b_total_size b) (b_processing_error b) (b_last_generated_at b) (b_created_at b) now.

Definition update_bundle_meta (id : Uuid) (name description version : option string)
  : prog (AppResult (Keyed Bundle)) :=
  on_content (update_returning id (with_meta name description version)).

Definition bundle_slug_by_id (id : Uuid) : prog (AppResult (option string)) :=
  look (λ c, option_map b_slug (bundles c !! id)).

Definition of_bundle (bundle_id : Uuid) : Uuid → BundleArtifact → bool :=
  λ _ a, (ba_bundle_id a =? bundle_id)%N.

Definition count_artifacts (bundle_id : Uuid) : prog (AppResult nat) :=
  look (λ c, count_rows (of_bundle bundle_id) (bundle_artifacts c)).

(** [ON DELETE SET NULL] of [catalog_clients.bundle_id]. *)
Definition unlink_bundle (r : CatalogClient) : CatalogClient :=
  mkCatalogClient (cc_slug r) (cc_available r) (cc_minecraft_version r) (cc_forge_version r)
    (cc_fabric_version r) (cc_runtime_version r) (cc_bundle_slug r) None (cc_sort_order r)
    (cc_published_at r) (cc_created_at r) (cc_updated_at r).

Definition linked_to (id : Uuid) : Uuid → CatalogClient → bool :=
  λ _ r, bool_decide (cc_bundle_id r = Some id).

(** The row, its artifacts ([ON DELETE CASCADE]) and the references to it. *)
Definition drop_bundle (id : Uuid) (c : Content) : Content :=
  set_catalog_clients (update_where (linked_to id) unlink_bundle (catalog_clients c))
    (set_bundle_artifacts (delete_where (of_bundle id) (bundle_artifacts c))
       (set_bundles (delete id (bundles c)) c)).

Definition delete_bundle_row (id : Uuid) : prog (AppResult unit) :=
  on_content (λ _ c, Ok (drop_bundle id c, ())).

Definition remove_bundle_dir (storage_root slug : string) : prog unit :=
  fs_quiet (remove_dir_all (build_path storage_root slug)).

Definition with_status (status : string) (processing_error : option string) (now : Time)
  (b : Bundle) : Bundle :=
  mkBundle (b_slug b) (b_name b) (b_description b) (b_version b) status (b_files_count b)
    (b_total_size b) processing_error (b_last_generated_at b) (b_created_at b) now.

Definition set_status (id : Uuid) (status : string) (processing_error : option string)
  : prog (AppResult unit) :=
  on_content (λ t c,
    Ok (set_bundles (update_where (λ k _, (k =? id)%N) (with_status status processing_error (t_db t))
                       (bundles c)) c, ())).

(** ** Artifacts *)

Definition path_le : relation (Keyed BundleArtifact) :=
  λ a b, text_le (ba_relative_path (row a)) (ba_relative_path (row b)).
#[export] Instance path_le_dec : RelDecision path_le.
Proof. intros a b. unfold path_le. apply _. Defined.

Definition artifacts_of (bundle_id : Uuid) (c : Content) : list (Keyed BundleArtifact) :=
  order_by path_le (select_rows (of_bundle bundle_id) (bundle_artifacts c)).

Definition list_artifacts (bundle_id : Uuid) : prog (AppResult (list (Keyed BundleArtifact))) :=
  look (artifacts_of bundle_id).

Definition find_artifact (id : Uuid) : prog (AppResult (option (Keyed BundleArtifact))) :=
  look (λ c, option_map (mkKeyed id) (bundle_artifacts c !! id)).

Definition at_path (bundle_id : Uuid) (path : string) : Uuid → BundleArtifact → bool :=
  λ _ a, (ba_bundle_id a =? bundle_id)%N && (ba_relative_path a =? path)%string.

(** [ON CONFLICT (bundle_id, relative_path) DO UPDATE]: all but [download_once]. *)
Definition rescanned (e : ScanEntry) (a : BundleArtifact) : BundleArtifact :=
  mkBundleArtifact (ba_bundle_id a) (ba_relative_path a) (se_name e) (se_category e) (se_size e)
    (se_sha256 e) (se_is_dir e) (ba_download_once a) (se_file_modified_at e).

Definition new_artifact (bundle_id : Uuid) (e : ScanEntry) : BundleArtifact :=
  mkBundleArtifact bundle_id (se_relative_path e) (se_name e) (se_category e) (se_size e)
    (se_sha256 e) (se_is_dir e) false (se_file_modified_at e).

Definition upsert (bundle_id : Uuid) (e : ScanEntry) (t : Tick) (c : Content)
  : SqlResult (Content * unit) :=
  match find_row (at_path bundle_id (se_relative_path e)) (bundle_artifacts c) with
  | Some a =>
      Ok (set_bundle_artifacts (<[key a := rescanned e (row a)]> (bundle_artifacts c)) c, ())
  | None =>
      try _ := fk "bundle_artifacts_bundle_id_fkey" bundle_id (bundles c) in
      try m := insert_row "bundle_artifacts_pkey" [bundle_artifacts_bundle_path_uq] (t_uuid t)
                 (new_artifact bundle_id e) (bundle_artifacts c) in
      Ok (set_bundle_artifacts m c, ())
  end.

(** The arguments of [upsert_artifact] are a [ScanEntry]'s fields. *)
Definition upsert_artifact (bundle_id : Uuid) (e : ScanEntry) : prog (AppResult unit) :=
  on_content (upsert bundle_id e).

Definition UPSERT_CHUNK : nat := N.to_nat 10000.

(** [slice::chunks]. *)
Fixpoint chunks_go {A} (fuel n : nat) (l : list A) : list (list A) :=
  match fuel with
  | O => []
  | S fuel => match l with [] => [] | _ => firstn n l :: chunks_go fuel n (skipn n l) end
  end.
Definition chunks {A} (n : nat) (l : list A) : list (list A) := chunks_go (length l) n l.

Fixpoint upsert_rows (bundle_id : Uuid) (es : list ScanEntry) : prog (AppResult unit) :=
  match es with
  | [] => ret_ok ()
  | e :: es => do? upsert_artifact bundle_id e; upsert_rows bundle_id es
  end.

(** One statement: row by row within its transaction, and refused when a path repeats
    ([ON CONFLICT DO UPDATE] cannot affect a row twice). *)
Definition upsert_artifact_chunk (bundle_id : Uuid) (chunk : list ScanEntry)
  : prog (AppResult unit) :=
  if bool_decide (NoDup (map se_relative_path chunk)) then upsert_rows bundle_id chunk
  else ret_err (Database Io).

Fixpoint upsert_chunks (bundle_id : Uuid) (cs : list (list ScanEntry)) : prog (AppResult unit) :=
  match cs with
  | [] => ret_ok ()
  | chunk :: cs => do? upsert_artifact_chunk bundle_id chunk; upsert_chunks bundle_id cs
  end.

(** [bundle_id = $1 AND relative_path <> ALL($2)]. *)
Definition unscanned (bundle_id : Uuid) (paths : list string) : Uuid → BundleArtifact → bool :=
  λ _ a, (ba_bundle_id a =? bundle_id)%N && negb (existsb (String.eqb (ba_relative_path a)) paths).

Definition upsert_scan (bundle_id : Uuid) (scan : list ScanEntry) : prog (AppResult unit) :=
  transaction (
    do? upsert_chunks bundle_id (chunks UPSERT_CHUNK scan);
    on_content (λ _ c,
      Ok (set_bundle_artifacts
            (delete_where (unscanned bundle_id (map se_relative_path scan)) (bundle_artifacts c)) c,
          ()))).

(** [UPDATE bundle_artifacts SET f WHERE id = $1]. *)
Definition update_artifact (id : Uuid) (f : BundleArtifact → BundleArtifact)
  : prog (AppResult unit) :=
  on_content (λ _ c,
    Ok (set_bundle_artifacts (update_where (λ k _, (k =? id)%N) f (bundle_artifacts c)) c, ())).

Definition update_artifact_sha (id : Uuid) (sha : string) : prog (AppResult unit) :=
  update_artifact id (λ a,
    mkBundleArtifact (ba_bundle_id a) (ba_relative_path a) (ba_name a) (ba_category a) (ba_size a)
      (Some sha) (ba_is_dir a) (ba_download_once a) (ba_file_modified_at a)).

Definition set_download_once (id : Uuid) (value : bool) : prog (AppResult unit) :=
  update_artifact id (λ a,
    mkBundleArtifact (ba_bundle_id a) (ba_relative_path a) (ba_name a) (ba_category a) (ba_size a)
      (ba_sha256 a) (ba_is_dir a) value (ba_file_modified_at a)).

Definition delete_artifact (id : Uuid) : prog (AppResult unit) :=
  on_content (λ _ c, Ok (set_bundle_artifacts (delete id (bundle_artifacts c)) c, ())).

(** [relative_path LIKE $2 || '%' ESCAPE '\'] on an escaped prefix. *)
Definition has_prefix (bundle_id : Uuid) (prefix : string) : Uuid → BundleArtifact → bool :=
  λ _ a, (ba_bundle_id a =? bundle_id)%N
         && like (ba_relative_path a) (escape_like_pattern prefix +:+ "%").

Definition delete_artifacts_with_prefix (bundle_id : Uuid) (prefix : string)
  : prog (AppResult unit) :=
  on_content (λ _ c,
    Ok (set_bundle_artifacts (delete_where (has_prefix bundle_id prefix) (bundle_artifacts c)) c, ())).

Definition artifact_exists_at (bundle_id : Uuid) (path : string) : prog (AppResult bool) :=
  look (λ c, (0 <? count_rows (at_path bundle_id path) (bundle_artifacts c))%nat).

Definition any_artifact_with_prefix (bundle_id : Uuid) (prefix : string) : prog (AppResult bool) :=
  look (λ c, (0 <? count_rows (has_prefix bundle_id prefix) (bundle_artifacts c))%nat).

(** ** Moves *)

Definition repathed (path : string) (a : BundleArtifact) : BundleArtifact :=
  let '(name, category) := split_relative_path path in
  mkBundleArtifact (ba_bundle_id a) path name category (ba_size a) (ba_sha256 a) (ba_is_dir a)
    (ba_download_once a) (ba_file_modified_at a).

(** A row that is gone is no error; a path that is taken is. *)
Definition update_artifact_path_tx (id : Uuid) (path : string) : prog (AppResult unit) :=
  on_content (λ _ c,
    match bundle_artifacts c !! id with
    | None => Ok (c, ())
    | Some a =>
        try m := update_row [bundle_artifacts_bundle_path_uq] id (repathed path a)
                   (bundle_artifacts c) in
        Ok (set_bundle_artifacts m c, ())
    end).

Fixpoint move_children (old_prefix new_rel : string) (children : list (Keyed BundleArtifact))
  : prog (AppResult unit) :=
  match children with
  | [] => ret_ok ()
  | child :: children =>
      do? match strip_prefix old_prefix (ba_relative_path (row child)) with
          | Some suffix => update_artifact_path_tx (key child) (new_rel +:+ "/" +:+ suffix)
          | None => ret_ok ()
          end;
      move_children old_prefix new_rel children
  end.

(** [try_exists(..).await.unwrap_or(false)]. *)
Definition path_exists (path : string) : prog bool :=
  fs_look (λ fault m, negb fault && exists_at m path).

Definition move_on_disk (old_physical new_physical : string) : prog (AppResult unit) :=
  let* there := path_exists old_physical in
  if there then
    do? fs_call "mkdir" (λ now, create_dir_all now (parent new_physical));
    fs_call "rename" (λ _, rename old_physical new_physical)
  else ret_ok ().

Definition move_subtree (bundle_id : Uuid) (files_root old_rel new_rel : string) (is_dir : bool)
  : prog (AppResult unit) :=
  let? entry := look (λ c, find_row (at_path bundle_id old_rel) (bundle_artifacts c)) in
  let? entry := lift (ok_or (NotFound "file entry not found in this build") entry) in
  do? update_artifact_path_tx (key entry) new_rel;
  do? (if is_dir then
         let? children := look (λ c,
           select_rows (has_prefix bundle_id (old_rel +:+ "/")) (bundle_artifacts c)) in
         move_children (old_rel +:+ "/") new_rel children
       else ret_ok ());
  move_on_disk (join_files files_root old_rel) (join_files files_root new_rel).

(** ** The manifest *)

(** One [stat] per path; the paths that are there. *)
Fixpoint present_paths (files_root : string) (paths : list string) : prog (list string) :=
  match paths with
  | [] => Ret []
  | p :: paths =>
      let* there := path_exists (join_files files_root p) in
      let* rest := present_paths files_root paths in
      Ret (if there then p :: rest else rest)
  end.

Definition manifest_tmp (storage_root slug : string) : string :=
  path_join (build_path storage_root slug) "artifacts.json.tmp".

(** [storage.rs] *)
Definition write_manifest_atomic (storage_root slug json : string) : prog (AppResult unit) :=
  do? fs_call "write manifest" (λ now, create_dir_all now (build_path storage_root slug));
  do? fs_call "write manifest" (λ now, create_file now (manifest_tmp storage_root slug) json);
  fs_call "write manifest" (λ _, rename (manifest_tmp storage_root slug)
                                   (manifest_path storage_root slug)).

Definition with_manifest (built : BuiltManifest) (now : Time) (b : Bundle) : Bundle :=
  mkBundle (b_slug b) (b_name b) (b_description b) (b_version b) "ready" (files_count built)
    (total_size built) None (Some now) (b_created_at b) now.

Section Regenerate.
Context `{PayloadText} (storage_root public_prefix : string).

Definition regenerate_manifest (bundle : Keyed Bundle) : prog (AppResult (Keyed Bundle)) :=
  let? artifacts := list_artifacts (key bundle) in
  let slug := b_slug (row bundle) in
  let* present := present_paths (files_path storage_root slug)
                    (map (λ a, ba_relative_path (row a)) artifacts) in
  let built := build_manifest slug public_prefix (map row artifacts)
                 (λ a, existsb (String.eqb (ba_relative_path a)) present) in
  do? write_manifest_atomic storage_root slug (to_json (manifest built));
  on_content (update_returning (key bundle) (with_manifest built)).
End Regenerate.

(** ** Every statement keeps the constraints *)

Section ContentOk.
Context (c : Content) (S : content_ok c).

Lemma content_set_bundles m :
  keeps (bundles c) m → table_ok [bundles_slug_key] (λ _ _, True) m → content_ok (set_bundles m c).
Proof.
  intros K T. destruct S. split; try done; cbn.
  - eapply table_ok_mono; [|done]. intros k a Ha. by apply K.
  - eapply table_ok_mono; [|done]. intros k r Hr. by eapply opt_ref_keeps.
Qed.

Lemma content_set_artifacts m : artifacts_ok (bundles c) m → content_ok (set_bundle_artifacts m c).
Proof. intros T. by destruct S. Qed.

Lemma drop_bundle_ok id : content_ok (drop_bundle id c).
Proof.
  destruct S as [OB OA OC OL OM OK OKL OS OCK OCS]. assert (K : keeps (catalog_clients c) (update_where (linked_to id) unlink_bundle (catalog_clients c)))
    by apply keeps_update.
  split; cbn; try done.
  - split; [|done]. apply Forall_singleton. intros k1 k2 r1 r2 [_ H1]%lookup_delete_Some [_ H2]%lookup_delete_Some.
    eapply table_ok_uniq; [by left|done|done|done].
  - eapply table_ok_shrink; [|done]. intros k a Hk Hp [b Hb]. unfold of_bundle in Hp.
    apply N.eqb_neq in Hp. exists b. by rewrite lookup_delete_ne by (by apply not_eq_sym).
  - split; [apply Forall_singleton; apply uniq_update_shrink; [apply catalog_clients_slug_key_sym| |done]|].
    { eapply table_ok_uniq; [by left|done]. }
    intros k r Hk. apply lookup_update_where_Some in Hk as (r0 & Hk & ->).
    destruct OC as [_ C]. specialize (C k r0 Hk). unfold linked_to.
    case_bool_decide as E; [done|]. destruct (cc_bundle_id r0) as [b|]; [|done]. cbn in *.
    destruct C as [x Hx]. exists x. rewrite lookup_delete_ne; congruence.
  - eapply map_Forall_impl; [done|]. intros k v H. by apply K.
  - eapply table_ok_mono; [|done]. intros k r [H1 H2]. by split; [apply K|].
  - eapply map_Forall_impl; [done|]. intros k v [H1 H2]. by split; [apply K|].
  - eapply map_Forall_impl; [done|]. intros k v [H1 H2]. by split; [apply K|].
Qed.

(** An update that keeps the slug, and one that keeps bundle and path. *)
Lemma bundles_update p f :
  (∀ b, b_slug (f b) = b_slug b) →
  content_ok (set_bundles (update_where p f (bundles c)) c).
Proof.
  intros Hf. apply content_set_bundles; [apply keeps_update|]. apply table_ok_update; [repeat constructor; apply bundles_slug_key_sym| |done|apply S].
  apply Forall_singleton. intros k r1 r2 _. cbn. by rewrite Hf.
Qed.

Lemma artifacts_update p f :
  (∀ a, ba_bundle_id (f a) = ba_bundle_id a ∧ ba_relative_path (f a) = ba_relative_path a) →
  content_ok (set_bundle_artifacts (update_where p f (bundle_artifacts c)) c).
Proof.
  intros Hf. apply content_set_artifacts. apply table_ok_update; [repeat constructor; apply bundle_artifacts_bundle_path_uq_sym| | |apply S].
  - apply Forall_singleton. intros k r1 r2 _. cbn. by destruct (Hf r1) as [-> ->].
  - intros k a _. by destruct (Hf a) as [-> _].
Qed.
End ContentOk.

Definition content_rel {B} (f : Tick → Content → SqlResult (Content * B)) : Prop :=
  ∀ t c c' b, f t c = Ok (c', b) → content_ok c → content_ok c'.

Section Schema.
Context `{Lowercase}.

Lemma on_content_schema {B} (f : Tick → Content → SqlResult (Content * B)) :
  content_rel f → prog_rel (db_rel schema_rel) (on_content f).
Proof.
  intros Hf. apply prog_rel_sql_app; [exact _|]. intros t db db' b E.
  apply and_then_ok in E as ([c b'] & E & [= <- <-]). intros S. apply schema_set_content; [done|].
  eapply Hf; [exact E|]. apply S.
Qed.

Lemma look_schema {B} (f : Content → B) : prog_rel (db_rel schema_rel) (look f).
Proof. apply prog_rel_select; exact _. Qed.

Lemma on_tree_rel {B} (R : relation Db) `{!PreOrder R} (f : Tick → Tree → Tree * B) :
  prog_rel (db_rel R) (on_tree f).
Proof.
  apply prog_rel_memory; [exact _|]. intros t st. simpl. by destruct (f t (st_tree st)).
Qed.
End Schema.

Lemma alter_row {R} (f : R → R) k (m : gmap N R) r : m !! k = Some r → alter f k m = <[k := f r]> m.
Proof.
  intros Hk. apply map_eq. intros i. rewrite lookup_alter, lookup_insert.
  case_decide as D; [subst; by rewrite Hk|done].
Qed.

Lemma insert_bundle_ok slug name : content_rel (insert_bundle slug name).
Proof.
  intros t c c' b E S. apply and_then_ok in E as (m & E & [= <- _]).
  apply insert_row_ok in E as (Hk & -> & V). apply content_set_bundles; [done|apply keeps_insert|].
  apply table_ok_insert; [repeat constructor; apply bundles_slug_key_sym|done|done|apply S].
Qed.

(** A new version of a bundle with the same slug. *)
Lemma update_returning_ok id f :
  (∀ now b, b_slug (f now b) = b_slug b) → content_rel (update_returning id f).
Proof.
  intros Hf t c c' b E S. unfold update_returning in E. destruct (bundles c !! id) as [b0|] eqn:Hb; [|done].
  injection E as <- _. pose proof (bundles_update c S (λ k _, (k =? id)%N) (f (t_db t)) (Hf _)) as K.
  rewrite update_where_key in K. by rewrite (alter_row _ _ _ b0) in K.
Qed.

Lemma drop_bundle_rel id : content_rel (λ _ c, Ok (drop_bundle id c, ())).
Proof. intros t c c' b [= <- _] S. by apply drop_bundle_ok. Qed.

Lemma set_status_ok id status e :
  content_rel (λ t c,
    Ok (set_bundles (update_where (λ k _, (k =? id)%N) (with_status status e (t_db t)) (bundles c)) c, ())).
Proof. intros t c c' b [= <- _] S. by apply bundles_update. Qed.

Lemma upsert_ok bundle_id e : content_rel (upsert bundle_id e).
Proof.
  intros t c c' b E S. unfold upsert in E. destruct (find_row _ _) as [a|] eqn:F.
  - injection E as <- _. apply find_row_Some in F as [Ha _].
    pose proof (artifacts_update c S (λ k _, (k =? key a)%N) (rescanned e) (λ _, conj eq_refl eq_refl)) as K.
    rewrite update_where_key in K. by rewrite (alter_row _ _ _ (row a)) in K.
  - apply and_then_ok in E as ([] & Hf & E). apply and_then_ok in E as (m & E & [= <- _]).
    apply fk_ok in Hf. apply insert_row_ok in E as (Hk & -> & V). apply content_set_artifacts; [done|].
    apply table_ok_insert; [repeat constructor; apply bundle_artifacts_bundle_path_uq_sym|done|done|apply S].
Qed.

Lemma delete_artifacts_ok p :
  content_rel (λ _ c, Ok (set_bundle_artifacts (delete_where p (bundle_artifacts c)) c, ())).
Proof. intros t c c' b [= <- _] S. apply content_set_artifacts; [done|]. apply table_ok_delete, S. Qed.

Lemma delete_where_key {R} k (m : gmap N R) : delete_where (λ k' _, (k' =? k)%N) m = delete k m.
Proof.
  apply map_eq. intros i. rewrite lookup_delete_where, lookup_delete. destruct (N.eqb_spec i k) as [->|Hne].
  - rewrite decide_True by done. by destruct (m !! k).
  - rewrite decide_False by congruence. by destruct (m !! i).
Qed.

Lemma delete_artifact_ok id :
  content_rel (λ _ c, Ok (set_bundle_artifacts (delete id (bundle_artifacts c)) c, ())).
Proof.
  intros t c c' b. rewrite <- delete_where_key. apply delete_artifacts_ok. exact t.
Qed.

Lemma update_artifact_ok id f :
  (∀ a, ba_bundle_id (f a) = ba_bundle_id a ∧ ba_relative_path (f a) = ba_relative_path a) →
  content_rel (λ _ c, Ok (set_bundle_artifacts (update_where (λ k _, (k =? id)%N) f (bundle_artifacts c)) c, ())).
Proof. intros Hf t c c' b [= <- _] S. by apply artifacts_update. Qed.

Lemma update_path_ok id path :
  content_rel (λ _ c,
    match bundle_artifacts c !! id with
    | None => Ok (c, ())
    | Some a =>
        try m := update_row [bundle_artifacts_bundle_path_uq] id (repathed path a) (bundle_artifacts c) in
        Ok (set_bundle_artifacts m c, ())
    end).
Proof.
  intros t c c' b E S. destruct (bundle_artifacts c !! id) as [a|] eqn:Ha; [|by injection E as <- _].
  apply and_then_ok in E as (m & E & [= <- _]). apply update_row_ok in E as [-> V].
  apply content_set_artifacts; [done|].
  apply table_ok_insert; [repeat constructor; apply bundle_artifacts_bundle_path_uq_sym|done| |apply S].
  unfold repathed. destruct (split_relative_path path). destruct (ok_artifacts c S) as [_ C]. by apply (C id a).
Qed.

#[export] Hint Resolve on_content_schema look_schema on_tree_rel insert_bundle_ok update_returning_ok
  drop_bundle_rel set_status_ok upsert_ok delete_artifacts_ok delete_artifact_ok update_artifact_ok
  update_path_ok : loon.
