(* ===== verification/BundleAdmin.v ===== *)
(** * The bundle registry's handlers

    [crates/bundles/src/admin.rs]: builds, uploads of archives and files, folders, moves and
    deletions, the check of disk against rows; [public.rs]: the manifest and the files. *)

From stdpp Require Import pretty.
From S2P Require Import Prelude RustStr Errors Models Table Content Schema Prog Auth Files Invariant.
From S2P Require Import Payload BundlePaths BundleTree Manifest BundleRepo.
From S2P Require Textures.

Import Textures (UuidParser, hyphenated, parse_str).

(** [lib.rs] *)
Definition MAX_UPLOAD_BYTES : Z := 10 * 1024 * 1024 * 1024.

(** ** Bodies *)

Record CreateBundle : Type := mkCreateBundle {
  cb_name : string;
  cb_slug : string;
  cb_description : option string;
  cb_version : option string
}.

Record UpdateBundle : Type := mkUpdateBundle {
  ub_name : option string;
  ub_description : option string;
  ub_version : option string
}.

Record BundleWithArtifacts : Type := mkBundleWithArtifacts {
  bundle : Keyed Bundle;
  artifacts : list (Keyed BundleArtifact)
}.

Record MissingEntry : Type := mkMissingEntry {
  mi_id : Uuid;
  mi_relative_path : string;
  mi_name : string
}.

Record ValidateResult : Type := mkValidateResult {
  missing : list MissingEntry;
  orphaned : list string
}.

(** A multipart body is what [next_field] yields; a field, the chunks of its content. *)
Inductive UploadChunk : Type := Data (bytes : string) | ReadFailed (e : string).

Record UploadField : Type := mkUploadField {
  uf_name : option string;
  uf_file_name : option string;
  uf_chunks : list UploadChunk;
  uf_text : result string string
}.

Abbreviation Multipart := (list (result UploadField string)) (only parsing).

(** ** Pure helpers *)

Definition join_target_dir (target_dir name : string) : AppResult string :=
  let target := trim target_dir in
  let raw := if (target =? "")%string then name else target +:+ "/" +:+ name in
  normalize_relative_path raw "targetDir".

Definition validate_move (entry : BundleArtifact) (new_rel : string) : AppResult unit :=
  if (new_rel =? ba_relative_path entry)%string
  then Err (Conflict "the entry is already at that path")
  else if ba_is_dir entry && starts_with (ba_relative_path entry +:+ "/") new_rel
  then Err (BadRequest "cannot move a folder into its own descendant")
  else Ok ().

(** [files_root.join(..).exists()] for each tracked file, and the scanned files nobody tracks. *)
Definition diff_tree `{Primitives} (files_root : string) (files : list MissingEntry) (m : Tree)
  : ValidateResult :=
  let tracked := map mi_relative_path files in
  mkValidateResult
    (List.filter (λ f, negb (exists_at m (join_files files_root (mi_relative_path f)))) files)
    (map se_relative_path
       (List.filter (λ e, negb (se_is_dir e) && negb (existsb (String.eqb (se_relative_path e)) tracked))
          (scan_directory files_root m))).

(** [public.rs] *)
Definition content_type_for (path : string) : string :=
  let ext := to_ascii_lowercase (List.last (str_split "." path) "") in
  if (ext =? "json")%string then "application/json"
  else if (ext =? "jar")%string then "application/java-archive"
  else "application/octet-stream".

(** The entry of a folder that [create_folder] makes. *)
Definition folder_entry (path : string) : ScanEntry :=
  let '(name, category) := split_relative_path path in
  mkScanEntry path name category 0 None true None.

(** [segments[..depth].join("/")] for every depth. *)
Definition ancestors (normalized : string) : list string :=
  let segs := str_split "/" normalized in
  map (λ depth, String.concat "/" (firstn depth segs)) (seq 1 (length segs)).

(** ** Uploads *)

(** The bytes written, and how the copying ends. *)
Fixpoint stream_chunks (written : Z) (chunks : list UploadChunk) : string * AppResult Z :=
  match chunks with
  | [] => ("", Ok written)
  | ReadFailed e :: _ => ("", Err (BadRequest ("read upload field: " +:+ e)))
  | Data bytes :: chunks =>
      let written := saturating_add written (Z.of_nat (String.length bytes)) in
      if (MAX_UPLOAD_BYTES <? written)%Z
      then ("", Err (BadRequest ("upload exceeds " +:+ pretty MAX_UPLOAD_BYTES +:+ " bytes")))
      else let '(rest, r) := stream_chunks written chunks in (bytes +:+ rest, r)
  end.

(** Writes through an open handle: to nobody's file when it has been unlinked. *)
Definition write_through (now : Time) (path bytes : string) (m : Tree) : option Tree :=
  match m !! path with
  | Some (File content _) => Some (<[path := File (content +:+ bytes) now]> m)
  | _ => Some m
  end.

(** The writes of a field are one step. *)
Definition stream_field_to_file (f : UploadField) (dest : string) : prog (AppResult Z) :=
  do? fs_call "create temp upload" (λ now, create_file now dest "");
  let '(bytes, r) := stream_chunks 0 (uf_chunks f) in
  do? fs_call "write upload" (λ now, write_through now dest bytes);
  lift r.

Section Handlers.
Context `{Primitives} `{PayloadText} `{UuidParser} `{ZipReader} `{Realpath}.
Context (cfg : Config) (sql_text : SqlError → string).

Definition storage_root : string := bundles_root cfg.
Definition public_prefix : string := bundles_url cfg.

(** [AppError]'s [Display]; the text of a database error is the driver's. *)
Definition error_text (e : AppError) : string :=
  match e with
  | BadRequest m | NotFound m | Conflict m => m
  | Unauthorized => "unauthorized"
  | Forbidden => "forbidden"
  | TooManyRequests => "too many requests"
  | Database e => sql_text e
  | Internal e => e
  end.

(** [ResolvedBundle] and [ResolvedEntry], from the path parameters. *)
Definition resolved_bundle (slug : string) : prog (AppResult (Keyed Bundle)) :=
  do? lift (validate_slug slug);
  require_by_slug slug.

Definition artifact_in_bundle (bundle_id entry_id : Uuid) : prog (AppResult (Keyed BundleArtifact)) :=
  let? entry := find_artifact entry_id in
  lift (match entry with
        | Some a => if (ba_bundle_id (row a) =? bundle_id)%N then Ok a
                    else Err (NotFound "file entry not found in this build")
        | None => Err (NotFound "file entry not found in this build")
        end).

Definition resolved_entry (slug entry_id : string)
  : prog (AppResult (Keyed Bundle * Keyed BundleArtifact)) :=
  let? bundle := resolved_bundle slug in
  let? id := lift (ok_or (BadRequest "invalid entry id") (parse_str entry_id)) in
  let? entry := artifact_in_bundle (key bundle) id in
  ret_ok (bundle, entry).

Definition regenerate (bundle : Keyed Bundle) : prog (AppResult (Keyed Bundle)) :=
  BundleRepo.regenerate_manifest storage_root public_prefix bundle.

Definition root_of (bundle : Keyed Bundle) : string := files_path storage_root (b_slug (row bundle)).

(** ** Builds *)

Definition create_build (body : CreateBundle) : prog (AppResult (Keyed Bundle)) :=
  if (trim (cb_name body) =? "")%string || (trim (cb_slug body) =? "")%string
  then ret_err (BadRequest "name and slug are required")
  else
    let? id := provision_bundle storage_root (trim (cb_slug body)) (trim (cb_name body)) in
    if bool_decide (is_Some (cb_description body)) || bool_decide (is_Some (cb_version body))
    then update_bundle_meta id None (cb_description body) (cb_version body)
    else require_by_slug (trim (cb_slug body)).

Definition get_build (slug : string) : prog (AppResult BundleWithArtifacts) :=
  let? bundle := resolved_bundle slug in
  let? artifacts := list_artifacts (key bundle) in
  ret_ok (mkBundleWithArtifacts bundle artifacts).

Definition update_build (slug : string) (body : UpdateBundle) : prog (AppResult (Keyed Bundle)) :=
  let? bundle := resolved_bundle slug in
  update_bundle_meta (key bundle) (ub_name body) (ub_description body) (ub_version body).

Definition delete_build (slug : string) : prog (AppResult unit) :=
  let? bundle := resolved_bundle slug in
  do? transaction (delete_bundle_row (key bundle));
  do* remove_bundle_dir storage_root (b_slug (row bundle));
  ret_ok ().

(** ** Archives *)

(** [TempUpload::new] and its [Drop]. *)
Definition temp_upload (slug : string) : prog (AppResult string) :=
  let dir := build_path storage_root slug in
  do? fs_call "mkdir for temp" (λ now, create_dir_all now dir);
  let* id := new_uuid in
  ret_ok (path_join dir ("upload-" +:+ hyphenated id +:+ ".zip.tmp")).

Definition drop_temp (tmp : string) : prog unit := fs_quiet (remove_file tmp).

(** Whatever [p] answers, the staged file goes. *)
Definition dropping {A} (tmp : string) (p : prog (AppResult A)) : prog (AppResult A) :=
  let* r := p in
  do* drop_temp tmp;
  Ret r.

(** The fields up to [archive], which is streamed to [dest]; whether there was one. *)
Fixpoint take_archive (dest : string) (fields : Multipart) : prog (AppResult bool) :=
  match fields with
  | [] => ret_ok false
  | Err e :: _ => ret_err (BadRequest ("invalid multipart: " +:+ e))
  | Ok f :: fields =>
      if bool_decide (uf_name f = Some "archive")
      then do? stream_field_to_file f dest; ret_ok true
      else take_archive dest fields
  end.

(** The blocking task: wipe, extract, scan. *)
Definition unpack (now : Time) (tmp files_root : string) (m : Tree)
  : Tree * AppResult (list ScanEntry) :=
  match (if exists_at m files_root then remove_dir_all files_root m else Some m) with
  | None => (m, Err (Internal "clear files dir"))
  | Some m =>
      match create_dir_all now files_root m with
      | None => (m, Err (Internal "recreate files dir"))
      | Some m =>
          match extract_zip now tmp files_root m with
          | (m, Err e) => (m, Err e)
          | (m, Ok _) =>
              let m := default m (remove_file tmp m) in
              (m, Ok (scan_directory files_root m))
          end
      end
  end.

Definition ingest_archive (bundle : Keyed Bundle) (tmp : string) : prog (AppResult (Keyed Bundle)) :=
  let? scan := on_tree (λ t m,
    if t_fault t then (m, Err (Internal "extract task"))
    else unpack (t_app t) tmp (root_of bundle) m) in
  do? upsert_scan (key bundle) scan;
  regenerate bundle.

(** What went wrong becomes the build's [processing_error]. *)
Definition or_failed (bundle : Keyed Bundle) (p : prog (AppResult (Keyed Bundle)))
  : prog (AppResult (Keyed Bundle)) :=
  let* r := p in
  match r with
  | Ok refreshed => ret_ok refreshed
  | Err err =>
      do? set_status (key bundle) "failed" (Some (error_text err));
      ret_err err
  end.

Definition ensure_dir (bundle : Keyed Bundle) : prog (AppResult unit) :=
  fs_call "ensure dir" (λ now, create_dir_all now (root_of bundle)).

Definition upload_archive (slug : string) (multipart : Multipart) : prog (AppResult (Keyed Bundle)) :=
  let? bundle := resolved_bundle slug in
  do? ensure_dir bundle;
  let? tmp := temp_upload (b_slug (row bundle)) in
  dropping tmp (
    let? have_archive := take_archive tmp multipart in
    if negb have_archive then ret_err (BadRequest ("no archive file provided — send the ZIP as form field "
                                                     +:+ q "archive"))
    else
      do? set_status (key bundle) "processing" None;
      or_failed bundle (ingest_archive bundle tmp)).

(** ** Single files *)

(** Every field: the size of the last [file], the last [targetPath], the last file name. *)
Fixpoint read_upload_parts (staged : string) (size : option Z) (target name : option string)
  (fields : Multipart) : prog (AppResult (option Z * option string * option string)) :=
  match fields with
  | [] => ret_ok (size, target, name)
  | Err e :: _ => ret_err (BadRequest ("invalid multipart: " +:+ e))
  | Ok f :: fields =>
      if bool_decide (uf_name f = Some "file") then
        let? n := stream_field_to_file f staged in
        read_upload_parts staged (Some n) target (uf_file_name f) fields
      else if bool_decide (uf_name f = Some "targetPath") then
        let? text := lift (map_err (λ e, BadRequest ("read targetPath: " +:+ e)) (uf_text f)) in
        read_upload_parts staged size (Some text) name fields
      else read_upload_parts staged size target name fields
  end.

(** [target_path.filter(..).or(original_filename)]. *)
Definition raw_target (target name : option string) : option string :=
  match target with
  | Some p => if (trim p =? "")%string then name else Some p
  | None => name
  end.

(** Until the file is renamed: its size, where it goes. *)
Definition stage_upload (bundle : Keyed Bundle) (tmp : string) (multipart : Multipart)
  : prog (AppResult (Z * string)) :=
  let? '(size, target, name) := read_upload_parts tmp None None None multipart in
  let? size := lift (ok_or (BadRequest ("no file provided — send the file as form field "
                                             +:+ q "file")) size) in
  let? raw := lift (ok_or (BadRequest "targetPath or a filename is required") (raw_target target name)) in
  let? normalized := lift (normalize_relative_path raw "targetPath") in
  do? fs_call "mkdir" (λ now, create_dir_all now (parent (join_files (root_of bundle) normalized)));
  ret_ok (size, normalized).

Definition hash_at (path : string) : prog (AppResult string) :=
  fs_look (λ fault m,
    if fault then Err (Internal "read")
    else match m !! path with
         | Some (File content _) => Ok (hash_file content)
         | _ => Err (Internal "open")
         end).

Definition modified_at (path : string) : prog (option Time) :=
  fs_look (λ fault m,
    if fault then None
    else match m !! path with Some (File _ t) | Some (Dir t) => Some t | None => None end).

Definition upload_file (slug : string) (multipart : Multipart) : prog (AppResult (Keyed Bundle)) :=
  let? bundle := resolved_bundle slug in
  do? ensure_dir bundle;
  let? tmp := temp_upload (b_slug (row bundle)) in
  let* staged := stage_upload bundle tmp multipart in
  match staged with
  | Err e => do* drop_temp tmp; ret_err e
  | Ok (size, normalized) =>
      let dest := join_files (root_of bundle) normalized in
      do? fs_call "move file into place" (λ _, rename tmp dest);
      let? sha := hash_at dest in
      let* modified := modified_at dest in
      let '(name, category) := split_relative_path normalized in
      do? upsert_artifact (key bundle)
            (mkScanEntry normalized name category size (Some sha) false modified);
      regenerate bundle
  end.

Definition create_folder (slug relative_path : string) : prog (AppResult (Keyed Bundle)) :=
  let? bundle := resolved_bundle slug in
  let? normalized := lift (normalize_relative_path (trim relative_path) "relativePath") in
  do? ensure_dir bundle;
  let full := join_files (root_of bundle) normalized in
  let* taken := fs_look (λ fault m, negb fault && is_file m full) in
  if (taken : bool) then ret_err (BadRequest "a file already exists at that path")
  else
    do? fs_call "mkdir" (λ now, create_dir_all now full);
    do? upsert_rows (key bundle) (map folder_entry (ancestors normalized));
    regenerate bundle.

(** ** Entries *)

Definition delete_entry_rows (bundle_id : Uuid) (entry : Keyed BundleArtifact)
  : prog (AppResult unit) :=
  do? (if ba_is_dir (row entry)
       then delete_artifacts_with_prefix bundle_id (ba_relative_path (row entry) +:+ "/")
       else ret_ok ());
  delete_artifact (key entry).

Definition unlink_entry (files_root : string) (entry : Keyed BundleArtifact) : prog unit :=
  let path := join_files files_root (ba_relative_path (row entry)) in
  let* there := path_exists path in
  if (there : bool)
  then fs_quiet (if ba_is_dir (row entry) then remove_dir_all path else remove_file path)
  else Ret ().

(** The answer's message tells a folder from a file. *)
Definition delete_file (slug entry_id : string) : prog (AppResult bool) :=
  let? '(bundle, entry) := resolved_entry slug entry_id in
  do? transaction (delete_entry_rows (key bundle) entry);
  do* unlink_entry (root_of bundle) entry;
  do? regenerate bundle;
  ret_ok (ba_is_dir (row entry)).

Definition toggle_download_once (slug entry_id : string) (download_once : bool)
  : prog (AppResult (Keyed Bundle)) :=
  let? '(bundle, entry) := resolved_entry slug entry_id in
  do? set_download_once (key entry) download_once;
  regenerate bundle.

Definition check_destination_free (bundle_id : Uuid) (new_rel : string) (is_dir : bool)
  : prog (AppResult unit) :=
  let? taken := artifact_exists_at bundle_id new_rel in
  if (taken : bool) then ret_err (Conflict "a file or folder already exists at that path")
  else if is_dir then
    let? taken := any_artifact_with_prefix bundle_id (new_rel +:+ "/") in
    if (taken : bool) then ret_err (Conflict "a folder already exists at that path") else ret_ok ()
  else ret_ok ().

Definition move_entry (bundle_id : Uuid) (files_root : string) (entry : Keyed BundleArtifact)
  (new_rel : string) : prog (AppResult unit) :=
  do? check_destination_free bundle_id new_rel (ba_is_dir (row entry));
  move_subtree bundle_id files_root (ba_relative_path (row entry)) new_rel (ba_is_dir (row entry)).

Definition apply_move (bundle : Keyed Bundle) (entry : Keyed BundleArtifact) (new_rel : string)
  : prog (AppResult unit) :=
  do? lift (validate_move (row entry) new_rel);
  let* there := path_exists (join_files (root_of bundle) new_rel) in
  if there && negb (new_rel =? ba_relative_path (row entry))%string
  then ret_err (Conflict "a file or folder already exists at that path")
  else transaction (move_entry (key bundle) (root_of bundle) entry new_rel).

Definition rename_file (slug entry_id new_relative_path : string) : prog (AppResult (Keyed Bundle)) :=
  let? '(bundle, entry) := resolved_entry slug entry_id in
  let? normalized := lift (normalize_relative_path (trim new_relative_path) "newRelativePath") in
  do? apply_move bundle entry normalized;
  regenerate bundle.

Definition move_file (slug entry_id target_dir : string) : prog (AppResult (Keyed Bundle)) :=
  let? '(bundle, entry) := resolved_entry slug entry_id in
  let? new_rel := lift (join_target_dir target_dir (ba_name (row entry))) in
  do? apply_move bundle entry new_rel;
  regenerate bundle.

Fixpoint resolve_moves (bundle_id : Uuid) (target_dir : string) (ids : list Uuid)
  : prog (AppResult (list (Keyed BundleArtifact * string))) :=
  match ids with
  | [] => ret_ok []
  | id :: ids =>
      let? entry := artifact_in_bundle bundle_id id in
      let? new_rel := lift (join_target_dir target_dir (ba_name (row entry))) in
      do? lift (validate_move (row entry) new_rel);
      let? moves := resolve_moves bundle_id target_dir ids in
      ret_ok ((entry, new_rel) :: moves)
  end.

Fixpoint run_moves (bundle_id : Uuid) (files_root : string)
  (moves : list (Keyed BundleArtifact * string)) : prog (AppResult unit) :=
  match moves with
  | [] => ret_ok ()
  | (entry, new_rel) :: moves =>
      do? move_entry bundle_id files_root entry new_rel;
      run_moves bundle_id files_root moves
  end.

Definition move_files (slug : string) (ids : list Uuid) (target_dir : string)
  : prog (AppResult (Keyed Bundle)) :=
  let? bundle := resolved_bundle slug in
  if bool_decide (ids = []) then ret_err (BadRequest "ids must be a non-empty array")
  else
    let? moves := resolve_moves (key bundle) target_dir ids in
    do? transaction (run_moves (key bundle) (root_of bundle) moves);
    regenerate bundle.

Definition rehash_file (slug entry_id : string) : prog (AppResult (Keyed Bundle)) :=
  let? '(bundle, entry) := resolved_entry slug entry_id in
  if ba_is_dir (row entry) then ret_err (BadRequest "cannot rehash a directory")
  else
    let path := join_files (root_of bundle) (ba_relative_path (row entry)) in
    let* there := path_exists path in
    if negb there then ret_err (BadRequest "physical file not found on disk")
    else
      let? sha := hash_at path in
      do? update_artifact_sha (key entry) sha;
      regenerate bundle.

(** An id that is gone is skipped, one of another build refused. *)
Fixpoint resolve_entries (bundle_id : Uuid) (ids : list Uuid)
  : prog (AppResult (list (Keyed BundleArtifact))) :=
  match ids with
  | [] => ret_ok []
  | id :: ids =>
      let? found := find_artifact id in
      match found with
      | Some entry =>
          if (ba_bundle_id (row entry) =? bundle_id)%N then
            let? entries := resolve_entries bundle_id ids in
            ret_ok (entry :: entries)
          else ret_err (NotFound "file entry not found in this build")
      | None => resolve_entries bundle_id ids
      end
  end.

Fixpoint delete_all_rows (bundle_id : Uuid) (entries : list (Keyed BundleArtifact))
  : prog (AppResult unit) :=
  match entries with
  | [] => ret_ok ()
  | entry :: entries =>
      do? delete_entry_rows bundle_id entry;
      delete_all_rows bundle_id entries
  end.

(** [{ "deleted": .. }] *)
Definition bulk_delete (slug : string) (ids : list Uuid) : prog (AppResult nat) :=
  let? bundle := resolved_bundle slug in
  if bool_decide (ids = []) then ret_err (BadRequest "ids must be a non-empty array")
  else
    let? entries := resolve_entries (key bundle) ids in
    do? transaction (delete_all_rows (key bundle) entries);
    do* for_each entries (unlink_entry (root_of bundle));
    do? regenerate bundle;
    ret_ok (length entries).

(** The comparison is one step. *)
Definition validate (slug : string) : prog (AppResult ValidateResult) :=
  let? bundle := resolved_bundle slug in
  let? artifacts := list_artifacts (key bundle) in
  let files := map (λ a, mkMissingEntry (key a) (ba_relative_path (row a)) (ba_name (row a)))
                 (List.filter (λ a, negb (ba_is_dir (row a))) artifacts) in
  fs_look (λ fault m,
    if fault then Err (Internal "validate task") else Ok (diff_tree (root_of bundle) files m)).

Definition regenerate_build (slug : string) : prog (AppResult (Keyed Bundle)) :=
  let? bundle := resolved_bundle slug in
  do? set_status (key bundle) "processing" None;
  or_failed bundle (regenerate bundle).

(** ** [public.rs] *)

Definition get_manifest (slug : string) : prog (AppResult string) :=
  do? lift (validate_slug slug);
  do? require_by_slug slug;
  fs_look (λ fault m,
    if fault then Err (Internal "read manifest")
    else match m !! manifest_path storage_root slug with
         | Some (File content _) => Ok content
         | Some (Dir _) => Err (Internal "read manifest")
         | None => Err (NotFound "manifest not found — build may not be ready yet")
         end).

(** What [ServeFile] is given, and the [Content-Type] the answer gets. *)
Definition canonicalize (path : string) : prog (AppResult string) :=
  fs_look (λ fault m,
    ok_or (NotFound "file not found") (if fault then None else realpath m path)).

Definition serve_file (slug rel : string) : prog (AppResult (string * string)) :=
  do? lift (validate_slug slug);
  do? require_by_slug slug;
  let? normalized := lift (normalize_relative_path rel "path") in
  let root := files_path storage_root slug in
  let? canonical_root := canonicalize root in
  let? canonical_target := canonicalize (join_files root normalized) in
  if path_starts_with canonical_target canonical_root
  then ret_ok (canonical_target, content_type_for normalized)
  else ret_err (NotFound "file not found").
End Handlers.

(** ** All requests *)

Inductive BundleRequest : Type :=
| BList
| BCreate (body : CreateBundle)
| BGet (slug : string)
| BUpdate (slug : string) (body : UpdateBundle)
| BDelete (slug : string)
| BUploadArchive (slug : string) (multipart : Multipart)
| BRegenerate (slug : string)
| BValidate (slug : string)
| BUploadFile (slug : string) (multipart : Multipart)
| BCreateFolder (slug relative_path : string)
| BBulkDelete (slug : string) (ids : list Uuid)
| BMoveFiles (slug : string) (ids : list Uuid) (target_dir : string)
| BDeleteFile (slug entry_id : string)
| BToggle (slug entry_id : string) (download_once : bool)
| BRename (slug entry_id new_relative_path : string)
| BMove (slug entry_id target_dir : string)
| BRehash (slug entry_id : string)
| BManifest (slug : string)
| BServeFile (slug rel : string).

Section Serve.
Context `{Primitives} `{PayloadText} `{UuidParser} `{ZipReader} `{Realpath}.
Context (cfg : Config) (sql_text : SqlError → string).

Definition serve_bundle (r : BundleRequest) : prog unit :=
  match r with
  | BList => ignore list_bundles
  | BCreate body => ignore (create_build cfg body)
  | BGet slug => ignore (get_build slug)
  | BUpdate slug body => ignore (update_build slug body)
  | BDelete slug => ignore (delete_build cfg slug)
  | BUploadArchive slug m => ignore (upload_archive cfg sql_text slug m)
  | BRegenerate slug => ignore (regenerate_build cfg sql_text slug)
  | BValidate slug => ignore (validate cfg slug)
  | BUploadFile slug m => ignore (upload_file cfg slug m)
  | BCreateFolder slug path => ignore (create_folder cfg slug path)
  | BBulkDelete slug ids => ignore (bulk_delete cfg slug ids)
  | BMoveFiles slug ids dir => ignore (move_files cfg slug ids dir)
  | BDeleteFile slug id => ignore (delete_file cfg slug id)
  | BToggle slug id b => ignore (toggle_download_once cfg slug id b)
  | BRename slug id path => ignore (rename_file cfg slug id path)
  | BMove slug id dir => ignore (move_file cfg slug id dir)
  | BRehash slug id => ignore (rehash_file cfg slug id)
  | BManifest slug => ignore (get_manifest cfg slug)
  | BServeFile slug rel => ignore (serve_file cfg slug rel)
  end.
End Serve.

(** ** The schema's invariant *)

Section BundleSchema.
Context `{Lowercase} `{Primitives} `{PayloadText} `{UuidParser} `{ZipReader} `{Realpath}.
Context (cfg : Config) (sql_text : SqlError → string).

Local Abbreviation keeps_schema p := (prog_rel (db_rel schema_rel) p).

Lemma fs_call_schema what f : keeps_schema (fs_call what f).
Proof. apply on_tree_rel; exact _. Qed.
Lemma fs_quiet_schema f : keeps_schema (fs_quiet f).
Proof. apply on_tree_rel; exact _. Qed.
Lemma fs_look_schema {B} (f : bool → Tree → B) : keeps_schema (fs_look f).
Proof. apply on_tree_rel; exact _. Qed.
Hint Resolve fs_call_schema fs_quiet_schema fs_look_schema : loon.

Lemma update_bundle_meta_schema id n d v : keeps_schema (update_bundle_meta id n d v).
Proof. by apply on_content_schema, update_returning_ok. Qed.
Lemma upsert_artifact_schema id e : keeps_schema (upsert_artifact id e).
Proof. apply on_content_schema, upsert_ok. Qed.
Lemma update_path_schema id p : keeps_schema (update_artifact_path_tx id p).
Proof. apply on_content_schema, update_path_ok. Qed.
Lemma update_sha_schema id s : keeps_schema (update_artifact_sha id s).
Proof. by apply on_content_schema, update_artifact_ok. Qed.
Lemma set_download_once_schema id b : keeps_schema (set_download_once id b).
Proof. by apply on_content_schema, update_artifact_ok. Qed.
Hint Resolve update_bundle_meta_schema upsert_artifact_schema update_path_schema update_sha_schema
  set_download_once_schema : loon.

Lemma upsert_rows_schema id es : keeps_schema (upsert_rows id es).
Proof. induction es; cbn [upsert_rows]; prog_rel_go. Qed.
Hint Resolve upsert_rows_schema : loon.

Lemma upsert_chunks_schema id cs : keeps_schema (upsert_chunks id cs).
Proof. induction cs; cbn [upsert_chunks]; unfold upsert_artifact_chunk; prog_rel_go. Qed.
Hint Resolve upsert_chunks_schema : loon.

Lemma move_children_schema a b l : keeps_schema (move_children a b l).
Proof. induction l; cbn [move_children]; prog_rel_go. Qed.
Hint Resolve move_children_schema : loon.

Lemma present_paths_schema r l : keeps_schema (present_paths r l).
Proof. induction l; cbn [present_paths]; unfold path_exists; prog_rel_go. Qed.
Hint Resolve present_paths_schema : loon.

Lemma regenerate_schema b : keeps_schema (regenerate cfg b).
Proof.
  unfold regenerate, BundleRepo.regenerate_manifest, list_artifacts, write_manifest_atomic. prog_rel_go.
  by apply on_content_schema, update_returning_ok.
Qed.
Hint Resolve regenerate_schema : loon.

Lemma require_by_slug_schema slug : keeps_schema (require_by_slug slug).
Proof. unfold require_by_slug, find_by_slug. prog_rel_go. Qed.
Hint Resolve require_by_slug_schema : loon.

Lemma temp_upload_schema slug : keeps_schema (temp_upload cfg slug).
Proof. unfold temp_upload. prog_rel_go. Qed.
Hint Resolve temp_upload_schema : loon.

Lemma or_failed_schema b p : keeps_schema p → keeps_schema (or_failed sql_text b p).
Proof. intros Hp. unfold or_failed, set_status. prog_rel_go. Qed.
Hint Resolve or_failed_schema : loon.

Lemma resolved_bundle_schema slug : keeps_schema (resolved_bundle slug).
Proof. unfold resolved_bundle. prog_rel_go. Qed.
Hint Resolve resolved_bundle_schema : loon.

Lemma artifact_in_bundle_schema a b : keeps_schema (artifact_in_bundle a b).
Proof. unfold artifact_in_bundle, find_artifact. prog_rel_go. Qed.
Hint Resolve artifact_in_bundle_schema : loon.

Lemma resolved_entry_schema slug id : keeps_schema (resolved_entry slug id).
Proof. unfold resolved_entry. prog_rel_go. Qed.
Hint Resolve resolved_entry_schema : loon.

Lemma stream_schema f d : keeps_schema (stream_field_to_file f d).
Proof. unfold stream_field_to_file. prog_rel_go. Qed.
Hint Resolve stream_schema : loon.

Lemma take_archive_schema d l : keeps_schema (take_archive d l).
Proof. induction l as [|[f|e] l IH]; cbn [take_archive]; prog_rel_go. Qed.
Hint Resolve take_archive_schema : loon.

Lemma read_upload_parts_schema d s t n l : keeps_schema (read_upload_parts d s t n l).
Proof. revert s t n. induction l as [|[f|e] l IH]; intros s t n; cbn [read_upload_parts]; prog_rel_go. Qed.
Hint Resolve read_upload_parts_schema : loon.

Lemma delete_entry_rows_schema b e : keeps_schema (delete_entry_rows b e).
Proof. unfold delete_entry_rows, delete_artifacts_with_prefix, delete_artifact. prog_rel_go. Qed.
Hint Resolve delete_entry_rows_schema : loon.

Lemma delete_all_rows_schema b l : keeps_schema (delete_all_rows b l).
Proof. induction l; cbn [delete_all_rows]; prog_rel_go. Qed.
Hint Resolve delete_all_rows_schema : loon.

Lemma unlink_entry_schema r e : keeps_schema (unlink_entry r e).
Proof. unfold unlink_entry, path_exists. prog_rel_go. Qed.
Hint Resolve unlink_entry_schema : loon.

Lemma move_entry_schema b r e n : keeps_schema (move_entry b r e n).
Proof.
  unfold move_entry, check_destination_free, artifact_exists_at, any_artifact_with_prefix, move_subtree,
    move_on_disk, path_exists. prog_rel_go.
Qed.
Hint Resolve move_entry_schema : loon.

Lemma run_moves_schema b r l : keeps_schema (run_moves b r l).
Proof. induction l as [|[e n] l IH]; cbn [run_moves]; prog_rel_go. Qed.
Hint Resolve run_moves_schema : loon.

Lemma resolve_moves_schema b d l : keeps_schema (resolve_moves b d l).
Proof. induction l; cbn [resolve_moves]; prog_rel_go. Qed.
Hint Resolve resolve_moves_schema : loon.

Lemma resolve_entries_schema b l : keeps_schema (resolve_entries b l).
Proof. induction l; cbn [resolve_entries]; unfold find_artifact; prog_rel_go. Qed.
Hint Resolve resolve_entries_schema : loon.

Lemma apply_move_schema b e n : keeps_schema (apply_move cfg b e n).
Proof. unfold apply_move, path_exists. prog_rel_go. Qed.
Hint Resolve apply_move_schema : loon.

Lemma serve_bundle_schema r : keeps_schema (serve_bundle cfg sql_text r).
Proof.
  destruct r; cbn [serve_bundle];
    unfold list_bundles, create_build, provision_bundle, provision_bundle_row, find_bundle_id_by_slug,
      ensure_bundle_dir, require_by_slug, find_by_slug, get_build, list_artifacts, update_build,
      delete_build, delete_bundle_row, remove_bundle_dir, upload_archive, ensure_dir, temp_upload, dropping,
      drop_temp, or_failed, set_status, ingest_archive, upsert_scan, regenerate_build, validate, upload_file,
      stage_upload, hash_at, modified_at, create_folder, bulk_delete, move_files, delete_file,
      toggle_download_once, rename_file, move_file, rehash_file, get_manifest, serve_file, canonicalize,
      path_exists; prog_rel_go; eauto with loon.
Qed.
End BundleSchema.

#[export] Hint Resolve serve_bundle_schema : loon.
