(* ===== verification/BundleProps.v ===== *)
(** * What the bundle handlers achieve

    An uploaded archive replaces the build's files and rows, and its manifest describes them;
    moves and deletions keep rows and files together; downloads stay inside the build. *)

From S2P Require Import Prelude RustStr Errors Models Table Content Schema Prog Auth Files Invariant.
From S2P Require Import Payload BundlePaths BundleTree Manifest BundleRepo BundleAdmin.
From S2P Require Textures.

Import Textures (UuidParser, hyphenated, parse_str, toy_parser).

(** ** Rules *)

Definition with_content (c : Content) (st : AppState) : AppState :=
  set_db (set_content c (st_db st)) st.

Definition registry (st : AppState) : Content := content (st_db st).

Section Rules.
Context {B : Type} (T : Tick → Prop) (st : AppState).

Lemma wp_on_tree (f : Tick → Tree → Tree * B) (Q : AppState → B → Prop) :
  (∀ t, T t → Q (set_tree (f t (st_tree st)).1 st) (f t (st_tree st)).2) → wp (on_tree f) T st Q.
Proof. intros H t Ht. specialize (H t Ht). simpl. by destruct (f t (st_tree st)). Qed.

Lemma wp_on_content (f : Tick → Content → SqlResult (Content * B)) (Q : AppState → AppResult B → Prop) :
  (∀ e, Q st (Err e)) →
  (∀ t c b, T t → f t (registry st) = Ok (c, b) → Q (with_content c st) (Ok b)) →
  wp (on_content f) T st Q.
Proof.
  intros HE HO. apply wp_sql_app. intros t Ht. destruct (t_fault t); [apply HE|].
  destruct (f t (content (st_db st))) as [[c b]|e] eqn:E; cbn [and_then]; [|apply HE]. by eapply HO.
Qed.

Lemma wp_look (f : Content → B) (Q : AppState → AppResult B → Prop) :
  (∀ e, Q st (Err e)) → Q st (Ok (f (registry st))) → wp (look f) T st Q.
Proof. intros HE HO. apply wp_select. intros t Ht. by destruct (t_fault t). Qed.
End Rules.

Lemma set_tree_same st : set_tree (st_tree st) st = st.
Proof. by destruct st. Qed.

Section CalmTree.
Context (now : Time) (st : AppState).

Lemma wp_fs_call what f (Q : AppState → AppResult unit → Prop) :
  Q st (Err (Internal what)) →
  (∀ m, f now (st_tree st) = Some m → Q (set_tree m st) (Ok ())) →
  wp (fs_call what f) (calm now) st Q.
Proof.
  intros HE HO. apply wp_on_tree. intros t (F & _ & A). rewrite F, A.
  destruct (f now (st_tree st)) as [m|] eqn:E; cbn [fst snd]; [by apply HO|by rewrite set_tree_same].
Qed.

Lemma wp_fs_quiet f (Q : AppState → unit → Prop) :
  Q (set_tree (default (st_tree st) (f (st_tree st))) st) () → wp (fs_quiet f) (calm now) st Q.
Proof. intros H. apply wp_on_tree. intros t (F & _). by rewrite F. Qed.

Lemma wp_fs_look {B} (f : bool → Tree → B) (Q : AppState → B → Prop) :
  Q st (f false (st_tree st)) → wp (fs_look f) (calm now) st Q.
Proof. intros H. apply wp_on_tree. intros t (F & _). rewrite F. cbn [fst snd]. by rewrite set_tree_same. Qed.

Lemma wp_path_exists p (Q : AppState → bool → Prop) :
  Q st (exists_at (st_tree st) p) → wp (path_exists p) (calm now) st Q.
Proof. intros H. by apply wp_fs_look. Qed.
End CalmTree.

(** ** Rows by their path *)

Definition row_at (bundle_id : Uuid) (c : Content) (path : string) : option BundleArtifact :=
  option_map row (find_row (at_path bundle_id path) (bundle_artifacts c)).

Lemma at_path_true b p k a : at_path b p k a = true ↔ ba_bundle_id a = b ∧ ba_relative_path a = p.
Proof. unfold at_path. by rewrite andb_true_iff, N.eqb_eq, String.eqb_eq. Qed.

Lemma artifacts_unique c k k' a a' :
  content_ok c → bundle_artifacts c !! k = Some a → bundle_artifacts c !! k' = Some a' →
  ba_bundle_id a = ba_bundle_id a' → ba_relative_path a = ba_relative_path a' → k = k'.
Proof.
  intros S Hk Hk' E1 E2. eapply (table_ok_uniq _ _ bundle_artifacts_bundle_path_uq); [|apply (ok_artifacts c S)|done|done|].
  - by left.
  - cbn. by rewrite E1, E2, N.eqb_refl, String.eqb_refl.
Qed.

Lemma row_at_spec c b p a :
  content_ok c →
  row_at b c p = Some a ↔
  ∃ k, bundle_artifacts c !! k = Some a ∧ ba_bundle_id a = b ∧ ba_relative_path a = p.
Proof.
  intros S. unfold row_at. split.
  - destruct (find_row _ _) as [x|] eqn:F; [|done]. intros [= <-]. apply find_row_Some in F as [Hk F].
    apply at_path_true in F. eauto.
  - intros (k & Hk & Hb & Hp). erewrite find_row_unique; [|exact Hk|by apply at_path_true|]; [done|].
    intros k' a' Hk' (Hb' & Hp')%at_path_true. by eapply artifacts_unique; [|exact Hk'|exact Hk|congruence..].
Qed.

Lemma option_eq_iff {A} (x y : option A) : (∀ a, x = Some a ↔ y = Some a) → x = y.
Proof. intros H. destruct x as [a|]; [symmetry; by apply H|]. destruct y as [a|]; [by apply H|done]. Qed.

(** The row that a scanned entry leads to. *)
Definition merged (bundle_id : Uuid) (e : ScanEntry) (old : option BundleArtifact) : BundleArtifact :=
  match old with Some a => rescanned e a | None => new_artifact bundle_id e end.

Lemma upsert_row_at b0 e t c c' u :
  content_ok c → upsert b0 e t c = Ok (c', u) →
  c' = set_bundle_artifacts (bundle_artifacts c') c ∧
  ∀ b p, row_at b c' p =
    if decide (b = b0 ∧ p = se_relative_path e) then Some (merged b0 e (row_at b c p)) else row_at b c p.
Proof.
  intros S E. assert (S' : content_ok c') by (by eapply upsert_ok).
  unfold upsert in E. destruct (find_row _ _) as [x|] eqn:F.
  - injection E as <- _. split; [done|]. intros b p.
    pose proof F as F0. apply find_row_Some in F as [Hk [Hb Hp]%at_path_true]. apply option_eq_iff. intros a.
    rewrite row_at_spec by done. cbn [bundle_artifacts set_bundle_artifacts]. case_decide as D.
    + destruct D as [-> ->]. unfold row_at. rewrite F0. cbn [option_map merged].
      split; [|intros [= <-]; exists (key x); by rewrite lookup_insert_eq].
      intros (k & Ha & Ea & Pa). apply lookup_insert_Some in Ha as [[<- <-]|[Hne Ha]]; [done|].
      destruct Hne. eapply artifacts_unique; [exact S|exact Hk|exact Ha|congruence..].
    + rewrite row_at_spec by done. split; intros (k & Ha & Ea & Pa); exists k; (split; [|done]).
      * apply lookup_insert_Some in Ha as [[<- <-]|[_ Ha]]; [|done]. destruct D. cbn in Ea, Pa. by rewrite <- Ea, <- Pa.
      * rewrite lookup_insert_ne; [done|]. intros <-. destruct D. rewrite Hk in Ha. simplify_eq. done.
  - apply and_then_ok in E as ([] & Hf & E). apply and_then_ok in E as (m & E & [= <- _]).
    apply insert_row_ok in E as (Hn & -> & V). split; [done|]. intros b p. apply option_eq_iff. intros a.
    rewrite row_at_spec by done. cbn [bundle_artifacts set_bundle_artifacts]. case_decide as D.
    + destruct D as [-> ->]. unfold row_at. rewrite F. cbn [option_map merged].
      split; [|intros [= <-]; exists (t_uuid t); by rewrite lookup_insert_eq].
      intros (k & Ha & Ea & Pa). apply lookup_insert_Some in Ha as [[<- <-]|[Hne Ha]]; [done|].
      rewrite find_row_None in F. specialize (F k a Ha).
      by rewrite (proj2 (at_path_true _ _ _ _)) in F.
    + rewrite row_at_spec by done. split; intros (k & Ha & Ea & Pa); exists k; (split; [|done]).
      * apply lookup_insert_Some in Ha as [[<- <-]|[_ Ha]]; [|done]. destruct D. cbn in Ea, Pa. by rewrite <- Ea, <- Pa.
      * rewrite lookup_insert_ne; [done|]. intros <-. congruence.
Qed.

(** ** The rows of a scan *)

Definition entry_at (es : list ScanEntry) (p : string) : option ScanEntry :=
  List.find (λ e, (se_relative_path e =? p)%string) es.

(** What becomes of the row of bundle [b] at [p]. *)
Definition scan_row (b0 : Uuid) (es : list ScanEntry) (b : Uuid) (p : string)
  (old : option BundleArtifact) : option BundleArtifact :=
  if decide (b = b0)
  then match entry_at es p with Some e => Some (merged b0 e old) | None => old end
  else old.

Lemma entry_at_Some es p e : entry_at es p = Some e → e ∈ es ∧ se_relative_path e = p.
Proof. intros [H E]%find_spec_Some. by apply String.eqb_eq in E. Qed.

Lemma entry_at_None es p : entry_at es p = None ↔ p ∉ map se_relative_path es.
Proof.
  unfold entry_at. split.
  - intros F (e & -> & He)%list_elem_of_fmap. pose proof (find_spec_None _ _ F e He) as X. cbn beta in X.
    by rewrite String.eqb_refl in X.
  - intros Hp. destruct (List.find _ es) as [e|] eqn:F; [|done]. apply entry_at_Some in F as [He <-].
    destruct Hp. by apply list_elem_of_fmap_2.
Qed.

Lemma entry_at_app es es' p :
  entry_at (es ++ es') p = match entry_at es p with Some e => Some e | None => entry_at es' p end.
Proof. unfold entry_at. induction es as [|e es IH]; [done|]. cbn. by destruct (_ =? p)%string. Qed.

Lemma scan_row_app b0 es es' b p old :
  NoDup (map se_relative_path (es ++ es')) →
  scan_row b0 es' b p (scan_row b0 es b p old) = scan_row b0 (es ++ es') b p old.
Proof.
  rewrite map_app, NoDup_app. intros (_ & D & _). unfold scan_row. case_decide; [|done].
  rewrite entry_at_app. destruct (entry_at es p) as [e|] eqn:E; [|done].
  apply entry_at_Some in E as [He <-].
  by rewrite (proj2 (entry_at_None es' _)) by (by apply D, list_elem_of_fmap_2).
Qed.

(** The rows of one table changed, as [f] says. *)
Record rows_become (f : Uuid → string → option BundleArtifact → option BundleArtifact)
  (c c' : Content) : Prop := {
  rb_ok : content_ok c';
  rb_rest : c' = set_bundle_artifacts (bundle_artifacts c') c;
  rb_rows : ∀ b p, row_at b c' p = f b p (row_at b c p)
}.

Lemma with_content_twice c c' st : with_content c' (with_content c st) = with_content c' st.
Proof. by destruct st as [[]]. Qed.

Lemma registry_with c st : registry (with_content c st) = c.
Proof. by destruct st as [[]]. Qed.

Lemma with_registry st : with_content (registry st) st = st.
Proof. by destruct st as [[]]. Qed.

Lemma rows_become_trans f g c1 c2 c3 :
  rows_become f c1 c2 → rows_become g c2 c3 → rows_become (λ b p r, g b p (f b p r)) c1 c3.
Proof.
  intros [A1 A2 A3] [B1 B2 B3]. split; [done| |].
  - rewrite B2 at 1. rewrite A2 at 1. by destruct c1.
  - intros b p. by rewrite B3, A3.
Qed.

Lemma rows_become_ext f g c c' :
  (∀ b p r, f b p r = g b p r) → rows_become f c c' → rows_become g c c'.
Proof. intros E [A1 A2 A3]. split; [done..|]. intros b p. by rewrite A3, E. Qed.

Lemma rows_become_refl c : content_ok c → rows_become (λ _ _ r, r) c c.
Proof. intros S. split; [done|by destruct c|done]. Qed.

Lemma wp_upsert_rows b0 es T st (Q : AppState → AppResult unit → Prop) :
  content_ok (registry st) → NoDup (map se_relative_path es) →
  (∀ st' e, Q st' (Err e)) →
  (∀ c', rows_become (scan_row b0 es) (registry st) c' → Q (with_content c' st) (Ok ())) →
  wp (upsert_rows b0 es) T st Q.
Proof.
  revert st. induction es as [|e es IH]; intros st S N HE HO; cbn [upsert_rows].
  - apply wp_ret. rewrite <- (with_registry st). apply HO. eapply rows_become_ext; [|by apply rows_become_refl].
    intros b p r. unfold scan_row. by case_decide.
  - apply NoDup_cons in N as [Hn N]. apply wp_bind_ok, wp_on_content; [done|].
    intros t c [] _ E. pose proof (upsert_row_at _ _ _ _ _ _ S E) as [E1 E2].
    assert (R1 : rows_become (scan_row b0 [e]) (registry st) c).
    { split; [by eapply upsert_ok|done|]. intros b p. rewrite E2. unfold scan_row, entry_at. cbn [List.find].
      destruct (String.eqb_spec (se_relative_path e) p) as [<-|Hne]; repeat case_decide; naive_solver. }
    apply IH; [rewrite registry_with; apply R1|done|done|]. intros c' R2.
    rewrite with_content_twice. apply HO. rewrite registry_with in R2.
    eapply rows_become_ext; [|eapply rows_become_trans; [exact R1|exact R2]]. intros b p r. cbn beta.
    rewrite scan_row_app; [done|]. cbn [app map]. by apply NoDup_cons.
Qed.

Lemma wp_upsert_chunks b0 cs T st (Q : AppState → AppResult unit → Prop) :
  content_ok (registry st) → NoDup (map se_relative_path (concat cs)) →
  (∀ st' e, Q st' (Err e)) →
  (∀ c', rows_become (scan_row b0 (concat cs)) (registry st) c' → Q (with_content c' st) (Ok ())) →
  wp (upsert_chunks b0 cs) T st Q.
Proof.
  revert st. induction cs as [|chunk cs IH]; intros st S N HE HO; cbn [upsert_chunks concat] in *.
  - apply wp_ret. rewrite <- (with_registry st). apply HO. eapply rows_become_ext; [|by apply rows_become_refl].
    intros b p r. unfold scan_row. by case_decide.
  - pose proof N as N'. rewrite map_app, NoDup_app in N. destruct N as (N1 & _ & N2).
    apply wp_bind_ok. unfold upsert_artifact_chunk. rewrite bool_decide_true by done.
    apply wp_upsert_rows; [done..|]. intros c R1.
    apply IH; [rewrite registry_with; apply R1|done|done|]. intros c' R2.
    rewrite with_content_twice. apply HO. rewrite registry_with in R2.
    eapply rows_become_ext; [|eapply rows_become_trans; [exact R1|exact R2]]. intros b p r. cbn beta.
    by rewrite scan_row_app.
Qed.

Lemma concat_chunks {A} n (l : list A) : 0 < n → concat (chunks n l) = l.
Proof.
  intros Hn. unfold chunks. assert (H : ∀ fuel (l : list A), length l ≤ fuel → concat (chunks_go fuel n l) = l).
  { induction fuel as [|fuel IH]; intros l' L; [by destruct l'; simpl in L; [|lia]|].
    destruct l' as [|a l']; [done|]. cbn [chunks_go concat]. rewrite IH, firstn_skipn; [done|].
    destruct n as [|n]; [lia|]. cbn [skipn]. rewrite length_skipn. simpl in L. lia. }
  by apply H.
Qed.

(** The rows of a bundle are those of the scan, and nothing else changes. *)
Definition replaced (b0 : Uuid) (es : list ScanEntry) (b : Uuid) (p : string)
  (old : option BundleArtifact) : option BundleArtifact :=
  if decide (b = b0) then option_map (λ e, merged b0 e old) (entry_at es p) else old.

Lemma wp_upsert_scan b0 scan now st (Q : AppState → AppResult unit → Prop) :
  content_ok (registry st) → NoDup (map se_relative_path scan) →
  (∀ st' e, Q st' (Err e)) →
  (∀ c', rows_become (replaced b0 scan) (registry st) c' → Q (with_content c' st) (Ok ())) →
  wp (upsert_scan b0 scan) (calm now) st Q.
Proof.
  intros S N HE HO. apply wp_transaction_calm, wp_bind_ok. assert (Hn : 0 < UPSERT_CHUNK) by (unfold UPSERT_CHUNK; lia).
  apply wp_upsert_chunks; [done|by rewrite concat_chunks|by intros|]. rewrite concat_chunks by done.
  intros c R. apply wp_on_content; [done|]. intros t c' [] _ E. rewrite registry_with in E. injection E as <-.
  rewrite with_content_twice. apply HO. destruct R as [R1 R2 R3].
  assert (S' : content_ok (set_bundle_artifacts (delete_where (unscanned b0 (map se_relative_path scan)) (bundle_artifacts c)) c)).
  { apply content_set_artifacts; [done|]. apply table_ok_delete, R1. }
  split; [done|rewrite R2 at 2; by destruct (registry st)|].
  intros b p. transitivity (if decide (b = b0 ∧ entry_at scan p = None) then None else row_at b c p).
  - apply option_eq_iff. intros a. rewrite row_at_spec by done. cbn [bundle_artifacts set_bundle_artifacts].
    setoid_rewrite lookup_delete_where_Some.
    assert (U : ∀ k, ba_bundle_id a = b → ba_relative_path a = p →
      unscanned b0 (map se_relative_path scan) k a = false ↔ ¬ (b = b0 ∧ entry_at scan p = None)).
    { intros k <- <-. unfold unscanned. rewrite andb_false_iff, N.eqb_neq, negb_false_iff, existsb_spec, entry_at_None.
      setoid_rewrite String.eqb_eq. split.
      - intros [Hb|(x & Hx & <-)] [? ?]; done.
      - intros Hn'. destruct (decide (ba_bundle_id a = b0)) as [E|E]; [right|by left].
        destruct (decide (ba_relative_path a ∈ map se_relative_path scan)); [eauto|naive_solver]. }
    case_decide as D.
    + split; [|done]. intros (k & [Hk Hu] & Hb & Hp). by rewrite U in Hu.
    + rewrite row_at_spec by done. split.
      * intros (k & [Hk _] & Hb & Hp). eauto.
      * intros (k & Hk & Hb & Hp). exists k. by rewrite U.
  - rewrite R3. unfold scan_row, replaced. destruct (decide (b = b0)) as [->|Hne]; [|by rewrite decide_False by tauto].
    destruct (entry_at scan p) eqn:E; [by rewrite decide_False by naive_solver|by rewrite decide_True].
Qed.

(** ** The tree after an archive has been unpacked *)

Lemma lookup_remove_tree p m q :
  remove_tree p m !! q = if (q =? p)%string || below p q then None else m !! q.
Proof.
  unfold remove_tree. destruct (_ || _) eqn:E.
  - apply map_lookup_filter_None. right. intros n _. cbn [fst]. congruence.
  - destruct (m !! q) as [n|] eqn:Hq; [by apply map_lookup_filter_Some|].
    apply map_lookup_filter_None. by left.
Qed.

Lemma not_below_self p : below p p = false.
Proof.
  apply not_true_iff_false. intros (r & E)%below_spec. apply (f_equal String.length) in E.
  rewrite !str_app_length in E. simpl in E. lia.
Qed.

(** A directory that has just been made again is empty. *)
Lemma emptied_settled now root m m' :
  joinable root → create_dir_all now root (remove_tree root m) = Some m' →
  settled root m' ∧ (∀ q, below root q = true → m' !! q = None) ∧
  (∀ q, below root q = false → q ∉ lineage root → m' !! q = m !! q).
Proof.
  intros J (H1 & H2 & H3 & H4)%create_dir_all_spec.
  assert (B : ∀ q, below root q = true → m' !! q = None).
  { intros q Hb. rewrite H2 by (intros Hin; apply lineage_not_below in Hin; congruence).
    rewrite lookup_remove_tree, Hb. by rewrite orb_true_r. }
  assert (L : root ∈ lineage root).
  { pose proof (place_in_lineage root [] [] J (Forall_nil_2 _)) as L. done. }
  split_and!; [split; [split; [by apply H3|]|by intros a Ha; apply H3]|done|].
  - intros q [n Hn] Hb. rewrite B in Hn by done. done.
  - intros q Hb Hl. rewrite H2 by done. rewrite lookup_remove_tree, Hb.
    destruct (String.eqb_spec q root) as [->|]; done.
Qed.

Lemma rooted_delete root p m :
  p ≠ root → below root p = false → rooted root m → rooted root (delete p m).
Proof.
  intros Hne Hb [R1 R2].
  assert (K : ∀ q, q ≠ p → is_dir m q = true → is_dir (delete p m) q = true).
  { intros q Hq D. unfold is_dir. by rewrite lookup_delete_ne by (by apply not_eq_sym). }
  split; [by apply K|]. intros q [n Hn] Hbq. apply lookup_delete_Some in Hn as [Hq Hn].
  destruct (R2 q) as (l & x & I & -> & D); [eauto|done|]. exists l, x. split_and!; [done..|].
  apply K; [|done]. intros <-. destruct l as [|y l]; [done|]. by rewrite below_place in Hb.
Qed.

Section Unpack.
Context `{Primitives} `{ZipReader}.

(** What a successful task has done to the tree [m]. *)
Record unpacked (now : Time) (tmp root : string) (m m' : Tree) (content : string)
  (entries : list (result ZipEntry string)) : Prop := {
  un_zip : zip_entries content = Ok entries;
  un_rooted : rooted root m';
  un_files : ∀ q c t, below root q = true →
    m' !! q = Some (File c t) ↔ extracted root entries !! q = Some c ∧ t = now;
  un_rest : ∀ q, below root q = false → q ≠ tmp → q ∉ lineage root → m' !! q = m !! q;
  un_tmp : m' !! tmp = None
}.

Lemma unpack_spec now tmp root m m' content t scan :
  joinable root → is_dir m root = true → below root tmp = false → tmp ∉ lineage root →
  m !! tmp = Some (File content t) → unpack now tmp root m = (m', Ok scan) →
  scan = scan_directory root m' ∧ ∃ entries, unpacked now tmp root m m' content entries.
Proof.
  intros J D B L Ht. unfold unpack, exists_at.
  rewrite bool_decide_true by (apply is_dir_some in D as [? ->]; eauto).
  unfold remove_dir_all. rewrite D. destruct (create_dir_all _ _ _) as [m1|] eqn:C; [|done].
  apply (emptied_settled _ _ _ _ J) in C as (S1 & E1 & O1).
  destruct (extract_zip now tmp root m1) as [m2 [[]|e]] eqn:X; [|done].
  unfold extract_zip in X. rewrite O1, Ht in X by done.
  destruct (zip_entries content) as [entries|e] eqn:Z; [|done]. destruct (_ <? _)%N; [done|].
  apply extract_entries_spec in X as [[[R2 S2] [G1 G2]] X]; [|done|done|by vm_compute].
  destruct (X eq_refl) as [_ X2]. unfold remove_file, is_file.
  assert (T2 : m2 !! tmp = Some (File content t)) by (by rewrite G1, O1).
  rewrite T2. cbn [default]. intros [= <- <-]. split; [done|]. exists entries. split.
  - done.
  - apply rooted_delete; [|done|done]. intros ->. apply L.
    apply (place_in_lineage root [] [] J (Forall_nil_2 _)).
  - intros q c t' Hb. rewrite lookup_delete_ne by congruence. rewrite X2, E1 by done.
    destruct (extracted root entries !! q); naive_solver.
  - intros q Hb Hq Hl. rewrite lookup_delete_ne by congruence. by rewrite G1, O1.
  - apply lookup_delete_eq.
Qed.
End Unpack.

(** ** Regeneration *)

Lemma build_manifest_ext slug prefix f g l :
  (∀ a, a ∈ l → f a = g a) → build_manifest slug prefix l f = build_manifest slug prefix l g.
Proof.
  induction l as [|a l IH] using rev_ind; intros E; [done|]. rewrite !build_app. unfold build_step.
  rewrite IH by (intros b Hb; apply E, elem_of_app; by left).
  rewrite (E a); [done|]. apply elem_of_app. right. by left.
Qed.

Section Regeneration.
Context `{PayloadText} (storage_root public_prefix : string).

(** The tree with a new [artifacts.json]; the build's directory may have had to be made. *)
Record manifest_written (now : Time) (slug json : string) (m m' : Tree) : Prop := {
  mw_file : m' !! manifest_path storage_root slug = Some (File json now);
  mw_tmp : manifest_tmp storage_root slug ≠ manifest_path storage_root slug →
    m' !! manifest_tmp storage_root slug = None;
  mw_rest : ∀ q, q ≠ manifest_path storage_root slug → q ≠ manifest_tmp storage_root slug →
    m' !! q = m !! q ∨
    q ∈ lineage (build_path storage_root slug) ∧ m !! q = None ∧ m' !! q = Some (Dir now)
}.

Lemma wp_write_manifest now slug json st (Q : AppState → AppResult unit → Prop) :
  (∀ st' e, Q st' (Err e)) →
  (∀ m', manifest_written now slug json (st_tree st) m' → Q (set_tree m' st) (Ok ())) →
  wp (write_manifest_atomic storage_root slug json) (calm now) st Q.
Proof.
  intros HE HO. apply wp_bind_ok, wp_fs_call; [apply HE|]. intros m1 C.
  apply create_dir_all_spec in C as (C1 & C2 & _ & C4).
  apply wp_bind_ok, wp_fs_call; [apply HE|]. cbn [st_tree set_tree]. intros m2 E2. unfold create_file in E2. cbv beta in E2.
  destruct (_ || _) in E2; [done|]. injection E2 as <-.
  apply wp_fs_call; [apply HE|]. cbn [st_tree set_tree]. intros m3 E3. unfold rename in E3. cbv beta in E3.
  rewrite lookup_insert_eq in E3. cbv beta iota in E3. destruct (_ || _) in E3; [done|]. injection E3 as <-.
  set (f := manifest_path storage_root slug) in *. set (tmp := manifest_tmp storage_root slug) in *.
  apply HO. split; fold f tmp.
  - apply lookup_insert_eq.
  - intros Hne. rewrite lookup_insert_ne by (by apply not_eq_sym). apply lookup_delete_eq.
  - intros q Hf Ht. rewrite lookup_insert_ne, lookup_delete_ne, lookup_insert_ne by (by apply not_eq_sym).
    destruct (decide (q ∈ lineage (build_path storage_root slug))) as [Hl|Hl]; [|left; by apply C2].
    destruct (st_tree st !! q) as [n|] eqn:Hq; [left; by eapply lookup_weaken|].
    destruct (C4 q Hq); [left; congruence|auto].
Qed.

Lemma wp_present_paths now root paths st (Q : AppState → list string → Prop) :
  Q st (List.filter (λ p, exists_at (st_tree st) (join_files root p)) paths) →
  wp (present_paths root paths) (calm now) st Q.
Proof.
  revert Q. induction paths as [|p paths IH]; intros Q HQ; cbn [present_paths List.filter] in *; [done|].
  apply wp_bind, wp_path_exists, wp_bind, IH, wp_ret. by destruct (exists_at _ _).
Qed.

(** The manifest of the rows that have a node. *)
Definition manifest_of (st : AppState) (id : Uuid) (slug : string) : BuiltManifest :=
  build_manifest slug public_prefix (map row (artifacts_of id (registry st)))
    (λ a, exists_at (st_tree st) (join_files (files_path storage_root slug) (ba_relative_path a))).

(** The state after a regeneration of the bundle [id], whose row was [b]. *)
Definition regenerated (now : Time) (id : Uuid) (slug : string) (b : Bundle) (m' : Tree)
  (st : AppState) : AppState :=
  with_content (set_bundles (<[id := with_manifest (manifest_of st id slug) now b]>
                               (bundles (registry st))) (registry st)) (set_tree m' st).

Lemma wp_regenerate now x st (Q : AppState → AppResult (Keyed Bundle) → Prop) :
  (∀ st' e, Q st' (Err e)) →
  (∀ m' b, bundles (registry st) !! key x = Some b →
     let built := manifest_of st (key x) (b_slug (row x)) in
     manifest_written now (b_slug (row x)) (to_json (manifest built)) (st_tree st) m' →
     Q (regenerated now (key x) (b_slug (row x)) b m' st)
       (Ok (mkKeyed (key x) (with_manifest built now b)))) →
  wp (BundleRepo.regenerate_manifest storage_root public_prefix x) (calm now) st Q.
Proof.
  intros HE HO. unfold BundleRepo.regenerate_manifest. apply wp_bind_ok, wp_look; [intros; apply HE|].
  apply wp_bind, wp_present_paths. set (rows := artifacts_of _ _).
  assert (E : build_manifest (b_slug (row x)) public_prefix (map row rows)
     (λ a, existsb (String.eqb (ba_relative_path a))
        (List.filter (λ p, exists_at (st_tree st) (join_files (files_path storage_root (b_slug (row x))) p))
          (map (λ a, ba_relative_path (row a)) rows))) = manifest_of st (key x) (b_slug (row x))).
  { apply build_manifest_ext. intros a Ha. apply eq_true_iff_eq. rewrite existsb_spec. split.
    - intros (p & [_ Hp]%elem_of_filterb & <-%String.eqb_eq). done.
    - intros Hp. exists (ba_relative_path a). split; [|apply String.eqb_refl]. apply elem_of_filterb.
      split; [|done]. apply list_elem_of_fmap in Ha as (k & -> & Hk).
      by apply (list_elem_of_fmap_2 (λ a, ba_relative_path (row a))). }
  rewrite E. apply wp_bind_ok, wp_write_manifest; [apply HE|]. intros m' W.
  apply wp_on_content; [intros; apply HE|]. intros t c b (F & D & A) U. unfold update_returning in U.
  destruct (bundles (registry (set_tree m' st)) !! key x) as [b0|] eqn:Hb; [|done].
  injection U as <- <-. rewrite D. by apply HO.
Qed.
End Regeneration.

(** ** Uploads *)

Fixpoint chunks_text (chunks : list UploadChunk) : option string :=
  match chunks with
  | [] => Some ""
  | ReadFailed _ :: _ => None
  | Data b :: chunks => option_map (String.append b) (chunks_text chunks)
  end.

Lemma stream_ok w chunks bytes n :
  stream_chunks w chunks = (bytes, Ok n) → chunks_text chunks = Some bytes.
Proof.
  revert w bytes n. induction chunks as [|[b|e] chunks IH]; intros w bytes n; cbn [stream_chunks chunks_text].
  - by intros [= <- _].
  - destruct (_ <? _)%Z; [done|]. destruct (stream_chunks _ chunks) as [rest r] eqn:E. intros [= <- ->].
    by rewrite (IH _ _ _ E).
  - done.
Qed.

(** The bytes of the first field named [archive], if nothing fails before and within it. *)
Fixpoint uploaded_bytes (fields : Multipart) : option string :=
  match fields with
  | [] => None
  | Err _ :: _ => None
  | Ok f :: fields =>
      if bool_decide (uf_name f = Some "archive") then chunks_text (uf_chunks f)
      else uploaded_bytes fields
  end.

Lemma wp_stream f dest now st (Q : AppState → AppResult Z → Prop) :
  (∀ st' e, Q st' (Err e)) →
  (∀ bytes n, chunks_text (uf_chunks f) = Some bytes →
     Q (set_tree (<[dest := File bytes now]> (st_tree st)) st) (Ok n)) →
  wp (stream_field_to_file f dest) (calm now) st Q.
Proof.
  intros HE HO. apply wp_bind_ok, wp_fs_call; [apply HE|]. intros m E. unfold create_file in E. cbv beta in E.
  destruct (_ || _) in E; [done|]. injection E as <-.
  destruct (stream_chunks 0 (uf_chunks f)) as [bytes r] eqn:S.
  apply wp_bind_ok, wp_fs_call; [apply HE|]. cbn [st_tree set_tree]. intros m E. unfold write_through in E.
  cbv beta in E. rewrite lookup_insert_eq in E. cbv beta iota in E. injection E as <-.
  apply wp_ret. destruct r as [n|e]; [|apply HE]. rewrite insert_insert_eq, str_app_nil.
  by eapply HO, stream_ok.
Qed.

Lemma wp_take_archive dest fields now st (Q : AppState → AppResult bool → Prop) :
  (∀ st' e, Q st' (Err e)) → Q st (Ok false) →
  (∀ bytes, uploaded_bytes fields = Some bytes →
     Q (set_tree (<[dest := File bytes now]> (st_tree st)) st) (Ok true)) →
  wp (take_archive dest fields) (calm now) st Q.
Proof.
  intros HE HN HO. induction fields as [|[f|e] fields IH]; cbn [take_archive uploaded_bytes] in *;
    [done| |apply wp_ret, HE].
  case_bool_decide as D; [|by apply IH]. apply wp_bind_ok, wp_stream; [apply HE|].
  intros bytes n E. apply wp_ret. by apply HO.
Qed.

Lemma wp_resolved_bundle slug T st (Q : AppState → AppResult (Keyed Bundle) → Prop) :
  (∀ e, Q st (Err e)) →
  (∀ x, validate_slug slug = Ok () → bundles (registry st) !! key x = Some (row x) →
     b_slug (row x) = slug → Q st (Ok x)) →
  wp (resolved_bundle slug) T st Q.
Proof.
  intros HE HO. apply wp_bind_ok, wp_ret. destruct (validate_slug slug) as [[]|e] eqn:V; [|apply HE].
  apply wp_bind_ok, wp_look; [done|]. apply wp_ret. destruct (find_row _ _) as [x|] eqn:F; [|apply HE].
  apply find_row_Some in F as [Hx E%String.eqb_eq]. by apply HO.
Qed.

Lemma wp_dropping {A} tmp (p : prog (AppResult A)) now st (Q : AppState → AppResult A → Prop) :
  wp p (calm now) st (λ st' r, Q (set_tree (default (st_tree st') (remove_file tmp (st_tree st'))) st') r) →
  wp (dropping tmp p) (calm now) st Q.
Proof.
  intros H. apply wp_bind. eapply wp_conseq; [exact H|]. intros st' r HQ. cbn beta. by apply wp_bind, wp_fs_quiet.
Qed.

(** ** Where things are in a build's directory *)

Section Layout.
Context (storage slug : string) (J : joinable storage) (S : inert slug).

Lemma build_joinable : joinable (build_path storage slug).
Proof.
  unfold build_path, builds_root. assert (I1 : inert "builds") by done.
  rewrite (path_join_inert storage) by done.
  assert (J1 : joinable (storage +:+ "/" +:+ "builds")) by (apply joinable_join; [apply J|done]).
  rewrite path_join_inert by done. apply joinable_join; [apply J1|done].
Qed.

Lemma files_place : files_path storage slug = place (build_path storage slug) ["files"].
Proof. apply path_join_inert; [apply build_joinable|done]. Qed.

Lemma files_joinable : joinable (files_path storage slug).
Proof. rewrite files_place. apply place_joinable; [apply build_joinable|by repeat constructor]. Qed.

Lemma app_cancel a x y : a +:+ x = a +:+ y → x = y.
Proof. induction a as [|c a IH]; [done|]. rewrite !str_app_cons. intros [= E]. by apply IH. Qed.

(** A path in the build's directory that does not start like [files]. *)
Lemma beside_files c rest :
  c ≠ "f"%char → let p := build_path storage slug +:+ "/" +:+ String c rest in
  below (files_path storage slug) p = false ∧ (p ∉ lineage (files_path storage slug)) ∧
  p ≠ files_path storage slug.
Proof.
  intros Hc p. assert (Hne : p ≠ files_path storage slug).
  { rewrite files_place. subst p. unfold place. cbn [String.concat]. intros E%app_cancel. by injection E. }
  split_and!; [| |done].
  - apply not_true_iff_false. intros (r & E)%below_spec. rewrite files_place in E. subst p.
    unfold place in E. cbn [String.concat] in E. rewrite <- str_app_assoc in E. apply app_cancel in E. by injection E.
  - rewrite files_place. intros [L|(l1 & x & l2 & E & ->)]%lineage_place; [| |by repeat constructor].
    + subst p. pose proof (lineage_not_below _ _ L) as B.
      assert (B' : below (build_path storage slug) (build_path storage slug +:+ "/" +:+ String c rest) = true)
        by (apply below_spec; eauto).
      congruence.
    + destruct l1 as [|? [|]]; try done. injection E as <- <-. by rewrite files_place in Hne.
Qed.

Lemma manifest_beside :
  manifest_path storage slug = build_path storage slug +:+ "/" +:+ "artifacts.json" ∧
  manifest_tmp storage slug = build_path storage slug +:+ "/" +:+ "artifacts.json.tmp".
Proof. split; apply path_join_inert; try apply build_joinable; done. Qed.

Lemma temp_beside name :
  path_join (build_path storage slug) ("upload-" +:+ name) = build_path storage slug +:+ "/" +:+ "upload-" +:+ name.
Proof.
  destruct build_joinable as [J1 J2]. unfold path_join. destruct (starts_with _ (_ +:+ _)) eqn:E.
  - apply starts_slash in E as (s & E). done.
  - by rewrite (proj2 (String.eqb_neq _ _) J1), J2.
Qed.

Lemma below_build q : below (files_path storage slug) q = true → q ∉ lineage (build_path storage slug).
Proof.
  rewrite files_place. intros (r & ->)%below_spec L. apply lineage_not_below in L.
  assert (B : below (build_path storage slug) (place (build_path storage slug) ["files"] +:+ "/" +:+ r) = true).
  { apply below_spec. exists ("files" +:+ "/" +:+ r). unfold place. cbn [String.concat]. by rewrite <- !str_app_assoc. }
  congruence.
Qed.
End Layout.

(** ** An uploaded archive *)

Section UploadArchive.
Context `{Primitives} `{PayloadText} `{UuidParser} `{ZipReader}.
Context (cfg : Config) (sql_text : SqlError → string).

Local Abbreviation storage := (bundles_root cfg).

(** What a successful upload has done. *)
Record archive_taken (now : Time) (slug : string) (multipart : Multipart) (st st' : AppState)
  (b : Keyed Bundle) (content : string) (entries : list (result ZipEntry string)) (b0 : Bundle)
  : Prop := {
  at_bytes : uploaded_bytes multipart = Some content;
  at_zip : zip_entries content = Ok entries;
  at_bundle : bundles (registry st) !! key b = Some b0 ∧ b_slug b0 = slug;
  (** The files are those of the archive. *)
  at_files : ∀ q c t, below (files_path storage slug) q = true →
    st_tree st' !! q = Some (File c t) ↔
    extracted (files_path storage slug) entries !! q = Some c ∧ t = now;
  (** There is one row for each node, with its size and digest; a row that was there
      keeps its [download_once]. *)
  at_rows : ∀ p a, row_at (key b) (registry st') p = Some a ↔
    ∃ l n, l ≠ [] ∧ Forall tidy l ∧ p = String.concat "/" l ∧
      st_tree st' !! place (files_path storage slug) l = Some n ∧
      a = merged (key b) (scan_entry p n) (row_at (key b) (registry st) p);
  at_others : ∀ b' p, b' ≠ key b → row_at b' (registry st') p = row_at b' (registry st) p;
  (** The manifest on disk and the bundle's row describe all rows. *)
  at_manifest :
    let built := build_manifest slug (bundles_url cfg) (map row (artifacts_of (key b) (registry st')))
                   (λ _, true) in
    st_tree st' !! manifest_path storage slug = Some (File (to_json (manifest built)) now) ∧
    row b = with_manifest built now b0 ∧
    bundles (registry st') = <[key b := row b]> (bundles (registry st))
}.

Lemma elem_of_artifacts c id a :
  content_ok c → a ∈ map row (artifacts_of id c) → row_at id c (ba_relative_path a) = Some a.
Proof.
  intros S (k & -> & Hk)%list_elem_of_fmap. unfold artifacts_of, order_by in Hk.
  rewrite merge_sort_Permutation in Hk. apply elem_of_select_rows in Hk as [Hk Hb%N.eqb_eq].
  apply row_at_spec; eauto.
Qed.

Lemma wp_set_status now id status e st (Q : AppState → AppResult unit → Prop) :
  (∀ st' e, Q st' (Err e)) →
  Q (with_content (set_bundles (update_where (λ k _, (k =? id)%N) (with_status status e now)
                                  (bundles (registry st))) (registry st)) st) (Ok ()) →
  wp (set_status id status e) (calm now) st Q.
Proof.
  intros HE HO. apply wp_on_content; [apply HE|]. intros t c [] (_ & D & _) [= <-]. by rewrite D.
Qed.

(** The rows match the tree [m] as far as the files of the build go. *)
Lemma scanned_rows id root m scan c c' :
  joinable root → rooted root m → scan = scan_directory root m →
  rows_become (replaced id scan) c c' →
  (∀ p a, row_at id c' p = Some a ↔
    ∃ l n, l ≠ [] ∧ Forall tidy l ∧ p = String.concat "/" l ∧ m !! place root l = Some n ∧
      a = merged id (scan_entry p n) (row_at id c p)) ∧
  (∀ b' p, b' ≠ id → row_at b' c' p = row_at b' c p).
Proof.
  intros J R -> [_ _ RB]. destruct (scan_exact root m J R) as [N E]. split.
  - intros p a. rewrite RB. unfold replaced. rewrite decide_True by done. split.
    + destruct (entry_at _ p) as [e|] eqn:F; [|done]. intros [= <-].
      apply entry_at_Some in F as [He <-]. apply E in He as (l & n & Hne & I & Hn & ->).
      rewrite scan_entry_path. exists l, n. done.
    + intros (l & n & Hne & I & -> & Hn & ->).
      destruct (entry_at (scan_directory root m) (String.concat "/" l)) as [e|] eqn:F.
      * apply entry_at_Some in F as [He Ep]. apply E in He as (l' & n' & Hne' & I' & Hn' & ->).
        rewrite scan_entry_path in Ep. apply concat_inj in Ep as ->; [|done..].
        rewrite Hn in Hn'. by injection Hn' as ->.
      * apply entry_at_None in F. destruct F. apply list_elem_of_fmap.
        exists (scan_entry (String.concat "/" l) n). rewrite scan_entry_path. split; [done|].
        apply E. eauto 10.
  - intros b' p Hb. rewrite RB. unfold replaced. by rewrite decide_False.
Qed.

(** What the task needs of the staged file. *)
Lemma staged_apart slug name :
  joinable storage → inert slug →
  let tmp := path_join (build_path storage slug) ("upload-" +:+ name) in
  below (files_path storage slug) tmp = false ∧ (tmp ∉ lineage (files_path storage slug)) ∧
  (tmp ∉ lineage (build_path storage slug)) ∧
  tmp ≠ manifest_path storage slug ∧ tmp ≠ manifest_tmp storage slug.
Proof.
  intros J I. cbv zeta. rewrite temp_beside by done. destruct (manifest_beside storage slug J I) as [-> ->].
  destruct (beside_files storage slug J I "u" ("pload-" +:+ name)) as (B & L & _); [done|].
  split_and!; [exact B|exact L| | |].
  - intros L'%lineage_not_below. assert (B' : below (build_path storage slug)
      (build_path storage slug +:+ "/" +:+ "upload-" +:+ name) = true) by (apply below_spec; eauto). congruence.
  - intros E%app_cancel. by injection E.
  - intros E%app_cancel. by injection E.
Qed.

Lemma below_manifest slug q :
  joinable storage → inert slug → below (files_path storage slug) q = true →
  q ≠ manifest_path storage slug ∧ q ≠ manifest_tmp storage slug.
Proof.
  intros J I B. destruct (manifest_beside storage slug J I) as [-> ->].
  split; intros ->.
  - by destruct (beside_files storage slug J I "a" "rtifacts.json") as (B' & _); [done|congruence].
  - by destruct (beside_files storage slug J I "a" "rtifacts.json.tmp") as (B' & _); [done|congruence].
Qed.

(** Regeneration leaves the build's files alone. *)
Lemma written_below now slug json m m' q :
  joinable storage → inert slug → manifest_written storage now slug json m m' →
  below (files_path storage slug) q = true → m' !! q = m !! q.
Proof.
  intros J I W B. destruct (below_manifest slug q J I B) as [N1 N2].
  destruct (mw_rest _ _ _ _ _ _ W q N1 N2) as [E|(L & _)]; [done|].
  by apply below_build in L.
Qed.

Lemma wp_ingest now id b tmp st (Q : AppState → AppResult (Keyed Bundle) → Prop) content t :
  joinable storage → inert (b_slug b) → content_ok (registry st) →
  let root := files_path storage (b_slug b) in
  is_dir (st_tree st) root = true → below root tmp = false → (tmp ∉ lineage root) →
  (tmp ∉ lineage (build_path storage (b_slug b))) →
  tmp ≠ manifest_path storage (b_slug b) → tmp ≠ manifest_tmp storage (b_slug b) →
  st_tree st !! tmp = Some (File content t) →
  (∀ st' e, Q st' (Err e)) →
  (∀ st' m entries b0 c',
     unpacked now tmp root (st_tree st) m content entries →
     rows_become (replaced id (scan_directory root m)) (registry st) c' →
     bundles (registry st) !! id = Some b0 →
     let built := build_manifest (b_slug b) (bundles_url cfg) (map row (artifacts_of id c')) (λ _, true) in
     manifest_written storage now (b_slug b) (to_json (manifest built)) m (st_tree st') →
     registry st' = set_bundles (<[id := with_manifest built now b0]> (bundles (registry st))) c' →
     Q st' (Ok (mkKeyed id (with_manifest built now b0)))) →
  wp (ingest_archive cfg (mkKeyed id b) tmp) (calm now) st Q.
Proof.
  intros J I S root D B L LB N1 N2 Ht HE HO. apply wp_bind_ok, wp_on_tree. intros tk (F & _ & A).
  rewrite F, A. change (root_of cfg (mkKeyed id b)) with root.
  destruct (unpack now tmp root (st_tree st)) as [m [scan|e]] eqn:U; cbn [fst snd]; [|apply HE].
  apply (unpack_spec now tmp root _ _ content t) in U as (-> & entries & U); [|by apply files_joinable|done..].
  pose proof (un_rooted _ _ _ _ _ _ _ U) as R.
  destruct (scan_exact root m (files_joinable storage (b_slug b) J I) R) as [N E].
  apply wp_bind_ok, wp_upsert_scan; [done|done|by intros|]. intros c' RB.
  unfold regenerate, storage_root, public_prefix. apply wp_regenerate; [apply HE|]. intros m' b0 Hb built W. cbn [key row] in *.
  rewrite registry_with in Hb. rewrite (rb_rest _ _ _ RB) in Hb. cbn [bundles set_bundle_artifacts] in Hb.
  assert (EM : built = build_manifest (b_slug b) (bundles_url cfg) (map row (artifacts_of id c')) (λ _, true)).
  { unfold built, manifest_of. rewrite registry_with. apply build_manifest_ext. intros a Ha.
    apply elem_of_artifacts in Ha; [|apply RB].
    destruct (scanned_rows id root m _ _ _ (files_joinable storage (b_slug b) J I) R eq_refl RB) as [RS _].
    apply RS in Ha as (l & n & Hne & Il & Ep & Hn & _). unfold exists_at.
    rewrite bool_decide_true; [done|]. cbn [st_tree with_content set_db set_tree]. rewrite Ep.
    rewrite join_files_normal; [|by apply files_joinable|by exists l; split_and!; [done|by apply tidy_inert|]].
    rewrite place_below in Hn by done. unfold storage_root. fold root. rewrite Hn. eauto. }
  unfold regenerated. fold built. rewrite EM in *. rewrite !registry_with.
  cbn [st_tree with_content set_db set_tree] in W.
  eapply HO; [exact U|exact RB|exact Hb|exact W|].
  rewrite registry_with. rewrite (rb_rest _ _ _ RB). done.
Qed.

Lemma wp_upload_archive now slug multipart st (Q : AppState → AppResult (Keyed Bundle) → Prop) :
  joinable storage → content_ok (registry st) →
  (∀ st' e, Q st' (Err e)) →
  (∀ st' b content entries b0,
     archive_taken now slug multipart st st' b content entries b0 → Q st' (Ok b)) →
  wp (upload_archive cfg sql_text slug multipart) (calm now) st Q.
Proof.
  intros J S HE HO. apply wp_bind_ok, wp_resolved_bundle; [intros; apply HE|].
  intros [id b] V Hb Es. cbn [key row] in *. subst slug. apply validate_slug_ok in V as [I _].
  apply wp_bind_ok, wp_fs_call; [apply HE|]. intros m1 C1. cbv beta in C1.
  change (root_of cfg (mkKeyed id b)) with (files_path storage (b_slug b)) in C1.
  apply create_dir_all_spec in C1 as (_ & _ & D1 & _).
  assert (L0 : files_path storage (b_slug b) ∈ lineage (files_path storage (b_slug b))).
  { apply (place_in_lineage _ [] []); [by apply files_joinable|constructor]. }
  apply wp_bind_ok, wp_bind_ok, wp_fs_call; [apply HE|]. cbn [st_tree set_tree]. intros m2 C2. cbv beta in C2.
  apply create_dir_all_spec in C2 as (K2 & _ & _ & _).
  apply wp_bind, wp_new_uuid. intros tk _. apply wp_ret.
  set (tmp := path_join _ _).
  destruct (staged_apart (b_slug b) (hyphenated (t_uuid tk) +:+ ".zip.tmp") J I) as (B & L & LB & N1 & N2).
  change (path_join (build_path storage (b_slug b)) _) with tmp in B, L, LB, N1, N2.
  apply wp_dropping, wp_bind_ok, wp_take_archive; [intros; apply HE|apply wp_ret, HE|].
  intros content EB. cbn [negb st_tree set_tree]. apply wp_bind_ok, wp_set_status; [intros; apply HE|].
  apply wp_bind. set (st1 := with_content _ _).
  apply (wp_ingest now id b tmp st1 _ content now); try done.
  - apply bundles_update; [exact S|done].
  - cbn. unfold is_dir. rewrite lookup_insert_ne.
    + apply (is_dir_mono m1); [exact K2|by apply D1].
    + intros E. by rewrite E in L.
  - apply lookup_insert_eq.
  - intros st' e. apply wp_bind_ok, wp_set_status; [intros; apply HE|]. apply wp_ret, HE.
  - intros st' m entries b0 c' U RB Hb0 built W ER. apply wp_ret.
    assert (T' : st_tree st' !! tmp = None).
    { destruct (mw_rest _ _ _ _ _ _ W tmp N1 N2) as [->|(L' & _)]; [apply U|done]. }
    unfold remove_file, is_file. rewrite T'. cbn [default]. rewrite set_tree_same.
    change (registry st1) with (set_bundles (update_where (λ k _, (k =? id)%N)
       (with_status "processing" None now) (bundles (registry st))) (registry st)) in *.
    cbn [bundles set_bundles] in *. rewrite update_where_key in *. rewrite (alter_row _ _ _ b Hb) in *.
    rewrite lookup_insert_eq in Hb0. injection Hb0 as <-. rewrite insert_insert_eq in ER.
    assert (RA : ∀ x p, row_at x (registry st') p = row_at x c' p) by (intros; by rewrite ER).
    destruct (scanned_rows id _ m _ _ _ (files_joinable storage (b_slug b) J I) (un_rooted _ _ _ _ _ _ _ U) eq_refl RB) as [RS RO].
    apply (HO st' _ content entries b). split; cbn [key row].
    + exact EB.
    + apply U.
    + done.
    + intros q c t Bq. rewrite (written_below _ _ _ _ _ q J I W Bq). by apply U.
    + intros p a. rewrite RA, RS. split; intros (l & n & Hne & Il & Ep & Hn & Ea); exists l, n;
        (split_and!; [done..| |done]); revert Hn;
        rewrite (written_below _ _ _ _ _ (place (files_path storage (b_slug b)) l) J I W); try done; by apply below_place.
    + intros b' p Hne. rewrite RA. by apply RO.
    + replace (artifacts_of id (registry st')) with (artifacts_of id c') by (by rewrite ER).
      split_and!; [apply W|done|by rewrite ER].
Qed.

(** C23. Uploading an archive replaces a build. When the upload succeeds, the files below the
    build's directory are exactly those of the archive, there is exactly one row for every
    file and directory, with its size and digest and the [download_once] it had before, the rows of
    other builds are untouched, and the manifest on disk and the build's row describe all rows. *)
Theorem upload_archive_exact slug multipart now o st st' b :
  joinable storage → content_ok (registry st) → (∀ i, calm now (o i)) →
  exec (upload_archive cfg sql_text slug multipart) o st = (st', Ok b) →
  ∃ content entries b0, archive_taken now slug multipart st st' b content entries b0.
Proof.
  intros J S Ho E.
  refine (wp_exec _ (calm now) o st (λ st' r, ∀ b, r = Ok b →
    ∃ content entries b0, archive_taken now slug multipart st st' b content entries b0) st' (Ok b) Ho E _ b eq_refl).
  apply wp_upload_archive; [done..|by intros|]. intros st1 b1 content entries b0 A b2 [= <-]. eauto.
Qed.
End UploadArchive.

(** ** An example *)

Definition sample_content : Content :=
  set_bundle_artifacts
    {[7%N := mkBundleArtifact 1 "mods/a.jar" "a.jar" "mods" 3 (Some "old") false true None;
      8%N := mkBundleArtifact 1 "stale.txt" "stale.txt" "root" 1 (Some "s") false false None;
      9%N := mkBundleArtifact 2 "x" "x" "root" 1 (Some "x") false false None]}
    (set_bundles {[1%N := draft "pack" "Pack" 1; 2%N := draft "other" "Other" 1]} content_empty).

Definition pack_files : string := files_path "data/bundle-registry" "pack".

Definition sample_disk : Tree :=
  foldl (λ (m : Tree) (f : Tree → option Tree), default m (f m)) ∅
    [create_dir_all 1 (pack_files +:+ "/mods"); create_file 2 (pack_files +:+ "/mods/a.jar") "old";
     create_file 2 (pack_files +:+ "/stale.txt") "s"].

Definition registry_state : AppState := with_content sample_content (set_tree sample_disk sample_state).

Definition archive_field (bytes : string) : UploadField :=
  mkUploadField (Some "archive") (Some "pack.zip") [Data bytes] (Err "binary").

Definition sample_upload : AppState * AppResult (Keyed Bundle) :=
  exec (upload_archive (H := toy_primitives) (H0 := plain_text) (H1 := toy_parser) (H2 := toy_zip)
          default_config (λ _, "") "pack" [Ok (archive_field "sample")]) (calm_oracle 50) registry_state.

Definition sample_row : Keyed Bundle :=
  match sample_upload.2 with Ok b => b | Err _ => mkKeyed 0%N (draft "" "" 0) end.

Lemma sample_content_ok : content_ok sample_content.
Proof. apply content_okb_sound. vm_compute. reflexivity. Qed.

Lemma default_joinable : joinable (bundles_root default_config).
Proof. split; [discriminate|reflexivity]. Qed.

Lemma upload_archive_exact_witness :
  sample_upload.2 = Ok sample_row ∧ b_files_count (row sample_row) = 2%Z ∧
  map (λ a, (ba_relative_path a, ba_size a, ba_download_once a))
    (map row (artifacts_of 1 (registry sample_upload.1)))
  = [("empty", 0%Z, false); ("mods", 0%Z, false); ("mods/a.jar", 1%Z, true); ("mods/b.jar", 2%Z, false)] ∧
  ∃ content entries b0,
    archive_taken (H := toy_primitives) (H0 := plain_text) (H2 := toy_zip) default_config 50 "pack"
      [Ok (archive_field "sample")] registry_state sample_upload.1 sample_row content entries b0.
Proof.
  split; [vm_compute; reflexivity|]. split; [vm_compute; reflexivity|]. split; [vm_compute; reflexivity|].
  apply (upload_archive_exact (H := toy_primitives) (H0 := plain_text) (H1 := toy_parser) (H2 := toy_zip)
           default_config (λ _, "") "pack" [Ok (archive_field "sample")] 50 (calm_oracle 50)).
  - exact default_joinable.
  - exact sample_content_ok.
  - intros i. apply calm_oracle_calm.
  - vm_compute. reflexivity.
Defined.
