(* ===== verification/BundleMoves.v ===== *)
(** * Rows and files move together

    Every artifact row of a build has its file or folder on disk ([backed]), and the
    handlers that move, delete and add single entries keep it so; what a move does to the rows
    and to the tree, exactly. *)

From S2P Require Import Prelude RustStr Errors Models Table Content Schema Prog Auth Files Invariant.
From S2P Require Import Payload BundlePaths BundleTree Manifest BundleRepo BundleAdmin BundleProps.
From S2P Require Textures.

Import Textures (UuidParser, hyphenated, parse_str, toy_parser).

(** ** The tree after a rename *)

Lemma relocate_self a b : relocate a b a = b.
Proof. unfold relocate. by rewrite String.eqb_refl. Qed.

Lemma relocate_below a b r : relocate a b (a +:+ "/" +:+ r) = b +:+ "/" +:+ r.
Proof.
  unfold relocate. rewrite (proj2 (under_spec a _ r)) by done.
  destruct (String.eqb_spec (a +:+ "/" +:+ r) a) as [E|]; [|done].
  apply (f_equal String.length) in E. rewrite !str_app_length in E. simpl in E. lia.
Qed.

Lemma relocate_else a b q : q ≠ a → below a q = false → relocate a b q = q.
Proof.
  intros Hne Hb. unfold relocate. rewrite (proj2 (String.eqb_neq _ _)) by done.
  destruct (under a q) as [r|] eqn:U; [|done]. apply under_spec in U as ->.
  assert (X : below a (a +:+ "/" +:+ r) = true) by (apply below_spec; eauto). congruence.
Qed.

(** A path is the directory, below it, or elsewhere. *)
Lemma place_cases a q : q = a ∨ (∃ r, q = a +:+ "/" +:+ r) ∨ (q ≠ a ∧ below a q = false).
Proof.
  destruct (decide (q = a)) as [|Hne]; [by left|]. destruct (below a q) eqn:B; [|by right; right].
  apply below_spec in B. by right; left.
Qed.

(** The conditions under which a directory is renamed. *)
Definition movable (a b : string) (m : Tree) : Prop :=
  a ≠ b ∧ below a b = false ∧ ∀ q, is_Some (m !! q) → below b q = false.

Lemma relocate_inj a b m q q' :
  movable a b m → is_Some (delete b m !! q) → is_Some (delete b m !! q') →
  relocate a b q = relocate a b q' → q = q'.
Proof.
  intros (Hab & _ & Hb) [n [Hq Hn]%lookup_delete_Some] [n' [Hq' Hn']%lookup_delete_Some].
  assert (B : ∀ r, q ≠ b +:+ "/" +:+ r ∧ q' ≠ b +:+ "/" +:+ r).
  { intros r. split; intros ->.
    - assert (X : below b (b +:+ "/" +:+ r) = true) by (apply below_spec; eauto). rewrite Hb in X by eauto. done.
    - assert (X : below b (b +:+ "/" +:+ r) = true) by (apply below_spec; eauto). rewrite Hb in X by eauto. done. }
  assert (L : ∀ r, b ≠ b +:+ "/" +:+ r).
  { intros r E. apply (f_equal String.length) in E. rewrite !str_app_length in E. simpl in E. lia. }
  destruct (place_cases a q) as [->|[(r & ->)|[N1 N2]]]; destruct (place_cases a q') as [->|[(r' & ->)|[N1' N2']]];
    rewrite ?relocate_self, ?relocate_below, ?relocate_else by done; intros E; try done.
  - by destruct (L r').
  - by destruct (L r).
  - by apply app_cancel, app_cancel in E as ->.
  - by destruct (B r) as [_ ?].
  - by destruct (B r') as [? _].
Qed.


Lemma move_tree_lookup a b m q n :
  movable a b m →
  move_tree a b m !! q = Some n ↔ ∃ q0, q0 ≠ b ∧ m !! q0 = Some n ∧ q = relocate a b q0.
Proof.
  intros M. unfold move_tree. rewrite <- elem_of_list_to_map.
  - rewrite list_elem_of_fmap. split.
    + intros ([q0 n0] & [= -> ->] & H%elem_of_map_to_list). apply lookup_delete_Some in H as [H1 H2]. eauto.
    + intros (q0 & H1 & H2 & ->). exists (q0, n). split; [done|]. apply elem_of_map_to_list.
      by apply lookup_delete_Some.
  - change (NoDup (map fst (map (λ kv, (relocate a b kv.1, kv.2)) (map_to_list (delete b m))))).
    rewrite map_map. cbn [fst]. apply (NoDup_fmap_2_strong (λ kv, relocate a b kv.1)); [|apply NoDup_map_to_list].
    intros [q1 n1] [q2 n2] H1%elem_of_map_to_list H2%elem_of_map_to_list E. cbn [fst] in E.
    apply (relocate_inj _ _ _ _ _ M) in E as ->; [congruence|eauto..].
Qed.

(** ** The rows of a move *)

Lemma has_prefix_true b p k a :
  has_prefix b (p +:+ "/") k a = true ↔ ba_bundle_id a = b ∧ below p (ba_relative_path a) = true.
Proof.
  unfold has_prefix. rewrite andb_true_iff, N.eqb_eq, like_escape, below_spec.
  split; intros [E (r & Hr & ?)] || intros [E (r & Hr)]; split; try done.
  - exists r. by rewrite Hr, <- str_app_assoc.
  - exists r. by rewrite Hr, <- str_app_assoc, like_all.
Qed.

(** The rows that move: the entry, and for a folder what is below it. *)
Definition moving (b : Uuid) (old : string) (is_dir : bool) : Uuid → BundleArtifact → bool :=
  λ _ a, (ba_bundle_id a =? b)%N
         && ((ba_relative_path a =? old)%string || is_dir && below old (ba_relative_path a)).

Definition move_row (old new : string) (a : BundleArtifact) : BundleArtifact :=
  repathed (relocate old new (ba_relative_path a)) a.

Definition moved_rows (b : Uuid) (old new : string) (is_dir : bool) (m : gmap Uuid BundleArtifact)
  : gmap Uuid BundleArtifact :=
  update_where (moving b old is_dir) (move_row old new) m.

Lemma repathed_fields p a :
  ba_bundle_id (repathed p a) = ba_bundle_id a ∧ ba_relative_path (repathed p a) = p ∧
  ba_is_dir (repathed p a) = ba_is_dir a.
Proof. unfold repathed. by destruct (split_relative_path p). Qed.

Lemma alter_missing {R} (f : R → R) k (m : gmap N R) : m !! k = None → alter f k m = m.
Proof. intros Hk. apply map_eq. intros i. rewrite lookup_alter. case_decide as D; [subst; by rewrite Hk|done]. Qed.

Lemma wp_update_path id path T st (Q : AppState → AppResult unit → Prop) :
  content_ok (registry st) →
  (∀ st' e, Q st' (Err e)) →
  (let c := set_bundle_artifacts (alter (repathed path) id (bundle_artifacts (registry st))) (registry st) in
   content_ok c → Q (with_content c st) (Ok ())) →
  wp (update_artifact_path_tx id path) T st Q.
Proof.
  intros S HE HO. apply wp_on_content; [intros; apply HE|]. intros t c [] _ E.
  pose proof (update_path_ok id path t _ _ _ E S) as S'.
  destruct (bundle_artifacts (registry st) !! id) as [a|] eqn:Ha.
  - apply and_then_ok in E as (m & E & [= <-]). apply update_row_ok in E as [-> _].
    rewrite <- (alter_row (repathed path) _ _ a Ha) in *. by apply HO.
  - injection E as <-. rewrite alter_missing in HO by done. cbv zeta in HO.
    replace (set_bundle_artifacts _ _) with (registry st) in HO by (by destruct (registry st)). by apply HO.
Qed.

(** The children one by one. *)
Definition move_one (old new : string) (m : gmap Uuid BundleArtifact) (child : Keyed BundleArtifact)
  : gmap Uuid BundleArtifact :=
  alter (repathed (relocate old new (ba_relative_path (row child)))) (key child) m.

Lemma wp_move_children old new l T st (Q : AppState → AppResult unit → Prop) :
  content_ok (registry st) →
  (∀ x, x ∈ l → below old (ba_relative_path (row x)) = true) →
  (∀ st' e, Q st' (Err e)) →
  (let c := set_bundle_artifacts (foldl (move_one old new) (bundle_artifacts (registry st)) l) (registry st) in
   content_ok c → Q (with_content c st) (Ok ())) →
  wp (move_children (old +:+ "/") new l) T st Q.
Proof.
  revert st. induction l as [|x l IH]; intros st S B HE HO; cbn [move_children foldl] in *.
  - apply wp_ret. rewrite <- (with_registry st). cbv zeta in HO.
    replace (set_bundle_artifacts _ _) with (registry st) in HO by (by destruct (registry st)). by apply HO.
  - destruct (proj1 (below_spec old (ba_relative_path (row x)))) as [r Er]; [apply B; by left|].
    rewrite (proj2 (strip_prefix_spec _ _ r)) by (by rewrite Er, <- str_app_assoc).
    apply wp_bind_ok, wp_update_path; [done|apply HE|]. cbv zeta. intros S1.
    apply IH; [by rewrite registry_with|intros y Hy; apply B; by right|done|]. cbv zeta.
    rewrite registry_with, with_content_twice.
    assert (E1 : move_one old new (bundle_artifacts (registry st)) x
      = alter (repathed (new +:+ "/" +:+ r)) (key x) (bundle_artifacts (registry st))).
    { unfold move_one. by rewrite Er, relocate_below. }
    rewrite E1 in HO. exact HO.
Qed.

Lemma foldl_move_one old new l (m : gmap Uuid BundleArtifact) k :
  NoDup (map key l) →
  foldl (move_one old new) m l !! k =
  match List.find (λ x, (key x =? k)%N) l with
  | Some x => repathed (relocate old new (ba_relative_path (row x))) <$> m !! k
  | None => m !! k
  end.
Proof.
  revert m. induction l as [|x l IH]; intros m N; [done|]. cbn [foldl List.find map] in *.
  apply NoDup_cons in N as [Hx N]. rewrite IH by done. unfold move_one. rewrite lookup_alter.
  destruct (N.eqb_spec (key x) k) as [<-|Hne].
  - rewrite decide_True by done. destruct (List.find _ l) as [y|] eqn:F; [|done].
    apply find_spec_Some in F as [Hy Ey%N.eqb_eq]. destruct Hx. rewrite <- Ey. by apply list_elem_of_fmap_2.
  - by rewrite decide_False.
Qed.

(** The rows of a subtree, in one update. *)
Lemma fold_is_moved b old new is_dir c x :
  content_ok c → find_row (at_path b old) (bundle_artifacts c) = Some x →
  (is_dir = true → below old new = false) →
  let m1 := alter (repathed new) (key x) (bundle_artifacts c) in
  foldl (move_one old new) m1 (if is_dir then select_rows (has_prefix b (old +:+ "/")) m1 else [])
  = moved_rows b old new is_dir (bundle_artifacts c).
Proof.
  intros S F G m1. apply find_row_Some in F as [Hx [Hb Hp]%at_path_true].
  apply map_eq. intros k. unfold moved_rows. rewrite lookup_update_where, foldl_move_one;
    [|destruct is_dir; [apply NoDup_keys_select_rows|constructor]].
  assert (L : m1 !! k = (if decide (k = key x) then Some (repathed new (row x)) else bundle_artifacts c !! k)).
  { unfold m1. rewrite lookup_alter. case_decide as D; case_decide as D'; try congruence. subst k. by rewrite Hx. }
  destruct (decide (k = key x)) as [->|Hne].
  - rewrite Hx. cbn [fmap option_fmap option_map]. unfold moving.
    rewrite Hb, Hp, N.eqb_refl, String.eqb_refl. cbn [andb orb]. unfold move_row. rewrite Hp, relocate_self.
    destruct (List.find _ _) as [y|] eqn:FY; [|by rewrite L]. exfalso.
    apply find_spec_Some in FY as [Hy Ey%N.eqb_eq]. destruct is_dir; [|by apply not_elem_of_nil in Hy].
    apply elem_of_select_rows in Hy as [Hy Py]. rewrite Ey, L in Hy. injection Hy as Hy.
    apply has_prefix_true in Py as [_ Py]. rewrite <- Hy in Py. destruct (repathed_fields new (row x)) as (_ & E & _).
    rewrite E, G in Py; done.
  - destruct (List.find _ _) as [y|] eqn:FY.
    + apply find_spec_Some in FY as [Hy Ey%N.eqb_eq]. destruct is_dir; [|by apply not_elem_of_nil in Hy].
      apply elem_of_select_rows in Hy as [Hy Py]. rewrite Ey in *. rewrite L in Hy |- *. rewrite Hy. cbn.
      apply has_prefix_true in Py as [P1 P2]. unfold moving. rewrite P1, N.eqb_refl, P2.
      cbn [andb]. by rewrite orb_true_r.
    + rewrite L. destruct (bundle_artifacts c !! k) as [a|] eqn:Ha; [|done]. cbn. unfold moving.
      destruct (N.eqb_spec (ba_bundle_id a) b) as [Eb|]; [|done]. cbn [andb].
      destruct (String.eqb_spec (ba_relative_path a) old) as [Ep|_].
      { destruct Hne. by eapply artifacts_unique; [exact S|exact Ha|exact Hx|congruence..]. }
      destruct is_dir; [|done]. cbn [andb orb]. destruct (below old (ba_relative_path a)) eqn:B; [|done]. exfalso.
      pose proof (find_spec_None _ _ FY (mkKeyed k a)) as X. cbn [key] in X. rewrite N.eqb_refl in X.
      discriminate X. apply elem_of_select_rows. cbn [key row]. rewrite L. split; [done|]. by apply has_prefix_true.
Qed.

(** ** A move in its transaction *)

(** What happens on disk: nothing when there is nothing at the old path. *)
Definition moved_tree (now : Time) (a b : string) (m m' : Tree) : Prop :=
  if exists_at m a
  then ∃ m1, create_dir_all now (parent b) m = Some m1 ∧ rename a b m1 = Some m'
  else m' = m.

Lemma wp_move_on_disk now a b st (Q : AppState → AppResult unit → Prop) :
  (∀ st' e, Q st' (Err e)) →
  (∀ m', moved_tree now a b (st_tree st) m' → Q (set_tree m' st) (Ok ())) →
  wp (move_on_disk a b) (calm now) st Q.
Proof.
  intros HE HO. unfold move_on_disk, moved_tree in *. apply wp_bind, wp_path_exists.
  destruct (exists_at (st_tree st) a).
  - apply wp_bind_ok, wp_fs_call; [apply HE|]. intros m1 C. apply wp_fs_call; [apply HE|].
    cbn [st_tree set_tree]. intros m' R. apply HO. eauto.
  - apply wp_ret. rewrite <- (set_tree_same st). by apply HO.
Qed.

(** A taken place, a folder with something below it. *)
Definition taken (b : Uuid) (new : string) (is_dir : bool) (c : Content) : bool :=
  exists_row (at_path b new) (bundle_artifacts c)
  || is_dir && exists_row (has_prefix b (new +:+ "/")) (bundle_artifacts c).

Lemma wp_check_free b new is_dir T st (Q : AppState → AppResult unit → Prop) :
  (∀ st' e, Q st' (Err e)) →
  (taken b new is_dir (registry st) = false → Q st (Ok ())) →
  wp (check_destination_free b new is_dir) T st Q.
Proof.
  intros HE HO. unfold taken in HO.
  assert (P : ∀ p (m : gmap Uuid BundleArtifact), (0 <? count_rows p m)%nat = exists_row p m).
  { intros p m. apply eq_true_iff_eq. by rewrite Nat.ltb_lt, count_rows_pos, exists_row_true. }
  apply wp_bind_ok, wp_look; [intros; apply HE|]. cbn beta. rewrite P.
  destruct (exists_row (at_path b new) _); [apply HE|]. cbn [orb] in HO.
  destruct is_dir; [|by apply HO]. apply wp_bind_ok, wp_look; [intros; apply HE|]. cbn beta. rewrite P.
  cbn [andb] in HO. destruct (exists_row _ _); [apply HE|by apply HO].
Qed.

Lemma taken_false b new is_dir c k a :
  taken b new is_dir c = false → bundle_artifacts c !! k = Some a → ba_bundle_id a = b →
  ba_relative_path a ≠ new ∧ (is_dir = true → below new (ba_relative_path a) = false).
Proof.
  unfold taken. rewrite orb_false_iff, andb_false_iff, !exists_row_false. intros [T1 T2] Hk Hb. split.
  - intros E. specialize (T1 k a Hk). by rewrite (proj2 (at_path_true _ _ _ _)) in T1.
  - intros ->. destruct T2 as [|T2]; [done|]. apply not_true_iff_false. intros B.
    specialize (T2 k a Hk). by rewrite (proj2 (has_prefix_true _ _ _ _)) in T2.
Qed.

(** What a committed move has done. *)
Record moved (now : Time) (b : Uuid) (root old new : string) (is_dir : bool) (st st' : AppState)
  : Prop := {
  mv_free : taken b new is_dir (registry st) = false;
  mv_entry : is_Some (row_at b (registry st) old);
  mv_ok : content_ok (registry st');
  mv_rows : registry st' =
    set_bundle_artifacts (moved_rows b old new is_dir (bundle_artifacts (registry st))) (registry st);
  mv_tree : moved_tree now (join_files root old) (join_files root new) (st_tree st) (st_tree st')
}.

Lemma wp_move_entry now b root x new st (Q : AppState → AppResult unit → Prop) :
  content_ok (registry st) →
  (ba_is_dir (row x) = true → below (ba_relative_path (row x)) new = false) →
  (∀ st' e, Q st' (Err e)) →
  (∀ st', moved now b root (ba_relative_path (row x)) new (ba_is_dir (row x)) st st' → Q st' (Ok ())) →
  wp (move_entry b root x new) (calm now) st Q.
Proof.
  intros S G HE HO. set (old := ba_relative_path (row x)) in *. set (is_dir := ba_is_dir (row x)) in *.
  apply wp_bind_ok, wp_check_free; [apply HE|]. intros Free.
  apply wp_bind_ok, wp_look; [intros; apply HE|]. fold old is_dir. apply wp_bind_ok, wp_ret.
  destruct (find_row _ _) as [y|] eqn:F; [|apply HE]. cbn [ok_or].
  pose proof (fold_is_moved b old new is_dir (registry st) y S F G) as E. cbv zeta in E.
  apply wp_bind_ok, wp_update_path; [done|apply HE|]. cbv zeta. set (c1 := set_bundle_artifacts _ _). intros S1.
  assert (K : ∀ st', content_ok (registry st') →
     st' = with_content (set_bundle_artifacts (moved_rows b old new is_dir (bundle_artifacts (registry st))) (registry st)) st →
     wp (move_on_disk (join_files root old) (join_files root new)) (calm now) st' Q).
  { intros st' S' ->. apply wp_move_on_disk; [apply HE|]. intros m' M. apply HO. split; try done.
    unfold row_at. by rewrite F. }
  apply wp_bind_ok. destruct is_dir.
  - apply wp_bind_ok, wp_look; [intros; apply HE|]. rewrite registry_with. cbn beta.
    apply wp_move_children; [by rewrite registry_with| |apply HE|].
    { intros z [_ [_ Hz]%has_prefix_true]%elem_of_select_rows. exact Hz. }
    cbv zeta. rewrite registry_with, with_content_twice. unfold c1 at 1 2. cbn [bundle_artifacts set_bundle_artifacts].
    intros S2. apply K; [by rewrite registry_with|]. f_equal. unfold c1. cbn [bundle_artifacts set_bundle_artifacts].
    rewrite E. by destruct (registry st).
  - apply wp_ret. cbn [foldl] in E. apply K; [by rewrite registry_with|]. unfold c1. by rewrite E.
Qed.

(** ** Rows that have their node *)

Definition tidy_path (p : string) : Prop := Forall tidy (str_split slash p).

Lemma split_slash a r : str_split slash (a +:+ "/" +:+ r) = str_split slash a ++ str_split slash r.
Proof.
  rewrite <- (concat_split r) at 1. destruct (str_split_cons slash r) as (p & ps & E).
  apply split_join; [by rewrite E|apply str_split_lacks].
Qed.

Lemma tidy_path_below a r : tidy_path (a +:+ "/" +:+ r) ↔ tidy_path a ∧ tidy_path r.
Proof. unfold tidy_path. by rewrite split_slash, Forall_app. Qed.

Lemma tidy_path_normal p : tidy_path p → normal_path p.
Proof.
  intros T. exists (str_split slash p). split_and!; [|by apply tidy_inert|by rewrite concat_split].
  by destruct (str_split_cons slash p) as (x & xs & ->).
Qed.

Lemma normalized_tidy raw field p : normalize_relative_path raw field = Ok p → tidy_path p.
Proof.
  intros (H1 & H2 & H3 & ->)%normalize_ok. pose proof (segments_inert _ H2) as I. unfold tidy_path.
  rewrite normal_split by done. apply Forall_and. split; [done|].
  apply Forall_forall. intros x [Hx _]%elem_of_filterb.
  pose proof (split_parts_lack slash _ _ (unify_lacks raw)) as L. rewrite Forall_forall in L. by apply L.
Qed.

Lemma tidy_path_concat l : l ≠ [] → Forall tidy l → tidy_path (String.concat "/" l).
Proof. intros Hne H. unfold tidy_path. by rewrite normal_split by first [done|by apply tidy_inert]. Qed.

Definition node_is_dir (n : Node) : bool := match n with Dir _ => true | File _ _ => false end.

Definition backed (b : Uuid) (root : string) (c : Content) (m : Tree) : Prop :=
  ∀ k a, bundle_artifacts c !! k = Some a → ba_bundle_id a = b →
    tidy_path (ba_relative_path a) ∧
    ∃ n, m !! (root +:+ "/" +:+ ba_relative_path a) = Some n ∧ node_is_dir n = ba_is_dir a.

Lemma below_cancel root old p :
  below (root +:+ "/" +:+ old) (root +:+ "/" +:+ p) = below old p.
Proof.
  apply eq_true_iff_eq. rewrite !below_spec. split; intros (r & E); exists r.
  - rewrite <- !str_app_assoc in E. by apply app_cancel, app_cancel in E.
  - rewrite E. by rewrite <- !str_app_assoc.
Qed.

Lemma relocate_join root old new p :
  relocate (root +:+ "/" +:+ old) (root +:+ "/" +:+ new) (root +:+ "/" +:+ p)
  = root +:+ "/" +:+ relocate old new p.
Proof.
  destruct (place_cases old p) as [->|[(r & ->)|[N B]]].
  - by rewrite !relocate_self.
  - rewrite relocate_below. replace (root +:+ "/" +:+ old +:+ "/" +:+ r)
      with ((root +:+ "/" +:+ old) +:+ "/" +:+ r) by (by rewrite <- !str_app_assoc).
    rewrite relocate_below. by rewrite <- !str_app_assoc.
  - rewrite (relocate_else old new p) by done. apply relocate_else; [|by rewrite below_cancel].
    intros E. by apply app_cancel, app_cancel in E.
Qed.

Lemma relocate_tidy old new p : tidy_path new → tidy_path p → tidy_path (relocate old new p).
Proof.
  intros Tn Tp. destruct (place_cases old p) as [->|[(r & ->)|[N B]]].
  - by rewrite relocate_self.
  - rewrite relocate_below. apply tidy_path_below. by apply tidy_path_below in Tp as [_ Tp].
  - by rewrite relocate_else.
Qed.

Lemma rename_dir a b m m' t :
  m !! a = Some (Dir t) → a ≠ b → rename a b m = Some m' → movable a b m ∧ m' = move_tree a b m.
Proof.
  intros Ha Hne. unfold rename. rewrite Ha. rewrite (proj2 (String.eqb_neq _ _) Hne).
  destruct (_ || _ || _ || _) eqn:C; [done|]. intros [= <-]. split; [|done].
  rewrite !orb_false_iff in C. destruct C as [[[_ C1] C2] _]. split_and!; [done..|].
  intros q [n Hn]. rewrite existsb_none in C1. apply (C1 (q, n)). by apply elem_of_map_to_list.
Qed.

Lemma moved_backed now b root x new st st' :
  joinable root → tidy_path new → content_ok (registry st) →
  bundle_artifacts (registry st) !! key x = Some (row x) → ba_bundle_id (row x) = b →
  let old := ba_relative_path (row x) in
  new ≠ old → (ba_is_dir (row x) = true → below old new = false) →
  moved now b root old new (ba_is_dir (row x)) st st' →
  backed b root (registry st) (st_tree st) → backed b root (registry st') (st_tree st').
Proof.
  intros J Tn S Hx Hb old Hne G [Free _ _ MR MT] B.
  destruct (B _ _ Hx Hb) as (To & n & Hn & Kn). fold old in To, Hn.
  rewrite !join_files_normal in MT by first [done|by apply tidy_path_normal].
  set (a := root +:+ "/" +:+ old) in *. set (d := root +:+ "/" +:+ new) in *.
  assert (Had : a ≠ d) by (intros E; by apply app_cancel, app_cancel in E).
  unfold moved_tree, exists_at in MT. rewrite bool_decide_true in MT by eauto. destruct MT as (m1 & C & MT).
  apply create_dir_all_spec in C as (K & _ & _ & _).
  intros k a' Ha' Hb'. rewrite MR in Ha'. apply lookup_update_where_Some in Ha' as (a0 & Ha0 & ->).
  assert (Hb0 : ba_bundle_id a0 = b).
  { destruct (moving _ _ _ _ _); [|done]. unfold move_row in Hb'.
    by destruct (repathed_fields (relocate old new (ba_relative_path a0)) a0) as (<- & _). }
  destruct (B _ _ Ha0 Hb0) as (T0 & n0 & Hn0 & K0).
  destruct (taken_false _ _ _ _ _ _ Free Ha0 Hb0) as [F1 F2].
  assert (Hp : root +:+ "/" +:+ ba_relative_path a0 ≠ d) by (intros E; by apply app_cancel, app_cancel in E).
  assert (Hn0' : m1 !! (root +:+ "/" +:+ ba_relative_path a0) = Some n0) by (by eapply lookup_weaken).
  assert (Hn' : m1 !! a = Some n) by (by eapply lookup_weaken).
  assert (Stay : moving b old (ba_is_dir (row x)) k a0 = false → ba_relative_path a0 ≠ old ∧
    (ba_is_dir (row x) = true → below old (ba_relative_path a0) = false)).
  { unfold moving. rewrite Hb0, N.eqb_refl. cbn [andb]. rewrite orb_false_iff, String.eqb_neq, andb_false_iff.
    intros [H1 H2]. split; [done|]. intros E. rewrite E in H2. by destruct H2. }
  destruct n as [c t|t]; cbn [node_is_dir] in Kn; rewrite <- Kn in *.
  - unfold rename in MT. rewrite Hn' in MT. destruct (_ || _) in MT; [done|]. injection MT as <-.
    destruct (moving _ _ _ _ _) eqn:M.
    + unfold moving in M. rewrite Hb0, N.eqb_refl in M. cbn [andb] in M. rewrite orb_false_r in M.
      apply String.eqb_eq in M. unfold move_row. rewrite M, relocate_self.
      destruct (repathed_fields new a0) as (_ & -> & ->). split; [done|]. exists (File c t).
      rewrite lookup_insert_eq. split; [done|]. cbn. rewrite M in Hn0'. fold a in Hn0'. by simplify_eq.
    + destruct (Stay eq_refl) as [M1 _]. split; [done|]. exists n0. split; [|done].
      rewrite lookup_insert_ne, lookup_delete_ne; [done| |by apply not_eq_sym].
      intros E. by apply app_cancel, app_cancel in E.
  - destruct (rename_dir a d m1 _ t Hn' Had MT) as [Mv ->]. destruct (moving _ _ _ _ _) eqn:M.
    + unfold move_row. destruct (repathed_fields (relocate old new (ba_relative_path a0)) a0) as (_ & -> & ->).
      split; [by apply relocate_tidy|]. exists n0. split; [|done]. rewrite <- relocate_join. fold a d.
      apply move_tree_lookup; [done|]. eauto.
    + destruct (Stay eq_refl) as [M1 M2]. split; [done|]. exists n0. split; [|done].
      apply move_tree_lookup; [done|]. exists (root +:+ "/" +:+ ba_relative_path a0). split_and!; [done..|].
      unfold a, d. rewrite relocate_join, relocate_else by auto. done.
Qed.

(** The nodes move with their names, and the old path is free. *)
Lemma moved_disk now root old new m m' is_dir :
  joinable root → tidy_path old → tidy_path new → new ≠ old → (is_dir = true → below old new = false) →
  (∃ n, m !! (root +:+ "/" +:+ old) = Some n ∧ node_is_dir n = is_dir) →
  m !! (root +:+ "/" +:+ new) = None →
  moved_tree now (join_files root old) (join_files root new) m m' →
  m' !! (root +:+ "/" +:+ old) = None ∧
  ∀ p n, m !! (root +:+ "/" +:+ p) = Some n → (is_dir = false → below old p = false) →
    m' !! (root +:+ "/" +:+ relocate old new p) = Some n.
Proof.
  intros J To Tn Hne G (n & Hn & Kn) Free MT. rewrite !join_files_normal in MT by first [done|by apply tidy_path_normal].
  set (a := root +:+ "/" +:+ old) in *. set (d := root +:+ "/" +:+ new) in *.
  assert (Had : a ≠ d) by (intros E; by apply app_cancel, app_cancel in E).
  unfold moved_tree, exists_at in MT. rewrite bool_decide_true in MT by eauto. destruct MT as (m1 & C & MT).
  apply create_dir_all_spec in C as (K & _ & _ & _).
  assert (Hn' : m1 !! a = Some n) by (by eapply lookup_weaken).
  destruct n as [c t|t]; cbn [node_is_dir] in Kn; subst is_dir.
  - unfold rename in MT. rewrite Hn' in MT. destruct (_ || _) in MT; [done|]. injection MT as <-. split.
    + rewrite lookup_insert_ne by (by apply not_eq_sym). apply lookup_delete_eq.
    + intros p n Hp B. specialize (B eq_refl). destruct (place_cases old p) as [->|[(r & ->)|[N _]]].
      * rewrite relocate_self. fold a in Hp. fold d. rewrite lookup_insert_eq. congruence.
      * assert (X : below old (old +:+ "/" +:+ r) = true) by (apply below_spec; eauto). congruence.
      * rewrite relocate_else by done. rewrite lookup_insert_ne, lookup_delete_ne; [by eapply lookup_weaken| |].
        -- intros E. by apply app_cancel, app_cancel in E.
        -- intros E. rewrite <- E in Hp. congruence.
  - destruct (rename_dir a d m1 _ t Hn' Had MT) as [Mv ->]. split.
    + destruct (move_tree a d m1 !! a) as [n'|] eqn:X; [|done]. apply (move_tree_lookup _ _ _ _ _ Mv) in X as (q0 & Q1 & Q2 & Q3).
      destruct (place_cases a q0) as [->|[(r & ->)|[N B]]].
      * by rewrite relocate_self in Q3.
      * rewrite relocate_below in Q3. destruct Mv as (_ & _ & Mv).
        assert (X : below d a = true) by (apply below_spec; eauto). rewrite Mv in X by eauto. done.
      * by rewrite relocate_else in Q3.
    + intros p n Hp _. rewrite <- relocate_join. fold a d. apply move_tree_lookup; [done|].
      exists (root +:+ "/" +:+ p). split_and!; [|by eapply lookup_weaken|done]. intros E. rewrite E in Hp. congruence.
Qed.

(** ** Properties *)

Section Moves.
Context `{Primitives} `{PayloadText} `{UuidParser} (cfg : Config).

Local Abbreviation storage := (bundles_root cfg).

(** What a regeneration leaves alone. *)
Lemma wp_regen now x st (Q : AppState → AppResult (Keyed Bundle) → Prop) :
  joinable storage → inert (b_slug (row x)) → content_ok (registry st) →
  (∀ st' e, Q st' (Err e)) →
  (∀ st' r, content_ok (registry st') → bundle_artifacts (registry st') = bundle_artifacts (registry st) →
     (∀ q, below (files_path storage (b_slug (row x))) q = true → st_tree st' !! q = st_tree st !! q) →
     (∀ k, b_slug <$> bundles (registry st') !! k = b_slug <$> bundles (registry st) !! k) →
     Q st' (Ok r)) →
  wp (regenerate cfg x) (calm now) st Q.
Proof.
  intros J I S HE HO. unfold regenerate, storage_root, public_prefix. apply wp_regenerate; [apply HE|].
  intros m' b Hb built W. apply HO.
  - unfold regenerated. rewrite registry_with.
    apply (update_returning_ok (key x) (with_manifest (manifest_of storage (bundles_url cfg) st (key x) (b_slug (row x))))
             (λ _ _, eq_refl) (mkTick now now 0 "" false) (registry st) _
             (mkKeyed (key x) (with_manifest (manifest_of storage (bundles_url cfg) st (key x) (b_slug (row x))) now b))); [|done].
    unfold update_returning. by rewrite Hb.
  - unfold regenerated. by rewrite registry_with.
  - intros q B. unfold regenerated. cbn [st_tree with_content set_db set_tree]. by eapply written_below.
  - intros k. unfold regenerated. rewrite registry_with. cbn [bundles set_bundles]. rewrite lookup_insert.
    case_decide as D; [subst k; by rewrite Hb|done].
Qed.

Lemma wp_resolved_entry slug entry_id T st (Q : AppState → AppResult (Keyed Bundle * Keyed BundleArtifact) → Prop) :
  (∀ st' e, Q st' (Err e)) →
  (∀ b x, validate_slug slug = Ok () → bundles (registry st) !! key b = Some (row b) → b_slug (row b) = slug →
     parse_str entry_id = Some (key x) → bundle_artifacts (registry st) !! key x = Some (row x) →
     ba_bundle_id (row x) = key b → Q st (Ok (b, x))) →
  wp (resolved_entry slug entry_id) T st Q.
Proof.
  intros HE HO. apply wp_bind_ok, wp_resolved_bundle; [intros; apply HE|]. intros b V Hb Es.
  apply wp_bind_ok, wp_ret. destruct (parse_str entry_id) as [id|] eqn:P; [|apply HE]. cbn [ok_or].
  apply wp_bind_ok, wp_bind_ok, wp_look; [intros; apply HE|]. apply wp_ret.
  destruct (bundle_artifacts (registry st) !! id) as [a|] eqn:Ha; [|apply HE]. cbn [option_map row].
  destruct (N.eqb_spec (ba_bundle_id a) (key b)) as [E|]; [|apply HE]. apply wp_ret. by apply HO.
Qed.

Lemma validate_move_ok a new :
  validate_move a new = Ok () → new ≠ ba_relative_path a ∧ (ba_is_dir a = true → below (ba_relative_path a) new = false).
Proof.
  unfold validate_move, starts_with, below, under. destruct (String.eqb_spec new (ba_relative_path a)) as [|N]; [done|].
  destruct (ba_is_dir a); cbn [andb]; [|by intros _; split].
  destruct (strip_prefix _ _) as [r|]; [done|]. intros _. split; [done|]. intros _. by apply bool_decide_false; intros [].
Qed.

Lemma wp_apply_move now b x new st (Q : AppState → AppResult unit → Prop) :
  content_ok (registry st) →
  (∀ st' e, Q st' (Err e)) →
  (∀ st', validate_move (row x) new = Ok () → st_tree st !! join_files (root_of cfg b) new = None →
     moved now (key b) (root_of cfg b) (ba_relative_path (row x)) new (ba_is_dir (row x)) st st' → Q st' (Ok ())) →
  wp (apply_move cfg b x new) (calm now) st Q.
Proof.
  intros S HE HO. apply wp_bind_ok, wp_ret. destruct (validate_move (row x) new) as [[]|e] eqn:V; [|apply HE].
  destruct (validate_move_ok _ _ V) as [N G]. apply wp_bind, wp_path_exists.
  rewrite (proj2 (String.eqb_neq _ _) N). cbn [negb]. rewrite andb_true_r. unfold exists_at.
  case_bool_decide as X; [apply wp_ret, HE|]. apply eq_None_not_Some in X.
  apply wp_transaction_calm, wp_move_entry; [done|done|intros; apply HE|]. intros st' M. by apply HO.
Qed.

Inductive MoveRequest : Type := RenameTo (new_relative_path : string) | Into (target_dir : string).

Definition serve_move (slug entry_id : string) (r : MoveRequest) : prog (AppResult (Keyed Bundle)) :=
  match r with
  | RenameTo path => rename_file cfg slug entry_id path
  | Into dir => move_file cfg slug entry_id dir
  end.

Definition destination (r : MoveRequest) (a : BundleArtifact) : AppResult string :=
  match r with
  | RenameTo path => normalize_relative_path (trim path) "newRelativePath"
  | Into dir => join_target_dir dir (ba_name a)
  end.

Lemma destination_tidy r a new : destination r a = Ok new → tidy_path new.
Proof. destruct r; cbn [destination]; unfold join_target_dir; apply normalized_tidy. Qed.

(** What a rename or a move has done, from the request to the regenerated manifest. *)
Record moved_exactly (slug entry_id : string) (r : MoveRequest) (st st' : AppState)
  (id : Uuid) (a : BundleArtifact) (new : string) : Prop := {
  me_id : parse_str entry_id = Some id;
  me_row : bundle_artifacts (registry st) !! id = Some a;
  me_new : destination r a = Ok new;
  me_rows : bundle_artifacts (registry st') =
    moved_rows (ba_bundle_id a) (ba_relative_path a) new (ba_is_dir a) (bundle_artifacts (registry st));
  me_old : st_tree st' !! (files_path storage slug +:+ "/" +:+ ba_relative_path a) = None;
  me_nodes : ∀ p n, st_tree st !! (files_path storage slug +:+ "/" +:+ p) = Some n →
    (ba_is_dir a = false → below (ba_relative_path a) p = false) →
    st_tree st' !! (files_path storage slug +:+ "/" +:+ relocate (ba_relative_path a) new p) = Some n;
  me_backed : backed (ba_bundle_id a) (files_path storage slug) (registry st') (st_tree st')
}.

Lemma below_join root p : below root (root +:+ "/" +:+ p) = true.
Proof. apply below_spec. eauto. Qed.

Lemma backed_same b root c c' m m' :
  bundle_artifacts c' = bundle_artifacts c → (∀ q, below root q = true → m' !! q = m !! q) →
  backed b root c m → backed b root c' m'.
Proof.
  intros E1 E2 B k a Hk Hb. rewrite E1 in Hk. destruct (B k a Hk Hb) as (T & n & Hn & K).
  split; [done|]. exists n. by rewrite E2 by apply below_join.
Qed.

(** C24. Renaming and moving. When the rename or the move of a file or folder succeeds, in a build whose rows all
    have their node: the row and, for a folder, the rows below it carry the new path, name and
    category, all other rows are as before, the files on disk have moved in the same way,
    nothing is left at the old path, and every row has its node again. (No call
    fails, and the clocks read one instant.) *)
Theorem move_exact slug entry_id r now o st st' b :
  joinable storage → content_ok (registry st) → (∀ i, calm now (o i)) →
  (∀ k x, bundles (registry st) !! k = Some x → b_slug x = slug →
     backed k (files_path storage slug) (registry st) (st_tree st)) →
  exec (serve_move slug entry_id r) o st = (st', Ok b) →
  ∃ id a new, moved_exactly slug entry_id r st st' id a new.
Proof.
  intros J S Ho B E.
  refine (wp_exec _ (calm now) o st (λ st' r0, ∀ b, r0 = Ok b →
    ∃ id a new, moved_exactly slug entry_id r st st' id a new) st' (Ok b) Ho E _ b eq_refl).
  enough (W : wp (let? '(bundle, entry) := resolved_entry slug entry_id in
     let? new := lift (destination r (row entry)) in
     do? apply_move cfg bundle entry new; regenerate cfg bundle) (calm now) st
     (λ st' r0, ∀ b, r0 = Ok b → ∃ id a new, moved_exactly slug entry_id r st st' id a new)) by (by destruct r).
  apply wp_bind_ok, wp_resolved_entry; [done|]. intros x y V Hx Es P Hy Ey.
  pose proof V as V'. apply validate_slug_ok in V' as [I _]. specialize (B _ _ Hx Es).
  pose proof (files_joinable storage slug J I) as JF.
  apply wp_bind_ok, wp_ret. destruct (destination r (row y)) as [new|e] eqn:D; [|done].
  pose proof (destination_tidy _ _ _ D) as Tn.
  apply wp_bind_ok, wp_apply_move; [done|done|]. unfold root_of, storage_root. rewrite Es.
  intros st1 VM Fr M. destruct (validate_move_ok _ _ VM) as [N G].
  destruct (B _ _ Hy Ey) as (To & n & Hn & Kn).
  rewrite join_files_normal in Fr by first [done|by apply tidy_path_normal].
  destruct (moved_disk _ _ _ _ _ _ _ JF To Tn N G (ex_intro _ n (conj Hn Kn)) Fr (mv_tree _ _ _ _ _ _ _ _ M)) as [D1 D2].
  pose proof (moved_backed _ _ _ _ _ _ _ JF Tn S Hy Ey N G M B) as B'.
  apply wp_regen; [done|by rewrite Es|apply M|done|]. rewrite Es. intros st2 r2 S2 A2 T2 _ b2 _.
  exists (key y), (row y), new. rewrite <- Ey in *. split; try done.
  - by rewrite A2, (mv_rows _ _ _ _ _ _ _ _ M).
  - by rewrite T2 by apply below_join.
  - intros p n' Hp Hb. rewrite T2 by apply below_join. by apply D2.
  - by eapply backed_same.
Qed.
End Moves.

(** ** An example *)

Definition tidyb (p : string) : bool :=
  negb ((p =? "")%string || (p =? ".")%string || (p =? "..")%string || str_contains slash p || str_contains "\" p).

Definition backedb (b : Uuid) (root : string) (c : Content) (m : Tree) : bool :=
  forallb (λ ka, negb (ba_bundle_id ka.2 =? b)%N ||
    forallb tidyb (str_split slash (ba_relative_path ka.2))
    && match m !! (root +:+ "/" +:+ ba_relative_path ka.2) with
       | Some n => eqb (node_is_dir n) (ba_is_dir ka.2)
       | None => false
       end) (map_to_list (bundle_artifacts c)).

Lemma backedb_sound b root c m : backedb b root c m = true → backed b root c m.
Proof.
  unfold backedb. rewrite forallb_forall. intros H k a Hk Hb.
  specialize (H (k, a)). rewrite <- list_elem_of_In, elem_of_map_to_list in H. specialize (H Hk). cbn [snd] in H.
  rewrite Hb, N.eqb_refl in H. cbn [negb orb] in H. apply andb_true_iff in H as [T N]. split.
  - apply Forall_forall. intros p Hp. rewrite forallb_forall in T. apply list_elem_of_In, T in Hp.
    unfold tidyb in Hp. rewrite negb_true_iff, !orb_false_iff, !String.eqb_neq in Hp. by destruct_and!.
  - destruct (m !! _) as [n|]; [|done]. exists n. split; [done|]. by apply eqb_prop.
Qed.

Definition folder_content : Content :=
  set_bundle_artifacts
    {[6%N := mkBundleArtifact 1 "mods" "mods" "root" 0 None true false None;
      7%N := mkBundleArtifact 1 "mods/a.jar" "a.jar" "mods" 3 (Some "old") false true None;
      8%N := mkBundleArtifact 1 "stale.txt" "stale.txt" "root" 1 (Some "s") false false None]}
    sample_content.

Definition folder_state : AppState := with_content folder_content (set_tree sample_disk sample_state).

Lemma folder_content_ok : content_ok folder_content.
Proof. apply content_okb_sound. vm_compute. reflexivity. Qed.

Lemma folder_backed k x :
  bundles (registry folder_state) !! k = Some x → b_slug x = "pack" →
  backed k (files_path (bundles_root default_config) "pack") (registry folder_state) (st_tree folder_state).
Proof.
  intros Hk Es. assert (k = 1%N) as ->.
  { change (bundles (registry folder_state)) with ({[1%N := draft "pack" "Pack" 1; 2%N := draft "other" "Other" 1]} : gmap Uuid Bundle) in Hk.
    rewrite lookup_insert_Some in Hk. destruct Hk as [[<- _]|[_ Hk]]; [done|].
    apply lookup_singleton_Some in Hk as [_ <-]. discriminate Es. }
  apply backedb_sound. vm_compute. reflexivity.
Qed.

Definition sample_move : AppState * AppResult (Keyed Bundle) :=
  exec (serve_move (H0 := plain_text) (H1 := toy_parser) default_config "pack"
          (hyphenated (UuidParser := toy_parser) 6) (RenameTo " lib/x ")) (calm_oracle 50) folder_state.

Definition sample_moved : Keyed Bundle :=
  match sample_move.2 with Ok b => b | Err _ => mkKeyed 0%N (draft "" "" 0) end.

Lemma move_exact_witness :
  sample_move.2 = Ok sample_moved ∧
  map (λ a, (ba_relative_path a, ba_category a)) (map row (artifacts_of 1 (registry sample_move.1)))
  = [("lib/x", "lib"); ("lib/x/a.jar", "lib"); ("stale.txt", "root")] ∧
  ∃ id a new, moved_exactly (H1 := toy_parser) default_config "pack"
    (hyphenated (UuidParser := toy_parser) 6) (RenameTo " lib/x ") folder_state sample_move.1 id a new.
Proof.
  split; [vm_compute; reflexivity|]. split; [vm_compute; reflexivity|].
  apply (move_exact (H0 := plain_text) (H1 := toy_parser) default_config "pack"
           (hyphenated (UuidParser := toy_parser) 6) (RenameTo " lib/x ") 50 (calm_oracle 50) folder_state _ sample_moved).
  - exact default_joinable.
  - exact folder_content_ok.
  - intros i. apply calm_oracle_calm.
  - exact folder_backed.
  - vm_compute. reflexivity.
Defined.

(** ** Deletions and additions *)

Section Edits.
Context `{Primitives} `{PayloadText} `{UuidParser} (cfg : Config).

Local Abbreviation storage := (bundles_root cfg).

(** Every row of the build with this slug has its node. *)
Definition build_backed (slug : string) (st : AppState) : Prop :=
  ∀ k x, bundles (registry st) !! k = Some x → b_slug x = slug →
    backed k (files_path storage slug) (registry st) (st_tree st).

Lemma slug_unique c k k' x x' :
  content_ok c → bundles c !! k = Some x → bundles c !! k' = Some x' → b_slug x = b_slug x' → k = k'.
Proof.
  intros S Hk Hk' E. eapply (table_ok_uniq _ _ bundles_slug_key); [|apply (ok_bundles c S)|done|done|].
  - by left.
  - cbn. by rewrite E, String.eqb_refl.
Qed.

(** A handler that has changed rows and files ends with a regeneration. *)
Lemma wp_regen_backed now x st0 st (Q : AppState → AppResult (Keyed Bundle) → Prop) :
  joinable storage → inert (b_slug (row x)) → content_ok (registry st0) → content_ok (registry st) →
  bundles (registry st0) !! key x = Some (row x) →
  bundles (registry st) = bundles (registry st0) →
  backed (key x) (files_path storage (b_slug (row x))) (registry st) (st_tree st) →
  (∀ st' e, Q st' (Err e)) →
  (∀ st' r, build_backed (b_slug (row x)) st' → Q st' (Ok r)) →
  wp (regenerate cfg x) (calm now) st Q.
Proof.
  intros J I S0 S Hx Eb B HE HO. apply wp_regen; [done..|]. intros st' r S' A T Sl. apply HO.
  intros k y Hy Es. assert (k = key x) as ->.
  { specialize (Sl k). rewrite Hy, Eb in Sl. destruct (bundles (registry st0) !! k) as [y0|] eqn:Hy0; [|done].
    injection Sl as Sl. eapply slug_unique; [exact S0|exact Hy0|exact Hx|]. congruence. }
  by eapply backed_same.
Qed.

(** Rows that keep their bundle, path and kind. *)
Lemma backed_update p f b root c m :
  (∀ a, ba_bundle_id (f a) = ba_bundle_id a ∧ ba_relative_path (f a) = ba_relative_path a ∧ ba_is_dir (f a) = ba_is_dir a) →
  backed b root c m → backed b root (set_bundle_artifacts (update_where p f (bundle_artifacts c)) c) m.
Proof.
  intros Hf B k a Hk Hb. apply lookup_update_where_Some in Hk as (a0 & Hk & ->).
  destruct (Hf a0) as (F1 & F2 & F3). destruct (p k a0); [rewrite F1 in Hb; rewrite F2, F3|]; by apply (B k a0).
Qed.

(** *** Deletions *)

(** Untouched by the deletion of an entry. *)
Definition spared (e : Keyed BundleArtifact) (p : string) : Prop :=
  p ≠ ba_relative_path (row e) ∧ (ba_is_dir (row e) = true → below (ba_relative_path (row e)) p = false).

Lemma wp_delete_entry_rows b e T st (Q : AppState → AppResult unit → Prop) :
  content_ok (registry st) →
  (∀ st' e, Q st' (Err e)) →
  (∀ m, let c := set_bundle_artifacts m (registry st) in
     content_ok c →
     (∀ k a, m !! k = Some a → bundle_artifacts (registry st) !! k = Some a ∧ k ≠ key e ∧
       (ba_bundle_id a = b → ba_is_dir (row e) = true → below (ba_relative_path (row e)) (ba_relative_path a) = false)) →
     Q (with_content c st) (Ok ())) →
  wp (delete_entry_rows b e) T st Q.
Proof.
  intros S HE HO. apply wp_bind_ok. destruct (ba_is_dir (row e)) eqn:D.
  - apply wp_on_content; [intros; apply HE|]. intros t c [] _ E. injection E as <-.
    pose proof (delete_artifacts_ok (has_prefix b (ba_relative_path (row e) +:+ "/")) t _ _ () eq_refl S) as S1.
    apply wp_on_content; [intros; apply HE|]. intros t' c [] _ E. rewrite registry_with in E. injection E as <-.
    rewrite with_content_twice. apply HO.
    + exact (delete_artifact_ok (key e) t' _ _ () eq_refl S1).
    + intros k a Ha. cbn [bundle_artifacts set_bundle_artifacts] in Ha. apply lookup_delete_Some in Ha as [N Ha].
      apply lookup_delete_where_Some in Ha as [Ha P]. split_and!; [done|by apply not_eq_sym|].
      intros Eb _. apply not_true_iff_false. intros B. rewrite (proj2 (has_prefix_true _ _ _ _)) in P; done.
  - apply wp_ret. apply wp_on_content; [intros; apply HE|]. intros t' c [] _ E. injection E as <-. apply HO.
    + exact (delete_artifact_ok (key e) t' _ _ () eq_refl S).
    + intros k a [N Ha]%lookup_delete_Some. split_and!; [done|by apply not_eq_sym|done].
Qed.

Lemma wp_delete_all_rows b es T st (Q : AppState → AppResult unit → Prop) :
  content_ok (registry st) →
  (∀ st' e, Q st' (Err e)) →
  (∀ m, let c := set_bundle_artifacts m (registry st) in
     content_ok c →
     (∀ k a, m !! k = Some a → bundle_artifacts (registry st) !! k = Some a ∧ ∀ e, e ∈ es → k ≠ key e ∧
       (ba_bundle_id a = b → ba_is_dir (row e) = true → below (ba_relative_path (row e)) (ba_relative_path a) = false)) →
     Q (with_content c st) (Ok ())) →
  wp (delete_all_rows b es) T st Q.
Proof.
  revert st. induction es as [|e es IH]; intros st S HE HO; cbn [delete_all_rows].
  - apply wp_ret. rewrite <- (with_registry st). replace (registry st) with
      (set_bundle_artifacts (bundle_artifacts (registry st)) (registry st)) by (by destruct (registry st)).
    apply HO; [by destruct (registry st)|]. intros k a Hk. split; [done|]. intros e He. by apply not_elem_of_nil in He.
  - apply wp_bind_ok, wp_delete_entry_rows; [done|apply HE|]. intros m c S1 M1.
    apply IH; [by rewrite registry_with|done|]. intros m' c' S2 M2.
    rewrite registry_with in *. rewrite with_content_twice. unfold c', c in *. cbn [bundle_artifacts set_bundle_artifacts] in *.
    apply HO; [done|]. intros k a Hk. destruct (M2 k a Hk) as [Hk1 R2]. destruct (M1 k a Hk1) as (Hk0 & N & R1).
    split; [done|]. intros e' [->|He]%elem_of_cons; [done|by apply R2].
Qed.

(** What unlinking leaves alone. *)
Lemma wp_unlink_entry root e now st (Q : AppState → unit → Prop) :
  joinable root → tidy_path (ba_relative_path (row e)) →
  (∀ m, (∀ p, spared e p → m !! (root +:+ "/" +:+ p) = st_tree st !! (root +:+ "/" +:+ p)) →
     Q (set_tree m st) ()) →
  wp (unlink_entry root e) (calm now) st Q.
Proof.
  intros J T HO. unfold unlink_entry. rewrite join_files_normal by first [done|by apply tidy_path_normal].
  set (f := root +:+ "/" +:+ ba_relative_path (row e)). apply wp_bind, wp_path_exists.
  destruct (exists_at _ _); [|apply wp_ret; rewrite <- (set_tree_same st); by apply HO].
  apply wp_fs_quiet, HO. intros p [N B].
  assert (Hne : root +:+ "/" +:+ p ≠ f) by (intros E; by apply app_cancel, app_cancel in E).
  destruct (ba_is_dir (row e)); unfold remove_dir_all, remove_file.
  - destruct (is_dir _ _); [|done]. cbn [from_option id]. rewrite lookup_remove_tree.
    rewrite (proj2 (String.eqb_neq _ _) Hne). unfold f. by rewrite below_cancel, B.
  - destruct (is_file _ _); [|done]. cbn [from_option id]. by apply lookup_delete_ne, not_eq_sym.
Qed.

Lemma wp_unlink_all root es now st (Q : AppState → unit → Prop) :
  joinable root → (∀ e, e ∈ es → tidy_path (ba_relative_path (row e))) →
  (∀ m, (∀ p, (∀ e, e ∈ es → spared e p) → m !! (root +:+ "/" +:+ p) = st_tree st !! (root +:+ "/" +:+ p)) →
     Q (set_tree m st) ()) →
  wp (for_each es (unlink_entry root)) (calm now) st Q.
Proof.
  revert st. induction es as [|e es IH]; intros st J T HO; cbn [for_each].
  - apply wp_ret. rewrite <- (set_tree_same st). by apply HO.
  - apply wp_bind, wp_unlink_entry; [done|apply T; by left|]. intros m M.
    apply IH; [done|intros e' He; apply T; by right|]. intros m' M'. apply HO. intros p Hp.
    rewrite M' by (intros e' He; apply Hp; by right). apply M, Hp. by left.
Qed.

(** After both, the rows that are left have their nodes. *)
Lemma deleted_backed b root (es : list (Keyed BundleArtifact)) m' m st :
  content_ok (registry st) → backed b root (registry st) (st_tree st) →
  (∀ e, e ∈ es → bundle_artifacts (registry st) !! key e = Some (row e) ∧ ba_bundle_id (row e) = b) →
  (∀ k a, m !! k = Some a → bundle_artifacts (registry st) !! k = Some a ∧ ∀ e, e ∈ es → k ≠ key e ∧
     (ba_bundle_id a = b → ba_is_dir (row e) = true → below (ba_relative_path (row e)) (ba_relative_path a) = false)) →
  (∀ p, (∀ e, e ∈ es → spared e p) → m' !! (root +:+ "/" +:+ p) = st_tree st !! (root +:+ "/" +:+ p)) →
  backed b root (set_bundle_artifacts m (registry st)) m'.
Proof.
  intros S B E M T k a Hk Hb. destruct (M k a Hk) as [Hk0 R]. destruct (B k a Hk0 Hb) as (Ta & n & Hn & K).
  split; [done|]. exists n. rewrite T; [done|]. intros e He. destruct (R e He) as [N R']. split; [|auto].
  intros Ep. apply N. destruct (E e He) as [He0 He1]. by eapply artifacts_unique; [exact S|exact Hk0|exact He0|congruence..].
Qed.

(** *** The handlers *)

Inductive EditRequest : Type :=
| EUploadFile (multipart : Multipart)
| ECreateFolder (relative_path : string)
| EDeleteFile (entry_id : string)
| EBulkDelete (ids : list Uuid)
| EToggle (entry_id : string) (download_once : bool)
| ERehash (entry_id : string)
| EMove (entry_id : string) (r : MoveRequest)
| ERegenerate.

(** Only whether it succeeded. *)
Definition void {A} (p : prog (AppResult A)) : prog (AppResult unit) := let? _ := p in ret_ok ().

Definition serve_edit (sql_text : SqlError → string) (slug : string) (r : EditRequest)
  : prog (AppResult unit) :=
  match r with
  | EUploadFile m => void (upload_file cfg slug m)
  | ECreateFolder path => void (create_folder cfg slug path)
  | EDeleteFile id => void (delete_file cfg slug id)
  | EBulkDelete ids => void (bulk_delete cfg slug ids)
  | EToggle id b => void (toggle_download_once cfg slug id b)
  | ERehash id => void (rehash_file cfg slug id)
  | EMove id r => void (serve_move cfg slug id r)
  | ERegenerate => void (regenerate_build cfg sql_text slug)
  end.

Section Fixed.
Context (now : Time) (slug : string) (J : joinable storage).

(** A handler of the build keeps it backed. *)
Definition keeps_backed {A} (p : prog (AppResult A)) : Prop :=
  ∀ st, content_ok (registry st) → build_backed slug st →
    wp p (calm now) st (λ st' r, is_ok r = true → build_backed slug st').

Lemma keeps_void {A} (p : prog (AppResult A)) : keeps_backed p → keeps_backed (void p).
Proof. intros K st S B. apply wp_bind_ok. eapply wp_conseq; [by apply K|]. by intros st' [a|e] H'. Qed.

Lemma keeps_toggle id b : keeps_backed (toggle_download_once cfg slug id b).
Proof.
  intros st S B. apply wp_bind_ok, wp_resolved_entry; [done|]. intros x y V Hx Es _ Hy Ey.
  apply validate_slug_ok in V as [I _]. specialize (B _ _ Hx Es).
  apply wp_bind_ok, wp_on_content; [done|]. intros t c [] _ E. injection E as <-.
  rewrite <- Es in *. eapply (wp_regen_backed _ _ st); try done; rewrite ?registry_with; try done.
  - by apply artifacts_update.
  - by apply backed_update.
Qed.

Lemma keeps_rehash id : keeps_backed (rehash_file cfg slug id).
Proof.
  intros st S B. apply wp_bind_ok, wp_resolved_entry; [done|]. intros x y V Hx Es _ Hy Ey.
  apply validate_slug_ok in V as [I _]. specialize (B _ _ Hx Es).
  destruct (ba_is_dir (row y)); [apply wp_ret; done|]. apply wp_bind, wp_path_exists.
  destruct (exists_at _ _); [|apply wp_ret; done]. apply wp_bind_ok, wp_fs_look.
  destruct (st_tree st !! _) as [[c t|t]|]; [|done|done].
  apply wp_bind_ok, wp_on_content; [done|]. intros t' c' [] _ E. injection E as <-.
  rewrite <- Es in *. eapply (wp_regen_backed _ _ st); try done; rewrite ?registry_with; try done.
  - by apply artifacts_update.
  - by apply backed_update.
Qed.

Lemma keeps_regenerate sql_text : keeps_backed (regenerate_build cfg sql_text slug).
Proof.
  intros st S B. apply wp_bind_ok, wp_resolved_bundle; [done|]. intros x V Hx Es.
  apply validate_slug_ok in V as [I _].
  apply wp_bind_ok, wp_set_status; [done|]. apply wp_bind. set (st1 := with_content _ _).
  assert (S1 : content_ok (registry st1)) by (by apply bundles_update).
  rewrite <- Es in *. apply wp_regen; [done..| |].
  - intros st' e. apply wp_bind_ok, wp_set_status; [done|]. by apply wp_ret.
  - intros st' r S' A T Sl. apply wp_ret. intros _ k y Hy Ey.
    specialize (Sl k). rewrite Hy in Sl. unfold st1 in Sl. rewrite registry_with in Sl. cbn [bundles set_bundles] in Sl.
    rewrite lookup_update_where in Sl. destruct (bundles (registry st) !! k) as [y0|] eqn:Hy0; [|done].
    assert (Ey0 : b_slug y0 = b_slug (row x)) by (cbn in Sl; destruct (k =? key x)%N; cbn in Sl; congruence).
    eapply backed_same; [exact A|exact T|]. by apply (B k y0).
Qed.

Lemma keeps_delete_file id : keeps_backed (delete_file cfg slug id).
Proof.
  intros st S B. apply wp_bind_ok, wp_resolved_entry; [done|]. intros x y V Hx Es _ Hy Ey.
  apply validate_slug_ok in V as [I _]. specialize (B _ _ Hx Es). destruct (B _ _ Hy Ey) as [Ty _].
  pose proof (files_joinable storage slug J I) as JF. rewrite <- Es in *.
  apply wp_bind_ok, wp_transaction_calm, wp_delete_entry_rows; [done|done|]. intros m c S1 M.
  apply wp_bind, wp_unlink_entry; [done|done|]. intros m' T.
  apply wp_bind_ok. eapply (wp_regen_backed _ _ st); try done.
  - apply (deleted_backed _ _ [y]); [done|done| | |].
    + by intros e ->%list_elem_of_singleton.
    + intros k a Hk. destruct (M k a Hk) as (M1 & M2 & M3). split; [done|]. by intros e ->%list_elem_of_singleton.
    + intros p Hp. apply T, Hp. by left.
  - intros st' r B'. by apply wp_ret.
Qed.

Lemma wp_resolve_entries b ids T st (Q : AppState → AppResult (list (Keyed BundleArtifact)) → Prop) :
  (∀ st' e, Q st' (Err e)) →
  (∀ es, (∀ e, e ∈ es → bundle_artifacts (registry st) !! key e = Some (row e) ∧ ba_bundle_id (row e) = b) →
     Q st (Ok es)) →
  wp (resolve_entries b ids) T st Q.
Proof.
  revert Q. induction ids as [|id ids IH]; intros Q HE HO; cbn [resolve_entries].
  { apply wp_ret, HO. intros e He. by apply not_elem_of_nil in He. }
  apply wp_bind_ok, wp_look; [intros; apply HE|].
  destruct (bundle_artifacts (registry st) !! id) as [a|] eqn:Ha; cbn [option_map row]; [|by apply IH].
  destruct (N.eqb_spec (ba_bundle_id a) b) as [Eb|]; [|apply wp_ret, HE].
  apply wp_bind_ok, IH; [apply HE|]. intros es Hes. apply wp_ret, HO.
  intros e [->|He]%elem_of_cons; [done|by apply Hes].
Qed.

Lemma keeps_bulk_delete ids : keeps_backed (bulk_delete cfg slug ids).
Proof.
  intros st S B. apply wp_bind_ok, wp_resolved_bundle; [done|]. intros x V Hx Es.
  apply validate_slug_ok in V as [I _]. specialize (B _ _ Hx Es).
  case_bool_decide; [by apply wp_ret|]. pose proof (files_joinable storage slug J I) as JF. rewrite <- Es in *.
  apply wp_bind_ok, wp_resolve_entries; [done|]. intros es Hes.
  apply wp_bind_ok, wp_transaction_calm, wp_delete_all_rows; [done|done|]. intros m c S1 M.
  apply wp_bind, wp_unlink_all; [done| |].
  { intros e He. destruct (Hes e He) as [E1 E2]. by destruct (B _ _ E1 E2). }
  intros m' T. apply wp_bind_ok. eapply (wp_regen_backed _ _ st); try done.
  - by apply (deleted_backed _ _ es).
  - intros st' r B'. by apply wp_ret.
Qed.

Lemma keeps_move id r : keeps_backed (serve_move cfg slug id r).
Proof.
  intros st S B.
  enough (W : wp (let? '(bundle, entry) := resolved_entry slug id in
     let? new := lift (destination r (row entry)) in
     do? apply_move cfg bundle entry new; regenerate cfg bundle) (calm now) st
     (λ st' r, is_ok r = true → build_backed slug st')) by (by destruct r).
  apply wp_bind_ok, wp_resolved_entry; [done|]. intros x y V Hx Es P Hy Ey.
  apply validate_slug_ok in V as [I _]. specialize (B _ _ Hx Es).
  pose proof (files_joinable storage slug J I) as JF. rewrite <- Es in *.
  apply wp_bind_ok, wp_ret. destruct (destination r (row y)) as [new|e] eqn:D; [|done].
  apply wp_bind_ok, wp_apply_move; [done|done|]. intros st1 VM _ M.
  destruct (validate_move_ok _ _ VM) as [N G].
  eapply (wp_regen_backed _ _ st); try done; [apply M|by rewrite (mv_rows _ _ _ _ _ _ _ _ M)|].
  eapply moved_backed; [exact JF|by eapply destination_tidy|exact S|exact Hy|exact Ey|exact N|exact G|exact M|exact B].
Qed.

(** *** Additions *)

Lemma backed_rows b root c m :
  content_ok c → backed b root c m ↔
  ∀ p a, row_at b c p = Some a →
    tidy_path p ∧ ∃ n, m !! (root +:+ "/" +:+ p) = Some n ∧ node_is_dir n = ba_is_dir a.
Proof.
  intros S. split.
  - intros B p a (k & Hk & Hb & <-)%row_at_spec; [|done]. by apply (B k a).
  - intros B k a Hk Hb. apply B, row_at_spec; eauto.
Qed.

Lemma backed_mono b root c m m' :
  (∀ p n, m !! (root +:+ "/" +:+ p) = Some n → m' !! (root +:+ "/" +:+ p) = Some n) →
  backed b root c m → backed b root c m'.
Proof. intros M B k a Hk Hb. destruct (B k a Hk Hb) as (T & n & Hn & K). eauto. Qed.

Lemma upsert_backed b root m e t c c' u :
  content_ok c → upsert b e t c = Ok (c', u) →
  tidy_path (se_relative_path e) →
  (∃ n, m !! (root +:+ "/" +:+ se_relative_path e) = Some n ∧ node_is_dir n = se_is_dir e) →
  (∀ p a, p ≠ se_relative_path e → row_at b c p = Some a →
    tidy_path p ∧ ∃ n, m !! (root +:+ "/" +:+ p) = Some n ∧ node_is_dir n = ba_is_dir a) →
  backed b root c' m.
Proof.
  intros S E T N B. apply backed_rows; [by eapply upsert_ok|]. intros p a.
  destruct (upsert_row_at _ _ _ _ _ _ S E) as [_ ->]. case_decide as D; [|intros Hp; apply B; naive_solver].
  destruct D as [_ ->]. intros [= <-]. split; [done|]. destruct N as (n & Hn & K). exists n. split; [done|].
  rewrite K. unfold merged. by destruct (row_at _ _ _).
Qed.

Lemma wp_upsert_backed b root es T st (Q : AppState → AppResult unit → Prop) :
  content_ok (registry st) → backed b root (registry st) (st_tree st) →
  (∀ e, e ∈ es → tidy_path (se_relative_path e) ∧
    ∃ n, st_tree st !! (root +:+ "/" +:+ se_relative_path e) = Some n ∧ node_is_dir n = se_is_dir e) →
  (∀ st' e, Q st' (Err e)) →
  (∀ c, content_ok c → bundles c = bundles (registry st) → backed b root c (st_tree st) → Q (with_content c st) (Ok ())) →
  wp (upsert_rows b es) T st Q.
Proof.
  revert st. induction es as [|e es IH]; intros st S B N HE HO; cbn [upsert_rows].
  - apply wp_ret. rewrite <- (with_registry st). by apply HO.
  - apply wp_bind_ok, wp_on_content; [intros; apply HE|]. intros t c [] _ E.
    destruct (N e) as [T1 N1]; [by left|]. pose proof (upsert_row_at _ _ _ _ _ _ S E) as [Ec _].
    apply IH; rewrite ?registry_with; [by eapply upsert_ok| | |done|].
    + eapply upsert_backed; [exact S|exact E|exact T1|exact N1|]. intros p a _. by apply backed_rows.
    + intros e' He. apply (N e'). by right.
    + intros c' S' Eb B'. rewrite with_content_twice. apply HO; [done| |done]. rewrite Eb, Ec. done.
Qed.

Lemma ancestor_path p x :
  x ∈ ancestors p → ∃ l1 l2, str_split slash p = l1 ++ l2 ∧ l1 ≠ [] ∧ x = String.concat "/" l1.
Proof.
  unfold ancestors. intros (n & -> & Hn)%list_elem_of_fmap. apply elem_of_seq in Hn.
  exists (firstn n (str_split slash p)), (skipn n (str_split slash p)). rewrite firstn_skipn.
  split_and!; [done| |done]. destruct n as [|n]; [lia|]. by destruct (str_split_cons slash p) as (y & ys & ->).
Qed.

Lemma folder_entry_fields p : se_relative_path (folder_entry p) = p ∧ se_is_dir (folder_entry p) = true.
Proof. unfold folder_entry. by destruct (split_relative_path p). Qed.

Lemma keeps_create_folder path : keeps_backed (create_folder cfg slug path).
Proof.
  intros st S B. apply wp_bind_ok, wp_resolved_bundle; [done|]. intros x V Hx Es.
  apply validate_slug_ok in V as [I _]. specialize (B _ _ Hx Es).
  pose proof (files_joinable storage slug J I) as JF. rewrite <- Es in *.
  apply wp_bind_ok, wp_ret. destruct (normalize_relative_path _ _) as [p|e] eqn:N; [|done].
  pose proof (normalized_tidy _ _ _ N) as Tp.
  apply wp_bind_ok, wp_fs_call; [done|]. intros m1 C1. apply create_dir_all_spec in C1 as (K1 & _).
  apply wp_bind, wp_fs_look. cbn [negb andb]. destruct (is_file _ _); [by apply wp_ret|].
  apply wp_bind_ok, wp_fs_call; [done|]. cbn [st_tree set_tree]. intros m2 C2.
  apply create_dir_all_spec in C2 as (K2 & _ & D2 & _).
  assert (F : root_of cfg x = files_path storage (b_slug (row x))) by done.
  rewrite join_files_normal in D2 by (rewrite ?F; first [done|by apply tidy_path_normal]).
  assert (Ep : root_of cfg x +:+ "/" +:+ p = place (root_of cfg x) (str_split slash p)).
  { destruct (str_split_cons slash p) as (y & ys & E). rewrite place_below by (by rewrite E). by rewrite concat_split. }
  rewrite Ep in D2. rewrite F in D2.
  apply wp_bind_ok, (wp_upsert_backed _ (files_path storage (b_slug (row x)))); [done| | |done|].
  - eapply backed_mono; [|exact B]. intros q n Hn. cbn [st_tree set_tree].
    eapply lookup_weaken; [|exact K2]. by eapply lookup_weaken.
  - intros e (q & -> & Hq)%list_elem_of_fmap. destruct (folder_entry_fields q) as [-> ->].
    apply ancestor_path in Hq as (l1 & l2 & El & Hne & ->). unfold tidy_path in Tp. rewrite El in *.
    split; [apply tidy_path_concat; [done|]; by apply Forall_app in Tp as []|].
    specialize (D2 _ (place_in_lineage _ l1 l2 JF (tidy_inert _ Tp))). apply is_dir_some in D2 as [t Ht].
    exists (Dir t). rewrite <- place_below by done. done.
  - intros c Sc Eb Bc. eapply (wp_regen_backed _ _ st); rewrite ?registry_with; try done.
Qed.

Lemma wp_read_parts tmp fields s t n st (Q : AppState → AppResult (option Z * option string * option string) → Prop) :
  (∀ st' e, Q st' (Err e)) →
  (is_Some s → ∃ c t0, st_tree st !! tmp = Some (File c t0)) →
  (∀ m' r, (∀ q, q ≠ tmp → m' !! q = st_tree st !! q) →
     (is_Some r.1.1 → ∃ c t0, m' !! tmp = Some (File c t0)) → Q (set_tree m' st) (Ok r)) →
  wp (read_upload_parts tmp s t n fields) (calm now) st Q.
Proof.
  revert s t n st. induction fields as [|[f|e] fields IH]; intros s t n st HE HT HO; cbn [read_upload_parts].
  - apply wp_ret. rewrite <- (set_tree_same st). by apply HO.
  - case_bool_decide.
    + apply wp_bind_ok, wp_stream; [apply HE|]. intros bytes k _. apply IH; [apply HE| |].
      * intros _. cbn [st_tree set_tree]. rewrite lookup_insert_eq. eauto.
      * intros m' r M F. apply HO; [|done]. intros q Hq. rewrite M by done. cbn [st_tree set_tree].
        by rewrite lookup_insert_ne by (by apply not_eq_sym).
    + case_bool_decide; [|by apply IH]. apply wp_bind_ok, wp_ret. destruct (uf_text f); [|apply HE].
      by apply IH.
  - apply wp_ret, HE.
Qed.

Lemma keeps_upload_file m : keeps_backed (upload_file cfg slug m).
Proof.
  intros st S B. apply wp_bind_ok, wp_resolved_bundle; [done|]. intros x V Hx Es.
  apply validate_slug_ok in V as [I _]. specialize (B _ _ Hx Es).
  pose proof (files_joinable storage slug J I) as JF. rewrite <- Es in *.
  apply wp_bind_ok, wp_fs_call; [done|]. intros m1 C1. apply create_dir_all_spec in C1 as (K1 & _).
  apply wp_bind_ok, wp_bind_ok, wp_fs_call; [done|]. cbn [st_tree set_tree]. intros m2 C2.
  apply create_dir_all_spec in C2 as (K2 & _).
  apply wp_bind, wp_new_uuid. intros tk _. apply wp_ret. set (tmp := path_join _ _).
  destruct (staged_apart cfg (b_slug (row x)) (hyphenated (t_uuid tk) +:+ ".zip.tmp") J I) as (Bt & _).
  change (path_join (build_path storage (b_slug (row x))) _) with tmp in Bt.
  apply wp_bind, wp_bind_ok, wp_read_parts; [intros; by apply wp_bind, wp_fs_quiet, wp_ret|by intros []|].
  intros m3 [[size target] name] M3 F3. cbn [fst] in F3.
  destruct size as [size|]; [|by apply wp_bind_ok, wp_ret, wp_bind, wp_fs_quiet, wp_ret].
  apply wp_bind_ok, wp_ret. cbn [ok_or]. apply wp_bind_ok, wp_ret.
  destruct (raw_target target name) as [raw|]; cbn [ok_or]; [|by apply wp_bind, wp_fs_quiet, wp_ret].
  apply wp_bind_ok, wp_ret. destruct (normalize_relative_path raw _) as [p|e] eqn:N; [|by apply wp_bind, wp_fs_quiet, wp_ret].
  pose proof (normalized_tidy _ _ _ N) as Tp.
  apply wp_bind_ok, wp_fs_call; [by apply wp_bind, wp_fs_quiet, wp_ret|]. cbn [st_tree set_tree].
  intros m4 C4. apply create_dir_all_spec in C4 as (K4 & _). apply wp_ret.
  assert (F : root_of cfg x = files_path storage (b_slug (row x))) by done. rewrite F in *.
  rewrite join_files_normal by first [done|by apply tidy_path_normal].
  set (dest := files_path storage (b_slug (row x)) +:+ "/" +:+ p).
  apply wp_bind_ok, wp_fs_call; [done|]. cbn [st_tree set_tree]. intros m5 R.
  destruct F3 as (c0 & t0 & F3); [eauto|]. cbn [st_tree set_tree] in F3.
  assert (F4 : m4 !! tmp = Some (File c0 t0)) by (by eapply lookup_weaken).
  unfold rename in R. cbv beta in R. rewrite F4 in R. cbv iota in R. destruct (_ || _) in R; [done|]. injection R as <-.
  apply wp_bind_ok, wp_fs_look. cbn [st_tree set_tree]. rewrite lookup_insert_eq.
  apply wp_bind, wp_fs_look. destruct (split_relative_path p) as [nm cat].
  apply wp_bind_ok, wp_on_content; [done|]. intros t c [] _ E.
  pose proof (upsert_row_at _ _ _ _ _ _ S E) as [Ec _].
  eapply (wp_regen_backed _ _ st); rewrite ?registry_with; try done; [by eapply upsert_ok|by rewrite Ec|].
  eapply upsert_backed; [exact S|exact E|exact Tp| |]; cbn [se_relative_path se_is_dir st_tree with_content set_db set_tree].
  - exists (File c0 t0). by rewrite lookup_insert_eq.
  - intros q a Hq Ha. apply (proj1 (backed_rows _ _ _ _ S) B) in Ha as (Tq & n & Hn & Kn). split; [done|]. exists n.
    split; [|done]. rewrite lookup_insert_ne by (intros Ed; by apply app_cancel, app_cancel in Ed).
    rewrite lookup_delete_ne by (intros Ed; by rewrite Ed, below_join in Bt).
    eapply lookup_weaken; [|exact K4]. rewrite M3 by (intros Ed; by rewrite <- Ed, below_join in Bt).
    cbn [st_tree set_tree]. eapply lookup_weaken; [|exact K2]. by eapply lookup_weaken.
Qed.
End Fixed.
End Edits.

(** C22. No row without its file. When every row of a build has its file or folder on disk, then after any
    upload of a file, creation of a folder, deletion of one entry or of many, rename, move, toggle,
    rehash or regeneration that succeeds, every row still has its own. (No call fails, and the clocks read one instant.) *)
Theorem edits_stay_backed `{Primitives} `{PayloadText} `{UuidParser} cfg sql_text slug r now o st st' :
  joinable (bundles_root cfg) → content_ok (registry st) → (∀ i, calm now (o i)) →
  build_backed cfg slug st → exec (serve_edit cfg sql_text slug r) o st = (st', Ok ()) →
  build_backed cfg slug st'.
Proof.
  intros J S Ho B E.
  refine (wp_exec _ (calm now) o st (λ st' r, is_ok r = true → build_backed cfg slug st') st' (Ok ()) Ho E _ eq_refl).
  assert (K : keeps_backed cfg now slug (serve_edit cfg sql_text slug r)); [|by apply K].
  destruct r; apply keeps_void; auto using keeps_upload_file, keeps_create_folder, keeps_delete_file,
    keeps_bulk_delete, keeps_toggle, keeps_rehash, keeps_move, keeps_regenerate.
Qed.

Definition sample_edits : list EditRequest :=
  [EUploadFile [Ok (mkUploadField (Some "file") (Some "conf\b.cfg") [Data "x="; Data "1"] (Err ""))];
   ECreateFolder " mods/extra "; EBulkDelete [7%N; 7%N; 99%N]].

Definition run_edits (st : AppState) : AppState * list bool :=
  foldl (λ acc r,
    let r' := exec (serve_edit (H := toy_primitives) (H0 := plain_text) (H1 := toy_parser) default_config
                      (λ _, "") "pack" r) (calm_oracle (Z.of_nat (length acc.2) + 100)) acc.1 in
    (r'.1, acc.2 ++ [is_ok r'.2])) (st, []) sample_edits.

Lemma edits_stay_backed_witness :
  let r := exec (serve_edit (H := toy_primitives) (H0 := plain_text) (H1 := toy_parser) default_config
                   (λ _, "") "pack" (EBulkDelete [7%N; 8%N])) (calm_oracle 50) folder_state in
  (run_edits folder_state).2 = [true; true; true] ∧
  map (λ a, (ba_relative_path a, ba_is_dir a)) (map row (artifacts_of 1 (registry (run_edits folder_state).1)))
  = [("conf/b.cfg", false); ("mods", true); ("mods/extra", true); ("stale.txt", false)] ∧
  r.2 = Ok () ∧ build_backed default_config "pack" r.1.
Proof.
  split; [vm_compute; reflexivity|]. split; [vm_compute; reflexivity|]. split; [vm_compute; reflexivity|].
  apply (edits_stay_backed (H := toy_primitives) (H0 := plain_text) (H1 := toy_parser) default_config
           (λ _, "") "pack" (EBulkDelete [7%N; 8%N]) 50 (calm_oracle 50) folder_state).
  - exact default_joinable.
  - exact folder_content_ok.
  - intros i. apply calm_oracle_calm.
  - exact folder_backed.
  - vm_compute. reflexivity.
Defined.

(** C25. Downloads stay inside. A path handed to the file server is what the system resolves a
    path below the files of a registered build to, without [..], and it lies, part by part,
    below what the system resolves that build's files to, whatever symbolic links the disk has
    when it is asked; and the content type is one of three fixed ones that no browser renders
    as a page. *)
Theorem serve_file_inside `{Realpath} cfg slug rel o st st' target mime :
  joinable (bundles_root cfg) → exec (serve_file cfg slug rel) o st = (st', Ok (target, mime)) →
  st' = st ∧
  (∃ k b, bundles (registry st) !! k = Some b ∧ b_slug b = slug) ∧
  (∃ l base below,
    let files := bundles_root cfg +:+ "/builds/" +:+ slug +:+ "/files" in
    l ≠ [] ∧ Forall tidy l ∧
    realpath (st_tree st) (files +:+ "/" +:+ String.concat "/" l) = Some target ∧
    realpath (st_tree st) files = Some ("/" +:+ String.concat "/" base) ∧
    target = "/" +:+ String.concat "/" (base ++ below) ∧ Forall inert (base ++ below)) ∧
  mime ∈ ["application/json"; "application/java-archive"; "application/octet-stream"].
Proof.
  intros J E. exec_start E any_tick.
  assert (L : ∀ p (Q : AppState → AppResult string → Prop), (∀ e, Q st (Err e)) →
    (∀ q, realpath (st_tree st) p = Some q → Q st (Ok q)) → wp (canonicalize p) any_tick st Q).
  { intros p Q HE HO. apply wp_on_tree. intros t _. cbn [fst snd]. rewrite set_tree_same.
    destruct (t_fault t); [apply HE|]. destruct (realpath _ p) eqn:R; [by apply HO|apply HE]. }
  apply wp_bind_ok, wp_ret. destruct (validate_slug slug) as [[]|e] eqn:V; [|done].
  apply validate_slug_ok in V as [I _].
  apply wp_bind_ok, wp_bind_ok, wp_look; [done|]. apply wp_ret.
  destruct (find_row _ _) as [x|] eqn:F; [|done]. apply find_row_Some in F as [Hx Es%String.eqb_eq]. cbn [ok_or].
  apply wp_bind_ok, wp_ret. destruct (normalize_relative_path rel "path") as [p|e] eqn:N; [|done].
  pose proof (normalized_tidy _ _ _ N) as Tp.
  apply wp_bind_ok, L; [done|]. intros r Hr. apply wp_bind_ok, L; [done|]. intros q Hq.
  destruct (path_starts_with q r) eqn:PS; [|done]. apply wp_ret. intros [= <- <-].
  unfold storage_root in *. destruct (files_path_joinable (bundles_root cfg) slug J I) as [JF EF].
  split_and!; [done|by eauto| |].
  - destruct (canonical_inside q r) as (base & below & Ib & -> & ->); [by eapply realpath_canonical..|done|].
    exists (str_split slash p), base, below. cbv zeta. rewrite EF in Hr.
    split_and!; [by destruct (str_split_cons slash p) as (y & ys & ->)|done| |by rewrite <- ?str_app_assoc in *|done|done].
    rewrite concat_split. rewrite join_files_normal, EF in Hq by first [done|by apply tidy_path_normal].
    by rewrite <- ?str_app_assoc in *.
  - unfold content_type_for. destruct (_ =? "json")%string; [by left|].
    destruct (_ =? "jar")%string; [by right; left|by right; right; left].
Qed.

(** [mods/a.jar] is a file of the build; [mods] may have been replaced by a link to [/etc]. *)
Definition escaping : gmap string (list string) := {[ pack_files +:+ "/mods/a.jar" := ["etc"; "a.jar"] ]}.

Lemma serve_file_inside_witness :
  exec (serve_file (H3 := linked ∅) default_config "pack" "mods\a.jar") (calm_oracle 5) folder_state
  = (folder_state, Ok ("/srv/data/bundle-registry/builds/pack/files/mods/a.jar", "application/java-archive")) ∧
  (exec (serve_file (H3 := linked escaping) default_config "pack" "mods\a.jar") (calm_oracle 5) folder_state).2
  = Err (NotFound "file not found") ∧
  (exec (serve_file (H3 := linked ∅) default_config "pack" "../artifacts.json") (calm_oracle 5) folder_state).2
  = Err (BadRequest "path escapes the build directory") ∧
  ∃ l base below,
    let files := bundles_root default_config +:+ "/builds/" +:+ "pack" +:+ "/files" in
    l ≠ [] ∧ Forall tidy l ∧
    realpath (Realpath := linked ∅) (st_tree folder_state) (files +:+ "/" +:+ String.concat "/" l)
    = Some "/srv/data/bundle-registry/builds/pack/files/mods/a.jar" ∧
    realpath (Realpath := linked ∅) (st_tree folder_state) files = Some ("/" +:+ String.concat "/" base) ∧
    "/srv/data/bundle-registry/builds/pack/files/mods/a.jar" = "/" +:+ String.concat "/" (base ++ below) ∧
    Forall inert (base ++ below).
Proof.
  assert (E : exec (serve_file (H3 := linked ∅) default_config "pack" "mods\a.jar") (calm_oracle 5) folder_state
    = (folder_state, Ok ("/srv/data/bundle-registry/builds/pack/files/mods/a.jar", "application/java-archive")))
    by (vm_compute; reflexivity).
  split; [exact E|]. split; [vm_compute; reflexivity|]. split; [vm_compute; reflexivity|].
  destruct (serve_file_inside (H := linked ∅) default_config "pack" "mods\a.jar" (calm_oracle 5) folder_state folder_state _
           "application/java-archive" default_joinable E) as (_ & _ & W & _).
  exact W.
Defined.

(** ** What goes wrong *)

(** [move_files] promises all or nothing. When a later entry of the batch is refused, the rows
    are rolled back, but the files that were already renamed stay where they are: the row of
    [mods/a.jar] has lost its file. *)
Definition clash_content : Content :=
  set_bundle_artifacts
    {[7%N := mkBundleArtifact 1 "mods/a.jar" "a.jar" "mods" 3 (Some "old") false true None;
      8%N := mkBundleArtifact 1 "stale.txt" "stale.txt" "root" 1 (Some "s") false false None;
      10%N := mkBundleArtifact 1 "mods/stale.txt" "stale.txt" "mods" 1 (Some "t") false false None]}
    sample_content.

Definition clash_state : AppState :=
  with_content clash_content
    (set_tree (<[pack_files +:+ "/mods/stale.txt" := File "t" 2]> sample_disk) sample_state).

Example half_moved :
  let r := exec (move_files (H0 := plain_text) default_config "pack" [7%N; 10%N] "") (calm_oracle 50) clash_state in
  r.2 = Err (Conflict "a file or folder already exists at that path") ∧
  map ba_relative_path (map row (artifacts_of 1 (registry r.1)))
  = ["mods/a.jar"; "mods/stale.txt"; "stale.txt"] ∧
  st_tree r.1 !! (pack_files +:+ "/mods/a.jar") = None ∧
  st_tree r.1 !! (pack_files +:+ "/a.jar") = Some (File "old" 2) ∧
  backedb 1 pack_files (registry clash_state) (st_tree clash_state) = true ∧
  backedb 1 pack_files (registry r.1) (st_tree r.1) = false.
Proof. vm_compute. repeat split. Qed.

(** [bulk_delete] answers the number of entries it resolved, twice for an id that is given twice,
    where its comment promises the rows actually removed. *)
Example deleted_counts_twice :
  let r := exec (bulk_delete (H0 := plain_text) default_config "pack" [7%N; 7%N; 99%N]) (calm_oracle 50) folder_state in
  r.2 = Ok 2 ∧ length (artifacts_of 1 (registry folder_state)) = 3 ∧ length (artifacts_of 1 (registry r.1)) = 2.
Proof. vm_compute. repeat split. Qed.

(** The staged file is given up before it is renamed, so that it stays when the target is a
    folder, against the promise of [TempUpload]. *)
Example upload_leaks :
  let r := exec (upload_file (H := toy_primitives) (H0 := plain_text) (H1 := toy_parser) default_config "pack"
                   [Ok (mkUploadField (Some "file") (Some "mods") [Data "12345"] (Err ""))]) (calm_oracle 50) folder_state in
  r.2 = Err (Internal "move file into place") ∧
  map fst (List.filter (λ kv, starts_with ("data/bundle-registry/builds/pack/upload-") kv.1)
             (map_to_list (st_tree r.1))) = ["data/bundle-registry/builds/pack/upload-" +:+ hyphenated (UuidParser := toy_parser) 1003 +:+ ".zip.tmp"].
Proof. vm_compute. repeat split. Qed.
