(* ===== verification/JoinSessions.v ===== *)
(** * Join sessions

    [crates/yggdrasil/src/join_sessions.rs]: the process-wide store where the [join] of a
    client waits for the [hasJoined] of its game server, at most thirty seconds and for one
    taker. [Utc::now()] is read before the lock is taken, so an operation is two actions:
    the clock and the store. *)

From S2P Require Import Prelude Errors Realtime Schema Prog.

Definition JOIN_SESSION_TTL_SECONDS : Z := 30.

Definition is_expired (s : JoinSession) (now : Time) : bool := (js_expires_at s <=? now)%Z.

Abbreviation Store := (gmap string JoinSession) (only parsing).

(** [map.retain(|_, s| !s.is_expired(now))]. *)
Definition retain_live (now : Time) (m : Store) : Store :=
  map_imap (λ _ s, if is_expired s now then None else Some s) m.

Definition record_at (now : Time) (server_id : string) (user_id : Uuid) (ip : option string)
  (m : Store) : Store :=
  <[server_id :=
      mkJoinSession user_id ip (now + secs JOIN_SESSION_TTL_SECONDS)]> (retain_live now m).

Definition take_at (now : Time) (server_id : string) (m : Store) : Store * option JoinSession :=
  let m := retain_live now m in
  match m !! server_id with
  | None => (m, None)
  | Some session =>
      (delete server_id m, if is_expired session now then None else Some session)
  end.

(** The lock held for [f]. *)
Definition on_join_sessions {B} (f : Store → Store * B) : prog B :=
  act (λ _ st, let '(m, b) := f (st_join_sessions st) in (set_join_sessions m st, b)).

Definition record (server_id : string) (user_id : Uuid) (ip : option string) : prog unit :=
  let* now := utc_now in
  on_join_sessions (λ m, (record_at now server_id user_id ip m, ())).

Definition take (server_id : string) : prog (option JoinSession) :=
  let* now := utc_now in
  on_join_sessions (take_at now server_id).

(** ** What the store promises

    Clients see a register per server id: the last session announced there, until somebody
    takes it or its time is over. The sweeps are not part of the promise. *)

Inductive StoreOp : Type :=
| Announce (now : Time) (server_id : string) (user_id : Uuid) (ip : option string)
| Claim (now : Time) (server_id : string).

Definition op_time (op : StoreOp) : Time :=
  match op with Announce now _ _ _ => now | Claim now _ => now end.

(** The answers of the code, claim by claim. *)
Fixpoint answers (m : Store) (ops : list StoreOp) : list (option JoinSession) :=
  match ops with
  | [] => []
  | Announce now id u ip :: ops => answers (record_at now id u ip m) ops
  | Claim now id :: ops => let '(m', s) := take_at now id m in s :: answers m' ops
  end.

(** The register of [id] after a history, newest operation first: the last announcement,
    unless a claim came after it. *)
Fixpoint announced (id : string) (past : list StoreOp) : option JoinSession :=
  match past with
  | [] => None
  | Announce now id' u ip :: past =>
      if (id' =? id)%string then Some (mkJoinSession u ip (now + secs JOIN_SESSION_TTL_SECONDS))
      else announced id past
  | Claim _ id' :: past => if (id' =? id)%string then None else announced id past
  end.

(** The answer to a claim at [now] after that history. *)
Definition claimable (now : Time) (id : string) (past : list StoreOp) : option JoinSession :=
  match announced id past with
  | Some s => if is_expired s now then None else Some s
  | None => None
  end.

Fixpoint promised (past ops : list StoreOp) : list (option JoinSession) :=
  match ops with
  | [] => []
  | Announce now id u ip :: ops => promised (Announce now id u ip :: past) ops
  | Claim now id :: ops => claimable now id past :: promised (Claim now id :: past) ops
  end.

(** The operations happen in the order of the clock, from [T] on. *)
Fixpoint in_order (T : Time) (ops : list StoreOp) : Prop :=
  match ops with [] => True | op :: ops => (T ≤ op_time op)%Z ∧ in_order (op_time op) ops end.

(** ** Lemmas *)

Lemma lookup_retain_live now m id :
  retain_live now m !! id =
  match m !! id with Some s => if is_expired s now then None else Some s | None => None end.
Proof. unfold retain_live. rewrite map_lookup_imap. by destruct (m !! id). Qed.

Lemma take_at_spec now id m :
  take_at now id m = (delete id (retain_live now m), retain_live now m !! id).
Proof.
  unfold take_at. destruct (retain_live now m !! id) as [s|] eqn:E.
  - rewrite lookup_retain_live in E. destruct (m !! id) as [s'|]; [|done].
    destruct (is_expired s' now) eqn:X; [done|]. injection E as <-. by rewrite X.
  - by rewrite delete_id.
Qed.

Lemma expired_later s now now' : (now ≤ now')%Z → is_expired s now = true → is_expired s now' = true.
Proof. unfold is_expired. rewrite !Z.leb_le. lia. Qed.

(** The store and the registers agree on every session that is live at [T] or later. *)
Definition agrees (T : Time) (m : Store) (past : list StoreOp) : Prop :=
  ∀ now id, (T ≤ now)%Z → retain_live now m !! id = claimable now id past.

Lemma agrees_retain T now m past id :
  agrees T m past → (T ≤ now)%Z →
  ∀ now', (now ≤ now')%Z → retain_live now' (retain_live now m) !! id = claimable now' id past.
Proof.
  intros A HT now' Hn. rewrite <- (A now' id) by lia. rewrite !lookup_retain_live.
  destruct (m !! id) as [s|]; [|done]. destruct (is_expired s now) eqn:E; [|done].
  by rewrite (expired_later _ _ _ Hn E).
Qed.

Lemma agrees_announce T m past now id u ip :
  agrees T m past → (T ≤ now)%Z → agrees now (record_at now id u ip m) (Announce now id u ip :: past).
Proof.
  intros A HT now' id' Hn. unfold record_at, claimable. cbn [announced]. rewrite lookup_retain_live.
  destruct (String.eqb_spec id id') as [->|Hne]; [by rewrite lookup_insert_eq|].
  rewrite lookup_insert_ne, <- lookup_retain_live by done. by apply (agrees_retain T).
Qed.

Lemma agrees_claim T m past now id :
  agrees T m past → (T ≤ now)%Z → agrees now (delete id (retain_live now m)) (Claim now id :: past).
Proof.
  intros A HT now' id' Hn. unfold claimable. cbn [announced]. rewrite lookup_retain_live.
  destruct (String.eqb_spec id id') as [->|Hne]; [by rewrite lookup_delete_eq|].
  rewrite lookup_delete_ne, <- lookup_retain_live by done. by apply (agrees_retain T).
Qed.

Lemma answers_agree T m past ops :
  agrees T m past → in_order T ops → answers m ops = promised past ops.
Proof.
  revert T m past. induction ops as [|[now id u ip|now id] ops IH]; intros T m past A; simpl; [done|..];
    intros [HT Ho].
  - eapply IH; [|done]. by eapply agrees_announce.
  - rewrite take_at_spec, (A now id HT). f_equal. eapply IH; [|done]. by eapply agrees_claim.
Qed.

(** ** Properties *)

(** C32. The join-session store refines a register per server id. For any announcements and claims
    in the order of the clock, on any number of servers, a claim is answered with the last session
    announced for its server if nobody claimed there since and less than thirty seconds
    have passed, and with nothing otherwise: the sweeps that every operation makes are
    never seen. *)
Theorem store_refines_register T ops : in_order T ops → answers ∅ ops = promised [] ops.
Proof.
  apply answers_agree. intros now id _. by rewrite lookup_retain_live, lookup_empty.
Qed.

(** Announced twice, claimed twice, and claimed too late. *)
Definition store_history : list StoreOp :=
  [Announce 0 "a" 1 None; Announce 5 "a" 2 None; Announce 6 "b" 3 None; Claim 9 "a"; Claim 10 "a";
   Claim (secs 31) "b"].

Lemma store_refines_register_witness :
  answers ∅ store_history = [Some (mkJoinSession 2 None (5 + secs 30)); None; None] ∧
  answers ∅ store_history = promised [] store_history.
Proof.
  split; [vm_compute; reflexivity|]. apply (store_refines_register 0). vm_compute. intuition discriminate.
Defined.
