(* ===== verification/CatalogRepo.v ===== *)
(** * Catalog reads

    [crates/catalog/src/repo.rs], [dto.rs] and [public.rs]: the launcher's clients, keywords
    and servers with the draft filter, the locale fall-back and their relations, which are
    loaded for a whole set of clients at once and grouped in memory. *)

From S2P Require Import Prelude RustStr Errors Models Table Content Schema Prog Auth Invariant.
From S2P Require Import Identity BundleRepo.
From S2P Require Textures.

Import Textures (UuidParser, parse_str).

(** ** [dto.rs] *)

(** [form_urlencoded::parse]: the pairs of a query string, decoded. *)
Class FormUrlencoded := form_pairs : string → list (string * string).

Record CatalogQuery : Type := mkCatalogQuery { cq_locale : option string }.

Definition from_query `{FormUrlencoded} (raw : string) : CatalogQuery :=
  mkCatalogQuery (foldl (λ locale kv,
    if (kv.1 =? "locale")%string then (if (kv.2 =? "")%string then None else Some kv.2) else locale)
    None (form_pairs raw)).

Record MediaDto : Type := mkMediaDto {
  md_url : string;
  md_width : option Z;
  md_height : option Z
}.

Record BundleSummaryDto : Type := mkBundleSummary {
  bs_slug : string;
  bs_version : option string;
  bs_status : string;
  bs_files_count : Z;
  bs_manifest_url : string
}.

Record KeywordDto : Type := mkKeywordDto { kd_id : string; kd_title : string }.

Record ServerDto : Type := mkServerDto {
  sd_id : string;
  sd_name : option string;
  sd_address : string
}.

Record ClientDto : Type := mkClientDto {
  cd_id : string;
  cd_slug : string;
  cd_title : string;
  cd_description : string;
  cd_short_description : string;
  cd_available : bool;
  cd_minecraft_version : option string;
  cd_forge_version : option string;
  cd_fabric_version : option string;
  cd_runtime_version : option string;
  cd_bundle_slug : option string;
  cd_background : option MediaDto;
  cd_poster : option MediaDto;
  cd_title_image : option MediaDto;
  cd_screenshots : list MediaDto;
  cd_keywords : list KeywordDto;
  cd_servers : list ServerDto;
  cd_bundle : option BundleSummaryDto
}.

Record ClientAdminDto : Type := mkClientAdminDto { ca_client : ClientDto; ca_published : bool }.

(** ** Localized text *)

Definition DEFAULT_LOCALE : string := "en".

Definition in_locale {T} (locale : string) : string * T → bool := λ row, (row.1 =? locale)%string.

Definition pick_locale {T} (rows : list (string * T)) (requested : string) : option T :=
  option_map snd
    match List.find (in_locale requested) rows with
    | Some row => Some row
    | None =>
        match List.find (in_locale DEFAULT_LOCALE) rows with
        | Some row => Some row
        | None => head rows
        end
    end.

Definition resolve_client_locale (rows : list (string * ClientLocale)) (requested : string)
  : string * option string * option string :=
  match pick_locale rows requested with
  | Some row => (cl_title row, cl_description row, cl_short_description row)
  | None => ("", None, None)
  end.

(** ** Media *)

Definition media_dto (row : CatalogMedia) : MediaDto :=
  mkMediaDto (cm_url row) (cm_width row) (cm_height row).

(** The background, the poster, the title image and the screenshots. *)
Record Slots : Type := mkSlots {
  background : option MediaDto;
  poster : option MediaDto;
  title_image : option MediaDto;
  screenshots : list MediaDto
}.

Definition fill_slot (s : Slots) (row : CatalogMedia) : Slots :=
  let '(mkSlots b p ti sc) := s in
  if (cm_role row =? "background")%string && bool_decide (b = None)
  then mkSlots (Some (media_dto row)) p ti sc
  else if (cm_role row =? "poster")%string && bool_decide (p = None)
  then mkSlots b (Some (media_dto row)) ti sc
  else if (cm_role row =? "titleImage")%string && bool_decide (ti = None)
  then mkSlots b p (Some (media_dto row)) sc
  else if (cm_role row =? "screenshot")%string
  then mkSlots b p ti (sc ++ [media_dto row])
  else s.

Definition assemble_media (rows : list CatalogMedia) : Slots :=
  foldl fill_slot (mkSlots None None None []) rows.

(** ** Relations *)

(** [map.entry(k).or_default().push(a)]. *)
Definition push {A} (k : Uuid) (a : A) (m : gmap Uuid (list A)) : gmap Uuid (list A) :=
  <[k := default [] (m !! k) ++ [a]]> m.

Definition group {R A} (k : R → Uuid) (a : R → A) (rows : list R) : gmap Uuid (list A) :=
  foldl (λ m r, push (k r) (a r) m) ∅ rows.

(** [= ANY($1)]. *)
Definition among (ids : list Uuid) (id : Uuid) : bool := existsb (N.eqb id) ids.

Record ClientRelations : Type := mkRelations {
  locales : gmap Uuid (list (string * ClientLocale));
  media : gmap Uuid (list CatalogMedia);
  keywords : gmap Uuid (list KeywordDto);
  servers : gmap Uuid (list ServerDto);
  summaries : gmap Uuid BundleSummaryDto
}.

Definition no_relations : ClientRelations := mkRelations ∅ ∅ ∅ ∅ ∅.

Definition locale_rows (ids : list Uuid) (c : Content) : list (Uuid * string * ClientLocale) :=
  List.filter (λ kr, among ids kr.1.1) (map_to_list (catalog_client_locales c)).

Definition media_columns (r : Keyed CatalogMedia) : list Z :=
  [cm_sort_order (row r); cm_created_at (row r)].

Definition media_rows (ids : list Uuid) (c : Content) : list (Keyed CatalogMedia) :=
  sort_by (λ r, Z.of_N (cm_client_id (row r)) :: media_columns r)
    (select_rows (λ _ r, among ids (cm_client_id r)) (catalog_media c)).

(** A row of a link table joined with what it links to. *)
Record Link (R : Type) : Type := mkLink {
  lk_client : Uuid;
  lk_sort_order : Z;
  lk_row : Keyed R
}.
Arguments mkLink {R}.
Arguments lk_client {R}.
Arguments lk_sort_order {R}.
Arguments lk_row {R}.

Definition kw_published (_ : Uuid) (r : CatalogKeyword) : bool :=
  bool_decide (is_Some (kw_published_at r)).
Definition sv_published (_ : Uuid) (r : CatalogServer) : bool :=
  bool_decide (is_Some (sv_published_at r)).
Definition cc_published (_ : Uuid) (r : CatalogClient) : bool :=
  bool_decide (is_Some (cc_published_at r)).

(** [FROM rows JOIN links ON .. WHERE .. AND published_at IS NOT NULL]. *)
Definition join_links {R} (published : Uuid → R → bool) (want : Uuid → bool) (rows : gmap Uuid R)
  (links : gmap (Uuid * Uuid) Z) : list (Link R) :=
  omap (λ kr : Uuid * Uuid * Z,
    match rows !! kr.1.2 with
    | Some r => if want kr.1.1 && published kr.1.2 r
                then Some (mkLink kr.1.1 kr.2 (mkKeyed kr.1.2 r)) else None
    | None => None
    end) (map_to_list links).

Definition link_columns {R} (created_at : R → Time) (l : Link R) : list Z :=
  [lk_sort_order l; created_at (row (lk_row l))].

Definition keyword_rows (ids : list Uuid) (c : Content) : list (Link CatalogKeyword) :=
  sort_by (λ l, Z.of_N (lk_client l) :: link_columns kw_created_at l)
    (join_links kw_published (among ids) (catalog_keywords c) (catalog_client_keywords c)).

Definition server_rows (ids : list Uuid) (c : Content) : list (Link CatalogServer) :=
  sort_by (λ l, Z.of_N (lk_client l) :: link_columns sv_created_at l)
    (join_links sv_published (among ids) (catalog_servers c) (catalog_client_servers c)).

(** [sort_unstable] and [dedup] of equal neighbours. *)
Fixpoint dedup_ids (l : list Uuid) : list Uuid :=
  match l with
  | a :: (b :: _) as l' => if (a =? b)%N then dedup_ids l' else a :: dedup_ids l'
  | _ => l
  end.

Definition distinct (ids : list Uuid) : list Uuid := dedup_ids (sort_by (λ id, [Z.of_N id]) ids).

Definition keyword_locale_rows (ids : list Uuid) (c : Content) : list (Uuid * string * string) :=
  List.filter (λ kr, among ids kr.1.1) (map_to_list (catalog_keyword_locales c)).

Definition load_keyword_titles (ids : list Uuid) (requested : string)
  : prog (AppResult (gmap Uuid string)) :=
  let keyword_ids := distinct ids in
  if bool_decide (keyword_ids = []) then ret_ok ∅
  else
    let? rows := look (keyword_locale_rows keyword_ids) in
    let grouped := group (λ r, r.1.1) (λ r, (r.1.2, r.2)) rows in
    let title id := default "" match grouped !! id with
                               | Some locales => pick_locale locales requested
                               | None => None
                               end in
    ret_ok (foldl (λ out id, <[id := title id]> out) ∅ keyword_ids).

Definition bundle_summary (b : Bundle) : BundleSummaryDto :=
  mkBundleSummary (b_slug b) (b_version b) (b_status b) (b_files_count b)
    ("/api/bundle-registry/builds/" +:+ b_slug b +:+ "/manifest").

Definition load_bundles (links : list (Uuid * Uuid)) : prog (AppResult (gmap Uuid BundleSummaryDto)) :=
  if bool_decide (links = []) then ret_ok ∅
  else
    let bundle_ids := distinct (map snd links) in
    let? rows := look (λ c, select_rows (λ k _, among bundle_ids k) (bundles c)) in
    let by_bundle : gmap Uuid Bundle := foldl (λ m b, <[key b := row b]> m) ∅ rows in
    ret_ok (foldl (λ out link,
      match by_bundle !! link.2 with
      | Some b => <[link.1 := bundle_summary b]> out
      | None => out
      end) ∅ links).

(** ** Clients *)

Section Reads.
Context `{UuidText} `{UuidParser}.

Definition id_hex (id : Uuid) : string := simple id.

Definition server_dto (r : Keyed CatalogServer) : ServerDto :=
  mkServerDto (id_hex (key r)) (sv_name (row r)) (sv_address (row r)).

Definition keyword_dto (titles : gmap Uuid string) (id : Uuid) : KeywordDto :=
  mkKeywordDto (id_hex id) (default "" (titles !! id)).

Definition load_client_relations (ids : list Uuid) (links : list (Uuid * Uuid)) (locale : string)
  : prog (AppResult ClientRelations) :=
  if bool_decide (ids = []) then ret_ok no_relations
  else
    let? locale_rows := look (locale_rows ids) in
    let? media_rows := look (media_rows ids) in
    let? keyword_rows := look (keyword_rows ids) in
    let? titles := load_keyword_titles (map (λ l, key (lk_row l)) keyword_rows) locale in
    let? server_rows := look (server_rows ids) in
    let? summaries := load_bundles links in
    ret_ok (mkRelations
      (group (λ r, r.1.1) (λ r, (r.1.2, r.2)) locale_rows)
      (group (λ r, cm_client_id (row r)) row media_rows)
      (group lk_client (λ l, keyword_dto titles (key (lk_row l))) keyword_rows)
      (group lk_client (λ l, server_dto (lk_row l)) server_rows)
      summaries).

(** The maps give up what they hold about the client. *)
Definition assemble_client_dto (r : Keyed CatalogClient) (relations : ClientRelations)
  (locale : string) : ClientDto * ClientRelations :=
  let id := key r in
  let '(title, description, short_description) :=
    resolve_client_locale (default [] (locales relations !! id)) locale in
  let slots := assemble_media (default [] (media relations !! id)) in
  let bundle := summaries relations !! id in
  (mkClientDto (id_hex id) (cc_slug (row r)) title (default "" description)
     (default "" short_description) (cc_available (row r)) (cc_minecraft_version (row r))
     (cc_forge_version (row r)) (cc_fabric_version (row r)) (cc_runtime_version (row r))
     (option_map bs_slug bundle) (background slots) (poster slots) (title_image slots)
     (screenshots slots) (default [] (keywords relations !! id))
     (default [] (servers relations !! id)) bundle,
   mkRelations (delete id (locales relations)) (delete id (media relations))
     (delete id (keywords relations)) (delete id (servers relations))
     (delete id (summaries relations))).

(** [rows.into_iter().map(..)]: the rows' relations are taken out one after the other. *)
Fixpoint assemble_all (locale : string) (rows : list (Keyed CatalogClient))
  (relations : ClientRelations) : list ClientDto :=
  match rows with
  | [] => []
  | r :: rows =>
      let '(dto, relations) := assemble_client_dto r relations locale in
      dto :: assemble_all locale rows relations
  end.

Definition bundle_links (rows : list (Keyed CatalogClient)) : list (Uuid * Uuid) :=
  omap (λ r, option_map (pair (key r)) (cc_bundle_id (row r))) rows.

Definition client_columns (r : Keyed CatalogClient) : list Z :=
  [cc_sort_order (row r); cc_created_at (row r)].

Definition requested_locale (q : CatalogQuery) : string := default DEFAULT_LOCALE (cq_locale q).

Definition load_all (rows : list (Keyed CatalogClient)) (q : CatalogQuery)
  : prog (AppResult (list ClientDto)) :=
  let locale := requested_locale q in
  let? relations := load_client_relations (map key rows) (bundle_links rows) locale in
  ret_ok (assemble_all locale rows relations).

Definition list_clients (q : CatalogQuery) : prog (AppResult (list ClientDto)) :=
  let? rows := look (λ c, sort_by client_columns (select_rows cc_published (catalog_clients c))) in
  load_all rows q.

Definition list_clients_admin (q : CatalogQuery) : prog (AppResult (list ClientAdminDto)) :=
  let? rows := look (λ c, sort_by client_columns (select_rows (λ _ _, true) (catalog_clients c))) in
  let? clients := load_all rows q in
  ret_ok (zip_with mkClientAdminDto clients (map (λ r, cc_published (key r) (row r)) rows)).

(** An identifier that is no UUID binds [NULL]; a match of the id comes first. *)
Definition by_ident {R} (published : Uuid → R → bool) (slug : R → string) (ident : string)
  (m : gmap Uuid R) : option (Keyed R) :=
  let is_id k := sql_eq (Some k) (parse_str ident) in
  head (sort_by (λ r, [if is_id (key r) then 0 else 1]%Z)
    (select_rows (λ k r, published k r && (is_id k || (slug r =? ident)%string)) m)).

Definition load_client (ident : string) (q : CatalogQuery) : prog (AppResult (option ClientDto)) :=
  let? found := look (λ c, by_ident cc_published cc_slug ident (catalog_clients c)) in
  match found with
  | Some r =>
      let locale := requested_locale q in
      let? relations := load_client_relations [key r] (bundle_links [r]) locale in
      ret_ok (Some (assemble_client_dto r relations locale).1)
  | None => ret_ok None
  end.

(** ** Keywords and servers *)

Definition list_keywords (locale : string) : prog (AppResult (list KeywordDto)) :=
  let? rows := look (λ c,
    sort_by (λ r, [kw_created_at (row r)]) (select_rows kw_published (catalog_keywords c))) in
  let ids := map key rows in
  let? titles := load_keyword_titles ids locale in
  ret_ok (map (keyword_dto titles) ids).

Definition load_keyword (ident locale : string) : prog (AppResult (option KeywordDto)) :=
  let? found := look (λ c, by_ident kw_published kw_slug ident (catalog_keywords c)) in
  match found with
  | Some r =>
      let? titles := load_keyword_titles [key r] locale in
      ret_ok (Some (keyword_dto titles (key r)))
  | None => ret_ok None
  end.

Definition list_servers : prog (AppResult (list ServerDto)) :=
  let? rows := look (λ c,
    sort_by (λ r, [sv_created_at (row r)]) (select_rows sv_published (catalog_servers c))) in
  ret_ok (map server_dto rows).

Definition load_server (ident : string) : prog (AppResult (option ServerDto)) :=
  let? found := look (λ c, by_ident sv_published sv_slug ident (catalog_servers c)) in
  ret_ok (option_map server_dto found).

(** ** [public.rs]

    The listings answer what the reads above return. *)

Definition get_client (ident : string) (q : CatalogQuery) : prog (AppResult ClientDto) :=
  let? client := load_client ident q in
  lift (ok_or (NotFound "client not found") client).

Definition get_keyword (ident : string) (q : CatalogQuery) : prog (AppResult KeywordDto) :=
  let? keyword := load_keyword ident (requested_locale q) in
  lift (ok_or (NotFound "keyword not found") keyword).

Definition get_server (ident : string) : prog (AppResult ServerDto) :=
  let? server := load_server ident in
  lift (ok_or (NotFound "server not found") server).
End Reads.
