(* ===== verification/CatalogReads.v ===== *)
(** * What the catalog's reads answer

    A client as the launcher sees it is defined for that client alone ([client_view]); the
    listings, which load the relations of all clients at once, and the look-up of one client
    answer these views. *)

From S2P Require Import Prelude RustStr Errors Models Table Content Schema Prog Auth Invariant.
From S2P Require Import Identity BundleRepo BundleProps CatalogRepo.
From S2P Require Textures.

Import Textures (UuidParser, parse_str, toy_parser).

(** ** The view of one client *)

Section View.
Context `{UuidText} (c : Content) (locale : string).

(** The rows of a table keyed by an entity and a locale that belong to the entity. *)
Definition rows_of {T} (m : gmap (Uuid * string) T) (id : Uuid) : list (string * T) :=
  map (λ kr, (kr.1.2, kr.2)) (List.filter (λ kr, (kr.1.1 =? id)%N) (map_to_list m)).

Definition media_of (client : Uuid) : list CatalogMedia :=
  map row (sort_by media_columns (select_rows (λ _ r, (cm_client_id r =? client)%N) (catalog_media c))).

Definition in_role (role : string) (rows : list CatalogMedia) : list MediaDto :=
  map media_dto (List.filter (λ r, (cm_role r =? role)%string) rows).

Definition keyword_view (id : Uuid) : KeywordDto :=
  mkKeywordDto (id_hex id)
    (default "" (pick_locale (rows_of (catalog_keyword_locales c) id) locale)).

(** The published keywords and servers linked to a client, in order. *)
Definition keywords_of (client : Uuid) : list KeywordDto :=
  map (λ l, keyword_view (key (lk_row l)))
    (sort_by (link_columns kw_created_at)
       (join_links kw_published (N.eqb client) (catalog_keywords c) (catalog_client_keywords c))).

Definition servers_of (client : Uuid) : list ServerDto :=
  map (λ l, server_dto (lk_row l))
    (sort_by (link_columns sv_created_at)
       (join_links sv_published (N.eqb client) (catalog_servers c) (catalog_client_servers c))).

Definition summary_of (r : CatalogClient) : option BundleSummaryDto :=
  match cc_bundle_id r with Some b => option_map bundle_summary (bundles c !! b) | None => None end.

Definition client_view (r : Keyed CatalogClient) : ClientDto :=
  let id := key r in
  let text := pick_locale (rows_of (catalog_client_locales c) id) locale in
  let of_text {A} (none : A) (f : ClientLocale → A) : A :=
    match text with Some l => f l | None => none end in
  mkClientDto (id_hex id) (cc_slug (row r)) (of_text "" cl_title)
    (of_text "" (λ l, default "" (cl_description l)))
    (of_text "" (λ l, default "" (cl_short_description l)))
    (cc_available (row r)) (cc_minecraft_version (row r)) (cc_forge_version (row r))
    (cc_fabric_version (row r)) (cc_runtime_version (row r))
    (option_map bs_slug (summary_of (row r)))
    (head (in_role "background" (media_of id))) (head (in_role "poster" (media_of id)))
    (head (in_role "titleImage" (media_of id))) (in_role "screenshot" (media_of id))
    (keywords_of id) (servers_of id) (summary_of (row r)).
End View.

(** ** Grouping *)

Lemma lookup_push {A} k k' (a : A) m :
  default [] (push k' a m !! k) = default [] (m !! k) ++ (if (k' =? k)%N then [a] else []).
Proof.
  unfold push. rewrite lookup_insert. destruct (N.eqb_spec k' k) as [->|Hne].
  - by rewrite decide_True.
  - by rewrite decide_False, app_nil_r.
Qed.

Lemma lookup_group {R A} (kf : R → Uuid) (a : R → A) rows k :
  default [] (group kf a rows !! k) = map a (List.filter (λ r, (kf r =? k)%N) rows).
Proof.
  unfold group.
  assert (G : ∀ m, default [] (foldl (λ m r, push (kf r) (a r) m) m rows !! k)
    = default [] (m !! k) ++ map a (List.filter (λ r, (kf r =? k)%N) rows)).
  { induction rows as [|r rows IH]; intros m; cbn [foldl List.filter map]; [by rewrite app_nil_r|].
    rewrite IH, lookup_push, <- app_assoc. by destruct (kf r =? k)%N. }
  by rewrite G, lookup_empty.
Qed.

(** Two groupings whose values agree on the rows. *)
Lemma group_ext {R A} (kf : R → Uuid) (a a' : R → A) rows :
  (∀ r, r ∈ rows → a r = a' r) → group kf a rows = group kf a' rows.
Proof.
  unfold group. generalize (∅ : gmap Uuid (list A)).
  induction rows as [|r rows IH]; intros m E; cbn [foldl]; [done|].
  rewrite E by by left. apply IH. intros x Hx. apply E. by right.
Qed.

Lemma filter_filter {A} (p q : A → bool) (l : list A) :
  List.filter p (List.filter q l) = List.filter (λ x, q x && p x) l.
Proof. induction l as [|x l IH]; simpl; [done|]. by destruct (q x); simpl; [destruct (p x)|]; rewrite IH. Qed.

Lemma filter_ext_in {A} (p q : A → bool) (l : list A) :
  (∀ x, x ∈ l → p x = q x) → List.filter p l = List.filter q l.
Proof.
  induction l as [|x l IH]; intros E; simpl; [done|].
  rewrite E by by left. by rewrite IH by (intros y Hy; apply E; by right).
Qed.

Lemma filter_omap {A B} (p : B → bool) (f : A → option B) (l : list A) :
  List.filter p (omap f l) = omap (λ x, match f x with Some y => if p y then Some y else None | None => None end) l.
Proof.
  induction l as [|x l IH]; [done|]. cbn [omap list_omap]. destruct (f x) as [y|]; cbn [List.filter]; [|done].
  destruct (p y); [f_equal|]; done.
Qed.

Lemma omap_ext_in {A B} (f g : A → option B) (l : list A) :
  (∀ x, x ∈ l → f x = g x) → omap f l = omap g l.
Proof.
  induction l as [|x l IH]; intros E; [done|]. cbn [omap list_omap]. rewrite E by by left.
  by rewrite IH by (intros y Hy; apply E; by right).
Qed.

Lemma among_spec ids id : among ids id = true ↔ id ∈ ids.
Proof.
  unfold among. rewrite existsb_spec. split.
  - by intros (x & Hx & ->%N.eqb_eq).
  - intros Hx. exists id. by rewrite N.eqb_refl.
Qed.

Lemma elem_of_dedup_ids x l : x ∈ dedup_ids l ↔ x ∈ l.
Proof.
  induction l as [|a l IH]; [done|]. destruct l as [|b l]; [done|]. cbn [dedup_ids] in *.
  destruct (N.eqb_spec a b) as [->|]; rewrite ?elem_of_cons, IH, ?elem_of_cons; naive_solver.
Qed.

Lemma elem_of_distinct x l : x ∈ distinct l ↔ x ∈ l.
Proof. unfold distinct. by rewrite elem_of_dedup_ids, elem_of_sort_by. Qed.

Lemma among_and ids k (x : Uuid) : k ∈ ids → among ids x && (x =? k)%N = (x =? k)%N.
Proof.
  intros Hk. destruct (N.eqb_spec x k) as [->|]; [|by rewrite andb_false_r].
  by rewrite (proj2 (among_spec ids k) Hk).
Qed.

(** ** Each relation, of all clients and of one *)

Section Batches.
Context (c : Content) (ids : list Uuid) (k : Uuid) (Hk : k ∈ ids).

Lemma locale_batch {T} (m : gmap (Uuid * string) T) :
  default [] (group (λ r, r.1.1) (λ r, (r.1.2, r.2))
                (List.filter (λ kr, among ids kr.1.1) (map_to_list m)) !! k) = rows_of m k.
Proof.
  rewrite lookup_group. unfold rows_of. rewrite filter_filter. f_equal. apply filter_ext_in.
  intros kr _. by apply among_and.
Qed.

Lemma media_batch :
  default [] (group (λ r, cm_client_id (row r)) row (media_rows ids c) !! k) = media_of c k.
Proof.
  rewrite lookup_group. unfold media_rows, media_of. rewrite filter_sort_by. f_equal.
  rewrite (sort_by_shared (Z.of_N k)).
  - f_equal. unfold select_rows. rewrite filter_map_swap, filter_filter. f_equal.
    apply filter_ext_in. intros kr _. by apply among_and.
  - intros x [_ Hx]%elem_of_filterb. apply N.eqb_eq in Hx. by rewrite Hx.
Qed.

Lemma link_batch {R A} published (rows : gmap Uuid R) links created_at (f : Link R → A) :
  default [] (group lk_client f
    (sort_by (λ l, Z.of_N (lk_client l) :: link_columns created_at l)
       (join_links published (among ids) rows links)) !! k)
  = map f (sort_by (link_columns created_at) (join_links published (N.eqb k) rows links)).
Proof.
  rewrite lookup_group, filter_sort_by. f_equal. rewrite (sort_by_shared (Z.of_N k)).
  - f_equal. unfold join_links. rewrite filter_omap. apply omap_ext_in. intros kr _.
    destruct (rows !! kr.1.2) as [r|]; [|done].
    pose proof (among_and ids k kr.1.1 Hk) as E. rewrite (N.eqb_sym k).
    destruct (among ids kr.1.1), (kr.1.1 =? k)%N eqn:B, (published kr.1.2 r); cbn in *;
      rewrite ?B; done.
  - intros x [_ Hx]%elem_of_filterb. apply N.eqb_eq in Hx. by rewrite Hx.
Qed.
End Batches.

(** ** The slots of the media *)

Lemma head_app_some {A} (l l' : list A) :
  head (l ++ l') = match head l with Some x => Some x | None => head l' end.
Proof. by destruct l. Qed.

Lemma fill_slots rows s :
  foldl fill_slot s rows =
  mkSlots
    match background s with Some x => Some x | None => head (in_role "background" rows) end
    match poster s with Some x => Some x | None => head (in_role "poster" rows) end
    match title_image s with Some x => Some x | None => head (in_role "titleImage" rows) end
    (screenshots s ++ in_role "screenshot" rows).
Proof.
  revert s. induction rows as [|r rows IH]; intros [b p ti sc]; cbn [foldl].
  - cbn. rewrite app_nil_r. by destruct b, p, ti.
  - rewrite IH. unfold fill_slot, in_role. cbn [List.filter].
    destruct (cm_role r =? "background")%string eqn:E1; [apply String.eqb_eq in E1; rewrite E1|
      destruct (cm_role r =? "poster")%string eqn:E2; [apply String.eqb_eq in E2; rewrite E2|
        destruct (cm_role r =? "titleImage")%string eqn:E3; [apply String.eqb_eq in E3; rewrite E3|
          destruct (cm_role r =? "screenshot")%string eqn:E4]]];
      destruct b, p, ti; cbn; rewrite <- ?app_assoc; done.
Qed.

Lemma assemble_media_spec rows :
  assemble_media rows = mkSlots (head (in_role "background" rows)) (head (in_role "poster" rows))
    (head (in_role "titleImage" rows)) (in_role "screenshot" rows).
Proof. unfold assemble_media. by rewrite fill_slots. Qed.

(** ** Titles and summaries *)

(** A map filled by insertions of a function's values. *)
Lemma lookup_tabulated {A} (f : Uuid → A) ids (m : gmap Uuid A) k :
  foldl (λ out id, <[id := f id]> out) m ids !! k =
  if decide (k ∈ ids) then Some (f k) else m !! k.
Proof.
  revert m. induction ids as [|i ids IH]; intros m; cbn [foldl].
  - by rewrite decide_False by apply not_elem_of_nil.
  - rewrite IH. destruct (decide (k ∈ ids)) as [Hk|Hk].
    + by rewrite decide_True by by right.
    + rewrite lookup_insert. destruct (decide (i = k)) as [->|Hne].
      * by rewrite decide_True by by left.
      * rewrite decide_False; [done|]. intros [->|?]%elem_of_cons; done.
Qed.

Lemma lookup_by_key {R} (rows : list (Keyed R)) (m : gmap Uuid R) k :
  NoDup (map key rows) →
  foldl (λ m b, <[key b := row b]> m) m rows !! k =
  match List.find (λ b, (key b =? k)%N) rows with Some b => Some (row b) | None => m !! k end.
Proof.
  revert m. induction rows as [|b rows IH]; intros m Hnd; cbn [foldl List.find]; [done|].
  apply NoDup_cons in Hnd as [Hb Hnd]. rewrite IH by done. destruct (N.eqb_spec (key b) k) as [<-|Hne].
  - destruct (List.find _ rows) as [b'|] eqn:F; [|by rewrite lookup_insert_eq].
    apply find_spec_Some in F as [F E]. apply N.eqb_eq in E. destruct Hb. rewrite <- E.
    by apply list_elem_of_fmap_2.
  - by rewrite lookup_insert_ne by done.
Qed.

Lemma lookup_selected {R} (m : gmap Uuid R) ids k :
  k ∈ ids →
  foldl (λ m b, <[key b := row b]> m) (∅ : gmap Uuid R) (select_rows (λ k _, among ids k) m) !! k = m !! k.
Proof.
  intros Hk. rewrite lookup_by_key by apply NoDup_keys_select_rows.
  destruct (List.find _ _) as [b|] eqn:F.
  - apply find_spec_Some in F as [F E]. apply N.eqb_eq in E as <-.
    by apply elem_of_select_rows in F as [-> _].
  - rewrite lookup_empty. destruct (m !! k) as [r|] eqn:Hr; [|done].
    assert (Hb : mkKeyed k r ∈ select_rows (λ k _, among ids k) m)
      by (apply elem_of_select_rows; by rewrite among_spec).
    pose proof (find_spec_None _ _ F _ Hb) as E. cbn in E. by rewrite N.eqb_refl in E.
Qed.

(** The links of clients with distinct identifiers. *)
Lemma lookup_linked {A B} (f : Uuid → option B) (h : B → A) (rows : list (Keyed CatalogClient)) (m : gmap Uuid A) r :
  NoDup (map key rows) → r ∈ rows → m !! key r = None →
  foldl (λ out link, match f link.2 with Some b => <[link.1 := h b]> out | None => out end)
    m (bundle_links rows) !! key r =
  match cc_bundle_id (row r) with Some b => option_map h (f b) | None => None end.
Proof.
  unfold bundle_links.
  assert (Skip : ∀ rows (m : gmap Uuid A) k, k ∉ map key rows →
    foldl (λ out link, match f link.2 with Some b => <[link.1 := h b]> out | None => out end)
      m (omap (λ r, option_map (pair (key r)) (cc_bundle_id (row r))) rows) !! k = m !! k).
  { clear. induction rows as [|x rows IH]; intros m k Hk; [done|].
    apply not_elem_of_cons in Hk as [Hx Hk]. cbn [omap list_omap].
    destruct (cc_bundle_id (row x)) as [b|]; cbn [option_map foldl fst snd]; rewrite IH by done; [|done].
    destruct (f b); [|done]. by rewrite lookup_insert_ne by done. }
  revert m. induction rows as [|x rows IH]; intros m Hnd Hr Hm; [by apply not_elem_of_nil in Hr|].
  apply NoDup_cons in Hnd as [Hx Hnd]. apply elem_of_cons in Hr as [->|Hr]; cbn [omap list_omap].
  - destruct (cc_bundle_id (row x)) as [b|]; cbn [option_map foldl fst snd]; rewrite Skip by done; [|done].
    destruct (f b); [by rewrite lookup_insert_eq|done].
  - assert (Hne : key x ≠ key r) by (intros E; apply Hx; rewrite E; by apply list_elem_of_fmap_2).
    destruct (cc_bundle_id (row x)) as [b|]; cbn [option_map foldl fst snd]; apply IH; try done.
    destruct (f b); [|done]. by rewrite lookup_insert_ne.
Qed.

(** ** The programs *)

Lemma wp_read {B} st (f : Content → B) (Q : AppState → AppResult B → Prop) :
  Q st (Ok (f (registry st))) → wp (look f) no_fault st Q.
Proof. intros H. apply wp_select. intros t F. by rewrite F. Qed.

Section Reads.
Context `{UuidText} `{UuidParser} (st : AppState) (locale : string).
Local Abbreviation c := (registry st).

Lemma wp_titles ids (Q : AppState → AppResult (gmap Uuid string) → Prop) :
  (∀ titles, (∀ id, id ∈ ids → keyword_dto titles id = keyword_view c locale id) → Q st (Ok titles)) →
  wp (load_keyword_titles ids locale) no_fault st Q.
Proof.
  intros HQ. unfold load_keyword_titles. case_bool_decide as D.
  - apply wp_ret, HQ. intros id Hid. apply elem_of_distinct in Hid. rewrite D in Hid.
    by apply not_elem_of_nil in Hid.
  - apply wp_bind_ok, wp_read. cbv beta iota zeta. apply wp_ret, HQ. intros id Hid%elem_of_distinct.
    unfold keyword_dto, keyword_view. f_equal. rewrite lookup_tabulated, decide_True by done.
    pose proof (locale_batch (distinct ids) id Hid (catalog_keyword_locales c)) as L.
    unfold keyword_locale_rows. destruct (group _ _ _ !! id) as [l|]; cbn in L |- *; by rewrite <- L.
Qed.

Lemma wp_bundles rows (Q : AppState → AppResult (gmap Uuid BundleSummaryDto) → Prop) :
  NoDup (map key rows) →
  (∀ m, (∀ r, r ∈ rows → m !! key r = summary_of c (row r)) → Q st (Ok m)) →
  wp (load_bundles (bundle_links rows)) no_fault st Q.
Proof.
  intros Hnd HQ. unfold load_bundles. case_bool_decide as D.
  - apply wp_ret, HQ. intros r Hr. rewrite lookup_empty. unfold summary_of.
    destruct (cc_bundle_id (row r)) as [b|] eqn:B; [|done].
    assert (L : (key r, b) ∈ bundle_links rows).
    { apply list_elem_of_omap. exists r. by rewrite B. }
    rewrite D in L. by apply not_elem_of_nil in L.
  - apply wp_bind_ok, wp_read. cbv beta iota zeta. apply wp_ret, HQ. intros r Hr.
    rewrite (lookup_linked (λ b, foldl (λ m b, <[key b := row b]> m) (∅ : gmap Uuid Bundle)
      (select_rows (λ k _, among (distinct (map snd (bundle_links rows))) k) (bundles c)) !! b)
      bundle_summary rows ∅ r Hnd Hr (lookup_empty _)).
    unfold summary_of. destruct (cc_bundle_id (row r)) as [b|] eqn:B; [|done].
    rewrite lookup_selected; [done|]. apply elem_of_distinct, list_elem_of_fmap.
    exists (key r, b). split; [done|]. apply list_elem_of_omap. exists r. by rewrite B.
Qed.

(** What the maps hold about a client is the client's. *)
Definition related (m : ClientRelations) (r : Keyed CatalogClient) : Prop :=
  let id := key r in
  default [] (locales m !! id) = rows_of (catalog_client_locales c) id
  ∧ default [] (media m !! id) = media_of c id
  ∧ default [] (keywords m !! id) = keywords_of c locale id
  ∧ default [] (servers m !! id) = servers_of c id
  ∧ summaries m !! id = summary_of c (row r).

Lemma wp_relations rows (Q : AppState → AppResult ClientRelations → Prop) :
  NoDup (map key rows) → (∀ m, Forall (related m) rows → Q st (Ok m)) →
  wp (load_client_relations (map key rows) (bundle_links rows) locale) no_fault st Q.
Proof.
  intros Hnd HQ. unfold load_client_relations. case_bool_decide as D.
  { apply wp_ret, HQ. destruct rows; [constructor|done]. }
  do 3 (apply wp_bind_ok, wp_read; cbv beta iota).
  apply wp_bind_ok, wp_titles. intros titles Ht. cbv beta iota.
  apply wp_bind_ok, wp_read. cbv beta iota. apply wp_bind_ok, wp_bundles; [done|].
  intros sums Hs. apply wp_ret, HQ, Forall_forall. intros r Hr.
  assert (Hk : key r ∈ map key rows) by by apply list_elem_of_fmap_2.
  split_and!; cbn.
  - by apply locale_batch.
  - by apply media_batch.
  - unfold keyword_rows. rewrite (group_ext _ _ (λ l, keyword_view c locale (key (lk_row l)))); [by apply link_batch|].
    intros l Hl. apply Ht. by apply (list_elem_of_fmap_2 (λ l, key (lk_row l))).
  - by apply link_batch.
  - by apply Hs.
Qed.

Lemma assemble_view m r : related m r → (assemble_client_dto r m locale).1 = client_view c locale r.
Proof.
  intros (L & M & K & S & B). unfold assemble_client_dto, client_view.
  rewrite L, M, K, S, B, assemble_media_spec. unfold resolve_client_locale.
  by destruct (pick_locale _ _) as [l|].
Qed.

Lemma assemble_all_views rows m :
  NoDup (map key rows) → Forall (related m) rows →
  assemble_all locale rows m = map (client_view c locale) rows.
Proof.
  revert m. induction rows as [|r rows IH]; intros m Hnd F; cbn [assemble_all map]; [done|].
  apply NoDup_cons in Hnd as [Hr Hnd]. apply Forall_cons in F as [R F].
  rewrite <- (assemble_view m r R). unfold assemble_client_dto.
  destruct (resolve_client_locale _ _) as [[title description] short]. cbn [fst].
  f_equal. apply IH; [done|]. apply Forall_forall. intros x Hx. rewrite Forall_forall in F.
  destruct (F x Hx) as (L & M & K & S & B).
  assert (key r ≠ key x) by (intros E; apply Hr; rewrite E; by apply list_elem_of_fmap_2).
  split_and!; cbn; by rewrite lookup_delete_ne.
Qed.
End Reads.

(** ** Addressing *)

(** The row an identifier stands for: the one with that id, or else the one with that slug;
    drafts are not addressed. *)
Definition addressed `{UuidParser} {R} (published : Uuid → R → bool) (slug : R → string)
  (ident : string) (m : gmap Uuid R) : option (Keyed R) :=
  let by_slug := find_row (λ k r, published k r && (slug r =? ident)%string) m in
  match parse_str ident with
  | Some id =>
      match m !! id with
      | Some r => if published id r then Some (mkKeyed id r) else by_slug
      | None => by_slug
      end
  | None => by_slug
  end.

Lemma head_sort_by {R} (cols : R → list Z) l x :
  head (sort_by cols l) = Some x → x ∈ l ∧ ∀ y, y ∈ l → cols_le (cols x) (cols y) = true.
Proof.
  intros E. pose proof (sort_by_ordered cols l) as S. unfold ordered in S.
  destruct (sort_by cols l) as [|z r] eqn:L; [done|]. injection E as ->.
  apply StronglySorted_inv in S as [_ F]. rewrite Forall_forall in F.
  split; [rewrite <- (elem_of_sort_by cols), L; by left|]. intros y Hy.
  rewrite <- (elem_of_sort_by cols), L in Hy. apply elem_of_cons in Hy as [->|Hy]; [|by apply F].
  destruct (cols_le (cols x) (cols x)) eqn:E; [done|]. rewrite <- E. by apply cols_le_total.
Qed.

Lemma head_sort_by_none {R} (cols : R → list Z) l : head (sort_by cols l) = None → l = [].
Proof.
  intros E. apply Permutation_nil. rewrite <- (sort_by_perm cols l).
  by destruct (sort_by cols l).
Qed.

Lemma by_ident_addressed `{UuidParser} {R} published (slug : R → string) name ident m :
  uniq (mkIndex name (λ a b, (slug a =? slug b)%string)) m →
  by_ident published slug ident m = addressed published slug ident m.
Proof.
  intros U. unfold by_ident, addressed. cbv zeta.
  set (l := select_rows _ m). set (found := head _).
  assert (ID : ∀ k, sql_eq (Some k) (parse_str ident) = true ↔ parse_str ident = Some k).
  { intros k. rewrite sql_eq_true. naive_solver. }
  assert (Slug : (∀ x, x ∈ l → sql_eq (Some (key x)) (parse_str ident) = false) →
    found = find_row (λ k r, published k r && (slug r =? ident)%string) m).
  { intros N. destruct found as [x|] eqn:F; unfold found in F.
    - apply head_sort_by in F as [Hx _]. pose proof (N x Hx) as Nx.
      apply elem_of_select_rows in Hx as [Hm Hp]. rewrite Nx in Hp. cbn in Hp.
      destruct x as [k r]; cbn in *. symmetry. apply find_row_unique; [done..|].
      intros k' r' Hr'. rewrite !andb_true_iff, !String.eqb_eq in *. intros [_ E].
      apply (U k' k r' r Hr' Hm). cbn. apply String.eqb_eq. by destruct Hp as [_ ->].
    - apply head_sort_by_none in F. symmetry. apply find_row_None. intros k r Hr.
      apply not_true_iff_false. intros E. apply andb_true_iff in E as [P E].
      assert (Hx : mkKeyed k r ∈ l) by (apply elem_of_select_rows; cbn; by rewrite P, E, orb_true_r).
      rewrite F in Hx. by apply not_elem_of_nil in Hx. }
  destruct (parse_str ident) as [id|] eqn:P.
  2: { apply Slug. intros x _. apply not_true_iff_false. by rewrite ID. }
  assert (Other : (∀ r, m !! id = Some r → published id r = false) →
    ∀ x, x ∈ l → sql_eq (Some (key x)) (Some id) = false).
  { intros N x Hx. apply not_true_iff_false. rewrite ID. intros [= ->].
    apply elem_of_select_rows in Hx as [Hm Hp]. by rewrite (N _ Hm) in Hp. }
  destruct (m !! id) as [r|] eqn:M; [|apply Slug, Other; congruence].
  destruct (published id r) eqn:Pb; [|apply Slug, Other; congruence].
  assert (Hr : mkKeyed id r ∈ l).
  { apply elem_of_select_rows. cbn [key row]. by rewrite Pb, (proj2 (ID id) eq_refl). }
  destruct found as [x|] eqn:F; unfold found in F.
  - apply head_sort_by in F as [Hx Min]. specialize (Min _ Hr). cbn [key] in Min.
    rewrite (proj2 (ID id) eq_refl) in Min. destruct (sql_eq (Some (key x)) (Some id)) eqn:I; [|done].
    apply ID in I as [= ->]. apply elem_of_select_rows in Hx as [Hm _].
    destruct x; cbn in *. congruence.
  - apply head_sort_by_none in F. rewrite F in Hr. by apply not_elem_of_nil in Hr.
Qed.

Lemma zip_with_maps {A B C D} (h : B → C → D) (f : A → B) (g : A → C) (l : list A) :
  zip_with h (map f l) (map g l) = map (λ x, h (f x) (g x)) l.
Proof. induction l; simpl; by f_equal. Qed.

(** ** Properties *)

Section ReadProperties.
Context `{UuidText} `{UuidParser}.

Lemma get_client_run ident q o st :
  (∀ i, no_fault (o i)) → content_ok (registry st) →
  exec (get_client ident q) o st =
    (st, match addressed cc_published cc_slug ident (catalog_clients (registry st)) with
         | Some r => Ok (client_view (registry st) (requested_locale q) r)
         | None => Err (NotFound "client not found")
         end).
Proof.
  intros Ho S. destruct (exec (get_client ident q) o st) as [st' r] eqn:E.
  refine (wp_exec _ no_fault o st (λ st' r, (st', r) = _) st' r Ho E _).
  apply wp_bind_ok, wp_bind_ok, wp_read. cbv beta iota.
  rewrite (by_ident_addressed _ _ "catalog_clients_slug_key");
    [|by eapply table_ok_uniq; [by left|apply S]].
  destruct (addressed _ _ _ _) as [x|]; cbv beta iota; [|by apply wp_ret].
  apply wp_bind_ok. change [key x] with (map key [x]). apply wp_relations; [apply NoDup_singleton|].
  intros m F. rewrite Forall_singleton in F. cbv beta iota. do 2 apply wp_ret. cbn.
  by rewrite (assemble_view _ _ _ _ F).
Qed.

(** C27. The listings load the relations of all clients at once, and answer the same as
    looking at each client alone: the public one the published clients in display order, the
    administrator's all of them with their state; each with its text in the requested locale
    (or the default one, or any), the first image of each slot, all screenshots, its
    published keywords and servers in order, and the bundle that it is really linked to. *)
Theorem listing_exact q o st :
  (∀ i, no_fault (o i)) →
  let c := registry st in
  let listed p := sort_by client_columns (select_rows p (catalog_clients c)) in
  let view := client_view c (requested_locale q) in
  exec (list_clients q) o st = (st, Ok (map view (listed cc_published)))
  ∧ exec (list_clients_admin q) o st =
      (st, Ok (map (λ r, mkClientAdminDto (view r) (cc_published (key r) (row r)))
                 (listed (λ _ _, true)))).
Proof.
  intros Ho c listed view.
  assert (ND : ∀ p, NoDup (map key (listed p))).
  { intros p. unfold listed. rewrite sort_by_perm. apply NoDup_keys_select_rows. }
  assert (W : ∀ p (Q : AppState → AppResult (list ClientDto) → Prop),
    Q st (Ok (map view (listed p))) → wp (load_all (listed p) q) no_fault st Q).
  { intros p Q HQ. unfold load_all. cbv zeta. apply wp_bind_ok, (wp_relations st); [apply ND|].
    intros m F. cbv beta iota.
    apply wp_ret. by rewrite (assemble_all_views st) by (done || apply ND). }
  split.
  - destruct (exec (list_clients q) o st) as [st' r] eqn:E.
    refine (wp_exec _ no_fault o st (λ st' r, (st', r) = _) st' r Ho E _).
    apply wp_bind_ok, wp_read. cbv beta iota. by apply W.
  - destruct (exec (list_clients_admin q) o st) as [st' r] eqn:E.
    refine (wp_exec _ no_fault o st (λ st' r, (st', r) = _) st' r Ho E _).
    apply wp_bind_ok, wp_read. cbv beta iota. apply wp_bind_ok, W. cbv beta iota.
    apply wp_ret. do 2 f_equal. by apply zip_with_maps.
Qed.

(** Looking a client up answers the same view that the listing shows, for the published
    client with that id, or else the published one with that slug, and 404 when there is
    none: a draft is never shown. *)
Theorem get_client_exact ident q o st :
  (∀ i, no_fault (o i)) → content_ok (registry st) →
  exec (get_client ident q) o st =
    (st, match addressed cc_published cc_slug ident (catalog_clients (registry st)) with
         | Some r => Ok (client_view (registry st) (requested_locale q) r)
         | None => Err (NotFound "client not found")
         end).
Proof. apply get_client_run. Qed.
End ReadProperties.

(** ** A launcher with two builds *)

Definition toy_form : FormUrlencoded := λ raw,
  map (λ kv, match str_split "=" kv with k :: v :: _ => (k, v) | l => (default "" (head l), "") end)
    (str_split "&" raw).

(** [dto.rs]'s tests, and a repeated key. *)
Example query_tests :
  map (λ raw, cq_locale (from_query (H := toy_form) raw))
    ["locale=en"; ""; "locale="; "other=ru"; "locale=en&locale=ru"; "locale=ru&locale="]
  = [Some "en"; None; None; None; Some "ru"; None].
Proof. vm_compute. reflexivity. Qed.

Definition build (slug : string) (bundle : option Uuid) (order : Z) (published : option Time)
  : CatalogClient :=
  mkCatalogClient slug true (Some "1.20") None None None (Some slug) bundle order published 1 1.

(** The published build 20, the draft 21 before it, and the build 22 whose slug reads as the
    identifier of 20. *)
Definition launcher : Content :=
  set_catalog_client_keywords {[(20%N, 30%N) := 1%Z; (20%N, 31%N) := 0%Z; (20%N, 32%N) := 2%Z; (22%N, 31%N) := 0%Z]}
  (set_catalog_keyword_locales {[(30%N, "en") := "Tech"; (31%N, "ru") := "Magia"]}
  (set_catalog_keywords {[30%N := mkCatalogKeyword "tech" (Some 1%Z) 1 1; 31%N := mkCatalogKeyword "magic" (Some 1%Z) 1 1;
                          32%N := mkCatalogKeyword "hidden" None 1 1]}
  (set_catalog_client_servers {[(20%N, 40%N) := 0%Z]}
  (set_catalog_servers {[40%N := mkCatalogServer "main" (Some "Main") "play.x" (Some 1%Z) 1 1]}
  (set_catalog_media {[50%N := mkCatalogMedia 20 "poster" "/p1" None None None None None 1 5;
                       51%N := mkCatalogMedia 20 "poster" "/p0" None None None None None 0 6;
                       52%N := mkCatalogMedia 20 "screenshot" "/s" None None None None None 0 7]}
  (set_catalog_client_locales {[(20%N, "en") := mkClientLocale "Twenty" (Some "d") None;
                                (20%N, "ru") := mkClientLocale "Dvadcat" None None;
                                (22%N, "de") := mkClientLocale "Zwei" None None]}
  (set_catalog_clients {[20%N := build "twenty" (Some 1%N) 1 (Some 3%Z); 21%N := build "draft" None 0 None;
                         22%N := build "20" None 2 (Some 4%Z)]} sample_content))))))).

Definition launcher_state : AppState := with_content launcher sample_state.

Lemma launcher_ok : content_ok launcher.
Proof. apply content_okb_sound. vm_compute. reflexivity. Qed.

Definition russian : CatalogQuery := mkCatalogQuery (Some "ru").

Definition twenty : ClientDto :=
  mkClientDto (simple (UuidText := hex_text) 20) "twenty" "Dvadcat" "" "" true (Some "1.20") None None None
    (Some "pack") None (Some (mkMediaDto "/p0" None None)) None [mkMediaDto "/s" None None]
    [mkKeywordDto (simple (UuidText := hex_text) 31) "Magia"; mkKeywordDto (simple (UuidText := hex_text) 30) "Tech"]
    [mkServerDto (simple (UuidText := hex_text) 40) (Some "Main") "play.x"]
    (Some (mkBundleSummary "pack" None "draft" 0 "/api/bundle-registry/builds/pack/manifest")).

Lemma listing_exact_witness :
  exec (list_clients (H := hex_text) russian) (calm_oracle 9) launcher_state
  = (launcher_state, Ok (map (client_view (H := hex_text) launcher "ru")
      (sort_by client_columns (select_rows cc_published (catalog_clients launcher)))))
  ∧ head (map (client_view (H := hex_text) launcher "ru")
      (sort_by client_columns (select_rows cc_published (catalog_clients launcher)))) = Some twenty
  ∧ map (λ r, cc_slug (row r)) (sort_by client_columns (select_rows (λ _ _, true) (catalog_clients launcher)))
    = ["draft"; "twenty"; "20"].
Proof.
  split; [|split; vm_compute; reflexivity].
  apply (listing_exact (H := hex_text) russian (calm_oracle 9) launcher_state).
  intros i. reflexivity.
Defined.

(** The identifier wins over the slug, and a draft is not found. *)
Lemma get_client_exact_witness :
  exec (get_client (H := hex_text) (H0 := toy_parser) "20" russian) (calm_oracle 9) launcher_state
  = (launcher_state, Ok twenty)
  ∧ exec (get_client (H := hex_text) (H0 := toy_parser) "draft" russian) (calm_oracle 9) launcher_state
    = (launcher_state, Err (NotFound "client not found")).
Proof.
  split.
  - refine (eq_trans (get_client_exact (H := hex_text) (H0 := toy_parser) "20" russian (calm_oracle 9)
      launcher_state _ launcher_ok) _); [intros i; reflexivity|vm_compute; reflexivity].
  - refine (eq_trans (get_client_exact (H := hex_text) (H0 := toy_parser) "draft" russian (calm_oracle 9)
      launcher_state _ launcher_ok) _); [intros i; reflexivity|vm_compute; reflexivity].
Defined.
