(* ===== verification/CatalogAdmin.v ===== *)
(** * Catalog administration

    [crates/catalog/src/admin.rs], [storage.rs] and the delivery of media in [lib.rs]:
    clients with their locales and the bundle each owns, publication, media files, keywords,
    servers and their links to clients. *)

From S2P Require Import Prelude RustStr Errors Png Models Table Content Schema Prog Auth Files.
From S2P Require Import Identity BundlePaths BundleTree BundleRepo CatalogRepo.
From S2P Require Textures.

Import Textures (UuidParser).

(** A statement whose database errors are mapped. *)
Definition on_content_or {B} (conv : SqlError → AppError)
  (f : Tick → Content → SqlResult (Content * B)) : prog (AppResult B) :=
  prog_map (map_err conv) (sql (λ t db,
    try '(c, b) := f t (content db) in
    Ok (set_content c db, b))).

(** [DELETE] on a table keyed by two columns. *)
Definition delete_pairs `{Countable K} {A} (p : K → A → bool) (m : gmap K A) : gmap K A :=
  map_imap (λ k a, if p k a then None else Some a) m.

(** [as i32]. *)
Definition as_i32 (z : Z) : Z := ((z + 2 ^ 31) mod 2 ^ 32 - 2 ^ 31)%Z.

(** ** Clients *)

Record ClientLocaleInput : Type := mkLocaleInput {
  li_locale : string;
  li_title : string;
  li_description : option string;
  li_short_description : option string
}.

(** [uc_bundle_slug]: absent, present and null, or present with a value. *)
Record UpsertClient : Type := mkUpsertClient {
  uc_slug : string;
  uc_available : bool;
  uc_minecraft_version : option string;
  uc_forge_version : option string;
  uc_fabric_version : option string;
  uc_runtime_version : option string;
  uc_bundle_slug : option (option string);
  uc_sort_order : option Z;
  uc_publish : option bool;
  uc_locales : list ClientLocaleInput;
  uc_replace_locales : bool;
  uc_delete_orphaned_bundle : bool
}.

Definition requested_bundle_slug (body : UpsertClient) : option string :=
  match uc_bundle_slug body with
  | Some (Some s) => if (trim s =? "")%string then None else Some (trim s)
  | _ => None
  end.

(** The new row; the link is written by [link_owned_bundle]. *)
Definition client_row (body : UpsertClient) (now : Time) : CatalogClient :=
  mkCatalogClient (uc_slug body) (uc_available body) (uc_minecraft_version body)
    (uc_forge_version body) (uc_fabric_version body) (uc_runtime_version body) None None
    (default 0%Z (uc_sort_order body))
    (if bool_decide (uc_publish body = Some true) then Some now else None) now now.

Definition insert_client (body : UpsertClient) (t : Tick) (c : Content) : SqlResult (Content * Uuid) :=
  try m := insert_row "catalog_clients_pkey" [catalog_clients_slug_key] (t_uuid t)
             (client_row body (t_db t)) (catalog_clients c) in
  Ok (set_catalog_clients m c, t_uuid t).

Definition upsert_locale (client_id : Uuid) (l : ClientLocaleInput) (_ : Tick) (c : Content)
  : SqlResult (Content * unit) :=
  try _ := fk "catalog_client_locales_client_id_fkey" client_id (catalog_clients c) in
  Ok (set_catalog_client_locales
        (<[(client_id, li_locale l) :=
             mkClientLocale (li_title l) (li_description l) (li_short_description l)]>
           (catalog_client_locales c)) c, ()).

Fixpoint write_client_locales (client_id : Uuid) (ls : list ClientLocaleInput)
  : prog (AppResult unit) :=
  match ls with
  | [] => ret_ok ()
  | l :: ls => do? on_content (upsert_locale client_id l); write_client_locales client_id ls
  end.

Record LinkedBundle : Type := mkLinkedBundle {
  lb_bundle_id : Uuid;
  lb_effective_slug : string;
  lb_provisioned : bool
}.

Definition with_link (bundle_id : Uuid) (slug : string) (r : CatalogClient) : CatalogClient :=
  mkCatalogClient (cc_slug r) (cc_available r) (cc_minecraft_version r) (cc_forge_version r)
    (cc_fabric_version r) (cc_runtime_version r) (Some slug) (Some bundle_id) (cc_sort_order r)
    (cc_published_at r) (cc_created_at r) (cc_updated_at r).

Definition link_client (client_id bundle_id : Uuid) (slug : string) (_ : Tick) (c : Content)
  : SqlResult (Content * unit) :=
  match catalog_clients c !! client_id with
  | None => Ok (c, ())
  | Some r =>
      try _ := fk "catalog_clients_bundle_id_fkey" bundle_id (bundles c) in
      Ok (set_catalog_clients (<[client_id := with_link bundle_id slug r]> (catalog_clients c)) c, ())
  end.

Definition link_owned_bundle (client_id : Uuid) (effective_slug : string)
  (ls : list ClientLocaleInput) : prog (AppResult LinkedBundle) :=
  let? existing := find_bundle_id_by_slug effective_slug in
  let? '(bundle_id, provisioned) :=
    match existing with
    | Some existing => ret_ok (existing, false)
    | None =>
        let name := match ls with l :: _ => li_title l | [] => effective_slug end in
        let? id := provision_bundle_row effective_slug name in
        ret_ok (id, true)
    end in
  do? on_content (link_client client_id bundle_id effective_slug);
  ret_ok (mkLinkedBundle bundle_id effective_slug provisioned).

(** [WHERE id = $1] with [fetch_optional] and the guard: the nullable [bundle_id]. *)
Definition linked_bundle (id : Uuid) : prog (AppResult (option Uuid)) :=
  let? found := look (λ c, option_map cc_bundle_id (catalog_clients c !! id)) in
  lift (ok_or (NotFound "client not found") found).

Definition with_body (body : UpsertClient) (now : Time) (r : CatalogClient) : CatalogClient :=
  mkCatalogClient (uc_slug body) (uc_available body) (uc_minecraft_version body)
    (uc_forge_version body) (uc_fabric_version body) (uc_runtime_version body) (cc_bundle_slug r)
    (cc_bundle_id r) (default (cc_sort_order r) (uc_sort_order body)) (cc_published_at r)
    (cc_created_at r) now.

Definition update_client_row (id : Uuid) (body : UpsertClient) (t : Tick) (c : Content)
  : SqlResult (Content * unit) :=
  match catalog_clients c !! id with
  | None => Ok (c, ())
  | Some r =>
      try m := update_row [catalog_clients_slug_key] id (with_body body (t_db t) r)
                 (catalog_clients c) in
      Ok (set_catalog_clients m c, ())
  end.

(** [client_id = $1 AND locale <> ALL($2)]. *)
Definition other_locale (id : Uuid) (submitted : list string) : Uuid * string → ClientLocale → bool :=
  λ k _, (k.1 =? id)%N && negb (existsb (String.eqb k.2) submitted).

Definition drop_other_locales (id : Uuid) (submitted : list string) (_ : Tick) (c : Content)
  : SqlResult (Content * unit) :=
  Ok (set_catalog_client_locales
        (delete_pairs (other_locale id submitted) (catalog_client_locales c)) c, ()).

Definition resolve_owned_bundle_slug (body : UpsertClient) (old_bundle_id : option Uuid)
  : prog (AppResult string) :=
  match requested_bundle_slug body with
  | Some explicit => ret_ok explicit
  | None =>
      let client_slug := trim (uc_slug body) in
      match uc_bundle_slug body, old_bundle_id with
      | None, Some old =>
          let? slug := bundle_slug_by_id old in
          ret_ok (default client_slug slug)
      | _, _ => ret_ok client_slug
      end
  end.

Inductive Stranded : Type := Deleted (slug : string) | Kept (slug : string) | NotStranded.

Definition strand_old_bundle (old : Uuid) (delete_orphaned : bool) : prog (AppResult Stranded) :=
  let? still_referenced := look (λ c, count_rows (linked_to old) (catalog_clients c)) in
  if (0 <? still_referenced)%nat then ret_ok NotStranded
  else
    let? slug := bundle_slug_by_id old in
    match slug with
    | None => ret_ok NotStranded
    | Some slug =>
        let? artifacts := count_artifacts old in
        if delete_orphaned || (artifacts =? 0)%nat then
          do? delete_bundle_row old;
          ret_ok (Deleted slug)
        else ret_ok (Kept slug)
    end.

(** [ON DELETE CASCADE]. *)
Definition drop_client (id : Uuid) (c : Content) : Content :=
  set_catalog_client_servers (delete_pairs (λ k _, (k.1 =? id)%N) (catalog_client_servers c))
    (set_catalog_client_keywords (delete_pairs (λ k _, (k.1 =? id)%N) (catalog_client_keywords c))
       (set_catalog_media (delete_where (λ _ r, (cm_client_id r =? id)%N) (catalog_media c))
          (set_catalog_client_locales
             (delete_pairs (λ k _, (k.1 =? id)%N) (catalog_client_locales c))
             (set_catalog_clients (delete id (catalog_clients c)) c)))).

(** ** [storage.rs] *)

Definition media_path (storage_root client_id role revision ext : string) : string :=
  path_join (path_join storage_root client_id) (role +:+ "-" +:+ revision +:+ "." +:+ ext).

Definition media_url (client_id role revision ext : string) : string :=
  "/catalog-media/" +:+ client_id +:+ "/" +:+ role +:+ "-" +:+ revision +:+ "." +:+ ext.

(** [tokio::fs::remove_dir_all(dir).await.ok()]. *)
Definition remove_media_dir (dir : string) : prog unit :=
  on_files (λ t m,
    (if t_fault t then m else delete_pairs (λ p _, starts_with (dir +:+ "/") p) m, ())).

(** ** Media *)

Definition SINGULAR_ROLES : list string := ["poster"; "background"; "titleImage"].

Definition MAX_MEDIA_UPLOAD_BYTES : N := 32 * 1024 * 1024.

(** [bytes.starts_with(magic)]. *)
Definition begins (magic bytes : list Z) : bool := bool_decide (firstn (length magic) bytes = magic).

(** The extension and the MIME type. *)
Definition sniff_image (bytes : list Z) : option (string * string) :=
  if begins [137; 80; 78; 71]%Z bytes then Some ("png", "image/png")
  else if begins [255; 216; 255]%Z bytes then Some ("jpg", "image/jpeg")
  else if (12 <=? length bytes)%nat && begins [82; 73; 70; 70]%Z bytes
          && begins [87; 69; 66; 80]%Z (skipn 8 bytes) then Some ("webp", "image/webp")
  else if begins [71; 73; 70; 56]%Z bytes then Some ("gif", "image/gif")
  else None.

(** A panic of the parser, [None], is what [Png.parse_png_header_spec] excludes. *)
Definition png_dimensions (bytes : list Z) : option Z * option Z :=
  match parse_png_header bytes with
  | Some (Ok (width, height)) => (Some (as_i32 width), Some (as_i32 height))
  | _ => (None, None)
  end.

Definition url_to_disk_path (storage_root url : string) : option string :=
  match strip_prefix "/catalog-media/" url with
  | Some rel => if (rel =? "")%string || str_find ".." rel then None
                else Some (path_join storage_root rel)
  | None => None
  end.

Definition in_slot (client_id : Uuid) (role : string) : Uuid → CatalogMedia → bool :=
  λ _ r, (cm_client_id r =? client_id)%N && (cm_role r =? role)%string.

(** [DELETE .. RETURNING url]. *)
Definition delete_media_where (p : Uuid → CatalogMedia → bool) (_ : Tick) (c : Content)
  : SqlResult (Content * list string) :=
  Ok (set_catalog_media (delete_where p (catalog_media c)) c,
      map (λ r, cm_url (row r)) (select_rows p (catalog_media c))).

Definition insert_media (r : CatalogMedia) (t : Tick) (c : Content) : SqlResult (Content * Uuid) :=
  if negb (bool_decide (cm_role r ∈ MEDIA_ROLES)) then Err (CheckViolation "catalog_media_role_check")
  else
    try _ := fk "catalog_media_client_id_fkey" (cm_client_id r) (catalog_clients c) in
    try m := insert_row "catalog_media_pkey" [] (t_uuid t) r (catalog_media c) in
    Ok (set_catalog_media m c, t_uuid t).

Definition require_client (client_id : Uuid) : prog (AppResult unit) :=
  let? exists_ := look (λ c, is_row client_id (catalog_clients c)) in
  if (exists_ : bool) then ret_ok () else ret_err (NotFound "client not found").

(** ** The handlers for clients and media *)

Section Handlers.
Context `{UuidText} `{Primitives} (cfg : Config).

Local Abbreviation bundles_storage := (bundles_root cfg) (only parsing).

(** The client's id and its bundle's slug. *)
Definition create_client (body : UpsertClient) : prog (AppResult (Uuid * string)) :=
  let? '(id, linked) := transaction (
    let? id := on_content_or (slug_conflict "client") (insert_client body) in
    do? write_client_locales id (uc_locales body);
    let owned_slug := default (trim (uc_slug body)) (requested_bundle_slug body) in
    let? linked := link_owned_bundle id owned_slug (uc_locales body) in
    ret_ok (id, linked)) in
  do? (if lb_provisioned linked then ensure_bundle_dir bundles_storage (lb_effective_slug linked)
       else ret_ok ());
  ret_ok (id, lb_effective_slug linked).

Definition update_tx (id : Uuid) (body : UpsertClient) : prog (AppResult (LinkedBundle * Stranded)) :=
  let? old_bundle_id := linked_bundle id in
  do? on_content_or (slug_conflict "client") (update_client_row id body);
  do? write_client_locales id (uc_locales body);
  do? (if uc_replace_locales body
       then on_content (drop_other_locales id (map li_locale (uc_locales body)))
       else ret_ok ());
  let? owned_slug := resolve_owned_bundle_slug body old_bundle_id in
  let? linked := link_owned_bundle id owned_slug (uc_locales body) in
  let? stranded :=
    match old_bundle_id with
    | Some old => if (old =? lb_bundle_id linked)%N then ret_ok NotStranded
                  else strand_old_bundle old (uc_delete_orphaned_bundle body)
    | None => ret_ok NotStranded
    end in
  ret_ok (linked, stranded).

(** The orphaned bundle's slug. *)
Definition update_client (id : Uuid) (body : UpsertClient) : prog (AppResult (option string)) :=
  let? '(linked, stranded) := transaction (update_tx id body) in
  do? (if lb_provisioned linked then ensure_bundle_dir bundles_storage (lb_effective_slug linked)
       else ret_ok ());
  match stranded with
  | Deleted slug => do* remove_bundle_dir bundles_storage slug; ret_ok None
  | Kept slug => ret_ok (Some slug)
  | NotStranded => ret_ok None
  end.

Definition delete_tx (id : Uuid) : prog (AppResult (option string)) :=
  let? bundle_id := linked_bundle id in
  do? on_content (λ _ c, Ok (drop_client id c, ()));
  match bundle_id with
  | Some bundle_id =>
      let? slug := bundle_slug_by_id bundle_id in
      do? delete_bundle_row bundle_id;
      ret_ok slug
  | None => ret_ok None
  end.

Definition delete_client (id : Uuid) : prog (AppResult unit) :=
  let? bundle_slug := transaction (delete_tx id) in
  do* match bundle_slug with
      | Some slug => remove_bundle_dir bundles_storage slug
      | None => Ret ()
      end;
  do* remove_media_dir (path_join (catalog_root cfg) (simple id));
  ret_ok ().

(** The files of replaced images go while the transaction is open. *)
Fixpoint unlink_urls (urls : list string) : prog unit :=
  match urls with
  | [] => Ret ()
  | url :: urls =>
      do* match url_to_disk_path (catalog_root cfg) url with
          | Some path => unlink_quiet path
          | None => Ret ()
          end;
      unlink_urls urls
  end.

Definition media_row (client_id : Uuid) (role url : string) (kind : string * string)
  (dims : option Z * option Z) (size : Z) (now : Time) : CatalogMedia :=
  mkCatalogMedia client_id role url (Some kind.1) (Some kind.2) dims.1 dims.2 (Some size) 0 now.

(** [created_at] is the statement's [now()]; the row is built where it is inserted. *)
Definition insert_media_now (mk : Time → CatalogMedia) (t : Tick) (c : Content)
  : SqlResult (Content * Uuid) := insert_media (mk (t_db t)) t c.

Definition store_media (client_id : Uuid) (role : string) (mk : Time → CatalogMedia)
  : prog (AppResult Uuid) :=
  transaction (
    do? (if existsb (String.eqb role) SINGULAR_ROLES then
           let? old_urls := on_content (delete_media_where (in_slot client_id role)) in
           do* unlink_urls old_urls;
           ret_ok ()
         else ret_ok ());
    on_content (insert_media_now mk)).

Definition upload_media (client_id : Uuid) (fields : list Field) : prog (AppResult (Uuid * string)) :=
  do? require_client client_id;
  let? '(file, role) := lift (read_capped_upload MAX_MEDIA_UPLOAD_BYTES "role" fields) in
  let? role := lift (ok_or (BadRequest "missing role field") role) in
  if negb (bool_decide (role ∈ MEDIA_ROLES))
  then ret_err (BadRequest ("invalid media role '" +:+ role +:+ "'"))
  else
    let? file := lift (ok_or (BadRequest "missing file field") file) in
    let? kind := lift (ok_or (BadRequest "unsupported image type — use PNG, JPG, WebP, or GIF")
                         (sniff_image file)) in
    let dims := png_dimensions file in
    let client_hex := simple client_id in
    let* revision := revision_hex in
    let path := media_path (catalog_root cfg) client_hex role revision kind.1 in
    let url := media_url client_hex role revision kind.1 in
    let* written := write_file path file in
    if (written : bool) then
      let? id := store_media client_id role
        (media_row client_id role url kind dims (as_i32 (Z.of_nat (length file)))) in
      ret_ok (id, url)
    else ret_err (Internal "write catalog media").

Definition list_media (client_id : Uuid) : prog (AppResult (list (Keyed CatalogMedia))) :=
  do? require_client client_id;
  look (λ c, sort_by media_columns
               (select_rows (λ _ r, (cm_client_id r =? client_id)%N) (catalog_media c))).

Definition delete_media (client_id media_id : Uuid) : prog (AppResult unit) :=
  let? urls := on_content (delete_media_where (λ k r, (k =? media_id)%N
                                                      && (cm_client_id r =? client_id)%N)) in
  let? url := lift (ok_or (NotFound "media not found") (head urls)) in
  do* match url_to_disk_path (catalog_root cfg) url with
      | Some path => unlink_quiet path
      | None => Ret ()
      end;
  ret_ok ().
End Handlers.

(** ** Publication *)

Inductive PublishableTable : Type := Clients | Keywords | Servers.

Definition entity (table : PublishableTable) : string :=
  match table with Clients => "client" | Keywords => "keyword" | Servers => "server" end.

Definition client_published (at_ : option Time) (now : Time) (r : CatalogClient) : CatalogClient :=
  mkCatalogClient (cc_slug r) (cc_available r) (cc_minecraft_version r) (cc_forge_version r)
    (cc_fabric_version r) (cc_runtime_version r) (cc_bundle_slug r) (cc_bundle_id r)
    (cc_sort_order r) at_ (cc_created_at r) now.

Definition keyword_published (at_ : option Time) (now : Time) (r : CatalogKeyword) : CatalogKeyword :=
  mkCatalogKeyword (kw_slug r) at_ (kw_created_at r) now.

Definition server_published (at_ : option Time) (now : Time) (r : CatalogServer) : CatalogServer :=
  mkCatalogServer (sv_slug r) (sv_name r) (sv_address r) at_ (sv_created_at r) now.

Definition by_id {R} (id : Uuid) : Uuid → R → bool := λ k _, (k =? id)%N.

(** [UPDATE {table} SET published_at = .., updated_at = now() WHERE id = $1]. *)
Definition publish_row (table : PublishableTable) (id : Uuid) (published : bool) (t : Tick)
  (c : Content) : SqlResult (Content * nat) :=
  let now := t_db t in
  let at_ := if published then Some now else None in
  Ok match table with
     | Clients =>
         (set_catalog_clients (update_where (by_id id) (client_published at_ now) (catalog_clients c)) c,
          count_rows (by_id id) (catalog_clients c))
     | Keywords =>
         (set_catalog_keywords (update_where (by_id id) (keyword_published at_ now) (catalog_keywords c)) c,
          count_rows (by_id id) (catalog_keywords c))
     | Servers =>
         (set_catalog_servers (update_where (by_id id) (server_published at_ now) (catalog_servers c)) c,
          count_rows (by_id id) (catalog_servers c))
     end.

Definition set_published (table : PublishableTable) (id : Uuid) (published : bool)
  : prog (AppResult unit) :=
  let? affected := on_content (publish_row table id published) in
  lift (found affected (entity table)).

(** ** Keywords *)

Record UpsertKeyword : Type := mkUpsertKeyword {
  uk_slug : string;
  uk_locales : list (string * string)
}.

Definition insert_keyword (slug : string) (t : Tick) (c : Content) : SqlResult (Content * Uuid) :=
  try m := insert_row "catalog_keywords_pkey" [catalog_keywords_slug_key] (t_uuid t)
             (mkCatalogKeyword slug (Some (t_db t)) (t_db t) (t_db t)) (catalog_keywords c) in
  Ok (set_catalog_keywords m c, t_uuid t).

Definition upsert_keyword_locale (id : Uuid) (l : string * string) (_ : Tick) (c : Content)
  : SqlResult (Content * unit) :=
  try _ := fk "catalog_keyword_locales_keyword_id_fkey" id (catalog_keywords c) in
  Ok (set_catalog_keyword_locales (<[(id, l.1) := l.2]> (catalog_keyword_locales c)) c, ()).

Fixpoint write_keyword_locales (id : Uuid) (ls : list (string * string)) : prog (AppResult unit) :=
  match ls with
  | [] => ret_ok ()
  | l :: ls => do? on_content (upsert_keyword_locale id l); write_keyword_locales id ls
  end.

Definition create_keyword (body : UpsertKeyword) : prog (AppResult Uuid) :=
  transaction (
    let? id := on_content_or (slug_conflict "keyword") (insert_keyword (uk_slug body)) in
    do? write_keyword_locales id (uk_locales body);
    ret_ok id).

(** [ON DELETE CASCADE]. *)
Definition drop_keyword (id : Uuid) (c : Content) : Content :=
  set_catalog_client_keywords (delete_pairs (λ k _, (k.2 =? id)%N) (catalog_client_keywords c))
    (set_catalog_keyword_locales (delete_pairs (λ k _, (k.1 =? id)%N) (catalog_keyword_locales c))
       (set_catalog_keywords (delete id (catalog_keywords c)) c)).

Definition delete_keyword (id : Uuid) : prog (AppResult unit) :=
  let? affected := on_content (λ _ c,
    Ok (drop_keyword id c, count_rows (by_id id) (catalog_keywords c))) in
  lift (found affected "keyword").

(** ** Servers *)

Record UpsertServer : Type := mkUpsertServer {
  us_slug : string;
  us_name : option string;
  us_address : string
}.

Definition insert_server (body : UpsertServer) (t : Tick) (c : Content) : SqlResult (Content * Uuid) :=
  try m := insert_row "catalog_servers_pkey" [catalog_servers_slug_key] (t_uuid t)
             (mkCatalogServer (us_slug body) (us_name body) (us_address body) (Some (t_db t))
                (t_db t) (t_db t)) (catalog_servers c) in
  Ok (set_catalog_servers m c, t_uuid t).

Definition create_server (body : UpsertServer) : prog (AppResult Uuid) :=
  on_content_or (slug_conflict "server") (insert_server body).

Definition update_server_row (id : Uuid) (body : UpsertServer) (t : Tick) (c : Content)
  : SqlResult (Content * nat) :=
  match catalog_servers c !! id with
  | None => Ok (c, 0)
  | Some r =>
      try m := update_row [catalog_servers_slug_key] id
                 (mkCatalogServer (us_slug body) (us_name body) (us_address body)
                    (sv_published_at r) (sv_created_at r) (t_db t)) (catalog_servers c) in
      Ok (set_catalog_servers m c, 1)
  end.

Definition update_server (id : Uuid) (body : UpsertServer) : prog (AppResult unit) :=
  let? affected := on_content_or (slug_conflict "server") (update_server_row id body) in
  lift (found affected "server").

Definition drop_server (id : Uuid) (c : Content) : Content :=
  set_catalog_client_servers (delete_pairs (λ k _, (k.2 =? id)%N) (catalog_client_servers c))
    (set_catalog_servers (delete id (catalog_servers c)) c).

Definition delete_server (id : Uuid) : prog (AppResult unit) :=
  let? affected := on_content (λ _ c,
    Ok (drop_server id c, count_rows (by_id id) (catalog_servers c))) in
  lift (found affected "server").

(** ** Links *)

Definition map_fk (err : SqlError) : AppError :=
  if is_foreign_key_violation err then NotFound "client, keyword, or server not found"
  else Database err.

(** [INSERT .. ON CONFLICT DO NOTHING]. *)
Definition attach {A R} (client_fk other_fk : string) (clients : gmap Uuid A) (others : gmap Uuid R)
  (link : Uuid * Uuid) (links : gmap (Uuid * Uuid) Z) : SqlResult (gmap (Uuid * Uuid) Z) :=
  if bool_decide (is_Some (links !! link)) then Ok links
  else
    try _ := fk client_fk link.1 clients in
    try _ := fk other_fk link.2 others in
    Ok (<[link := 0%Z]> links).

Definition attach_keyword (client_id keyword_id : Uuid) : prog (AppResult unit) :=
  on_content_or map_fk (λ _ c,
    try m := attach "catalog_client_keywords_client_id_fkey" "catalog_client_keywords_keyword_id_fkey"
               (catalog_clients c) (catalog_keywords c) (client_id, keyword_id)
               (catalog_client_keywords c) in
    Ok (set_catalog_client_keywords m c, ())).

Definition attach_server (client_id server_id : Uuid) : prog (AppResult unit) :=
  on_content_or map_fk (λ _ c,
    try m := attach "catalog_client_servers_client_id_fkey" "catalog_client_servers_server_id_fkey"
               (catalog_clients c) (catalog_servers c) (client_id, server_id)
               (catalog_client_servers c) in
    Ok (set_catalog_client_servers m c, ())).

Definition detach_keyword (client_id keyword_id : Uuid) : prog (AppResult unit) :=
  on_content (λ _ c,
    Ok (set_catalog_client_keywords (delete (client_id, keyword_id) (catalog_client_keywords c)) c, ())).

Definition detach_server (client_id server_id : Uuid) : prog (AppResult unit) :=
  on_content (λ _ c,
    Ok (set_catalog_client_servers (delete (client_id, server_id) (catalog_client_servers c)) c, ())).

(** ** Delivery of media ([lib.rs])

    A path is resolved to its components, [.] and doubled slashes gone; a directory is there
    when a file is below it (in an empty one nothing is found either). A path that ends in a
    slash or in [/.] names a directory. *)

Definition canonical (path : string) : list Component :=
  List.filter (λ c, negb (bool_decide (c = CurDir))) (components path).

Definition names_directory (path : string) : bool :=
  starts_with "/" (str_rev path) || starts_with "./" (str_rev path).

Definition is_there (path file : string) : bool :=
  bool_decide (canonical path `prefix_of` canonical file)
  && negb (names_directory path && bool_decide (canonical path = canonical file)).

Definition canonicalize_media (path : string) : prog (AppResult (list Component)) :=
  on_files (λ t m,
    (m, if negb (t_fault t) && existsb (λ f, is_there path f.1) (map_to_list m)
        then Ok (canonical path) else Err (NotFound "media not found"))).

Definition read_media (path : list Component) : prog (AppResult (list Z)) :=
  on_files (λ t m,
    (m, match List.find (λ f, bool_decide (canonical f.1 = path)) (map_to_list m) with
        | Some f => if t_fault t then Err (NotFound "media not found") else Ok f.2
        | None => Err (NotFound "media not found")
        end)).

Definition media_type_for (path : string) : string :=
  let ext := to_ascii_lowercase (List.last (str_split "." path) "") in
  if (ext =? "png")%string then "image/png"
  else if (ext =? "jpg")%string || (ext =? "jpeg")%string then "image/jpeg"
  else if (ext =? "webp")%string then "image/webp"
  else if (ext =? "gif")%string then "image/gif"
  else "application/octet-stream".

(** The [Content-Type] and the bytes. *)
Definition serve_media (cfg : Config) (client_id rel : string) : prog (AppResult (string * list Z)) :=
  if (client_id =? "")%string || str_contains "/" client_id || str_find ".." client_id
  then ret_err (NotFound "media not found")
  else if (rel =? "")%string || str_find ".." rel then ret_err (NotFound "media not found")
  else
    let root := path_join (catalog_root cfg) client_id in
    let? canonical_root := canonicalize_media root in
    let? canonical_target := canonicalize_media (path_join root rel) in
    if bool_decide (canonical_root `prefix_of` canonical_target) then
      let? bytes := read_media canonical_target in
      ret_ok (media_type_for rel, bytes)
    else ret_err (NotFound "media not found").

(** ** All requests *)

Inductive CatalogRequest : Type :=
| CListClients (query : string)
| CGetClient (ident query : string)
| CListKeywords (query : string)
| CGetKeyword (ident query : string)
| CListServers
| CGetServer (ident : string)
| CServeMedia (client_id rel : string)
| CAdminClients (query : string)
| CCreateClient (body : UpsertClient)
| CUpdateClient (id : Uuid) (body : UpsertClient)
| CDeleteClient (id : Uuid)
| CPublish (table : PublishableTable) (id : Uuid) (published : bool)
| CListMedia (client_id : Uuid)
| CUploadMedia (client_id : Uuid) (fields : list Field)
| CDeleteMedia (client_id media_id : Uuid)
| CCreateKeyword (body : UpsertKeyword)
| CDeleteKeyword (id : Uuid)
| CCreateServer (body : UpsertServer)
| CUpdateServer (id : Uuid) (body : UpsertServer)
| CDeleteServer (id : Uuid)
| CAttachKeyword (client_id keyword_id : Uuid)
| CAttachServer (client_id server_id : Uuid)
| CDetachKeyword (client_id keyword_id : Uuid)
| CDetachServer (client_id server_id : Uuid).

Definition serve_catalog `{UuidText} `{UuidParser} `{Primitives} `{FormUrlencoded} (cfg : Config)
  (r : CatalogRequest) : prog unit :=
  match r with
  | CListClients q => ignore (list_clients (from_query q))
  | CGetClient id q => ignore (get_client id (from_query q))
  | CListKeywords q => ignore (list_keywords (requested_locale (from_query q)))
  | CGetKeyword id q => ignore (get_keyword id (from_query q))
  | CListServers => ignore list_servers
  | CGetServer id => ignore (get_server id)
  | CServeMedia client rel => ignore (serve_media cfg client rel)
  | CAdminClients q => ignore (list_clients_admin (from_query q))
  | CCreateClient body => ignore (create_client cfg body)
  | CUpdateClient id body => ignore (update_client cfg id body)
  | CDeleteClient id => ignore (delete_client cfg id)
  | CPublish table id published => ignore (set_published table id published)
  | CListMedia client => ignore (list_media client)
  | CUploadMedia client fields => ignore (upload_media cfg client fields)
  | CDeleteMedia client id => ignore (delete_media cfg client id)
  | CCreateKeyword body => ignore (create_keyword body)
  | CDeleteKeyword id => ignore (delete_keyword id)
  | CCreateServer body => ignore (create_server body)
  | CUpdateServer id body => ignore (update_server id body)
  | CDeleteServer id => ignore (delete_server id)
  | CAttachKeyword client id => ignore (attach_keyword client id)
  | CAttachServer client id => ignore (attach_server client id)
  | CDetachKeyword client id => ignore (detach_keyword client id)
  | CDetachServer client id => ignore (detach_server client id)
  end.
