(* ===== verification/CatalogSchema.v ===== *)
(** * The catalog's requests keep the constraints

    Every statement of [CatalogAdmin] takes well-formed content to well-formed content, so
    that every request of the catalog stays within the schema's invariant. *)

From S2P Require Import Prelude RustStr Errors Png Models Table Content Schema Prog Auth Files Invariant.
From S2P Require Import Identity BundlePaths BundleTree BundleRepo CatalogRepo CatalogAdmin.
From S2P Require Textures BundleAdmin.

Import Textures (UuidParser).

Section Pairs.
Context `{Countable K} {A : Type}.
Implicit Types (m : gmap K A).

Lemma lookup_delete_pairs p m k :
  delete_pairs p m !! k = match m !! k with Some a => if p k a then None else Some a | None => None end.
Proof. unfold delete_pairs. rewrite map_lookup_imap. by destruct (m !! k). Qed.

Lemma lookup_delete_pairs_Some p m k a :
  delete_pairs p m !! k = Some a ↔ m !! k = Some a ∧ p k a = false.
Proof.
  rewrite lookup_delete_pairs. destruct (m !! k) as [b|]; [|naive_solver].
  destruct (p k b) eqn:E; naive_solver congruence.
Qed.

(** What is left of a well-formed table may satisfy more. *)
Lemma delete_pairs_ok (P Q : K → A → Prop) p m :
  (∀ k a, m !! k = Some a → p k a = false → P k a → Q k a) →
  map_Forall P m → map_Forall Q (delete_pairs p m).
Proof. intros I F k a [Ha Hp]%lookup_delete_pairs_Some. eauto. Qed.
End Pairs.

(** The rows of other keys stay where they are. *)
Lemma ref_delete {R} (m : gmap N R) i k : (k =? i)%N = false → ref k m → ref k (delete i m).
Proof. intros Hne%N.eqb_neq [r Hr]. exists r. by rewrite lookup_delete_ne. Qed.

(** ** One table replaced *)

Section Setters.
Context (c : Content) (S : content_ok c).

Lemma content_set_clients m :
  keeps (catalog_clients c) m → clients_ok (bundles c) m → content_ok (set_catalog_clients m c).
Proof.
  intros K T. destruct S. split; try done; cbn.
  - eapply map_Forall_impl; [done|]. intros k v H. by apply K.
  - eapply table_ok_mono; [|done]. intros k r [H1 H2]. by split; [apply K|].
  - eapply map_Forall_impl; [done|]. intros k v [H1 H2]. by split; [apply K|].
  - eapply map_Forall_impl; [done|]. intros k v [H1 H2]. by split; [apply K|].
Qed.

Lemma content_set_keywords m :
  keeps (catalog_keywords c) m → table_ok [catalog_keywords_slug_key] (λ _ _, True) m →
  content_ok (set_catalog_keywords m c).
Proof.
  intros K T. destruct S. split; try done; cbn.
  - eapply map_Forall_impl; [done|]. intros k v H. by apply K.
  - eapply map_Forall_impl; [done|]. intros k v [H1 H2]. by split; [|apply K].
Qed.

Lemma content_set_servers m :
  keeps (catalog_servers c) m → table_ok [catalog_servers_slug_key] (λ _ _, True) m →
  content_ok (set_catalog_servers m c).
Proof.
  intros K T. destruct S. split; try done; cbn.
  eapply map_Forall_impl; [done|]. intros k v [H1 H2]. by split; [|apply K].
Qed.

Lemma content_set_client_locales m :
  map_Forall (λ k _, ref k.1 (catalog_clients c)) m → content_ok (set_catalog_client_locales m c).
Proof. intros T. by destruct S. Qed.

Lemma content_set_media m : media_ok (catalog_clients c) m → content_ok (set_catalog_media m c).
Proof. intros T. by destruct S. Qed.

Lemma drop_client_ok id : content_ok (drop_client id c).
Proof.
  destruct S as [OB OA OC OL OM OK OKL OS OCK OCS]. split; cbn; try done.
  - split; [apply Forall_singleton|].
    + intros k1 k2 r1 r2 [_ H1]%lookup_delete_Some [_ H2]%lookup_delete_Some.
      eapply table_ok_uniq; [by left|done..].
    + intros k r [_ Hr]%lookup_delete_Some. by apply OC in Hr.
  - eapply delete_pairs_ok; [|exact OL]. intros k a _. apply ref_delete.
  - eapply table_ok_shrink; [|exact OM]. intros k r _ Hp [H1 H2]. split; [|done].
    by apply ref_delete.
  - eapply delete_pairs_ok; [|exact OCK]. intros k a _ Hp [H1 H2]. split; [|done].
    by apply ref_delete.
  - eapply delete_pairs_ok; [|exact OCS]. intros k a _ Hp [H1 H2]. split; [|done].
    by apply ref_delete.
Qed.

Lemma drop_keyword_ok id : content_ok (drop_keyword id c).
Proof.
  destruct S as [OB OA OC OL OM OK OKL OS OCK OCS]. split; cbn; try done.
  - split; [apply Forall_singleton|done].
    intros k1 k2 r1 r2 [_ H1]%lookup_delete_Some [_ H2]%lookup_delete_Some.
    eapply table_ok_uniq; [by left|done..].
  - eapply delete_pairs_ok; [|exact OKL]. intros k a _. apply ref_delete.
  - eapply delete_pairs_ok; [|exact OCK]. intros k a _ Hp [H1 H2]. split; [done|].
    by apply ref_delete.
Qed.

Lemma drop_server_ok id : content_ok (drop_server id c).
Proof.
  destruct S as [OB OA OC OL OM OK OKL OS OCK OCS]. split; cbn; try done.
  - split; [apply Forall_singleton|done].
    intros k1 k2 r1 r2 [_ H1]%lookup_delete_Some [_ H2]%lookup_delete_Some.
    eapply table_ok_uniq; [by left|done..].
  - eapply delete_pairs_ok; [|exact OCS]. intros k a _ Hp [H1 H2]. split; [done|].
    by apply ref_delete.
Qed.
End Setters.

(** ** Statements *)

Lemma insert_client_ok body : content_rel (insert_client body).
Proof.
  intros t c c' b E S. apply and_then_ok in E as (m & E & [= <- _]).
  apply insert_row_ok in E as (Hk & -> & V). apply content_set_clients; [done|apply keeps_insert|].
  apply table_ok_insert; [repeat constructor; apply catalog_clients_slug_key_sym|done|done|apply S].
Qed.

Lemma upsert_locale_ok id l : content_rel (upsert_locale id l).
Proof.
  intros t c c' b E S. apply and_then_ok in E as ([] & Hf%fk_ok & [= <- _]).
  apply content_set_client_locales; [done|]. apply map_Forall_insert_2; [done|apply S].
Qed.

Lemma link_client_ok id bundle slug : content_rel (link_client id bundle slug).
Proof.
  intros t c c' b E S. unfold link_client in E.
  destruct (catalog_clients c !! id) as [r|] eqn:Hr; [|by injection E as <- _].
  apply and_then_ok in E as ([] & Hf%fk_ok & [= <- _]).
  apply content_set_clients; [done|apply keeps_insert|].
  split; [apply Forall_singleton|].
  - intros k1 k2 r1 r2 H1 H2 C. pose proof (ok_clients c S) as T.
    assert (L : ∀ k x, <[id := with_link bundle slug r]> (catalog_clients c) !! k = Some x →
      ∃ y, catalog_clients c !! k = Some y ∧ cc_slug y = cc_slug x).
    { intros k x [[<- <-]|[_ Hx]]%lookup_insert_Some; eauto. }
    destruct (L _ _ H1) as (y1 & Y1 & E1), (L _ _ H2) as (y2 & Y2 & E2).
    eapply (table_ok_uniq _ _ catalog_clients_slug_key); [by left|exact T|exact Y1|exact Y2|].
    cbn in *. by rewrite E1, E2.
  - intros k x [[<- <-]|[_ Hx]]%lookup_insert_Some; [done|]. by apply (ok_clients c S) in Hx.
Qed.

Lemma update_client_row_ok id body : content_rel (update_client_row id body).
Proof.
  intros t c c' b E S. unfold update_client_row in E.
  destruct (catalog_clients c !! id) as [r|] eqn:Hr; [|by injection E as <- _].
  apply and_then_ok in E as (m & E & [= <- _]). apply update_row_ok in E as [-> V].
  apply content_set_clients; [done|apply keeps_insert|].
  apply table_ok_insert; [repeat constructor; apply catalog_clients_slug_key_sym|done| |apply S].
  by apply (ok_clients c S) in Hr.
Qed.

Lemma drop_other_locales_ok id l : content_rel (drop_other_locales id l).
Proof.
  intros t c c' b [= <- _] S. apply content_set_client_locales; [done|].
  by eapply delete_pairs_ok; [|apply S].
Qed.

Lemma drop_client_rel id : content_rel (λ _ c, Ok (drop_client id c, ())).
Proof. intros t c c' b [= <- _] S. by apply drop_client_ok. Qed.

Lemma delete_media_where_ok p : content_rel (delete_media_where p).
Proof. intros t c c' b [= <- _] S. apply content_set_media; [done|]. apply table_ok_delete, S. Qed.

Lemma insert_media_ok mk : content_rel (insert_media_now mk).
Proof.
  intros t c c' b E S. unfold insert_media_now, insert_media in E. case_bool_decide as R; [|done].
  apply and_then_ok in E as ([] & Hf%fk_ok & E). apply and_then_ok in E as (m & E & [= <- _]).
  apply insert_row_ok in E as (Hk & -> & V). apply content_set_media; [done|].
  apply table_ok_insert; [constructor|done|by split|apply S].
Qed.

(** Updates that keep the slug, and the bundle. *)
Lemma publish_row_ok table id p : content_rel (publish_row table id p).
Proof.
  intros t c c' b E S. destruct table; injection E as <- _.
  - apply content_set_clients; [done|apply keeps_update|].
    apply table_ok_update; [repeat constructor; apply catalog_clients_slug_key_sym| |done|apply S].
    by apply Forall_singleton.
  - apply content_set_keywords; [done|apply keeps_update|].
    apply table_ok_update; [repeat constructor; apply catalog_keywords_slug_key_sym| |done|apply S].
    by apply Forall_singleton.
  - apply content_set_servers; [done|apply keeps_update|].
    apply table_ok_update; [repeat constructor; apply catalog_servers_slug_key_sym| |done|apply S].
    by apply Forall_singleton.
Qed.

Lemma insert_keyword_ok slug : content_rel (insert_keyword slug).
Proof.
  intros t c c' b E S. apply and_then_ok in E as (m & E & [= <- _]).
  apply insert_row_ok in E as (Hk & -> & V). apply content_set_keywords; [done|apply keeps_insert|].
  apply table_ok_insert; [repeat constructor; apply catalog_keywords_slug_key_sym|done|done|apply S].
Qed.

Lemma upsert_keyword_locale_ok id l : content_rel (upsert_keyword_locale id l).
Proof.
  intros t c c' b E S. apply and_then_ok in E as ([] & Hf%fk_ok & [= <- _]).
  destruct S. split; try done. cbn. by apply map_Forall_insert_2.
Qed.

Lemma drop_keyword_rel id :
  content_rel (λ _ c, Ok (drop_keyword id c, count_rows (by_id id) (catalog_keywords c))).
Proof. intros t c c' b [= <- _] S. by apply drop_keyword_ok. Qed.

Lemma insert_server_ok body : content_rel (insert_server body).
Proof.
  intros t c c' b E S. apply and_then_ok in E as (m & E & [= <- _]).
  apply insert_row_ok in E as (Hk & -> & V). apply content_set_servers; [done|apply keeps_insert|].
  apply table_ok_insert; [repeat constructor; apply catalog_servers_slug_key_sym|done|done|apply S].
Qed.

Lemma update_server_row_ok id body : content_rel (update_server_row id body).
Proof.
  intros t c c' b E S. unfold update_server_row in E.
  destruct (catalog_servers c !! id) as [r|]; [|by injection E as <- _].
  apply and_then_ok in E as (m & E & [= <- _]). apply update_row_ok in E as [-> V].
  apply content_set_servers; [done|apply keeps_insert|].
  apply table_ok_insert; [repeat constructor; apply catalog_servers_slug_key_sym|done|done|apply S].
Qed.

Lemma drop_server_rel id :
  content_rel (λ _ c, Ok (drop_server id c, count_rows (by_id id) (catalog_servers c))).
Proof. intros t c c' b [= <- _] S. by apply drop_server_ok. Qed.

Lemma attach_ok {A R} f1 f2 (clients : gmap Uuid A) (others : gmap Uuid R) link links m :
  attach f1 f2 clients others link links = Ok m →
  map_Forall (λ k _, ref k.1 clients ∧ ref k.2 others) links →
  map_Forall (λ k _, ref k.1 clients ∧ ref k.2 others) m.
Proof.
  unfold attach. case_bool_decide; [by intros [= <-]|]. intros E F.
  apply and_then_ok in E as ([] & H1%fk_ok & E). apply and_then_ok in E as ([] & H2%fk_ok & [= <-]).
  by apply map_Forall_insert_2.
Qed.

(** A link table taken down to fewer links. *)
Lemma detach_ok (P : Uuid * Uuid → Z → Prop) (k : Uuid * Uuid) (m : gmap (Uuid * Uuid) Z) : map_Forall P m → map_Forall P (delete k m).
Proof. intros F i z [_ Hi]%lookup_delete_Some. by apply F. Qed.

#[export] Hint Resolve insert_client_ok upsert_locale_ok link_client_ok update_client_row_ok
  drop_other_locales_ok drop_client_rel delete_media_where_ok insert_media_ok publish_row_ok
  insert_keyword_ok upsert_keyword_locale_ok drop_keyword_rel insert_server_ok
  update_server_row_ok drop_server_rel : loon.

(** ** Requests *)

Section Schema.
Context `{Lowercase} `{UuidText} `{UuidParser} `{Primitives} `{FormUrlencoded}.
Context (cfg : Config).

Local Abbreviation keeps_schema p := (prog_rel (db_rel schema_rel) p).

Lemma on_content_or_schema {B} conv (f : Tick → Content → SqlResult (Content * B)) :
  content_rel f → keeps_schema (on_content_or conv f).
Proof.
  intros Hf. apply prog_rel_bind; [|done]. apply prog_rel_sql; [exact _|]. intros t db db' b E.
  apply and_then_ok in E as ([c b'] & E & [= <- <-]). intros S. apply schema_set_content; [done|].
  eapply Hf; [exact E|]. apply S.
Qed.
Hint Resolve on_content_or_schema BundleAdmin.fs_call_schema BundleAdmin.fs_quiet_schema : loon.

Lemma revision_schema : keeps_schema revision_hex.
Proof. apply prog_rel_memory; [exact _|done]. Qed.
Hint Resolve revision_schema : loon.

Lemma write_client_locales_schema id ls : keeps_schema (write_client_locales id ls).
Proof. induction ls; cbn [write_client_locales]; prog_rel_go. Qed.

Lemma write_keyword_locales_schema id ls : keeps_schema (write_keyword_locales id ls).
Proof. induction ls; cbn [write_keyword_locales]; prog_rel_go. Qed.

Lemma unlink_urls_schema urls : keeps_schema (unlink_urls cfg urls).
Proof. induction urls; cbn [unlink_urls]; unfold unlink_quiet; prog_rel_go. Qed.
Hint Resolve write_client_locales_schema write_keyword_locales_schema unlink_urls_schema : loon.

Lemma link_owned_bundle_schema id slug ls : keeps_schema (link_owned_bundle id slug ls).
Proof. unfold link_owned_bundle, provision_bundle_row, find_bundle_id_by_slug. prog_rel_go. Qed.

Lemma strand_schema old b : keeps_schema (strand_old_bundle old b).
Proof.
  unfold strand_old_bundle, bundle_slug_by_id, count_artifacts, delete_bundle_row. prog_rel_go.
Qed.

Lemma load_titles_schema ids l : keeps_schema (load_keyword_titles ids l).
Proof. unfold load_keyword_titles. prog_rel_go. Qed.

Lemma load_bundles_schema links : keeps_schema (load_bundles links).
Proof. unfold load_bundles. prog_rel_go. Qed.
Hint Resolve link_owned_bundle_schema strand_schema load_titles_schema load_bundles_schema : loon.

Lemma attach_keyword_schema a b : keeps_schema (attach_keyword a b).
Proof.
  apply on_content_or_schema. intros t c c' x E S. apply and_then_ok in E as (m & E & [= <- _]).
  pose proof (attach_ok _ _ _ _ _ _ _ E (ok_client_keywords c S)). by destruct S.
Qed.

Lemma attach_server_schema a b : keeps_schema (attach_server a b).
Proof.
  apply on_content_or_schema. intros t c c' x E S. apply and_then_ok in E as (m & E & [= <- _]).
  pose proof (attach_ok _ _ _ _ _ _ _ E (ok_client_servers c S)). by destruct S.
Qed.

Lemma detach_keyword_schema a b : keeps_schema (detach_keyword a b).
Proof.
  apply on_content_schema. intros t c c' x [= <- _] S.
  pose proof (detach_ok _ (a, b) _ (ok_client_keywords c S)). by destruct S.
Qed.

Lemma detach_server_schema a b : keeps_schema (detach_server a b).
Proof.
  apply on_content_schema. intros t c c' x [= <- _] S.
  pose proof (detach_ok _ (a, b) _ (ok_client_servers c S)). by destruct S.
Qed.

Lemma load_relations_schema ids links l : keeps_schema (load_client_relations ids links l).
Proof. unfold load_client_relations. prog_rel_go. Qed.
Hint Resolve attach_keyword_schema attach_server_schema detach_keyword_schema detach_server_schema
  load_relations_schema : loon.

Lemma create_client_schema body : keeps_schema (create_client cfg body).
Proof. unfold create_client, ensure_bundle_dir. prog_rel_go. Qed.
Hint Resolve create_client_schema : loon.

Lemma serve_catalog_schema r : keeps_schema (serve_catalog cfg r).
Proof.
  destruct r; cbn [serve_catalog];
    unfold list_clients, list_clients_admin, load_all, get_client, load_client, list_keywords,
      get_keyword, load_keyword, list_servers, get_server, load_server, serve_media,
      canonicalize_media, read_media, create_client, update_client, update_tx, delete_client,
      delete_tx, linked_bundle, resolve_owned_bundle_slug, bundle_slug_by_id, ensure_bundle_dir,
      remove_bundle_dir, delete_bundle_row, remove_media_dir, set_published, list_media,
      upload_media, require_client, store_media, write_file, delete_media, unlink_quiet,
      create_keyword, delete_keyword, create_server, update_server, delete_server; prog_rel_go.
Qed.
End Schema.

#[export] Hint Resolve serve_catalog_schema : loon.
