(* ===== verification/CatalogProps.v ===== *)
(** * What catalog administration achieves

    Clients and the bundles they own: creation links a client to a bundle that is there, an
    update destroys no uploads unless it is told to, a deletion takes everything that belongs
    to the client along. *)

From S2P Require Import Prelude RustStr Errors Png Models Table Content Schema Prog Auth Files Invariant.
From S2P Require Import Identity BundlePaths BundleTree BundleRepo BundleProps.
From S2P Require Import CatalogRepo CatalogReads CatalogAdmin CatalogSchema.
From S2P Require Textures.

Import Textures (UuidParser, hyphenated, parse_str, parse_hyphenated, toy_parser).

(** ** Rules *)

Section Rules.
Context (T : Tick → Prop) (st : AppState).

Lemma wp_content_or {B} conv (f : Tick → Content → SqlResult (Content * B)) (Q : AppState → AppResult B → Prop) :
  (∀ e, Q st (Err e)) →
  (∀ t c b, T t → f t (registry st) = Ok (c, b) → Q (with_content c st) (Ok b)) →
  wp (on_content_or conv f) T st Q.
Proof.
  intros HE HO. apply wp_bind, wp_sql. intros t Ht. destruct (t_fault t); [apply wp_ret, HE|].
  destruct (f t (content (st_db st))) as [[c b]|e] eqn:E; cbn [and_then]; apply wp_ret; [|apply HE].
  by eapply HO.
Qed.

Lemma wp_look_calm {B} now (f : Content → B) (Q : AppState → AppResult B → Prop) :
  Q st (Ok (f (registry st))) → wp (look f) (calm now) st Q.
Proof. intros H. apply wp_select. intros t (F & _). by rewrite F. Qed.

(** A statement that cannot fail. *)
Lemma wp_content_calm {B} now (f : Tick → Content → Content * B) (Q : AppState → AppResult B → Prop) :
  (∀ t, Q (with_content (f t (registry st)).1 st) (Ok (f t (registry st)).2)) →
  wp (on_content (λ t c, Ok (f t c))) (calm now) st Q.
Proof.
  intros H. apply wp_sql_app. intros t (F & _). rewrite F. specialize (H t). unfold registry in H.
  by destruct (f t (content (st_db st))) as [c b].
Qed.

(** The locales a payload leaves behind. *)
Definition merge_locales (id : Uuid) (ls : list ClientLocaleInput) (m : gmap (Uuid * string) ClientLocale)
  : gmap (Uuid * string) ClientLocale :=
  foldl (λ m l, <[(id, li_locale l) :=
    mkClientLocale (li_title l) (li_description l) (li_short_description l)]> m) m ls.
End Rules.

Lemma set_locales_twice m m' c :
  set_catalog_client_locales m (set_catalog_client_locales m' c) = set_catalog_client_locales m c.
Proof. done. Qed.

Lemma wp_write_locales T id ls st (Q : AppState → AppResult unit → Prop) :
  (∀ c e, Q (with_content c st) (Err e)) →
  Q (with_content (set_catalog_client_locales
       (merge_locales id ls (catalog_client_locales (registry st))) (registry st)) st) (Ok ()) →
  wp (write_client_locales id ls) T st Q.
Proof.
  revert st. induction ls as [|l ls IH]; intros st HE HO; cbn [write_client_locales].
  - apply wp_ret. cbn [merge_locales foldl] in HO.
    assert (E : set_catalog_client_locales (catalog_client_locales (registry st)) (registry st) = registry st)
      by by destruct (registry st).
    by rewrite E, with_registry in HO.
  - apply wp_bind_ok, wp_on_content; [intros e; rewrite <- (with_registry st); apply HE|].
    intros t c [] _ E. apply and_then_ok in E as ([] & _ & [= <-]). cbv beta iota.
    apply IH; rewrite ?registry_with.
    + intros c e. rewrite with_content_twice. apply HE.
    + rewrite with_content_twice, set_locales_twice. exact HO.
Qed.

(** ** The bundle a client owns *)

(** [n] is the bundle at [slug]: one that was there, or a new draft. *)
Inductive owned (slug name : string) (c : Content) (n : Uuid) : bool → Content → Prop :=
| Existing x : bundles c !! n = Some x → b_slug x = slug → owned slug name c n false c
| Provisioned now :
    validate_slug slug = Ok () → bundles c !! n = None →
    (∀ k x, bundles c !! k = Some x → b_slug x ≠ slug) →
    owned slug name c n true (set_bundles (<[n := draft slug name now]> (bundles c)) c).

Lemma owned_there slug name c n p c' :
  owned slug name c n p c' → ∃ x, bundles c' !! n = Some x ∧ b_slug x = slug.
Proof. intros [x H E|now V H N]; [by exists x|]. exists (draft slug name now). cbn. by rewrite lookup_insert_eq. Qed.

(** Nothing but a new bundle. *)
Lemma owned_keeps slug name c n p c' :
  owned slug name c n p c' →
  (∀ k x, bundles c !! k = Some x → bundles c' !! k = Some x) ∧
  c' = set_bundles (bundles c') c.
Proof.
  intros [x H E|now V H N]; [split; [done|by destruct c]|]. split; [|done].
  intros k x Hk. cbn. rewrite lookup_insert_ne; congruence.
Qed.

Definition bundle_name (slug : string) (ls : list ClientLocaleInput) : string :=
  match ls with l :: _ => li_title l | [] => slug end.

Lemma wp_link_bundle T id slug ls st r (Q : AppState → AppResult LinkedBundle → Prop) :
  catalog_clients (registry st) !! id = Some r →
  (∀ c e, Q (with_content c st) (Err e)) →
  (∀ n p c, owned slug (bundle_name slug ls) (registry st) n p c →
     Q (with_content (set_catalog_clients (<[id := with_link n slug r]> (catalog_clients c)) c) st)
       (Ok (mkLinkedBundle n slug p))) →
  wp (link_owned_bundle id slug ls) T st Q.
Proof.
  intros Hr HE HO. assert (HE0 : ∀ e, Q st (Err e)) by (intros e; rewrite <- (with_registry st); apply HE).
  assert (L : ∀ n p c, owned slug (bundle_name slug ls) (registry st) n p c →
    wp (bind_ok (on_content (link_client id n slug)) (λ _, ret_ok (mkLinkedBundle n slug p))) T
      (with_content c st) Q).
  { intros n p c O. apply wp_bind_ok, wp_on_content; [by apply HE|].
    intros t c' [] _ E. rewrite registry_with in E. unfold link_client in E.
    pose proof (owned_keeps _ _ _ _ _ _ O) as [_ Ec].
    assert (Hc : catalog_clients c !! id = Some r) by (by rewrite Ec). rewrite Hc in E.
    apply and_then_ok in E as ([] & _ & [= <-]). rewrite with_content_twice. apply wp_ret. by apply HO. }
  apply wp_bind_ok, wp_look; [done|]. unfold id_by_slug.
  destruct (find_row (has_slug slug) (bundles (registry st))) as [x|] eqn:F; cbn [option_map].
  - apply find_row_Some in F as [F1 F2]. apply String.eqb_eq in F2. apply wp_bind_ok, wp_ret.
    rewrite <- (with_registry st). apply L. by econstructor.
  - rewrite find_row_None in F. apply wp_bind_ok. unfold provision_bundle_row.
    apply wp_bind_ok, wp_bind_ok, wp_ret. destruct (validate_slug slug) as [[]|e] eqn:V; [|done].
    apply wp_bind_ok, wp_look; [done|]. unfold id_by_slug.
    rewrite (proj2 (find_row_None _ _) F). cbn [option_map].
    apply wp_on_content; [done|]. intros t c n _ E.
    apply and_then_ok in E as (m & E & [= <- <-]). apply insert_row_ok in E as (Hn & -> & _).
    apply wp_ret. apply L. constructor; [done..|]. intros k y Hk E. specialize (F k y Hk).
    unfold has_slug in F. by rewrite E, String.eqb_refl in F.
Qed.

(** ** The bundle an update leaves behind *)

Inductive stranded_as (old : Uuid) (del : bool) (c : Content) : Stranded → Content → Prop :=
| Referenced k r :
    catalog_clients c !! k = Some r → cc_bundle_id r = Some old → stranded_as old del c NotStranded c
| Absent : bundles c !! old = None → stranded_as old del c NotStranded c
| Spared x :
    bundles c !! old = Some x → del = false → count_rows (of_bundle old) (bundle_artifacts c) ≠ 0 →
    stranded_as old del c (Kept (b_slug x)) c
| Dropped x :
    bundles c !! old = Some x →
    (∀ k r, catalog_clients c !! k = Some r → cc_bundle_id r ≠ Some old) →
    del = true ∨ count_rows (of_bundle old) (bundle_artifacts c) = 0 →
    stranded_as old del c (Deleted (b_slug x)) (drop_bundle old c).

Lemma wp_strand T old del st (Q : AppState → AppResult Stranded → Prop) :
  (∀ e, Q st (Err e)) →
  (∀ s c, stranded_as old del (registry st) s c → Q (with_content c st) (Ok s)) →
  wp (strand_old_bundle old del) T st Q.
Proof.
  intros HE HO. assert (HO' : ∀ s, stranded_as old del (registry st) s (registry st) → Q st (Ok s)).
  { intros s Hs. rewrite <- (with_registry st) at 1. by apply HO. }
  apply wp_bind_ok, wp_look; [done|]. destruct (Nat.ltb_spec 0 (count_rows (linked_to old) (catalog_clients (registry st)))) as [R|R].
  - apply wp_ret, HO'. apply count_rows_pos in R as (k & r & Hr & L). apply bool_decide_eq_true in L.
    by econstructor.
  - apply wp_bind_ok, wp_look; [done|].
    destruct (bundles (registry st) !! old) as [x|] eqn:B; cbn [option_map]; [|by apply wp_ret, HO', Absent].
    apply wp_bind_ok, wp_look; [done|]. cbv beta iota.
    destruct (del || _) eqn:D.
    + apply wp_bind_ok, wp_on_content; [done|]. intros t c [] _ [= <-]. apply wp_ret, HO.
      apply Dropped; [done| |].
      * assert (Z : count_rows (linked_to old) (catalog_clients (registry st)) = 0) by lia.
        rewrite count_rows_zero in Z. intros k r Hr E. specialize (Z k r Hr).
        by apply bool_decide_eq_false in Z.
      * apply orb_true_iff in D as [->|D]; [by left|]. right. by apply Nat.eqb_eq.
    + apply orb_false_iff in D as [-> D]. apply Nat.eqb_neq in D. apply wp_ret, HO'. by apply Spared.
Qed.

(** ** Updating a client *)

(** The slug of the bundle the client is to own. *)
Definition target_slug (body : UpsertClient) (c : Content) (old : option Uuid) : string :=
  match requested_bundle_slug body with
  | Some slug => slug
  | None =>
      match uc_bundle_slug body, old with
      | None, Some old => match bundles c !! old with Some x => b_slug x | None => trim (uc_slug body) end
      | _, _ => trim (uc_slug body)
      end
  end.

Definition new_locales (id : Uuid) (body : UpsertClient) (m : gmap (Uuid * string) ClientLocale)
  : gmap (Uuid * string) ClientLocale :=
  let m := merge_locales id (uc_locales body) m in
  if uc_replace_locales body
  then delete_pairs (other_locale id (map li_locale (uc_locales body))) m else m.

(** The content once the client's own row and texts are written. *)
Definition rewritten (id : Uuid) (body : UpsertClient) (now : Time) (r : CatalogClient) (c : Content)
  : Content :=
  set_catalog_client_locales (new_locales id body (catalog_client_locales c))
    (set_catalog_clients (<[id := with_body body now r]> (catalog_clients c)) c).

Definition strands (old : option Uuid) (n : Uuid) (del : bool) (c : Content) (s : Stranded)
  (c' : Content) : Prop :=
  match old with
  | Some old => if (old =? n)%N then s = NotStranded ∧ c' = c else stranded_as old del c s c'
  | None => s = NotStranded ∧ c' = c
  end.

Inductive updated (id : Uuid) (body : UpsertClient) (c : Content) (l : LinkedBundle) (s : Stranded)
  (c' : Content) : Prop :=
| Updated r now c1 :
    catalog_clients c !! id = Some r →
    lb_effective_slug l = target_slug body c (cc_bundle_id r) →
    owned (lb_effective_slug l) (bundle_name (lb_effective_slug l) (uc_locales body))
      (rewritten id body now r c) (lb_bundle_id l) (lb_provisioned l) c1 →
    strands (cc_bundle_id r) (lb_bundle_id l) (uc_delete_orphaned_bundle body)
      (set_catalog_clients (<[id := with_link (lb_bundle_id l) (lb_effective_slug l) (with_body body now r)]>
                              (catalog_clients c1)) c1) s c' →
    updated id body c l s c'.

(** The transaction's steps touch nothing but the content, also when they fail. *)
Lemma wp_update_tx T id body st (Q : AppState → AppResult (LinkedBundle * Stranded) → Prop) :
  (∀ c e, Q (with_content c st) (Err e)) →
  (∀ l s c, updated id body (registry st) l s c → Q (with_content c st) (Ok (l, s))) →
  wp (update_tx id body) T st Q.
Proof.
  intros HE HO. assert (HE0 : ∀ e, Q st (Err e)) by (intros e; rewrite <- (with_registry st); apply HE).
  apply wp_bind_ok, wp_bind_ok, wp_look; [done|].
  destruct (catalog_clients (registry st) !! id) as [r|] eqn:Hr; apply wp_ret; cbn [option_map ok_or]; [|done].
  apply wp_bind_ok, wp_content_or; [done|].
  intros t c [] _ E. unfold update_client_row in E. rewrite Hr in E.
  apply and_then_ok in E as (m & E & [= <-]). apply update_row_ok in E as [-> _].
  apply wp_bind_ok, wp_write_locales; [intros c e; rewrite with_content_twice; apply HE|].
  rewrite with_content_twice, registry_with. cbn [catalog_client_locales set_catalog_clients].
  set (c0 := set_catalog_client_locales _ _). apply wp_bind_ok.
  assert (L : wp (if uc_replace_locales body
    then on_content (drop_other_locales id (map li_locale (uc_locales body))) else ret_ok ()) T
    (with_content c0 st) (λ st' x, match x with
      | Ok _ => st' = with_content (rewritten id body (t_db t) r (registry st)) st
      | Err e => st' = with_content c0 st end)).
  { unfold rewritten, new_locales, c0. destruct (uc_replace_locales body).
    - apply wp_on_content; [done|]. intros t' c [] _ [= <-]. by rewrite registry_with, with_content_twice.
    - by apply wp_ret. }
  eapply wp_conseq; [exact L|]. intros st' [[]|e] ->; [|apply HE]. clear L c0.
  set (c0 := rewritten _ _ _ _ _). apply wp_bind_ok.
  assert (L : wp (resolve_owned_bundle_slug body (cc_bundle_id r)) T (with_content c0 st)
    (λ st' x, st' = with_content c0 st ∧ match x with
       Ok slug => slug = target_slug body (registry st) (cc_bundle_id r) | Err _ => True end)).
  { unfold resolve_owned_bundle_slug, target_slug. destruct (requested_bundle_slug body); [by apply wp_ret|].
    destruct (uc_bundle_slug body); [by apply wp_ret|]. destruct (cc_bundle_id r) as [old|]; [|by apply wp_ret].
    apply wp_bind_ok, wp_look; [done|]. apply wp_ret. split; [done|]. rewrite registry_with.
    change (bundles c0) with (bundles (registry st)). by destruct (bundles (registry st) !! old). }
  eapply wp_conseq; [exact L|]. intros st' [slug|e] [-> Es]; [|apply HE]. clear L.
  apply wp_bind_ok, (wp_link_bundle _ _ _ _ _ (with_body body (t_db t) r)).
  { rewrite registry_with. cbn. apply lookup_insert_eq. }
  { intros c e. rewrite with_content_twice. apply HE. }
  intros n p c1 O. rewrite registry_with in O. rewrite with_content_twice. apply wp_bind_ok.
  set (c2 := set_catalog_clients _ _).
  assert (U : ∀ s c', strands (cc_bundle_id r) n (uc_delete_orphaned_bundle body) c2 s c' →
    updated id body (registry st) (mkLinkedBundle n slug p) s c') by (intros; by econstructor).
  unfold strands in U. cbn [lb_bundle_id]. destruct (cc_bundle_id r) as [old|].
  - destruct (old =? n)%N; [by apply wp_ret, wp_ret, HO, U|].
    apply wp_strand; [intros e; apply HE|]. intros s c' Hs. rewrite registry_with in Hs.
    rewrite with_content_twice. by apply wp_ret, HO, U.
  - by apply wp_ret, wp_ret, HO, U.
Qed.

(** *** What an update keeps *)

(** [b] holds uploads that the request does not offer, or belongs to another client, or is the
    client's own and the request leaves the field out (an explicit null retargets). *)
Definition protected (id : Uuid) (body : UpsertClient) (c : Content) (b : Uuid) : Prop :=
  (uc_delete_orphaned_bundle body = false ∧ count_rows (of_bundle b) (bundle_artifacts c) ≠ 0)
  ∨ (∃ k r, k ≠ id ∧ catalog_clients c !! k = Some r ∧ cc_bundle_id r = Some b)
  ∨ (uc_bundle_slug body = None ∧ ∃ r, catalog_clients c !! id = Some r ∧ cc_bundle_id r = Some b).

(** Every bundle but the one that is deleted stays as it is, with its artifacts. *)
Record outlived (c c' : Content) (b : Uuid) (x : Bundle) : Prop := {
  ol_bundle : bundles c' !! b = Some x;
  ol_artifacts : ∀ k a, ba_bundle_id a = b →
    bundle_artifacts c' !! k = Some a ↔ bundle_artifacts c !! k = Some a
}.

(** The other clients keep their rows and texts, and every client its images and links. *)
Record bystanders (id : Uuid) (c c' : Content) : Prop := {
  by_clients : ∀ k, k ≠ id → catalog_clients c' !! k = catalog_clients c !! k;
  by_texts : ∀ k l, k ≠ id → catalog_client_locales c' !! (k, l) = catalog_client_locales c !! (k, l);
  by_media : catalog_media c' = catalog_media c;
  by_keywords : catalog_client_keywords c' = catalog_client_keywords c;
  by_servers : catalog_client_servers c' = catalog_client_servers c
}.

Lemma bystanders_refl id c : bystanders id c c.
Proof. by split. Qed.

Lemma new_locales_other id body m k l :
  k ≠ id → new_locales id body m !! (k, l) = m !! (k, l).
Proof.
  intros Hk. assert (M : merge_locales id (uc_locales body) m !! (k, l) = m !! (k, l)).
  { unfold merge_locales. revert m. induction (uc_locales body) as [|x ls IH]; intros m; [done|].
    cbn [foldl]. rewrite IH. by rewrite lookup_insert_ne by congruence. }
  unfold new_locales. destruct (uc_replace_locales body); [|done]. rewrite <- M.
  rewrite lookup_delete_pairs. unfold other_locale. cbn. rewrite (proj2 (N.eqb_neq _ _) Hk).
  by destruct (_ !! (k, l)).
Qed.

Lemma updated_bystanders id body c l s c' : updated id body c l s c' → bystanders id c c'.
Proof.
  intros [r now c1 Hr Et O F]. pose proof (owned_keeps _ _ _ _ _ _ O) as [K Ec].
  set (c2 := set_catalog_clients _ c1) in F.
  assert (B2 : bystanders id c c2).
  { unfold c2. rewrite Ec. split; cbn; try done.
    - intros k Hne. by rewrite !lookup_insert_ne.
    - intros k l' Hne. by apply new_locales_other. }
  clearbody c2. unfold strands in F. destruct (cc_bundle_id r) as [old|]; [|by destruct F as [-> ->]].
  destruct (N.eqb_spec old (lb_bundle_id l)); [by destruct F as [-> ->]|].
  destruct F as [k' r' Hr' Hb'|Hn|y Hy Hd Hc|y Hy Hu Hd]; try done.
  split; cbn; try apply B2. intros k Hk. rewrite <- (by_clients _ _ _ B2) by done. rewrite lookup_update_where.
  destruct (catalog_clients c2 !! k) as [row|] eqn:Hrow; [|done]. cbn. unfold linked_to.
  by rewrite bool_decide_false by (by eapply Hu).
Qed.

Lemma bundles_unique c k k' x x' :
  content_ok c → bundles c !! k = Some x → bundles c !! k' = Some x' → b_slug x = b_slug x' → k = k'.
Proof.
  intros S H H' E. eapply (table_ok_uniq _ _ bundles_slug_key); [by left|apply S|exact H|exact H'|].
  by apply String.eqb_eq.
Qed.

Lemma updated_outlives id body c l s c' b x :
  content_ok c → updated id body c l s c' → bundles c !! b = Some x → protected id body c b →
  outlived c c' b x ∧ s ≠ Deleted (b_slug x) ∧
  (lb_provisioned l = true → validate_slug (lb_effective_slug l) = Ok () ∧ lb_effective_slug l ≠ b_slug x).
Proof.
  intros S [r now c1 Hr Et O F] Hx P. pose proof (owned_keeps _ _ _ _ _ _ O) as [K Ec].
  set (c2 := set_catalog_clients _ c1) in F.
  assert (X1 : bundles c2 !! b = Some x) by (by apply K).
  assert (A1 : bundle_artifacts c2 = bundle_artifacts c) by (unfold c2; by rewrite Ec).
  assert (C1 : ∀ k, k ≠ id → catalog_clients c2 !! k = catalog_clients c !! k).
  { intros k Hne. unfold c2. cbn. rewrite lookup_insert_ne by done. rewrite Ec. cbn.
    by rewrite lookup_insert_ne. }
  assert (New : lb_provisioned l = true →
    validate_slug (lb_effective_slug l) = Ok () ∧ lb_effective_slug l ≠ b_slug x).
  { intros E. destruct O as [y Hy Ey|now' V Hn N]; [done|]. split; [done|]. intros Es. by eapply N. }
  assert (B1 : bundles c2 = bundles c1) by done. clearbody c2.
  assert (Same : outlived c c2 b x) by (split; [done|by rewrite A1]).
  unfold strands in F. destruct (cc_bundle_id r) as [old|] eqn:Hb; [|by destruct F as [-> ->]].
  destruct (N.eqb_spec old (lb_bundle_id l)) as [E|Hne]; [by destruct F as [-> ->]|].
  inversion F as [k' r' Hr' Hb'|Hn|y Hy Hd Hc|y Hy Hu Hd]; subst; try done.
  assert (Hbo : b ≠ old).
  { intros ->. destruct P as [[D N]|[(k & row & Hk & Hrow & Eb)|(D & row & Hrow & Eb)]].
    - destruct Hd as [Hd|Hd]; [congruence|]. by rewrite A1 in Hd.
    - apply (Hu k row); [|done]. by rewrite C1.
    - rewrite Hr in Hrow. injection Hrow as <-. apply Hne.
      assert (Es : lb_effective_slug l = b_slug x).
      { rewrite Et. unfold target_slug, requested_bundle_slug. by rewrite D, Hx. }
      destruct O as [z Hz Ez|now' V Hn N].
      + eapply (bundles_unique c); [done|exact Hx|exact Hz|congruence].
      + destruct (N old x Hx). congruence. }
  split_and!; [|intros [= E]|done].
  - split; cbn.
    + by rewrite lookup_delete_ne by (by apply not_eq_sym).
    + intros k a Ha. rewrite lookup_delete_where_Some, A1. unfold of_bundle.
      rewrite N.eqb_neq. naive_solver.
  - apply Hbo. assert (Hy' : bundles c1 !! old = Some y) by by rewrite <- B1.
    destruct O as [z Hz Ez|now' V Hn N].
    + eapply (bundles_unique c); [done|exact Hx|exact Hy'|done].
    + cbn in Hy'. apply lookup_insert_Some in Hy' as [[En _]|[_ Hy']]; [congruence|].
      eapply (bundles_unique c); [done|exact Hx|exact Hy'|done].
Qed.

(** The slug of a bundle that goes is a valid one. *)
Lemma updated_dropped id body c l s c' slug :
  (∀ k y, bundles c !! k = Some y → validate_slug (b_slug y) = Ok ()) →
  updated id body c l s c' → s = Deleted slug → inert slug.
Proof.
  intros V [r now c1 Hr Et O F] Es. unfold strands in F.
  destruct (cc_bundle_id r) as [old|]; [|destruct F; congruence].
  destruct (old =? lb_bundle_id l)%N eqn:On; [destruct F; congruence|].
  rewrite Es in F. inversion F as [| | |y Hy Hu Hd]. subst slug. apply N.eqb_neq in On. cbn in Hy.
  assert (Hy' : bundles c !! old = Some y).
  { destruct O as [z Hz Ez|now' Vs Hn N]; [done|]. cbn in Hy. by rewrite lookup_insert_ne in Hy by congruence. }
  by apply V, validate_slug_ok in Hy' as [? _].
Qed.

(** *** Directories of different builds *)

Lemma split_cat a b : str_split slash (a +:+ "/" +:+ b) = str_split slash a ++ str_split slash b.
Proof.
  rewrite <- (concat_split b) at 1. apply split_join; [|apply str_split_lacks].
  by destruct (str_split_cons slash b) as (p & ps & ->).
Qed.

Section Apart.
Context (storage s s' : string) (J : joinable storage) (I : inert s) (I' : inert s') (Hne : s ≠ s').

Lemma build_place slug : inert slug → build_path storage slug = place storage ["builds"; slug].
Proof.
  intros Is. unfold build_path, builds_root. rewrite (path_join_inert storage) by done.
  rewrite path_join_inert; [|apply joinable_join; [apply J|done]|done].
  unfold place. cbn [String.concat]. by rewrite <- !str_app_assoc.
Qed.

(** What is below one build's directory is not on the way to another's files. *)
Lemma builds_apart q :
  below (build_path storage s) q = true →
  below (build_path storage s') q = false ∧ q ≠ build_path storage s' ∧ q ∉ lineage (files_path storage s').
Proof.
  rewrite (files_place storage s') by done. rewrite !build_place by done. intros (x & ->)%below_spec.
  assert (IB : ∀ t, inert t → Forall inert ["builds"; t])
    by (intros t It; do 2 (apply Forall_cons_2; [done|]); constructor).
  assert (IF : ∀ t, inert t → Forall inert ["builds"; t; "files"])
    by (intros t It; do 3 (apply Forall_cons_2; [done|]); constructor).
  assert (Sq : str_split slash (place storage ["builds"; s] +:+ "/" +:+ x)
    = str_split slash storage ++ ["builds"; s] ++ str_split slash x).
  { rewrite split_cat, split_place by auto. by rewrite <- app_assoc. }
  assert (K : ∀ y rest, str_split slash y = str_split slash storage ++ ["builds"; s'] ++ rest →
    place storage ["builds"; s] +:+ "/" +:+ x ≠ y).
  { intros y rest Sy E. rewrite E, Sy in Sq. apply app_inv_head in Sq. by injection Sq. }
  assert (L : place storage ["builds"; s'] = storage +:+ "/" +:+ "builds" +:+ "/" +:+ s') by done.
  split_and!.
  - apply not_true_iff_false. intros (y & E)%below_spec. eapply K; [|exact E].
    rewrite split_cat, split_place by auto. by rewrite <- app_assoc.
  - eapply (K _ []). by rewrite split_place by auto.
  - intros Hl. change (place (place storage ["builds"; s']) ["files"])
      with (place storage ["builds"; s'] +:+ "/" +:+ "files") in Hl.
    rewrite L, <- !str_app_assoc in Hl.
    change (storage +:+ "/" +:+ "builds" +:+ "/" +:+ s' +:+ "/" +:+ "files")
      with (place storage ["builds"; s'; "files"]) in Hl.
    apply lineage_place in Hl as [Hl|(l1 & p & l2 & E & Hq)]; [| |by auto].
    + apply lineage_not_below in Hl. assert (B : below storage (place storage ["builds"; s] +:+ "/" +:+ x) = true).
      { apply below_spec. exists ("builds" +:+ "/" +:+ s +:+ "/" +:+ x). unfold place. cbn [String.concat].
        by rewrite <- !str_app_assoc. }
      congruence.
    + destruct l1 as [|a [|b [|d l1]]]; simplify_eq/=.
      * apply (f_equal (str_split slash)) in Hq. rewrite Sq, split_place in Hq by (by repeat constructor).
        by apply app_inv_head in Hq.
      * eapply (K _ []); [|exact Hq]. by rewrite split_place by auto.
      * eapply (K _ ["files"]); [|exact Hq]. by rewrite split_place by auto.
      * by destruct l1.
Qed.
End Apart.

(** ** Creating a client *)

Inductive created (body : UpsertClient) (c : Content) (id : Uuid) (slug : string) (p : bool)
  (c' : Content) : Prop :=
| Created now n c1 :
    catalog_clients c !! id = None →
    slug = default (trim (uc_slug body)) (requested_bundle_slug body) →
    owned slug (bundle_name slug (uc_locales body))
      (set_catalog_client_locales (merge_locales id (uc_locales body) (catalog_client_locales c))
         (set_catalog_clients (<[id := client_row body now]> (catalog_clients c)) c)) n p c1 →
    c' = set_catalog_clients (<[id := with_link n slug (client_row body now)]> (catalog_clients c1)) c1 →
    created body c id slug p c'.

Lemma wp_create_client cfg body T st
  (Q : AppState → AppResult (Uuid * string) → Prop) :
  (∀ st' e, Q st' (Err e)) →
  (∀ id slug p c st', created body (registry st) id slug p c → registry st' = c →
     (p = true → is_dir (st_tree st') (files_path (bundles_root cfg) slug) = true) →
     Q st' (Ok (id, slug))) →
  joinable (bundles_root cfg) → wp (create_client cfg body) T st Q.
Proof.
  intros HE HO J. apply wp_bind_ok, wp_transaction. intros t0 _. destruct (t_fault t0); [apply HE|].
  apply wp_bind_ok, wp_content_or; [intros; apply HE|]. intros t c id _ E.
  apply and_then_ok in E as (m & E & [= <- <-]). apply insert_row_ok in E as (Hk & -> & _).
  apply wp_bind_ok, wp_write_locales; [intros; apply HE|]. rewrite with_content_twice, registry_with.
  cbn [catalog_client_locales set_catalog_clients]. set (c0 := set_catalog_client_locales _ _).
  apply wp_bind_ok, (wp_link_bundle _ _ _ _ _ (client_row body (t_db t))); [| |].
  { rewrite registry_with. cbn. apply lookup_insert_eq. }
  { intros; apply HE. }
  intros n p c1 O. rewrite registry_with in O. rewrite with_content_twice. apply wp_ret.
  intros t1 _. destruct (t_fault t1); [apply HE|]. cbn [lb_provisioned lb_effective_slug].
  set (slug := default _ _) in *.
  assert (C : created body (registry st) (t_uuid t) slug p
    (set_catalog_clients (<[t_uuid t := with_link n slug (client_row body (t_db t))]> (catalog_clients c1)) c1))
    by by econstructor.
  apply wp_bind_ok. destruct p; [|by apply wp_ret, wp_ret; eapply HO].
  apply wp_on_tree. intros t2 _. destruct (t_fault t2); cbn [fst snd]; [apply HE|].
  destruct (create_dir_all _ _ _) as [m|] eqn:Em; cbn [fst snd]; [|apply HE]. apply wp_ret.
  eapply HO; [exact C|done|]. intros _. apply create_dir_all_spec in Em as (_ & _ & Em & _). apply Em.
  inversion C as [now n' c1' Hid Es O' _]. inversion O' as [|now' Vs].
  apply validate_slug_ok in Vs as [I _].
  apply (place_in_lineage _ [] []); [by apply files_joinable|constructor].
Qed.

(** The last text for a locale wins. *)
Lemma lookup_merged id ls m pre l post :
  ls = pre ++ l :: post → li_locale l ∉ map li_locale post →
  merge_locales id ls m !! (id, li_locale l) =
    Some (mkClientLocale (li_title l) (li_description l) (li_short_description l)).
Proof.
  intros -> Hp. unfold merge_locales. rewrite foldl_app. cbn [foldl].
  generalize (foldl (λ m l, <[(id, li_locale l) :=
    mkClientLocale (li_title l) (li_description l) (li_short_description l)]> m) m pre). clear m pre.
  assert (G : ∀ m : gmap (Uuid * string) ClientLocale, foldl (λ m l, <[(id, li_locale l) :=
    mkClientLocale (li_title l) (li_description l) (li_short_description l)]> m) m post !! (id, li_locale l)
    = m !! (id, li_locale l)).
  { induction post as [|x post IH]; intros m; [done|]. cbn [foldl map] in *.
    apply not_elem_of_cons in Hp as [Hx Hp]. rewrite IH by done. rewrite lookup_insert_ne; [done|].
    intros [=]. congruence. }
  intros m. by rewrite G, lookup_insert_eq.
Qed.

(** A locale that is there is picked. *)
Lemma pick_present {A} (m : gmap (Uuid * string) A) id locale x :
  m !! (id, locale) = Some x → pick_locale (rows_of m id) locale = Some x.
Proof.
  intros Hx. unfold pick_locale.
  assert (Hin : (locale, x) ∈ rows_of m id).
  { apply list_elem_of_fmap. exists (id, locale, x). split; [done|]. apply elem_of_filterb.
    by rewrite elem_of_map_to_list, N.eqb_refl. }
  destruct (List.find (in_locale locale) _) as [[l y]|] eqn:F.
  - apply find_spec_Some in F as [F E]. apply String.eqb_eq in E. cbn in E. subst l.
    apply list_elem_of_fmap in F as ([[id' l'] y'] & [= -> ->] & F). apply elem_of_filterb in F as [F E].
    apply N.eqb_eq in E. cbn in E. subst id'. apply elem_of_map_to_list in F. cbn. congruence.
  - pose proof (find_spec_None _ _ F _ Hin) as E. unfold in_locale in E. cbn in E.
    by rewrite String.eqb_refl in E.
Qed.

(** Nothing hangs on a client that is not there. *)
Lemma no_media_of c id : content_ok c → catalog_clients c !! id = None → media_of c id = [].
Proof.
  intros S Hid. unfold media_of. destruct (select_rows _ _) as [|x l] eqn:E; [done|].
  assert (Hx : x ∈ select_rows (λ _ r, (cm_client_id r =? id)%N) (catalog_media c)) by (rewrite E; by left).
  apply elem_of_select_rows in Hx as [Hx K%N.eqb_eq]. destruct (ok_media c S) as [_ R].
  destruct (R _ _ Hx) as [[r Hr] _]. congruence.
Qed.

Lemma no_links_of {R} (P : Uuid * Uuid → Z → Prop) published id (rows : gmap Uuid R) links :
  map_Forall P links → (∀ k z, P k z → k.1 ≠ id) → join_links published (N.eqb id) rows links = [].
Proof.
  intros F N. unfold join_links. destruct (omap _ _) as [|x l] eqn:E; [done|].
  assert (Hx : x ∈ x :: l) by by left. rewrite <- E in Hx.
  apply list_elem_of_omap in Hx as ([k z] & Hk & Hx). apply elem_of_map_to_list in Hk. cbn in Hx.
  destruct (rows !! k.2) as [r|]; [|done]. destruct (N.eqb_spec id k.1) as [En|]; [|done].
  destruct (N k z); [by apply F|done].
Qed.

(** ** Properties of clients *)

Section ClientProperties.
Context `{UuidText} (cfg : Config).

(** What is left of a bundle with its files. *)
Definition survives (st st' : AppState) (b : Uuid) (x : Bundle) : Prop :=
  outlived (registry st) (registry st') b x ∧
  ∀ p, below (build_path (bundles_root cfg) (b_slug x)) p = true → st_tree st' !! p = st_tree st !! p.

Lemma survives_refl st st' b x :
  registry st' = registry st → st_tree st' = st_tree st → bundles (registry st) !! b = Some x →
  survives st st' b x.
Proof. intros E1 E2 Hx. split; [split; rewrite E1; done|by rewrite E2]. Qed.

Lemma wp_fs_quiet_any T f st (Q : AppState → unit → Prop) :
  Q st () → (∀ m, f (st_tree st) = Some m → Q (set_tree m st) ()) → wp (fs_quiet f) T st Q.
Proof.
  intros H1 H2. apply wp_on_tree. intros t _. destruct (t_fault t); cbn [fst snd]; [by rewrite set_tree_same|].
  destruct (f (st_tree st)) as [m|] eqn:E; cbn [default]; [by apply H2|by rewrite set_tree_same].
Qed.

Lemma wp_fs_call_any T what f st (Q : AppState → AppResult unit → Prop) :
  Q st (Err (Internal what)) → (∀ now m, f now (st_tree st) = Some m → Q (set_tree m st) (Ok ())) →
  wp (fs_call what f) T st Q.
Proof.
  intros H1 H2. apply wp_on_tree. intros t _. destruct (t_fault t); cbn [fst snd]; [by rewrite set_tree_same|].
  destruct (f _ (st_tree st)) as [m|] eqn:E; cbn [fst snd]; [by eapply H2|by rewrite set_tree_same].
Qed.

(** The bundles of [protected]. *)
Lemma update_survives id body o st st' r b x :
  exec (update_client cfg id body) o st = (st', r) →
  content_ok (registry st) → joinable (bundles_root cfg) →
  (∀ k y, bundles (registry st) !! k = Some y → validate_slug (b_slug y) = Ok ()) →
  bundles (registry st) !! b = Some x → protected id body (registry st) b →
  survives st st' b x.
Proof.
  intros E S J V Hx P.
  refine (wp_exec _ any_tick o st (λ st' _, survives st st' b x) st' r (λ _, I) E _).
  apply wp_bind_ok, wp_transaction. intros t0 _.
  destruct (t_fault t0); [by apply survives_refl|].
  apply wp_update_tx; [intros c e; by apply survives_refl|].
  intros l s c U t1 _. destruct (t_fault t1); [by apply survives_refl|].
  destruct (updated_outlives _ _ _ _ _ _ _ _ S U Hx P) as (O & Hs & Hp).
  assert (Ix : inert (b_slug x)) by (by apply validate_slug_ok, (V b)).
  set (st1 := with_content c st).
  assert (Tree : ∀ st2, registry st2 = c → st_tree st2 = st_tree st → survives st st2 b x).
  { intros st2 E1 E2. split; [by rewrite E1|by rewrite E2]. }
  assert (Gone : ∀ st2 slug, s = Deleted slug → registry st2 = c →
    (∀ p, below (build_path (bundles_root cfg) (b_slug x)) p = true → st_tree st2 !! p = st_tree st !! p) →
    wp (remove_bundle_dir (bundles_root cfg) slug) any_tick st2 (λ st' _, survives st st' b x)).
  { intros st2 slug Es E1 E2. apply wp_fs_quiet_any; [by split; [rewrite E1|]|].
    intros m Em. split; [by change (registry (set_tree m st2)) with (registry st2); rewrite E1|].
    intros p Hb. unfold remove_dir_all in Em. destruct (is_dir _ _); [|done]. injection Em as <-.
    cbn [st_tree set_tree]. rewrite lookup_remove_tree.
    assert (Sl : inert slug ∧ b_slug x ≠ slug) by (split; [by eapply updated_dropped|congruence]).
    destruct (builds_apart (bundles_root cfg) (b_slug x) slug J Ix (proj1 Sl) (proj2 Sl) p Hb) as (B1 & B2 & _).
    rewrite B1, (proj2 (String.eqb_neq _ _) B2). by apply E2. }
  assert (End : ∀ st2, registry st2 = c →
    (∀ p, below (build_path (bundles_root cfg) (b_slug x)) p = true → st_tree st2 !! p = st_tree st !! p) →
    wp (match s with
        | Deleted slug => do* remove_bundle_dir (bundles_root cfg) slug; ret_ok None
        | Kept slug => ret_ok (Some slug)
        | NotStranded => ret_ok None
        end : prog (AppResult (option string))) any_tick st2 (λ st' _, survives st st' b x)).
  { intros st2 E1 E2. assert (Done : survives st st2 b x) by (split; [by rewrite E1|done]).
    destruct s as [slug|slug|]; [|by apply wp_ret..]. apply wp_bind. eapply wp_conseq; [by apply Gone|].
    intros st3 [] H3. by apply wp_ret. }
  apply wp_bind_ok. destruct (lb_provisioned l) eqn:Pr; [|by apply wp_ret, End].
  apply wp_fs_call_any; [by apply Tree|]. intros now m Em. apply End; [done|].
  intros p Hb. cbn [st_tree set_tree]. destruct (Hp eq_refl) as [Vs Ns].
  apply create_dir_all_spec in Em as (_ & Em & _). apply Em.
  apply validate_slug_ok in Vs as [Is _]. by apply (builds_apart (bundles_root cfg) (b_slug x)); auto.
Qed.

Lemma update_bystanders id body o st st' r :
  exec (update_client cfg id body) o st = (st', r) → bystanders id (registry st) (registry st').
Proof.
  intros E. refine (wp_exec _ any_tick o st (λ st' _, bystanders id (registry st) (registry st')) st' r (λ _, I) E _).
  apply wp_bind_ok, wp_transaction. intros t0 _.
  destruct (t_fault t0); [apply bystanders_refl|].
  apply wp_update_tx; [intros c e; apply bystanders_refl|].
  intros l s c U t1 _. destruct (t_fault t1); [apply bystanders_refl|].
  pose proof (updated_bystanders _ _ _ _ _ _ U) as B.
  assert (End : ∀ st2, registry st2 = c →
    wp (match s with
        | Deleted slug => do* remove_bundle_dir (bundles_root cfg) slug; ret_ok None
        | Kept slug => ret_ok (Some slug)
        | NotStranded => ret_ok None
        end : prog (AppResult (option string))) any_tick st2
      (λ st' _, bystanders id (registry st) (registry st'))).
  { intros st2 E2. destruct s as [slug|slug|]; [|by apply wp_ret; rewrite E2..].
    apply wp_bind, wp_fs_quiet_any; [|intros m _]; apply wp_ret;
      [|change (registry (set_tree m st2)) with (registry st2)]; by rewrite E2. }
  apply wp_bind_ok. destruct (lb_provisioned l); [|by apply wp_ret, End].
  apply wp_fs_call_any; [done|]. intros now m _. by apply End.
Qed.

(** C26. An update destroys no uploads unless it is told to. While the tables keep their
    constraints, every bundle has a valid slug and the storage root is well formed, whatever the request, its outcome and the
    failures on the way: a bundle that holds artifacts survives, with its row, its artifacts
    and its files, unless the request asks for the deletion of the bundle it strands; so does
    a bundle that another client owns, in any case; and so does the client's own bundle when
    the request leaves the bundle field out (an explicit null or blank name moves the client
    to the bundle of its own slug, which strands the old one). In every case, whatever bundles
    there are, no other client's row or texts change, and no client's images, keywords or
    servers. *)
Theorem update_never_destroys id body o st st' r :
  exec (update_client cfg id body) o st = (st', r) →
  content_ok (registry st) → joinable (bundles_root cfg) →
  (∀ k y, bundles (registry st) !! k = Some y → validate_slug (b_slug y) = Ok ()) →
  bystanders id (registry st) (registry st') ∧
  ∀ b x, bundles (registry st) !! b = Some x → protected id body (registry st) b →
    survives st st' b x.
Proof.
  intros E S J V. split; [by eapply update_bystanders|].
  intros b x. by eapply update_survives.
Qed.

(** What the view of a client that has just been created shows. *)
Lemma created_view body c id slug p c' locale n r :
  content_ok c → created body c id slug p c' → catalog_clients c' !! id = Some r → cc_bundle_id r = Some n →
  let d := client_view c' locale (mkKeyed id r) in
  (∃ x, bundles c' !! n = Some x ∧ b_slug x = slug) ∧
  cd_slug d = uc_slug body ∧ cd_available d = uc_available body ∧
  cd_minecraft_version d = uc_minecraft_version body ∧ cd_bundle_slug d = Some slug ∧
  cd_poster d = None ∧ cd_screenshots d = [] ∧ cd_keywords d = [] ∧ cd_servers d = [] ∧
  (∀ pre l post, uc_locales body = pre ++ l :: post → li_locale l = locale →
     li_locale l ∉ map li_locale post → cd_title d = li_title l).
Proof.
  intros S [now n0 c1 Hid Es O ->] Hr Hn d. cbn in Hr. rewrite lookup_insert_eq in Hr. injection Hr as <-.
  cbn in Hn. injection Hn as <-. pose proof (owned_keeps _ _ _ _ _ _ O) as [K Ec].
  destruct (owned_there _ _ _ _ _ _ O) as (x & Hx & Ex).
  assert (Sum : summary_of (set_catalog_clients (<[id := with_link n0 slug (client_row body now)]> (catalog_clients c1)) c1)
                  (with_link n0 slug (client_row body now)) = Some (bundle_summary x)).
  { unfold summary_of. cbn. by rewrite Hx. }
  assert (M : media_of (set_catalog_clients (<[id := with_link n0 slug (client_row body now)]> (catalog_clients c1)) c1) id = []).
  { rewrite Ec. exact (no_media_of c id S Hid). }
  split; [by exists x|]. unfold d, client_view. cbn [key row cd_slug cd_available cd_minecraft_version
    cd_bundle_slug cd_poster cd_screenshots cd_keywords cd_servers cd_title]. rewrite Sum, M.
  split_and!; try done.
  - cbn. by rewrite Ex.
  - unfold keywords_of. rewrite Ec. cbn. erewrite no_links_of; [done|apply (ok_client_keywords c S)|].
    intros k z [[r Hr] _] E. congruence.
  - unfold servers_of. rewrite Ec. cbn. erewrite no_links_of; [done|apply (ok_client_servers c S)|].
    intros k z [[r Hr] _] E. congruence.
  - intros pre l post El <- Hp.
    rewrite (pick_present _ _ _ (mkClientLocale (li_title l) (li_description l) (li_short_description l))); [done|].
    rewrite Ec. cbn. by eapply lookup_merged.
Qed.
End ClientProperties.

Section CreateThenGet.
Context `{Lowercase} `{UuidText} `{UuidParser} (cfg : Config).

(** A client that has been created is there, linked to a bundle with the slug that was
    answered, whose directory is there when the bundle is new; and when it was created as
    published, looking it up by its id shows it as requested: slug, availability, version,
    bundle, no media, keywords or servers yet, and the title given for the asked locale (the
    last one, if it was given twice). *)
Theorem create_then_get body q o o' st st' id slug :
  exec (create_client cfg body) o st = (st', Ok (id, slug)) →
  schema_ok (st_db st) → joinable (bundles_root cfg) → (∀ i, no_fault (o' i)) →
  ∃ r n x,
    catalog_clients (registry st') !! id = Some r ∧ cc_bundle_id r = Some n ∧
    bundles (registry st') !! n = Some x ∧ b_slug x = slug ∧
    ((∀ k y, bundles (registry st) !! k = Some y → b_slug y ≠ slug) →
       is_dir (st_tree st') (files_path (bundles_root cfg) slug) = true) ∧
    (uc_publish body = Some true →
     ∃ d, exec (get_client (hyphenated id) q) o' st' = (st', Ok d) ∧
       cd_slug d = uc_slug body ∧ cd_available d = uc_available body ∧
       cd_minecraft_version d = uc_minecraft_version body ∧ cd_bundle_slug d = Some slug ∧
       cd_poster d = None ∧ cd_screenshots d = [] ∧ cd_keywords d = [] ∧ cd_servers d = [] ∧
       (∀ pre l post, uc_locales body = pre ++ l :: post → li_locale l = requested_locale q →
          li_locale l ∉ map li_locale post → cd_title d = li_title l)).
Proof.
  intros E S J Ho'.
  assert (S' : content_ok (registry st')).
  { unfold exec in E. destruct (run (create_client cfg body) o 0 st) as [[n' st1] a] eqn:R.
    injection E as -> ->.
    refine (ok_content _ (prog_rel_run (db_rel schema_rel) _ o 0 st n' st' _ (create_client_schema cfg body) R S)). }
  destruct (wp_exec _ any_tick o st (λ st' a, ∀ x, a = Ok x → ∃ p,
    created body (registry st) x.1 x.2 p (registry st') ∧
    (p = true → is_dir (st_tree st') (files_path (bundles_root cfg) x.2) = true)) st' _ (λ _, I) E) with (x := (id, slug))
    as (p & C & D); [|done|].
  { apply wp_create_client; [done| |done]. intros i s p c st1 C <- D x [= <-]. by exists p. }
  cbn [fst snd] in *. pose proof C as C'. destruct C' as [now n c1 Hid Es O Ec].
  set (r := with_link n slug (client_row body now)).
  assert (Hr : catalog_clients (registry st') !! id = Some r) by (rewrite Ec; apply lookup_insert_eq).
  destruct (created_view body _ _ _ _ _ (requested_locale q) n r (ok_content _ S) C Hr eq_refl)
    as ((x & Hx & Ex) & V).
  exists r, n, x. split_and!; try done.
  - intros N. apply D. destruct O as [y Hy Ey|]; [|done]. by destruct (N n y Hy).
  - intros Pub. exists (client_view (registry st') (requested_locale q) (mkKeyed id r)). split; [|exact V].
    rewrite get_client_run by done. unfold addressed. rewrite parse_hyphenated, Hr.
    unfold cc_published, r. cbn. rewrite Pub. by rewrite bool_decide_true by done.
Qed.
End CreateThenGet.

(** ** Deleting a client *)

Section Deletion.
Context `{UuidText} (cfg : Config).

(** The bundle a client owns, with its slug. *)
Definition owned_bundle (c : Content) (r : CatalogClient) : option (Uuid * string) :=
  match cc_bundle_id r with
  | Some b => option_map (λ x, (b, b_slug x)) (bundles c !! b)
  | None => None
  end.

Definition media_dir (id : Uuid) : string := path_join (catalog_root cfg) (simple id).

(** What is left when the client [id] is deleted, which owned the bundle [own]. *)
Record deleted (id : Uuid) (own : option (Uuid * string)) (st st' : AppState) : Prop := {
  de_clients : ∀ k, catalog_clients (registry st') !! k =
    if decide (k = id) then None
    else option_map (λ r, match own with
                          | Some (b, _) => if bool_decide (cc_bundle_id r = Some b) then unlink_bundle r else r
                          | None => r
                          end) (catalog_clients (registry st) !! k);
  de_locales : ∀ k l, catalog_client_locales (registry st') !! (k, l) =
    if decide (k = id) then None else catalog_client_locales (registry st) !! (k, l);
  de_media : ∀ k r, catalog_media (registry st') !! k = Some r ↔
    catalog_media (registry st) !! k = Some r ∧ cm_client_id r ≠ id;
  de_keywords : ∀ k w, catalog_client_keywords (registry st') !! (k, w) =
    if decide (k = id) then None else catalog_client_keywords (registry st) !! (k, w);
  de_servers : ∀ k w, catalog_client_servers (registry st') !! (k, w) =
    if decide (k = id) then None else catalog_client_servers (registry st) !! (k, w);
  de_bundles : ∀ b, bundles (registry st') !! b =
    if decide (option_map fst own = Some b) then None else bundles (registry st) !! b;
  de_artifacts : ∀ k a, bundle_artifacts (registry st') !! k = Some a ↔
    bundle_artifacts (registry st) !! k = Some a ∧ option_map fst own ≠ Some (ba_bundle_id a);
  de_tree : ∀ p, st_tree st' !! p =
    match own with
    | Some (_, slug) =>
        let dir := build_path (bundles_root cfg) slug in
        if is_dir (st_tree st) dir && ((p =? dir)%string || below dir p) then None else st_tree st !! p
    | None => st_tree st !! p
    end;
  de_files : ∀ p, st_files st' !! p =
    if starts_with (media_dir id +:+ "/") p then None else st_files st !! p;
  de_rest : st' = set_files (st_files st') (set_tree (st_tree st') (with_content (registry st') st))
}.

Lemma with_content_files c st : st_files (with_content c st) = st_files st.
Proof. done. Qed.

(** The content alone. *)
Lemma deleted_intro id r st st' :
  content_ok (registry st) → catalog_clients (registry st) !! id = Some r →
  let own := owned_bundle (registry st) r in
  registry st' = match own with
                 | Some (b, _) => drop_bundle b (drop_client id (registry st))
                 | None => drop_client id (registry st)
                 end →
  (∀ p, st_tree st' !! p =
    match own with
    | Some (_, slug) =>
        let dir := build_path (bundles_root cfg) slug in
        if is_dir (st_tree st) dir && ((p =? dir)%string || below dir p) then None else st_tree st !! p
    | None => st_tree st !! p
    end) →
  (∀ p, st_files st' !! p = if starts_with (media_dir id +:+ "/") p then None else st_files st !! p) →
  st' = set_files (st_files st') (set_tree (st_tree st') (with_content (registry st') st)) →
  deleted id own st st'.
Proof.
  intros S Hr own Ec Et Ef Er.
  assert (Pairs : ∀ {K A} `{Countable K} (m : gmap (Uuid * K) A) k w,
    delete_pairs (λ k _, (k.1 =? id)%N) m !! (k, w) = if decide (k = id) then None else m !! (k, w)).
  { intros K A E1 C1 m k w. rewrite lookup_delete_pairs. cbn. destruct (N.eqb_spec k id) as [->|Hne].
    - rewrite decide_True by done. by destruct (m !! (id, w)).
    - rewrite decide_False by done. by destruct (m !! (k, w)). }
  assert (Cl : ∀ k, delete id (catalog_clients (registry st)) !! k =
    if decide (k = id) then None else catalog_clients (registry st) !! k).
  { intros k. rewrite lookup_delete. by repeat case_decide. }
  split; try done; clear Er; rewrite Ec; destruct own as [[b slug]|]; cbn; try (intros k w; apply Pairs).
  - intros k. rewrite lookup_update_where, Cl. case_decide; [done|].
    by destruct (catalog_clients (registry st) !! k).
  - intros k. rewrite Cl. case_decide; [done|]. by destruct (catalog_clients (registry st) !! k).
  - intros k x. rewrite lookup_delete_where_Some. by rewrite N.eqb_neq.
  - intros k x. rewrite lookup_delete_where_Some. by rewrite N.eqb_neq.
  - intros k. rewrite lookup_delete. repeat case_decide; congruence.
  - intros k. by rewrite decide_False.
  - intros k a. rewrite lookup_delete_where_Some. unfold of_bundle. rewrite N.eqb_neq. naive_solver.
  - intros k a. naive_solver.
Qed.

(** What follows the transaction, which has left [c]. *)
Lemma wp_delete_files id r c now st own :
  content_ok (registry st) → catalog_clients (registry st) !! id = Some r →
  own = owned_bundle (registry st) r →
  c = match own with
      | Some (b, _) => drop_bundle b (drop_client id (registry st))
      | None => drop_client id (registry st)
      end →
  wp (do* match option_map snd own with
          | Some slug => remove_bundle_dir (bundles_root cfg) slug
          | None => Ret ()
          end;
      do* remove_media_dir (path_join (catalog_root cfg) (simple id));
      ret_ok () : prog (AppResult unit)) (calm now) (with_content c st)
    (λ st' res, res = Ok () ∧ deleted id (owned_bundle (registry st) r) st st').
Proof.
  intros S Hr Eo Ec. apply wp_bind.
  assert (L : wp match option_map snd own with
                 | Some slug => remove_bundle_dir (bundles_root cfg) slug
                 | None => Ret ()
                 end (calm now) (with_content c st) (λ st' _, ∃ m, st' = set_tree m (with_content c st) ∧
                   ∀ p, m !! p = match own with
                     | Some (_, slug) => let dir := build_path (bundles_root cfg) slug in
                         if is_dir (st_tree st) dir && ((p =? dir)%string || below dir p) then None
                         else st_tree st !! p
                     | None => st_tree st !! p end)).
  { destruct own as [[b slug]|]; cbn [option_map snd].
    - apply wp_fs_quiet. cbn [st_tree with_content set_db]. eexists. split; [done|]. intros p.
      unfold remove_dir_all. destruct (is_dir _ _); cbn [from_option andb]; unfold Datatypes.id; [|done].
      by rewrite lookup_remove_tree.
    - apply wp_ret. exists (st_tree st). by split; [destruct st|]. }
  eapply wp_conseq; [exact L|]. intros st1 [] (m & -> & Hm). apply wp_bind, wp_on_files.
  intros t' (F & _). rewrite F. cbn [fst snd]. apply wp_ret. split; [done|].
  apply deleted_intro; [done..| | | |].
  - rewrite <- Eo. exact Ec.
  - rewrite <- Eo. exact Hm.
  - intros p. cbn [st_files set_files set_tree]. rewrite lookup_delete_pairs. unfold media_dir.
    rewrite with_content_files. destruct (starts_with _ p); by destruct (st_files st !! p).
  - cbn. by destruct st.
Qed.

Lemma delete_client_run id now o st st' res :
  exec (delete_client cfg id) o st = (st', res) →
  (∀ i, calm now (o i)) → content_ok (registry st) →
  match catalog_clients (registry st) !! id with
  | None => st' = st ∧ res = Err (NotFound "client not found")
  | Some r => res = Ok () ∧ deleted id (owned_bundle (registry st) r) st st'
  end.
Proof.
  intros E Ho S.
  refine (wp_exec _ (calm now) o st (λ st' res, match catalog_clients (registry st) !! id with
    | None => st' = st ∧ res = Err (NotFound "client not found")
    | Some r => res = Ok () ∧ deleted id (owned_bundle (registry st) r) st st' end) st' res Ho E _).
  apply wp_bind_ok, wp_transaction_calm, wp_bind_ok, wp_bind_ok, wp_look_calm.
  destruct (catalog_clients (registry st) !! id) as [r|] eqn:Hr; apply wp_ret; cbn [option_map ok_or].
  2: { split; [|done]. by destruct st. }
  apply wp_bind_ok, wp_content_calm. intros t. cbn [fst snd].
  set (c1 := drop_client id (registry st)).
  pose proof (λ own c, wp_delete_files id r c now st own S Hr) as Fin.
  destruct (cc_bundle_id r) as [b|] eqn:Hb.
  - assert (Hx : is_Some (bundles (registry st) !! b)).
    { pose proof (proj2 (ok_clients _ S) _ _ Hr) as R. cbn in R. by rewrite Hb in R. }
    destruct Hx as [x Hx].
    apply wp_bind_ok, wp_look_calm. rewrite registry_with.
    change (bundles c1) with (bundles (registry st)). rewrite Hx. cbn [option_map].
    apply wp_bind_ok, wp_content_calm. intros t'. cbn [fst snd].
    rewrite with_content_twice, registry_with.
    apply wp_ret, (Fin (Some (b, b_slug x)) _); [|done].
    unfold owned_bundle. by rewrite Hb, Hx.
  - apply wp_ret, (Fin None _); [|done]. unfold owned_bundle. by rewrite Hb.
Qed.

(** Deleting a client. An unknown client is [NotFound] and nothing changes. Otherwise the
    client goes, with exactly its texts, images, links and image files; the bundle it owned
    goes, with exactly its artifacts and the build's directory; other clients keep everything,
    but lose their link if they shared that bundle. *)
Theorem delete_client_exact id now o st st' res :
  exec (delete_client cfg id) o st = (st', res) →
  (∀ i, calm now (o i)) → content_ok (registry st) →
  match catalog_clients (registry st) !! id with
  | None => st' = st ∧ res = Err (NotFound "client not found")
  | Some r => res = Ok () ∧ deleted id (owned_bundle (registry st) r) st st'
  end.
Proof. apply delete_client_run. Qed.
End Deletion.

(** ** On a launcher with two builds *)

Definition launcher_home : AppState :=
  set_files {[media_path "data/catalog-media" (simple (UuidText := hex_text) 20) "poster" "a" "png" := [1%Z];
              media_path "data/catalog-media" (simple (UuidText := hex_text) 22) "poster" "b" "png" := [2%Z]]}
    (with_content launcher (set_tree sample_disk sample_state)).

(** The request moves the client to a build of its own. *)
Definition moved_away : UpsertClient :=
  mkUpsertClient "twenty" true None None None None (Some (Some "solo")) None None [] false false.

Lemma update_never_destroys_witness :
  let r := exec (update_client default_config 20 moved_away) (calm_oracle 50) launcher_home in
  r.2 = Ok (Some "pack") ∧
  bystanders 20 (registry launcher_home) (registry r.1) ∧
  survives default_config launcher_home r.1 1 (draft "pack" "Pack" 1).
Proof.
  split; [vm_compute; reflexivity|].
  destruct (update_never_destroys default_config 20 moved_away (calm_oracle 50) launcher_home
           (exec (update_client default_config 20 moved_away) (calm_oracle 50) launcher_home).1
           (exec (update_client default_config 20 moved_away) (calm_oracle 50) launcher_home).2) as [B S].
  - apply surjective_pairing.
  - exact launcher_ok.
  - exact default_joinable.
  - apply (map_Forall_to_list (λ (_ : Uuid) y, validate_slug (b_slug y) = Ok ())). vm_compute. by repeat constructor.
  - split; [exact B|]. apply S; [vm_compute; reflexivity|]. left. split; [done|]. vm_compute. discriminate.
Defined.

Definition fresh_build : UpsertClient :=
  mkUpsertClient "Solo" true (Some "1.21") None None None None None (Some true)
    [mkLocaleInput "ru" "Odin" None None; mkLocaleInput "en" "One" None None] false false.

Lemma create_then_get_witness :
  let r := exec (create_client default_config fresh_build) (calm_oracle 50) launcher_home in
  r.2 = Ok (1001%N, "Solo") ∧
  ∃ d, exec (get_client (H := hex_text) (H0 := toy_parser) (hyphenated (UuidParser := toy_parser) 1001) russian)
         (calm_oracle 60) r.1 = (r.1, Ok d) ∧ cd_title d = "Odin" ∧ cd_bundle_slug d = Some "Solo".
Proof.
  split; [vm_compute; reflexivity|].
  destruct (create_then_get (H := ascii_lowercase) (H0 := hex_text) (H1 := toy_parser) default_config fresh_build russian
    (calm_oracle 50) (calm_oracle 60) launcher_home
    (exec (create_client default_config fresh_build) (calm_oracle 50) launcher_home).1 1001 "Solo")
    as (r & n & x & _ & _ & _ & _ & _ & V).
  - vm_compute. reflexivity.
  - apply schema_okb_sound. vm_compute. reflexivity.
  - exact default_joinable.
  - intros i. reflexivity.
  - destruct (V eq_refl) as (d & E & _ & _ & _ & B & _ & _ & _ & _ & L). exists d. split_and!; [exact E| |exact B].
    clear -L. apply (L [] _ _ eq_refl); [reflexivity|].
    cbn [map li_locale]. rewrite list_elem_of_singleton. discriminate.
Defined.

(** Client 20 shares its bundle with client 23, which is left without one. *)
Definition shared_home : AppState :=
  with_content (set_catalog_clients (<[23%N := build "fork" (Some 1%N) 3 (Some 5%Z)]> (catalog_clients launcher)) launcher)
    launcher_home.

Lemma delete_client_exact_witness :
  let r := exec (delete_client (H := hex_text) default_config 20) (calm_oracle 50) shared_home in
  r.2 = Ok () ∧ deleted (H := hex_text) default_config 20 (Some (1%N, "pack")) shared_home r.1 ∧
  option_map cc_bundle_id (catalog_clients (registry r.1) !! 23%N) = Some None ∧
  bundles (registry r.1) !! 1%N = None ∧
  size (st_files r.1) = 1 ∧ is_dir (st_tree r.1) pack_files = false.
Proof.
  assert (S : content_ok (registry shared_home)) by (apply content_okb_sound; vm_compute; reflexivity).
  destruct (delete_client_exact (H := hex_text) default_config 20 50 (calm_oracle 50) shared_home _ _
    (surjective_pairing _) (calm_oracle_calm 50) S) as [E D].
  split_and!; [exact E|exact D|vm_compute; reflexivity..].
Defined.
