(* ===== verification/CatalogMedia.v ===== *)
(** * Catalog images on disk

    An image is stored below its client's directory, under a name that its URL names; the
    delivery route answers for stored files of the addressed client only, and no row is left
    without its file. *)

From S2P Require Import Prelude RustStr Errors YggUuid Png Models Table Content Schema Prog Auth Files Invariant.
From S2P Require Import Identity BundlePaths BundleTree BundleRepo BundleProps.
From S2P Require Import CatalogRepo CatalogReads CatalogAdmin CatalogSchema CatalogProps.
From S2P Require Textures.

Import Textures (UuidParser, toy_parser).

(** ** Paths *)

Lemma str_split_mid c a b : str_split c (a +:+ String c b) = str_split c a ++ str_split c b.
Proof.
  induction a as [|d a IH]; simpl.
  - by rewrite Ascii.eqb_refl.
  - simpl in IH. rewrite IH. destruct (Ascii.eqb c d); [done|].
    destruct (str_split_cons c a) as (p & ps & E). by rewrite E.
Qed.

Lemma str_find_after needle a s : str_find needle s = true → str_find needle (a +:+ s) = true.
Proof. intros H. induction a as [|c a IH]; [done|]. rewrite str_app_cons. cbn [str_find]. by rewrite IH, orb_true_r. Qed.

(** Nothing that starts with [d] occurs where [d] does not. *)
Lemma str_find_lacking d n a b :
  lacks d a → str_find (String d n) (a +:+ b) = str_find (String d n) b.
Proof.
  induction a as [|c a IH]; intros L; [done|]. apply lacks_cons in L as [Hne L].
  rewrite str_app_cons. cbn [str_find]. rewrite IH by done. unfold starts_with. cbn [strip_prefix].
  by rewrite (proj2 (Ascii.eqb_neq d c)).
Qed.

Lemma starts_slash_eq c s : starts_with (String slash "") (String c s) = Ascii.eqb slash c.
Proof. unfold starts_with. cbn [strip_prefix]. by destruct (Ascii.eqb slash c). Qed.

(** The part of a path that is its own. *)
Definition steps (path : string) : list Component := omap component (str_split slash path).

Lemma canonical_steps path :
  canonical path = (if starts_with "/" path then [RootDir] else []) ++ steps path.
Proof.
  unfold canonical, components, steps, slash.
  assert (F : ∀ l, List.filter (λ c, negb (bool_decide (c = CurDir))) (omap component l) = omap component l).
  { intros l. induction l as [|p l IH]; [done|]. cbn [omap list_omap].
    destruct (component p) as [c|] eqn:E; [|done]. apply component_spec in E as (_ & _ & ->).
    cbn [List.filter]. rewrite IH. by destruct (p =? "..")%string. }
  rewrite List.filter_app, F. f_equal. by repeat case_match.
Qed.

Lemma path_join_cases a b : starts_with "/" b = false →
  path_join a b = b ∧ a = "" ∨ (∃ a', a = a' +:+ "/" ∧ path_join a b = a' +:+ String slash b) ∨
  path_join a b = a +:+ String slash b ∧ a ≠ "".
Proof.
  intros Hb. unfold path_join. rewrite Hb. destruct (String.eqb_spec a "") as [->|Ha]; [by left|right].
  destruct (starts_with "/" (str_rev a)) eqn:E; [left|by right].
  apply starts_slash in E as (r & E). exists (str_rev r).
  assert (Ea : a = str_rev r +:+ "/") by (rewrite <- (str_rev_involutive a), E; done).
  split; [done|]. by rewrite Ea, <- str_app_assoc.
Qed.

(** Joining appends. *)
Lemma canonical_join a b : starts_with "/" b = false → canonical (path_join a b) = canonical a ++ steps b.
Proof.
  intros Hb. rewrite !canonical_steps. destruct (path_join_cases a b Hb) as [[-> ->]|[(a' & -> & ->)|[-> Ha]]].
  - by rewrite Hb.
  - unfold steps. rewrite str_split_mid, omap_app, app_assoc. f_equal.
    change "/" with (String slash ""). rewrite str_split_mid, omap_app. cbn. rewrite app_nil_r.
    f_equal. f_equal. destruct a' as [|c a']; [done|]. by rewrite !str_app_cons, !starts_slash_eq.
  - unfold steps. rewrite str_split_mid, omap_app, app_assoc. do 2 f_equal.
    by rewrite starts_with_app_slash.
Qed.

Lemma path_join_join root a b :
  a ≠ "" → starts_with "/" a = false → starts_with "/" (str_rev a) = false → starts_with "/" b = false →
  path_join root (a +:+ "/" +:+ b) = path_join (path_join root a) b.
Proof.
  intros Ha Hs Hr Hb.
  assert (E : ∀ x, starts_with "/" (str_rev (x +:+ a)) = false).
  { intros x. rewrite str_rev_app, starts_with_app_slash; [done|by apply rev_not_empty]. }
  assert (N : ∀ x, x +:+ a ≠ "") by (intros [|c x]; done).
  assert (J : ∀ x, path_join (x +:+ a) b = (x +:+ a) +:+ "/" +:+ b).
  { intros x. unfold path_join. by rewrite Hb, (proj2 (String.eqb_neq _ _) (N x)), E. }
  unfold path_join at 1 3. rewrite starts_with_app_slash, Hs by done.
  destruct (root =? "")%string; [by rewrite <- (str_app_nil a), J|].
  destruct (starts_with "/" (str_rev root)); rewrite ?str_app_assoc, J; by rewrite ?str_app_assoc.
Qed.

Lemma path_join_ends a b : ∃ p, path_join a b = p +:+ b.
Proof.
  destruct (starts_with "/" b) eqn:Hb; [exists ""; unfold path_join; by rewrite Hb|]. destruct (path_join_cases a b Hb) as [[-> _]|[(a' & _ & ->)|[-> _]]].
  - by exists "".
  - exists (a' +:+ "/"). by rewrite <- str_app_assoc.
  - exists (a +:+ "/"). by rewrite <- str_app_assoc.
Qed.

(** ** Names of images *)

Definition hexed (s : string) : Prop := str_forall is_ascii_hexdigit s = true.

Lemma hexed_lacks c s : is_ascii_hexdigit c = false → hexed s → lacks c s.
Proof.
  intros Hc H. unfold lacks, str_contains. apply negb_false_iff. eapply str_forall_impl; [|exact H].
  intros d Hd. apply negb_true_iff, Ascii.eqb_neq. congruence.
Qed.

Lemma inert_of_lacks s : s ≠ "" → lacks "." s → lacks slash s → inert s.
Proof. intros H1 H2 H3. split_and!; [done| | |done]; by intros ->. Qed.

Lemma simple_hexed `{UuidText} u : hexed (simple u) ∧ simple u ≠ "".
Proof.
  destruct (simple_canonical u) as [E _]. unfold is_uuid_undashed in E.
  apply andb_true_iff in E as [L F]. split; [done|]. by destruct (simple u).
Qed.

Lemma simple_inert `{UuidText} u : inert (simple u) ∧ lacks "." (simple u).
Proof.
  destruct (simple_hexed u) as [F N]. assert (lacks "." (simple u)) by (by apply hexed_lacks).
  split; [|done]. apply inert_of_lacks; [done..|]. by apply hexed_lacks.
Qed.

Definition media_name (role revision ext : string) : string := role +:+ "-" +:+ revision +:+ "." +:+ ext.

(** The four image types. *)
Definition image_kinds : list (string * string) :=
  [("png", "image/png"); ("jpg", "image/jpeg"); ("webp", "image/webp"); ("gif", "image/gif")].

Lemma sniff_kind bytes kind : sniff_image bytes = Some kind → kind ∈ image_kinds.
Proof.
  unfold sniff_image. intros E. unfold image_kinds. rewrite !elem_of_cons.
  repeat case_match; simplify_eq; auto.
Qed.

Record well_named (name : string) : Prop := {
  wn_inert : inert name;
  wn_dots : str_find ".." name = false;
  wn_file : ∀ p, names_directory (p +:+ name) = false
}.

Lemma media_name_ok role revision kind :
  role ∈ MEDIA_ROLES → hexed revision → kind ∈ image_kinds →
  well_named (media_name role revision kind.1) ∧
  media_type_for (media_name role revision kind.1) = kind.2.
Proof.
  intros Hr Hv Hk. set (stem := role +:+ "-" +:+ revision).
  assert (En : media_name role revision kind.1 = stem +:+ String "." kind.1)
    by (unfold media_name, stem; by rewrite <- !str_app_assoc).
  assert (L : ∀ c, lacks c (role +:+ "-") → is_ascii_hexdigit c = false → lacks c stem).
  { intros c H1 H2. unfold stem. rewrite str_app_assoc. apply lacks_app. by split; [|apply hexed_lacks]. }
  assert (R : lacks "." (role +:+ "-") ∧ lacks slash (role +:+ "-") ∧ stem ≠ "").
  { unfold stem, MEDIA_ROLES in *. rewrite !elem_of_cons in Hr.
    by destruct Hr as [->|[->|[->|[->|?%not_elem_of_nil]]]]. }
  destruct R as (R1 & R2 & R3). apply L in R1; [|done]. apply L in R2; [|done]. rewrite En. clear En L.
  assert (K : lacks "." kind.1 ∧ lacks slash kind.1 ∧ str_find ".." (String "." kind.1) = false ∧
    (∀ s, names_directory (s +:+ kind.1) = false) ∧ to_ascii_lowercase kind.1 = kind.1 ∧
    ∀ s, to_ascii_lowercase (List.last (str_split "." s) "") = kind.1 → media_type_for s = kind.2).
  { unfold image_kinds in Hk. rewrite !elem_of_cons in Hk.
    destruct Hk as [->|[->|[->|[->|?%not_elem_of_nil]]]]; [..|done];
      (split_and!; [done..| |done|]; [intros s; unfold names_directory; by rewrite str_rev_app|]);
      intros s E; unfold media_type_for; by rewrite E. }
  destruct K as (K1 & K2 & K3 & K4 & K5 & K6). split; [split|].
  - split_and!.
    + by destruct stem.
    + intros E. apply R3. destruct stem as [|c [|d s]]; [done|injection E as ->; by apply lacks_cons in R1 as []|done].
    + intros E. destruct stem as [|c s]; [done|]. injection E as -> _. by apply lacks_cons in R1 as [].
    + apply lacks_app. split; [done|]. apply lacks_cons. by split.
  - by rewrite str_find_lacking.
  - intros p. rewrite str_app_assoc. change (String "." kind.1) with ("." +:+ kind.1).
    rewrite str_app_assoc. apply K4.
  - apply K6. rewrite str_split_app by done. rewrite str_split_lacking by done. exact K5.
Qed.

(** ** Delivery *)

(** A stored file has one name. *)
Definition one_name (m : Files) : Prop :=
  ∀ p q, is_Some (m !! p) → is_Some (m !! q) → canonical p = canonical q → p = q.

Lemma wp_canonicalize T path st (Q : AppState → AppResult (list Component) → Prop) :
  Q st (Err (NotFound "media not found")) →
  ((∃ f b, st_files st !! f = Some b ∧ is_there path f = true) → Q st (Ok (canonical path))) →
  wp (canonicalize_media path) T st Q.
Proof.
  intros HE HO. apply wp_on_files. intros t _. cbn [fst snd]. rewrite set_files_same.
  destruct (t_fault t); [done|]. cbn [negb andb]. destruct (existsb _ _) eqn:E; [|done].
  apply existsb_exists in E as ([f b] & Hf & E). apply HO. exists f, b. split; [|done].
  by apply elem_of_map_to_list, list_elem_of_In.
Qed.

Lemma wp_canonicalize_found path f b st (Q : AppState → AppResult (list Component) → Prop) :
  st_files st !! f = Some b → is_there path f = true → Q st (Ok (canonical path)) →
  wp (canonicalize_media path) no_fault st Q.
Proof.
  intros Hf It HO. apply wp_on_files. intros t F. cbn [fst snd]. rewrite set_files_same, F. cbn [negb andb].
  replace (existsb _ _) with true; [done|]. symmetry. apply existsb_exists. exists (f, b). split; [|done].
  by apply list_elem_of_In, elem_of_map_to_list.
Qed.

Lemma wp_read_media T path st (Q : AppState → AppResult (list Z) → Prop) :
  Q st (Err (NotFound "media not found")) →
  (∀ f b, st_files st !! f = Some b → canonical f = path → Q st (Ok b)) →
  wp (read_media path) T st Q.
Proof.
  intros HE HO. apply wp_on_files. intros t _. cbn [fst snd]. rewrite set_files_same.
  destruct (List.find _ _) as [[f b]|] eqn:E; [|done]. destruct (t_fault t); [done|].
  apply List.find_some in E as [Hf E%bool_decide_eq_true]. eapply HO; [|exact E].
  by apply elem_of_map_to_list, list_elem_of_In.
Qed.

Lemma wp_read_media_found path f b st (Q : AppState → AppResult (list Z) → Prop) :
  one_name (st_files st) → st_files st !! f = Some b → canonical f = path → Q st (Ok b) →
  wp (read_media path) no_fault st Q.
Proof.
  intros U Hf <- HO. apply wp_on_files. intros t F. cbn [fst snd]. rewrite set_files_same.
  destruct (List.find _ _) as [[g b']|] eqn:E.
  - apply List.find_some in E as [Hg E%bool_decide_eq_true].
    apply list_elem_of_In, elem_of_map_to_list in Hg. cbn [fst] in E.
    assert (g = f) as -> by (apply U; [by eexists..|done]).
    rewrite F. cbn [snd]. congruence.
  - pose proof (List.find_none _ _ E (f, b)) as N. cbn in N. rewrite bool_decide_true in N by done.
    discriminate N. by apply list_elem_of_In, elem_of_map_to_list.
Qed.

Lemma inert_steps p : inert p → steps p = [Normal p].
Proof.
  intros I. unfold steps. rewrite str_split_lacking by apply I. cbn. by rewrite inert_component.
Qed.

(** What is stored under a well-formed name is found. *)
Lemma wp_serve_media cfg client name bytes st (Q : AppState → AppResult (string * list Z) → Prop) :
  inert client → lacks "." client → well_named name → one_name (st_files st) →
  st_files st !! path_join (path_join (catalog_root cfg) client) name = Some bytes →
  Q st (Ok (media_type_for name, bytes)) → wp (serve_media cfg client name) no_fault st Q.
Proof.
  intros I L N U Hf HO. unfold serve_media.
  assert (Ec : str_contains "/" client = false) by apply I.
  assert (Ed : str_find ".." client = false).
  { rewrite <- (str_app_nil_r client). by rewrite str_find_lacking. }
  rewrite (proj2 (String.eqb_neq client "")), Ec, Ed by apply I. cbn [orb].
  rewrite (proj2 (String.eqb_neq name "")), wn_dots by first [done|apply N]. cbn [orb].
  pose proof (inert_no_slash _ (wn_inert _ N)) as Hn.
  set (root := path_join (catalog_root cfg) client) in *.
  assert (Ej : canonical (path_join root name) = canonical root ++ [Normal name])
    by (by rewrite canonical_join, inert_steps by first [done|apply N]).
  assert (P : bool_decide (canonical root `prefix_of` canonical (path_join root name)) = true)
    by (apply bool_decide_true; rewrite Ej; by eexists).
  apply wp_bind_ok. eapply wp_canonicalize_found; [exact Hf| |].
  { unfold is_there. rewrite P. cbn [andb]. rewrite (bool_decide_false (canonical root = _)); [by rewrite andb_false_r|].
    rewrite Ej. intros E. rewrite <- (app_nil_r (canonical root)) in E at 1. by apply app_inv_head in E. }
  apply wp_bind_ok. eapply wp_canonicalize_found; [exact Hf| |].
  { unfold is_there. rewrite !bool_decide_true by done. cbn [andb]. apply negb_true_iff, andb_false_iff. left.
    destruct (path_join_ends root name) as [p ->]. by apply N. }
  rewrite P. apply wp_bind_ok. eapply wp_read_media_found; [done|exact Hf|done|]. by apply wp_ret.
Qed.

(** ** Upload *)

Lemma wp_content_case {B} T st (f : Tick → Content → SqlResult (Content * B)) (Q : AppState → AppResult B → Prop) :
  (∀ t, T t → t_fault t = true → Q st (Err (Database Io))) →
  (∀ t, T t → match f t (registry st) with
              | Ok (c, b) => Q (with_content c st) (Ok b)
              | Err e => Q st (Err (Database e))
              end) →
  wp (on_content f) T st Q.
Proof.
  intros HE HO. apply wp_sql_app. intros t Ht. specialize (HO t Ht). unfold registry in HO.
  destruct (t_fault t) eqn:F; [by eapply HE|]. by destruct (f t (content (st_db st))) as [[c b]|e].
Qed.

Section Upload.
Context `{UuidText} `{Primitives} (cfg : Config).

Definition resolves (url : string) : option string := url_to_disk_path (catalog_root cfg) url.

Definition slot_cleared (client_id : Uuid) (role : string) (m : gmap Uuid CatalogMedia) : gmap Uuid CatalogMedia :=
  if existsb (String.eqb role) SINGULAR_ROLES then delete_where (in_slot client_id role) m else m.

(** The files of the images that an upload replaces. *)
Definition slot_file (client_id : Uuid) (role : string) (c : Content) (p : string) : Prop :=
  existsb (String.eqb role) SINGULAR_ROLES = true ∧ ∃ k r, catalog_media c !! k = Some r ∧ in_slot client_id role k r = true ∧ resolves (cm_url r) = Some p.

Lemma wp_unlink_urls T urls st (Q : AppState → unit → Prop) :
  (∀ m, (∀ p, (∀ u, u ∈ urls → resolves u ≠ Some p) → m !! p = st_files st !! p) → Q (set_files m st) ()) →
  wp (unlink_urls cfg urls) T st Q.
Proof.
  revert st. induction urls as [|u urls IH]; intros st HQ; cbn [unlink_urls].
  - apply wp_ret. rewrite <- (set_files_same st). by apply HQ.
  - fold (resolves u). destruct (resolves u) as [path|] eqn:E; apply wp_bind.
    + apply wp_on_files. intros t _. apply IH. cbn [st_files set_files]. intros m Hm. apply HQ. intros p Hp.
      rewrite Hm by (intros v Hv; apply Hp; by right).
      assert (path ≠ p) by (intros <-; apply (Hp u); [by left|done]).
      destruct (t_fault t); [done|]. cbn [fst]. by rewrite lookup_delete_ne.
    + apply wp_ret, IH. intros m Hm. apply HQ. intros p Hp. apply Hm. intros v Hv. apply Hp. by right.
Qed.

Lemma wp_store_media T client_id role mk st (Q : AppState → AppResult Uuid → Prop) :
  is_Some (catalog_clients (registry st) !! client_id) → role ∈ MEDIA_ROLES →
  (∀ now, cm_client_id (mk now) = client_id ∧ cm_role (mk now) = role) →
  ((∃ t, T t ∧ (t_fault t = true ∨ is_Some (catalog_media (registry st) !! t_uuid t))) →
     ∀ st' e, Q st' (Err e)) →
  (∀ t now m, T t → (∀ p, ¬ slot_file client_id role (registry st) p → m !! p = st_files st !! p) →
     Q (set_files m (with_content (set_catalog_media
          (<[t_uuid t := mk now]> (slot_cleared client_id role (catalog_media (registry st)))) (registry st)) st))
       (Ok (t_uuid t))) →
  wp (store_media cfg client_id role mk) T st Q.
Proof.
  intros Hc Hr Hm HB HO. apply wp_transaction. intros t0 Ht0.
  destruct (t_fault t0) eqn:F0; [apply HB; eauto|]. unfold store_media.
  set (T' := λ t, ∃ t1, T t1 ∧ t = pin t0 t1).
  assert (L : ∀ m, (∀ p, ¬ slot_file client_id role (registry st) p → m !! p = st_files st !! p) →
    wp (on_content (insert_media_now mk)) T'
      (set_files m (with_content (set_catalog_media (slot_cleared client_id role (catalog_media (registry st)))
         (registry st)) st)) (λ st' r,
      match r with
      | Ok b => ∀ t1, T t1 → if t_fault t1 then Q (rollback st st') (Err (Database Io)) else Q st' (Ok b)
      | Err e => Q (rollback st st') (Err e)
      end)).
  { intros m Em. apply wp_content_case.
    - intros t (t1 & H1 & ->) F. apply HB. exists t1. split; [done|]. by left.
    - intros t (t1 & H1 & ->). change (registry (set_files m ?s)) with (registry s). rewrite registry_with.
      unfold insert_media_now, insert_media. destruct (Hm (t_db (pin t0 t1))) as [-> ->].
      rewrite bool_decide_true by done. cbn [negb catalog_clients set_catalog_media].
      rewrite (proj2 (fk_ok _ _ _) Hc). cbn [and_then].
      destruct (insert_row _ _ _ _ _) as [m'|e] eqn:E; cbn [and_then].
      + apply insert_row_ok in E as (_ & -> & _). intros t2 H2.
        destruct (t_fault t2) eqn:F2; [apply HB; eauto|]. by apply (HO t1).
      + apply HB. exists t1. split; [done|]. right. unfold insert_row in E. cbn in E.
        change (t_uuid (pin t0 t1)) with (t_uuid t1) in E.
        destruct (slot_cleared _ _ _ !! t_uuid t1) as [r|] eqn:L; [|done].
        unfold slot_cleared in L. destruct (existsb _ _); [apply lookup_delete_where_Some in L as [L _]|]; by eexists. }
  unfold slot_cleared in L. destruct (existsb _ _) eqn:Sg.
  - apply wp_bind_ok, wp_bind_ok, wp_content_case.
    { intros t (t1 & H1 & ->) F. apply HB. exists t1. split; [done|]. by left. }
    intros t _. cbn [delete_media_where fst snd]. apply wp_bind, wp_unlink_urls. intros m Em. apply wp_ret, L.
    intros p Hp. apply Em. intros u Hu Eu. apply Hp. apply list_elem_of_fmap in Hu as ([k r] & -> & Hu).
    apply elem_of_select_rows in Hu as [H1 H2].
    split; [done|]. by exists k, r.
  - apply wp_bind_ok, wp_ret. specialize (L (st_files st) (λ _ _, eq_refl)).
    assert (E : set_catalog_media (catalog_media (registry st)) (registry st) = registry st) by by destruct (registry st).
    by rewrite E, with_registry, set_files_same in L.
Qed.

(** A successful upload: its image type, what the role's slot held is gone, and of the other
    files all are left. *)
Definition uploaded (client_id : Uuid) (fields : list Field) (t t' : Tick) (st st' : AppState) (url : string) : Prop :=
  ∃ bytes role kind now m,
    read_capped_upload MAX_MEDIA_UPLOAD_BYTES "role" fields = Ok (Some bytes, Some role) ∧
    role ∈ MEDIA_ROLES ∧ sniff_image bytes = Some kind ∧
    let revision := hex_encode (t_random t) in
    url = media_url (simple client_id) role revision kind.1 ∧
    (∀ p, ¬ slot_file client_id role (registry st) p →
       m !! p = <[media_path (catalog_root cfg) (simple client_id) role revision kind.1 := bytes]> (st_files st) !! p) ∧
    st' = set_files m (with_content (set_catalog_media
      (<[t_uuid t' := media_row client_id role url kind (png_dimensions bytes) (as_i32 (Z.of_nat (length bytes))) now]>
         (slot_cleared client_id role (catalog_media (registry st)))) (registry st)) st).

Lemma wp_upload_media T client_id fields st (Q : AppState → AppResult (Uuid * string) → Prop) :
  (∀ e, Q st (Err e)) →
  ((∃ t, T t ∧ (t_fault t = true ∨ is_Some (catalog_media (registry st) !! t_uuid t))) →
     ∀ st' e, Q st' (Err e)) →
  (∀ t t' st' url, T t → T t' → uploaded client_id fields t t' st st' url → Q st' (Ok (t_uuid t', url))) →
  wp (upload_media cfg client_id fields) T st Q.
Proof.
  intros HE HB HO. unfold upload_media. apply wp_bind_ok, wp_bind_ok, wp_look; [done|].
  destruct (is_row client_id _) eqn:R; [|by apply wp_ret]. apply is_row_true in R.
  apply wp_ret, wp_bind_ok, wp_ret.
  destruct (read_capped_upload _ _ _) as [[file role]|e] eqn:F; [|done].
  apply wp_bind_ok, wp_ret. destruct role as [role|]; cbn [ok_or]; [|done].
  case_bool_decide as Hr; cbn [negb]; [|by apply wp_ret].
  apply wp_bind_ok, wp_ret. destruct file as [bytes|]; cbn [ok_or]; [|done].
  apply wp_bind_ok, wp_ret. destruct (sniff_image bytes) as [kind|] eqn:K; cbn [ok_or]; [|done].
  apply wp_bind. intros t Ht. cbn [fst snd]. apply wp_bind, wp_on_files. intros t1 H1.
  destruct (t_fault t1) eqn:F1; cbn [fst snd]; [apply wp_ret, HB; eauto|].
  apply wp_bind_ok, wp_store_media; [done|done|by intros now; split|exact HB|]. cbn [st_files set_files].
  intros t' now m H' Hm. apply wp_ret, (HO t); [done|done|]. exists bytes, role, kind, now, m. by split_and!.
Qed.
End Upload.

(** ** Requests that leave the images alone *)

Definition same_media : relation AppState := λ st st',
  catalog_media (registry st') = catalog_media (registry st) ∧ st_files st' = st_files st.

#[export] Instance same_media_preorder : PreOrder same_media.
Proof. split; [by split|]. intros a b c [H1 H2] [H3 H4]. split; congruence. Qed.

#[export] Instance same_media_rollback : Rollback same_media.
Proof. intros st st' [_ H]. by split. Qed.

Definition keeps_images {B} (f : Tick → Content → SqlResult (Content * B)) : Prop :=
  ∀ t c c' b, f t c = Ok (c', b) → catalog_media c' = catalog_media c.

Section SameMedia.
Context `{UuidText} `{UuidParser} `{Primitives} `{FormUrlencoded} (cfg : Config).

Local Abbreviation same p := (prog_rel same_media p).

Lemma sql_same {B} (f : Tick → Db → SqlResult (Db * B)) :
  (∀ t db db' b, f t db = Ok (db', b) → catalog_media (content db') = catalog_media (content db)) → same (sql f).
Proof.
  intros Hf. split; [|done]. intros t st. destruct (t_fault t); [done|].
  destruct (f t (st_db st)) as [[db b]|e] eqn:E; [|done]. split; [by eapply Hf|done].
Qed.

Lemma on_content_or_same {B} conv (f : Tick → Content → SqlResult (Content * B)) :
  keeps_images f → same (on_content_or conv f).
Proof.
  intros Hf. apply prog_rel_bind; [|done]. apply sql_same. intros t db db' b E.
  apply and_then_ok in E as ([c b'] & E & [= <- <-]). by eapply Hf.
Qed.

Lemma on_content_same {B} (f : Tick → Content → SqlResult (Content * B)) :
  keeps_images f → same (on_content f).
Proof. by apply on_content_or_same. Qed.

Lemma look_same {B} (f : Content → B) : same (look f).
Proof.
  apply prog_rel_bind; [|done]. apply sql_same. by intros t db db' b [= <- _].
Qed.

Lemma on_tree_same {B} (f : Tick → Tree → Tree * B) : same (on_tree f).
Proof. split; [|done]. intros t st. by destruct (f t (st_tree st)). Qed.

Lemma canonicalize_same path : same (canonicalize_media path).
Proof. split; [|done]. intros t st. cbn. by rewrite set_files_same. Qed.

Lemma read_media_same path : same (read_media path).
Proof. split; [|done]. intros t st. cbn. by rewrite set_files_same. Qed.
Hint Resolve look_same on_tree_same canonicalize_same read_media_same : loon.

Create HintDb images.
#[local] Hint Unfold upsert_locale insert_client insert_bundle link_client update_client_row drop_other_locales
  publish_row insert_keyword upsert_keyword_locale insert_server update_server_row : images.

Ltac keeps_images_go := intros ? ? ? ? E; autounfold with images in E; cbn in E;
  repeat (match type of E with
          | and_then _ _ = _ => apply and_then_ok in E as (? & _ & E)
          | match ?x with _ => _ end = _ => destruct x
          end; cbn in E); by simplify_eq.

Ltac same_go :=
  repeat first [solve [auto with loon nocore] | unfold ignore at 1; apply prog_rel_bind; [|done] | prog_rel_step
               | apply on_content_or_same; keeps_images_go | apply on_content_same; keeps_images_go].

Lemma client_locales_same id ls : same (write_client_locales id ls).
Proof. induction ls; cbn [write_client_locales]; same_go. Qed.

Lemma keyword_locales_same id ls : same (write_keyword_locales id ls).
Proof. induction ls; cbn [write_keyword_locales]; same_go. Qed.
Hint Resolve client_locales_same keyword_locales_same : loon.

Definition moves_media (r : CatalogRequest) : bool :=
  match r with CUploadMedia _ _ | CDeleteMedia _ _ | CDeleteClient _ => true | _ => false end.

Lemma serve_catalog_same r : moves_media r = false → same (serve_catalog cfg r).
Proof.
  destruct r as [| | | | | | | | |?|?|[]| | | | | | | | | | | |]; intros M; try discriminate M; cbn [serve_catalog];
    unfold list_clients, list_clients_admin, load_all, get_client, load_client, list_keywords,
      get_keyword, load_keyword, list_servers, get_server, load_server, load_client_relations, load_bundles,
      load_keyword_titles, serve_media, create_client, update_client, update_tx, linked_bundle,
      resolve_owned_bundle_slug, link_owned_bundle, provision_bundle_row, find_bundle_id_by_slug,
      strand_old_bundle, bundle_slug_by_id, count_artifacts, ensure_bundle_dir,
      remove_bundle_dir, fs_call, fs_quiet, delete_bundle_row, set_published, list_media, require_client, create_keyword,
      delete_keyword, create_server, update_server, delete_server, attach_keyword, attach_server,
      detach_keyword, detach_server; same_go.
Qed.
End SameMedia.

(** ** No row without its file *)

Section Backed.
Context `{UuidText} `{UuidParser} `{Primitives} `{FormUrlencoded} (cfg : Config).

(** The file that the URL of an image names is there, below its client's directory, and no
    two images share one. *)
Definition media_backed (st : AppState) : Prop :=
  (∀ k r, catalog_media (registry st) !! k = Some r → ∃ p,
     resolves cfg (cm_url r) = Some p ∧ is_Some (st_files st !! p) ∧
     starts_with (media_dir cfg (cm_client_id r) +:+ "/") p = true) ∧
  (∀ k k' r r', catalog_media (registry st) !! k = Some r → catalog_media (registry st) !! k' = Some r' →
     resolves cfg (cm_url r) = resolves cfg (cm_url r') → k = k').

Lemma same_media_backed st st' : same_media st st' → media_backed st → media_backed st'.
Proof. intros [E1 E2] B. unfold media_backed. by rewrite E1, E2. Qed.

(** Hexadecimal digits are written as such. *)
Definition hex_plain : Prop := ∀ s, hexed (hex_encode s).

Lemma media_dir_path id role revision ext :
  starts_with "/" (media_name role revision ext) = false →
  media_path (catalog_root cfg) (simple id) role revision ext
  = media_dir cfg id +:+ "/" +:+ media_name role revision ext.
Proof.
  intros Hn. unfold media_path, media_dir. fold (media_name role revision ext).
  destruct (simple_inert id) as [I _]. destruct (path_join_ends (catalog_root cfg) (simple id)) as [p ->].
  assert (E : starts_with "/" (str_rev (p +:+ simple id)) = false).
  { rewrite str_rev_app, starts_with_app_slash; [by apply inert_end|apply rev_not_empty, I]. }
  unfold path_join. rewrite Hn, E. destruct (String.eqb_spec (p +:+ simple id) "") as [E0|]; [|done].
  destruct p; [|done]. by destruct (simple id) eqn:Es; [destruct I|].
Qed.

Lemma resolves_media id role revision ext :
  well_named (media_name role revision ext) →
  resolves cfg (media_url (simple id) role revision ext)
  = Some (media_path (catalog_root cfg) (simple id) role revision ext).
Proof.
  intros N. unfold resolves, url_to_disk_path, media_url, media_path.
  fold (media_name role revision ext). destruct (simple_inert id) as [I L].
  change (strip_prefix "/catalog-media/" ("/catalog-media/" +:+ simple id +:+ "/" +:+ media_name role revision ext))
    with (Some (simple id +:+ "/" +:+ media_name role revision ext)). cbv iota beta.
  rewrite str_find_lacking by done. change ("/" +:+ media_name role revision ext) with (String slash (media_name role revision ext)).
  assert (E : str_find ".." (String slash (media_name role revision ext)) = false).
  { change (String slash ?s) with ("/" +:+ s). rewrite str_find_lacking by done. apply N. }
  rewrite E. destruct (String.eqb_spec (simple id +:+ String slash (media_name role revision ext)) "") as [E0|_].
  { by destruct (simple id). }
  f_equal. apply (path_join_join _ (simple id) (media_name role revision ext)).
  - apply I.
  - by apply inert_no_slash.
  - by apply inert_end.
  - apply inert_no_slash, N.
Qed.

(** C29. What is uploaded is what is served. When an upload succeeds, the answered URL addresses
    the new image: its row is there under the answered id, alone in its slot for a role that
    keeps one image, and the delivery route then answers with the uploaded bytes and the type
    that was recognised in them. (The drawn name is not one that another row's URL
    resolves to, a file has one name, and the reads do not fail.) *)
Theorem upload_then_serve client_id fields o o' st st' id url :
  exec (upload_media cfg client_id fields) o st = (st', Ok (id, url)) →
  hex_plain → one_name (st_files st') → (∀ i, no_fault (o' i)) →
  (∀ k r, catalog_media (registry st) !! k = Some r → resolves cfg (cm_url r) ≠ resolves cfg url) →
  ∃ name bytes role kind r,
    url = "/catalog-media/" +:+ simple client_id +:+ "/" +:+ name ∧
    read_capped_upload MAX_MEDIA_UPLOAD_BYTES "role" fields = Ok (Some bytes, Some role) ∧
    sniff_image bytes = Some kind ∧
    catalog_media (registry st') !! id = Some r ∧ cm_url r = url ∧ in_slot client_id role id r = true ∧
    (role ∈ SINGULAR_ROLES → ∀ k r', catalog_media (registry st') !! k = Some r' →
       in_slot client_id role k r' = true → k = id) ∧
    exec (serve_media cfg (simple client_id) name) o' st' = (st', Ok (kind.2, bytes)).
Proof.
  intros E HX U Ho' Fr.
  assert (W : ∃ t t', t_uuid t' = id ∧ uploaded cfg client_id fields t t' st st' url).
  { refine (wp_exec _ any_tick o st (λ st' r, ∀ i u, r = Ok (i, u) →
      ∃ t t', t_uuid t' = i ∧ uploaded cfg client_id fields t t' st st' u) st' _ (λ _, I) E _ id url eq_refl).
    apply wp_upload_media; [done|done|]. intros t t' s u _ _ L i v [= <- <-]. by exists t, t'. }
  destruct W as (t & t' & <- & bytes & role & kind & now & m & F & Hr & K & Eu & Hm & ->).
  destruct (media_name_ok role (hex_encode (t_random t)) kind Hr (HX _)) as [N Ty]; [by eapply sniff_kind|].
  set (name := media_name _ _ _) in *. destruct (simple_inert client_id) as [I L].
  exists name, bytes, role, kind. eexists. split; [exact Eu|]. split; [exact F|]. split; [exact K|].
  cbn [registry st_db set_files with_content set_db content set_content catalog_media set_catalog_media].
  split; [by rewrite lookup_insert_eq|]. split; [done|].
  split; [unfold in_slot; cbn; by rewrite N.eqb_refl, String.eqb_refl|]. split.
  - intros Sg k r' Hk Hs. destruct (decide (k = t_uuid t')) as [|Hne]; [done|exfalso].
    rewrite lookup_insert_ne in Hk by done. unfold slot_cleared in Hk.
    rewrite (proj2 (existsb_exists _ _)) in Hk by (exists role; split; [by apply list_elem_of_In|apply String.eqb_refl]).
    apply lookup_delete_where_Some in Hk as [_ Hk]. congruence.
  - set (st' := set_files _ _) in *. destruct (exec _ o' st') as [s r] eqn:Es.
    assert (Q : s = st' ∧ r = Ok (kind.2, bytes)); [|by destruct Q as [-> ->]].
    refine (wp_exec _ no_fault o' st' (λ s r, s = st' ∧ r = Ok (kind.2, bytes)) s r Ho' Es _).
    apply wp_serve_media with (bytes := bytes); [done..| |by rewrite Ty].
    change (m !! media_path (catalog_root cfg) (simple client_id) role (hex_encode (t_random t)) kind.1 = Some bytes).
    rewrite Hm, lookup_insert_eq; [done|]. intros (_ & k & r' & Hk & _ & Er). apply (Fr k r' Hk).
    rewrite Er, Eu. by rewrite resolves_media.
Qed.

Lemma backed_shrinks st st' :
  (∀ k r, catalog_media (registry st') !! k = Some r → catalog_media (registry st) !! k = Some r) →
  (∀ k r p, catalog_media (registry st') !! k = Some r → resolves cfg (cm_url r) = Some p →
     starts_with (media_dir cfg (cm_client_id r) +:+ "/") p = true →
     is_Some (st_files st !! p) → is_Some (st_files st' !! p)) →
  media_backed st → media_backed st'.
Proof.
  intros HR HF [B1 B2]. split; [|by eauto].
  intros k r Hk. destruct (B1 k r) as (p & E & F & D); [by apply HR|]. exists p. by eauto.
Qed.

Lemma wp_delete_media now client_id media_id st :
  media_backed st → wp (delete_media cfg client_id media_id) (calm now) st (λ st' _, media_backed st').
Proof.
  intros B. set (p := λ (k : Uuid) r, (k =? media_id)%N && (cm_client_id r =? client_id)%N).
  apply wp_bind_ok, (wp_content_calm st now (λ _ c,
    (set_catalog_media (delete_where p (catalog_media c)) c,
     map (λ r, cm_url (row r)) (select_rows p (catalog_media c))))). intros t. cbn [fst snd].
  set (st1 := with_content _ st). apply wp_bind_ok, wp_ret.
  assert (Sub : ∀ k r, catalog_media (registry st1) !! k = Some r →
    catalog_media (registry st) !! k = Some r ∧ p k r = false) by (intros k r; apply lookup_delete_where_Some).
  assert (B1 : media_backed st1) by (eapply backed_shrinks; [intros k r Hk; by apply Sub|done|done]).
  destruct (head _) as [u|] eqn:Hu; cbn [ok_or]; [|done]. fold (resolves cfg u).
  destruct (resolves cfg u) as [path|] eqn:Ep; [|by apply wp_bind, wp_ret, wp_ret].
  apply wp_bind, wp_unlink_quiet, wp_ret. apply (backed_shrinks st1); [done| |exact B1].
  intros k r f Hk Ef _ Hf. cbn [st_files set_files]. rewrite lookup_delete_ne; [done|]. intros <-.
  apply Sub in Hk as [Hk Hp].
  assert (M : u ∈ map (λ r, cm_url (row r)) (select_rows p (catalog_media (registry st)))).
  { destruct (map _ _); [done|]. injection Hu as ->. by left. }
  apply list_elem_of_fmap in M as ([k0 r0] & -> & M). apply elem_of_select_rows in M as [H0k H0p].
  cbn [key row] in *. assert (k = k0) as -> by (eapply (proj2 B); [done..|congruence]). congruence.
Qed.

Lemma starts_with_app_l a b s : starts_with (a +:+ b) s = true ↔ ∃ s', s = a +:+ s' ∧ starts_with b s' = true.
Proof.
  revert s. induction a as [|c a IH]; intros s.
  - rewrite str_app_nil. split; [intros E; by exists s|]. by intros (s' & -> & E).
  - rewrite str_app_cons. destruct s as [|d s]; [by split; [|intros (? & ? & _)]|].
    unfold starts_with in *. cbn [strip_prefix]. destruct (Ascii.eqb_spec c d) as [<-|Hne].
    + rewrite IH. split; intros (s' & E & F); exists s'; (split; [|exact F]).
      * by rewrite E.
      * by injection E.
    + split; [done|]. by intros (s' & [= E _] & _).
Qed.

Lemma str_app_inj_length a b x y : String.length a = String.length b → a +:+ x = b +:+ y → a = b.
Proof.
  revert b. induction a as [|c a IH]; intros [|d b] L E; try done.
  injection L as L. rewrite !str_app_cons in E. injection E as -> E. by rewrite (IH b L E).
Qed.

Lemma simple_length id : String.length (simple id) = 32.
Proof.
  destruct (simple_canonical id) as [E _]. unfold is_uuid_undashed in E.
  by apply andb_true_iff in E as [E%Nat.eqb_eq _].
Qed.

(** Directories of clients with different names have no file in common. *)
Lemma dirs_apart a b p :
  starts_with (media_dir cfg a +:+ "/") p = true → starts_with (media_dir cfg b +:+ "/") p = true →
  simple a = simple b.
Proof.
  intros Ha Hb. apply starts_with_app_l in Ha as (x & Ea & _). apply starts_with_app_l in Hb as (y & Eb & _).
  assert (R : ∃ r, ∀ id, media_dir cfg id = r +:+ simple id).
  { exists (if (catalog_root cfg =? "")%string then ""
            else if starts_with "/" (str_rev (catalog_root cfg)) then catalog_root cfg
            else catalog_root cfg +:+ "/").
    intros id. unfold media_dir, path_join. destruct (simple_inert id) as [I _].
    rewrite (inert_no_slash _ I). repeat case_match; rewrite <- ?str_app_assoc; done. }
  destruct R as [r R]. rewrite !R in *. subst p. apply str_app_inj_length in Eb.
  - by apply (inj (String.append r)) in Eb.
  - by rewrite !str_app_length, !simple_length.
Qed.

(** Neither the id nor the file of an upload is in use. *)
Definition fresh_upload (r : CatalogRequest) (c : Content) (t : Tick) : Prop :=
  match r with
  | CUploadMedia id _ =>
      catalog_media c !! t_uuid t = None ∧
      ∀ k r role ext, catalog_media c !! k = Some r →
        resolves cfg (cm_url r) ≠ Some (media_path (catalog_root cfg) (simple id) role (hex_encode (t_random t)) ext)
  | _ => True
  end.

Lemma uploaded_backed id fields t t' st st' url :
  hex_plain → fresh_upload (CUploadMedia id fields) (registry st) t → uploaded cfg id fields t t' st st' url →
  media_backed st → media_backed st'.
Proof.
  intros HX [_ Fr] (bytes & role & kind & now & m & _ & Hr & K & Eu & Hm & ->) [B1 B2].
  destruct (media_name_ok role (hex_encode (t_random t)) kind Hr (HX _)) as [N _]; [by eapply sniff_kind|].
  pose proof (resolves_media id _ _ _ N) as Er. rewrite <- Eu in Er.
  set (new := media_row _ _ _ _ _ _ _). set (path := media_path _ _ _ _ _) in *.
  assert (Keep : ∀ k r, slot_cleared id role (catalog_media (registry st)) !! k = Some r →
    catalog_media (registry st) !! k = Some r ∧
    (existsb (String.eqb role) SINGULAR_ROLES = true → in_slot id role k r = false)).
  { intros k r. unfold slot_cleared. destruct (existsb _ _); [|done]. by intros [Hk Hs]%lookup_delete_where_Some. }
  assert (Row : ∀ k r, (<[t_uuid t' := new]> (slot_cleared id role (catalog_media (registry st)))) !! k = Some r →
    k = t_uuid t' ∧ r = new ∨ slot_cleared id role (catalog_media (registry st)) !! k = Some r).
  { intros k r [[<- <-]|[_ Hk]]%lookup_insert_Some; [by left|by right]. }
  split.
  - intros k r [[-> ->]|[Hk Hs]%Keep]%Row.
    + exists path. split; [done|]. split.
      * cbn [st_files set_files]. rewrite Hm, lookup_insert_eq; [by eexists|].
        intros (_ & k & r & Hk & _ & E). by apply (Fr k r role kind.1 Hk).
      * unfold path. rewrite media_dir_path by apply inert_no_slash, N.
        apply starts_with_app_l. exists ("/" +:+ media_name role (hex_encode (t_random t)) kind.1). by split.
    + destruct (B1 k r Hk) as (p & E & F & D). exists p. split; [done|]. split; [|done].
      cbn [st_files set_files]. rewrite Hm.
      * rewrite lookup_insert_ne; [done|]. intros <-. by apply (Fr k r role kind.1 Hk).
      * intros (Sg & k' & r' & Hk' & Hs' & E'). assert (k = k') as <- by (eapply B2; [done..|congruence]).
        rewrite Hk in Hk'. injection Hk' as <-. by rewrite Hs in Hs'.
  - intros k k' r r' [[-> ->]|[Hk _]%Keep]%Row [[-> ->]|[Hk' _]%Keep]%Row E; [done|..].
    + change (cm_url new) with url in E. rewrite Er in E. by destruct (Fr k' r' role kind.1 Hk').
    + change (cm_url new) with url in E. rewrite Er in E. by destruct (Fr k r role kind.1 Hk).
    + by eapply B2.
Qed.

Definition prints_apart (c : Content) : Prop :=
  ∀ a b, is_Some (catalog_clients c !! a) → is_Some (catalog_clients c !! b) → simple a = simple b → a = b.

Lemma client_deleted_backed id own st st' :
  content_ok (registry st) → prints_apart (registry st) → is_Some (catalog_clients (registry st) !! id) →
  deleted cfg id own st st' → media_backed st → media_backed st'.
Proof.
  intros S PA Hid D. apply backed_shrinks.
  - intros k r Hk. by apply (de_media _ _ _ _ _ D) in Hk as [Hk _].
  - intros k r p [Hk Hne]%(de_media _ _ _ _ _ D) _ Hp Hf. rewrite (de_files _ _ _ _ _ D).
    destruct (starts_with (media_dir cfg id +:+ "/") p) eqn:E; [|done]. exfalso.
    apply Hne, PA; [|done|by eapply dirs_apart]. by apply (proj2 (ok_media _ S) _ _ Hk).
Qed.

(** C28. No image loses its file. When every image of the catalog has its file, below its own
    client's directory and shared with no other, then so it is after any request of the
    catalog that the database and the disk answer, uploads that replace an image and deletions
    of images and of whole clients included, provided an upload draws a name and an id that
    are not in use. *)
Theorem media_stays_backed r now o st st' res :
  exec (serve_catalog cfg r) o st = (st', res) → (∀ i, calm now (o i)) →
  content_ok (registry st) → prints_apart (registry st) → hex_plain →
  (∀ i, fresh_upload r (registry st) (o i)) → media_backed st → media_backed st'.
Proof.
  intros E Ho S PA HX Fr B. destruct (moves_media r) eqn:M.
  2: { apply (same_media_backed st); [|done]. unfold exec in E.
       destruct (run _ o 0 st) as [[n s] a] eqn:R. injection E as -> ->.
       refine (prog_rel_run _ _ o 0 st n st' _ (serve_catalog_same cfg r M) R). }
  destruct r as [| | | | | | | | | |id| | |client fields|client id| | | | | | | | |]; try discriminate M;
    cbn [serve_catalog] in E; rewrite exec_ignore in E; injection E as E.
  - pose proof (delete_client_run cfg id now o st _ _ (surjective_pairing _) Ho S) as D. rewrite E in D.
    destruct (catalog_clients (registry st) !! id) as [x|] eqn:Hx; [|by destruct D as [-> _]].
    destruct D as [_ D]. by eapply client_deleted_backed.
  - refine (wp_exec _ (λ t, calm now t ∧ fresh_upload (CUploadMedia client fields) (registry st) t) o st
      (λ s _, media_backed s) st' (exec (upload_media cfg client fields) o st).2 (λ i, conj (Ho i) (Fr i)) _ _).
    { by rewrite <- E, <- surjective_pairing. }
    apply wp_upload_media; [done| |].
    + intros (t & ((F & _) & N & _) & [Ft|[x Hx]]); [congruence|]. by rewrite N in Hx.
    + intros t t' s url [_ Ht] _ U. by eapply uploaded_backed.
  - refine (wp_exec _ (calm now) o st (λ s _, media_backed s) st' (exec (delete_media cfg client id) o st).2 Ho _ _).
    { by rewrite <- E, <- surjective_pairing. }
    by apply wp_delete_media.
Qed.
End Backed.

(** ** Two posters *)

Definition hex_digit (n : N) : ascii := ascii_of_N (if (n <? 10)%N then n + 48 else n + 87).

Fixpoint hex_bytes (s : string) : string :=
  match s with
  | "" => ""
  | String c s => String (hex_digit (N_of_ascii c / 16)) (String (hex_digit (N_of_ascii c mod 16)) (hex_bytes s))
  end.

(** Primitives whose [hex_encode] is the real one. *)
Definition hex_primitives : Primitives.
Proof. refine {| sha256 := λ s, s; hex_encode := hex_bytes; ct_eq := String.eqb |}. apply String.eqb_eq. Defined.

Lemma hex_bytes_plain : hex_plain (H1 := hex_primitives).
Proof.
  intros s. induction s as [|c s IH]; [done|]. unfold hexed in *. cbn.
  assert (D : is_ascii_hexdigit (hex_digit (N_of_ascii c / 16)) && is_ascii_hexdigit (hex_digit (N_of_ascii c mod 16)) = true).
  { apply (ascii_check (λ c, is_ascii_hexdigit (hex_digit (N_of_ascii c / 16))
      && is_ascii_hexdigit (hex_digit (N_of_ascii c mod 16)))). vm_compute. reflexivity. }
  apply andb_true_iff in D as [-> ->]. exact IH.
Qed.

Definition poster_of (id : Uuid) (revision : string) : CatalogMedia :=
  mkCatalogMedia id "poster" (media_url (simple (UuidText := hex_text) id) "poster" revision "gif")
    (Some "gif") (Some "image/gif") None None (Some 1%Z) 0 7.

Definition poster_path (id : Uuid) (revision : string) : string :=
  media_path "data/catalog-media" (simple (UuidText := hex_text) id) "poster" revision "gif".

Definition posters : AppState :=
  set_files {[poster_path 20 "aa" := [1%Z]; poster_path 22 "bb" := [2%Z]]}
    (with_content (set_catalog_media {[50%N := poster_of 20 "aa"; 51%N := poster_of 22 "bb"]} launcher) launcher_home).

Definition gif_bytes : list Z := [71; 73; 70; 56; 57]%Z.

Definition gif_fields : list Field :=
  [FieldOf (Some "role") [] (Ok " poster"); FieldOf (Some "file") [Bytes [71; 73; 70]%Z; Bytes [56; 57]%Z] (Err "")].

Definition poster_upload : AppState * AppResult (Uuid * string) :=
  exec (upload_media (H := hex_text) (H0 := hex_primitives) default_config 20 gif_fields) (random_oracle 60 "z") posters.

(** The poster of client 20 is replaced; what was stored as its file is gone. *)
Lemma upload_then_serve_witness :
  poster_upload.2 = Ok (1006%N, media_url (simple (UuidText := hex_text) 20) "poster" "7a" "gif") ∧
  st_files poster_upload.1 !! poster_path 20 "aa" = None ∧
  ∃ name, exec (serve_media default_config (simple (UuidText := hex_text) 20) name) (calm_oracle 70) poster_upload.1
    = (poster_upload.1, Ok ("image/gif", gif_bytes)).
Proof.
  split; [vm_compute; reflexivity|]. split; [vm_compute; reflexivity|].
  destruct (upload_then_serve (H := hex_text) (H1 := hex_primitives) default_config 20 gif_fields
    (random_oracle 60 "z") (calm_oracle 70) posters poster_upload.1 1006
    (media_url (simple (UuidText := hex_text) 20) "poster" "7a" "gif"))
    as (name & bytes & role & kind & r & _ & F & K & _ & _ & _ & _ & E).
  - vm_compute. reflexivity.
  - exact hex_bytes_plain.
  - assert (D : map_Forall (λ p _, map_Forall (λ q _, canonical p = canonical q → p = q) (st_files poster_upload.1))
      (st_files poster_upload.1)) by (apply (bool_decide_unpack _); vm_compute; exact I).
    intros p q [a Ha] [b Hb]. exact (D p a Ha q b Hb).
  - intros i. reflexivity.
  - apply (map_Forall_to_list (λ (_ : Uuid) r, resolves default_config (cm_url r) ≠ _)).
    apply (bool_decide_unpack _). vm_compute. exact I.
  - exists name. rewrite E. vm_compute in F. injection F as <- <-. vm_compute in K. by injection K as <-.
Defined.

Lemma posters_backed : media_backed (H := hex_text) default_config posters.
Proof.
  split.
  - apply (map_Forall_to_list (λ (_ : Uuid) r, ∃ p, resolves default_config (cm_url r) = Some p ∧ _ ∧ _)).
    vm_compute. repeat constructor; eexists; (split; [reflexivity|]); split; [by eexists|reflexivity|by eexists|reflexivity].
  - assert (D : map_Forall (λ k r, map_Forall (λ k' r',
        resolves default_config (cm_url r) = resolves default_config (cm_url r') → k = k')
      (catalog_media (registry posters))) (catalog_media (registry posters)))
      by (apply (bool_decide_unpack _); vm_compute; exact I).
    intros k k' r r' Hk Hk'. exact (D k r Hk k' r' Hk').
Qed.

Lemma posters_apart : prints_apart (H := hex_text) (registry posters).
Proof.
  assert (D : map_Forall (λ a _, map_Forall (λ b _,
      simple (UuidText := hex_text) a = simple (UuidText := hex_text) b → a = b)
    (catalog_clients (registry posters))) (catalog_clients (registry posters)))
    by (apply (bool_decide_unpack _); vm_compute; exact I).
  intros a b [x Hx] [y Hy]. exact (D a x Hx b y Hy).
Qed.

Lemma posters_fresh i :
  fresh_upload (H := hex_text) (H1 := hex_primitives) default_config (CUploadMedia 20 gif_fields) (registry posters)
    (random_oracle 60 "z" i).
Proof.
  split.
  - change (catalog_media (registry posters)) with ({[50%N := poster_of 20 "aa"; 51%N := poster_of 22 "bb"]} : gmap Uuid CatalogMedia).
    change (t_uuid (random_oracle 60 "z" i)) with (N.of_nat i + 1000)%N.
    rewrite lookup_insert_ne, lookup_singleton_ne by lia. done.
  - intros k r role ext Hk E.
    assert (F : str_find "-7a." (default "" (resolves default_config (cm_url r))) = true).
    { rewrite E. cbn [from_option]. unfold media_path. destruct (path_join_ends
        (path_join (catalog_root default_config) (simple (UuidText := hex_text) 20))
        (role +:+ "-" +:+ hex_bytes "z" +:+ "." +:+ ext)) as [p Ep].
      change (hex_encode (t_random (random_oracle 60 "z" i))) with (hex_bytes "z"). rewrite Ep, str_app_assoc.
      apply str_find_after. reflexivity. }
    assert (D : map_Forall (λ (_ : Uuid) r, str_find "-7a." (default "" (resolves default_config (cm_url r))) = false)
      (catalog_media (registry posters))) by (apply (bool_decide_unpack _); vm_compute; exact I).
    specialize (D k r Hk). cbn in D. congruence.
Qed.

Lemma posters_ok : content_ok (registry posters).
Proof. apply content_okb_sound. vm_compute. reflexivity. Qed.

Lemma media_stays_backed_witness :
  media_backed (H := hex_text) default_config posters ∧
  media_backed (H := hex_text) default_config poster_upload.1 ∧
  map (λ r, cm_url (row r)) (select_rows (λ _ _, true) (catalog_media (registry poster_upload.1)))
  = [cm_url (poster_of 20 "7a"); cm_url (poster_of 22 "bb")].
Proof.
  split; [exact posters_backed|]. split; [|vm_compute; reflexivity].
  assert (E : poster_upload.1 = (exec (serve_catalog (H := hex_text) (H0 := toy_parser) (H1 := hex_primitives) (H2 := toy_form)
    default_config (CUploadMedia 20 gif_fields)) (random_oracle 60 "z") posters).1) by (cbn [serve_catalog]; by rewrite exec_ignore).
  rewrite E.
  exact (media_stays_backed (H := hex_text) (H0 := toy_parser) (H1 := hex_primitives) (H2 := toy_form) default_config
    (CUploadMedia 20 gif_fields) 60 (random_oracle 60 "z") posters _ _ (surjective_pairing _) (λ _, conj eq_refl (conj eq_refl eq_refl))
    posters_ok posters_apart hex_bytes_plain posters_fresh posters_backed).
Defined.

(** ** What goes wrong *)

(** The connection is lost at action [n]. *)
Definition lost_at (n : nat) (i : nat) : Tick := mkTick 60 60 (N.of_nat i + 1000) "z" (i =? n)%nat.

(** The replaced poster's file goes before the transaction commits. When the commit fails, the
    row of the old poster is back, its file is not; and the new file stays without a row. *)
Example replaced_before_commit :
  let r := exec (upload_media (H := hex_text) (H0 := hex_primitives) default_config 20 gif_fields) (lost_at 7) posters in
  r.2 = Err (Database Io) ∧
  catalog_media (registry r.1) !! 50%N = Some (poster_of 20 "aa") ∧
  st_files r.1 !! poster_path 20 "aa" = None ∧
  is_Some (st_files r.1 !! poster_path 20 "7a").
Proof. vm_compute. repeat split. by eexists. Qed.

(** Deleting a client deletes its bundle even when another client is linked to it, which an
    update never does: client 23 loses its build, with all uploads. *)
Example shared_bundle_deleted :
  let r := exec (delete_client (H := hex_text) default_config 20) (calm_oracle 50) shared_home in
  r.2 = Ok () ∧
  option_map cc_bundle_id (catalog_clients (registry shared_home) !! 23%N) = Some (Some 1%N) ∧
  count_rows (of_bundle 1) (bundle_artifacts (registry shared_home)) = 2 ∧
  option_map cc_bundle_id (catalog_clients (registry r.1) !! 23%N) = Some None ∧
  count_rows (of_bundle 1) (bundle_artifacts (registry r.1)) = 0 ∧
  is_dir (st_tree r.1) pack_files = false.
Proof. vm_compute. repeat split. Qed.
