(* ===== verification/YggService.v ===== *)
(** * The Yggdrasil endpoints

    [crates/yggdrasil/src/lib.rs] and [profile.rs]: the [authserver] handlers (log in,
    refresh, validate, invalidate), the handshake of client and game server ([join],
    [hasJoined]), profile look-ups, and the assembly of signed profiles. The signing key of
    [crypto.rs] (RSA, third-party code) is a parameter. *)

From S2P Require Import Prelude RustStr Errors YggUuid Payload Models Table Realtime Schema Prog.
From S2P Require Import Auth YggTokens Invariant AuthSchema Identity JoinSessions.

(** The process-wide key: [None] when [init_crypto] was never called. [sign_value] is
    [None] when signing fails. *)
Class Signer := {
  SigningKey : Type;
  sign_value : SigningKey → string → option string;
  public_spki_pem : SigningKey → string;
  installed : option SigningKey
}.

(** [?] in a handler that answers a [YggError]. *)
Definition ygg {A} (p : prog (AppResult A)) : prog (YggResult A) := prog_map (map_err ygg_from) p.

(** ** Requests and answers *)

(** The JSON a client may send as [selectedProfile]; the keys of an object are distinct. *)
Inductive JsonValue : Type :=
| JNull
| JBool (b : bool)
| JNumber (z : Z)
| JString (s : string)
| JArray (l : list JsonValue)
| JObject (fields : list (string * JsonValue)).

(** [Value::get(key)], [Value::as_str()]. *)
Definition json_get (name : string) (v : JsonValue) : option JsonValue :=
  match v with
  | JObject fields => snd <$> List.find (λ f, (f.1 =? name)%string) fields
  | _ => None
  end.

Definition json_as_str (v : JsonValue) : option string :=
  match v with JString s => Some s | _ => None end.

Record ProfileSummary : Type := mkProfileSummary { ps_id : string; ps_name : string }.

(** The [user] block holds the id; its [properties] are always empty. *)
Record YggdrasilSession : Type := mkYggdrasilSession {
  yg_access_token : string;
  yg_client_token : string;
  yg_available_profiles : list ProfileSummary;
  yg_selected_profile : ProfileSummary;
  yg_user : option Uuid
}.

Definition profile_summary (profile_uuid username : string) : ProfileSummary :=
  mkProfileSummary profile_uuid username.

Definition session_document (user : Keyed User) (tokens : YggdrasilTokens) (request_user : bool)
  : YggResult YggdrasilSession :=
  try profile_uuid := ok_or YggForbidden (u_profile_uuid (row user)) in
  let selected := profile_summary profile_uuid (u_username (row user)) in
  Ok (mkYggdrasilSession (access_token tokens) (client_token tokens) [selected] selected
        (if request_user then Some (key user) else None)).

(** ** Profiles: [profile.rs] *)

Record ProfileProperty : Type := mkProfileProperty {
  pp_name : string;
  pp_value : string;
  pp_signature : option string
}.

Record GameProfile : Type := mkGameProfile {
  gp_id : string;
  gp_name : string;
  gp_properties : list ProfileProperty
}.

Record ProfileIdentity : Type := mkProfileIdentity {
  pi_user_id : Uuid;
  pi_profile_uuid : string;
  pi_username : string
}.

Record UserTextures : Type := mkUserTextures {
  skin_variant : option string;
  has_cape : bool
}.

(** One row of the loop. *)
Definition add_texture (textures : UserTextures) (row : string * option string) : UserTextures :=
  if (row.1 =? "skin")%string then mkUserTextures (Some (default "" row.2)) (has_cape textures)
  else if (row.1 =? "cape")%string then mkUserTextures (skin_variant textures) true
  else textures.

Definition texture_rows (user_id : Uuid) (db : Db) : list (string * option string) :=
  omap (λ kr, if (kr.1.1 =? user_id)%N then Some (kr.1.2, ut_variant kr.2) else None)
    (map_to_list (user_textures db)).

Definition load_textures (user_id : Uuid) : prog (AppResult UserTextures) :=
  let? rows := select (λ _ db, texture_rows user_id db) in
  ret_ok (foldl add_texture (mkUserTextures None false) rows).

Definition texture_url (profile_uuid kind : string) : string :=
  "/textures/" +:+ profile_uuid +:+ "/" +:+ kind.

Definition is_absolute (url : string) : bool :=
  starts_with "http://" url || starts_with "https://" url.

Definition absolutize (public_base url : string) : string :=
  if is_absolute url then url
  else
    let base := trim_end_matches "/" public_base in
    if starts_with "/" url then base +:+ url else base +:+ "/" +:+ url.

(** The warning about a base without an origin is not modelled. *)
Definition texture_public_url (public_base profile_uuid kind : string) : string :=
  absolutize public_base (texture_url profile_uuid kind).

Definition parse_variant (raw : string) : SkinVariant :=
  if eq_ignore_ascii_case raw "SLIM" then Slim else Classic.

Section Profiles.
Context `{PayloadText} `{Signer}.

Definition signing_key : YggResult SigningKey := ok_or YggInternal installed.

(** [timestamp_millis]. *)
Definition millis (t : Time) : Z := (t / 1000)%Z.

(** [Some(key.sign_value(&value)?)] or [None]. *)
Definition signature_of (signing : option SigningKey) (value : string)
  : YggResult (option string) :=
  match signing with
  | Some key => try s := ok_or YggInternal (sign_value key value) in Ok (Some s)
  | None => Ok None
  end.

Definition textures_input (public_base : string) (identity : ProfileIdentity) (now : Time)
  (textures : UserTextures) : TexturesPayloadInput :=
  let url := texture_public_url public_base (pi_profile_uuid identity) in
  mkTexturesPayloadInput (pi_profile_uuid identity) (pi_username identity) (millis now)
    ((λ variant, mkSkinInput (url "skin") (parse_variant variant)) <$> skin_variant textures)
    (if has_cape textures then Some (mkCapeInput (url "cape")) else None).

Definition build_profile (public_base : string) (identity : ProfileIdentity)
  (signing : option SigningKey) : prog (YggResult GameProfile) :=
  let? textures := ygg (load_textures (pi_user_id identity)) in
  let? properties :=
    if bool_decide (is_Some (skin_variant textures)) || has_cape textures then
      let* now := utc_now in
      lift (try value := map_err (λ _, YggInternal)
                           (build_textures_value (textures_input public_base identity now textures)) in
            try signature := signature_of signing value in
            Ok [mkProfileProperty "textures" value signature])
    else ret_ok [] in
  ret_ok (mkGameProfile (pi_profile_uuid identity) (pi_username identity) properties).
End Profiles.

(** ** The handlers of [lib.rs] *)

(** [StatusCode::NO_CONTENT], or a profile. *)
Inductive ProfileAnswer : Type := NoContent | Profile (p : GameProfile).

Section YggService.
Context `{Lowercase} `{PasswordHashing} `{UuidText} `{Primitives} `{PayloadText} `{Signer}.
Context (cfg : Config).

Definition authenticate (username password : string) (client : option string) (request_user : bool)
  : prog (YggResult YggdrasilSession) :=
  let? user := ygg (authenticate_password username password) in
  if bool_decide (u_profile_uuid (row user) = None) then ret_err YggForbidden
  else
    let? tokens := ygg (issue_yggdrasil_tokens (key user) client (ygg_token_ttl cfg)
                          (ygg_max_tokens_per_user cfg)) in
    lift (session_document user tokens request_user).

Definition selects_other (selected_profile : option JsonValue) (profile_uuid : string) : bool :=
  match selected_profile ≫= json_get "id" with
  | Some sel => negb (bool_decide (json_as_str sel = Some profile_uuid))
  | None => false
  end.

Definition refresh (access : string) (client : option string) (request_user : bool)
  (selected_profile : option JsonValue) : prog (YggResult YggdrasilSession) :=
  let? '(user, tokens) := ygg (refresh_yggdrasil access client (ygg_token_ttl cfg)
                                 (ygg_max_tokens_per_user cfg)) in
  let? profile_uuid := lift (ok_or YggForbidden (u_profile_uuid (row user))) in
  if selects_other selected_profile profile_uuid then ret_err YggForbidden
  else lift (session_document user tokens request_user).

Definition validate (access : string) (client : option string) : prog (YggResult unit) :=
  do? ygg (validate_yggdrasil access client); ret_ok ().

Definition invalidate (access : string) (client : option string) : prog (YggResult unit) :=
  do? ygg (invalidate_yggdrasil access client); ret_ok ().

Definition join (access selected_profile server_id : string) : prog (YggResult unit) :=
  let? user := ygg (validate_yggdrasil access None) in
  let? profile_uuid := lift (ok_or YggForbidden (u_profile_uuid (row user))) in
  let? claimed := lift (map_err (λ _, YggForbidden) (undash_uuid selected_profile)) in
  if negb (claimed =? profile_uuid)%string then ret_err YggForbidden
  else do* record server_id (key user) None; ret_ok ().

(** The recorded and the asked address, when both are there, differ. *)
Definition ip_differs (recorded queried : option string) : bool :=
  match recorded, queried with
  | Some a, Some b => negb (a =? b)%string
  | _, _ => false
  end.

Definition identity_of (user : Keyed User) (profile_uuid : string) : ProfileIdentity :=
  mkProfileIdentity (key user) profile_uuid (u_username (row user)).

Definition has_joined (username server_id : string) (ip : option string)
  : prog (YggResult ProfileAnswer) :=
  let* session := take server_id in
  match session with
  | None => ret_ok NoContent
  | Some session =>
      if ip_differs (js_ip session) ip then ret_ok NoContent
      else
        let? user := ygg (load_user (js_user_id session)) in
        if negb (eq_ignore_ascii_case (u_username (row user)) (trim username)) then ret_ok NoContent
        else
          let? profile_uuid := lift (ok_or YggForbidden (u_profile_uuid (row user))) in
          let? key := lift signing_key in
          let? profile := build_profile (ygg_public_url cfg) (identity_of user profile_uuid)
                            (Some key) in
          ret_ok (Profile profile)
  end.

(** [matches!(unsigned, Some("") | Some("true"))]. *)
Definition wants_unsigned (unsigned : option string) : bool :=
  bool_decide (unsigned = Some "") || bool_decide (unsigned = Some "true").

Definition profile_by_uuid (uuid : string) (unsigned : option string)
  : prog (YggResult ProfileAnswer) :=
  match undash_uuid uuid with
  | Err _ => ret_ok NoContent
  | Ok profile_uuid =>
      let? user := ygg (find_by_profile_uuid profile_uuid) in
      match user with
      | None => ret_ok NoContent
      | Some user =>
          let? stored_uuid := lift (ok_or YggForbidden (u_profile_uuid (row user))) in
          let? signing := lift (if wants_unsigned unsigned then Ok None
                                else try key := signing_key in Ok (Some key)) in
          let? profile := build_profile (ygg_public_url cfg) (identity_of user stored_uuid) signing in
          ret_ok (Profile profile)
      end
  end.

(** [sort], then [dedup] of equal neighbours. *)
Definition text_le : relation string := λ a b, String.leb a b = true.
#[export] Instance text_le_dec : RelDecision text_le.
Proof. intros a b. unfold text_le. apply _. Defined.

Fixpoint dedup (l : list string) : list string :=
  match l with
  | a :: (b :: _) as l' => if (a =? b)%string then dedup l' else a :: dedup l'
  | _ => l
  end.

Definition MAX_NAMES : nat := 100.

Definition normalize_names (names : list string) : list string :=
  dedup (merge_sort text_le
    (List.filter (λ name, negb (name =? "")%string)
       (map (λ name, to_lowercase (trim name)) (firstn MAX_NAMES names)))).

Definition named_profile (normalized : list string) (user : User) : bool :=
  existsb (String.eqb (u_normalized_username user)) normalized
  && bool_decide (is_Some (u_profile_uuid user)).

(** The two columns of a row. *)
Definition name_and_profile (u : Keyed User) : option (string * string) :=
  (λ profile_uuid, (u_username (row u), profile_uuid)) <$> u_profile_uuid (row u).

Definition named_profiles (normalized : list string) (db : Db) : list (string * string) :=
  omap name_and_profile (select_rows (λ _ u, named_profile normalized u) (users db)).

Definition profiles_by_name (names : list string) : prog (YggResult (list ProfileSummary)) :=
  let normalized := normalize_names names in
  let? rows := ygg (select (λ _ db, named_profiles normalized db)) in
  ret_ok (map (λ '(username, profile_uuid), profile_summary profile_uuid username) rows).

(** The document's constants are left out: what varies is the domains and the key. *)
Definition meta : prog (YggResult (list string * string)) :=
  let? key := lift signing_key in ret_ok (ygg_skin_domains cfg, public_spki_pem key).
End YggService.

(** ** Lemmas *)

Lemma wp_ygg {A} (p : prog (AppResult A)) T st (Q : AppState → YggResult A → Prop) :
  wp p T st (λ st' r, Q st' (map_err ygg_from r)) → wp (ygg p) T st Q.
Proof. intros H. unfold ygg, prog_map. apply wp_bind. eapply wp_conseq; [exact H|]. intros st1 r W. by apply (wp_ret T st1). Qed.

Lemma elem_of_reverse_rev {A} (x : A) l : x ∈ rev l ↔ x ∈ l.
Proof. by rewrite !list_elem_of_In, <- in_rev. Qed.

(** The order of the rows does not matter: there is one per kind. *)
Lemma add_texture_skin rows t :
  skin_variant (foldl add_texture t rows) =
  match List.find (λ r, (r.1 =? "skin")%string) (rev rows) with
  | Some r => Some (default "" r.2)
  | None => skin_variant t
  end.
Proof.
  revert t. induction rows as [|[k v] rows IH] using rev_ind; intros t; [done|].
  rewrite foldl_app, rev_app_distr. simpl. unfold add_texture at 1. simpl.
  destruct (k =? "skin")%string; [done|]. destruct (k =? "cape")%string; simpl; apply IH.
Qed.

Lemma add_texture_cape rows t :
  has_cape (foldl add_texture t rows) =
  existsb (λ r, (r.1 =? "cape")%string) rows || has_cape t.
Proof.
  induction rows as [|[k v] rows IH] using rev_ind; [done|].
  rewrite foldl_app, existsb_app. simpl. unfold add_texture at 1. simpl.
  destruct (String.eqb_spec k "skin") as [->|]; simpl; [by rewrite IH, orb_false_r|].
  destruct (k =? "cape")%string; simpl; [by rewrite orb_true_r|by rewrite orb_false_r].
Qed.

Lemma elem_of_texture_rows user_id db k v :
  (k, v) ∈ texture_rows user_id db ↔ ∃ r, user_textures db !! (user_id, k) = Some r ∧ ut_variant r = v.
Proof.
  unfold texture_rows. rewrite list_elem_of_omap. split.
  - intros ([[u k'] r] & Hr & E). apply elem_of_map_to_list in Hr. simpl in E.
    destruct (N.eqb_spec u user_id) as [->|]; [|done]. injection E as <- <-. eauto.
  - intros (r & Hr & <-). exists ((user_id, k), r). rewrite elem_of_map_to_list. simpl.
    by rewrite N.eqb_refl.
Qed.

(** What [load_textures] finds. *)
Definition stored_textures (user_id : Uuid) (db : Db) : UserTextures :=
  mkUserTextures ((λ r, default "" (ut_variant r)) <$> user_textures db !! (user_id, "skin"))
    (bool_decide (is_Some (user_textures db !! (user_id, "cape")))).

Lemma foldl_textures user_id db :
  foldl add_texture (mkUserTextures None false) (texture_rows user_id db) = stored_textures user_id db.
Proof.
  set (t := foldl _ _ _). assert (E : t = mkUserTextures (skin_variant t) (has_cape t)) by by destruct t.
  rewrite E. subst t. rewrite add_texture_skin, add_texture_cape, orb_false_r. unfold stored_textures. f_equal.
  - destruct (List.find _ _) as [[k v]|] eqn:F.
    + apply find_spec_Some in F as [F Hk]. simpl in Hk. bool_simpl. subst k.
      rewrite elem_of_reverse_rev in F.
      apply elem_of_texture_rows in F as (r & -> & <-). done.
    + destruct (user_textures db !! (user_id, "skin")) as [r|] eqn:Hr; [|done].
      assert (Hin : ("skin", ut_variant r) ∈ texture_rows user_id db) by (apply elem_of_texture_rows; eauto).
      eapply find_spec_None in F; [|by rewrite elem_of_reverse_rev]. done.
  - apply eq_true_iff_eq. rewrite existsb_spec, bool_decide_eq_true. split.
    + intros ([k v] & Hin & E'). simpl in E'. bool_simpl. subst k.
      apply elem_of_texture_rows in Hin as (r & Hr & _). eauto.
    + intros [r Hr]. exists ("cape", ut_variant r). split; [|done]. apply elem_of_texture_rows. eauto.
Qed.

Section ProfileLemmas.
Context `{PayloadText} `{Signer}.

(** The profile of an identity whose stored textures are [textures]. *)
Definition built (public_base : string) (identity : ProfileIdentity) (signing : option SigningKey)
  (now : Time) (textures : UserTextures) : YggResult GameProfile :=
  let profile := mkGameProfile (pi_profile_uuid identity) (pi_username identity) in
  if bool_decide (is_Some (skin_variant textures)) || has_cape textures then
    match build_textures_value (textures_input public_base identity now textures) with
    | Ok value =>
        match signing with
        | None => Ok (profile [mkProfileProperty "textures" value None])
        | Some key =>
            match sign_value key value with
            | Some s => Ok (profile [mkProfileProperty "textures" value (Some s)])
            | None => Err YggInternal
            end
        end
    | Err _ => Err YggInternal
    end
  else Ok (profile []).

(** What can come of it for a profile id in its stored form and a key. *)
Lemma built_cases base p k u sk now textures (Q : YggResult ProfileAnswer → Prop) :
  is_uuid_undashed p = true →
  (∀ ps, (∀ q, q ∈ ps → ∃ s, sign_value sk (pp_value q) = Some s ∧ pp_signature q = Some s) →
     Q (Ok (Profile (mkGameProfile p (u_username u) ps)))) →
  (u_username u = "" ∨ (∃ key value, Some sk = Some key ∧ sign_value key value = None) → Q (Err YggInternal)) →
  Q (try profile := built base (identity_of (mkKeyed k u) p) (Some sk) now textures in Ok (Profile profile)).
Proof.
  intros U HQ HE. unfold built. cbn [pi_profile_uuid pi_username identity_of row].
  destruct (_ || _); cbn [and_then]; [|apply HQ; by intros q ?%not_elem_of_nil].
  unfold build_textures_value, build_textures_payload, textures_input.
  cbn [ti_profile_id ti_profile_name pi_profile_uuid pi_username identity_of row]. rewrite U. cbn [negb].
  destruct (String.eqb_spec (u_username u) "") as [N|N]; cbn [and_then]; [apply HE; by left|].
  destruct (sign_value sk _) as [s|] eqn:S; cbn [and_then]; [|apply HE; right; eauto].
  apply HQ. intros q ->%list_elem_of_singleton. by exists s.
Qed.

Lemma wp_build_profile base identity signing now st (Q : AppState → YggResult GameProfile → Prop) :
  Q st (built base identity signing now (stored_textures (pi_user_id identity) (st_db st))) →
  wp (build_profile base identity signing) (calm now) st Q.
Proof.
  intros HQ. unfold build_profile. apply wp_bind_ok, wp_ygg. unfold load_textures. wp_calm.
  rewrite foldl_textures. revert HQ. unfold built.
  generalize (stored_textures (pi_user_id identity) (st_db st)). intros tx HQ.
  destruct (bool_decide _ || has_cape tx); [|wp_calm; exact HQ].
  apply wp_bind, wp_utc_now. intros t2 (F2 & D2 & A2). apply wp_ret. rewrite A2.
  destruct (build_textures_value _) as [value|e]; cbn [map_err and_then]; [|exact HQ].
  unfold signature_of. destruct signing as [key|]; cbn [and_then]; [|wp_calm; exact HQ].
  destruct (sign_value key value); cbn [ok_or and_then]; [wp_calm|]; exact HQ.
Qed.
End ProfileLemmas.

Section Handshake.
Context `{Lowercase} `{PasswordHashing} `{UuidText} `{Primitives} `{PayloadText} `{Signer}.
Context (cfg : Config).

Lemma wp_take sid now st (Q : AppState → option JoinSession → Prop) :
  Q (set_join_sessions (delete sid (retain_live now (st_join_sessions st))) st)
    (retain_live now (st_join_sessions st) !! sid) →
  wp (take sid) (calm now) st Q.
Proof.
  intros HQ. unfold take. apply wp_bind, wp_utc_now. intros t (F & D & A). unfold on_join_sessions.
  intros t' _. rewrite A, take_at_spec. exact HQ.
Qed.

(** The account a live access token stands for. *)
Definition token_owner (access : string) (now : Time) (db : Db) (k : Uuid) (u : User) : Prop :=
  ∃ i r, yggdrasil_tokens db !! i = Some r ∧ yt_access_token_hash r = hash_token access ∧
    (now < yt_expires_at r)%Z ∧ yt_user_id r = k ∧ users db !! k = Some u ∧
    u_blocked u = false ∧ u_confirmed u = true.

Lemma wp_validate_owner access now st (Q : AppState → AppResult (Keyed User) → Prop) :
  Q st (Err Forbidden) →
  (∀ k u, token_owner access now (st_db st) k u → Q st (Ok (mkKeyed k u))) →
  wp (validate_yggdrasil access None) (calm now) st Q.
Proof.
  intros HE HOk. unfold validate_yggdrasil. wp_step. apply wp_eligible_pair.
  { intros (t & (F & _) & F'). congruence. }
  intros t (F & D & A) _. destruct (select_pair _ t _) as [[uid stored]|] eqn:S; [|exact HE].
  apply select_pair_Some in S as (i & r & Hi & Hh & He & Hu & _). rewrite D in He.
  destruct (users (st_db st) !! uid) as [u|] eqn:U; [|exact HE]. cbn [client_mismatch orb].
  destruct (u_blocked u) eqn:B; [exact HE|]. destruct (u_confirmed u) eqn:C; [|exact HE].
  apply HOk. exists i, r. subst uid. done.
Qed.

Lemma wp_join access sel sid now st (Q : AppState → YggResult unit → Prop) :
  (∀ e, Q st (Err e)) →
  (∀ k u p, token_owner access now (st_db st) k u → u_profile_uuid u = Some p →
     undash_uuid sel = Ok p →
     Q (set_join_sessions (record_at now sid k None (st_join_sessions st)) st) (Ok ())) →
  wp (join access sel sid) (calm now) st Q.
Proof.
  intros HE HOk. unfold join. apply wp_bind_ok, wp_ygg, wp_validate_owner; [apply HE|].
  intros k u Hu. cbn [map_err]. apply wp_bind_ok, wp_ret. cbn [row].
  destruct (u_profile_uuid u) as [p|] eqn:Hp; cbn [ok_or]; [|apply HE].
  apply wp_bind_ok, wp_ret. destruct (undash_uuid sel) as [c|] eqn:Hs; cbn [map_err]; [|apply HE].
  destruct (String.eqb_spec c p) as [->|]; cbn [negb]; [|apply wp_ret, HE].
  apply wp_bind. unfold record. apply wp_bind, wp_utc_now. intros t (F & D & A).
  unfold on_join_sessions. intros t' _. apply wp_ret. rewrite A. by eapply HOk.
Qed.

(** What [has_joined] answers for a live session of user [k]. *)
Definition joined_answer (username : string) (k : Uuid) (now : Time) (db : Db)
  : YggResult ProfileAnswer :=
  match users db !! k with
  | None => Err YggNotFound
  | Some u =>
      if negb (eq_ignore_ascii_case (u_username u) (trim username)) then Ok NoContent
      else
        match u_profile_uuid u with
        | None => Err YggForbidden
        | Some p =>
            try signing := signing_key in
            try profile := built (ygg_public_url cfg) (identity_of (mkKeyed k u) p) (Some signing)
                             now (stored_textures k db) in
            Ok (Profile profile)
        end
  end.

Lemma wp_has_joined username sid ip now st (Q : AppState → YggResult ProfileAnswer → Prop) :
  Q (set_join_sessions (delete sid (retain_live now (st_join_sessions st))) st)
    (match retain_live now (st_join_sessions st) !! sid with
     | None => Ok NoContent
     | Some s =>
         if ip_differs (js_ip s) ip then Ok NoContent
         else joined_answer username (js_user_id s) now (st_db st)
     end) →
  wp (has_joined cfg username sid ip) (calm now) st Q.
Proof.
  intros HQ. unfold has_joined. apply wp_bind, wp_take.
  destruct (retain_live _ _ !! sid) as [s|]; [|by apply wp_ret].
  destruct (ip_differs _ _); [by apply wp_ret|]. apply wp_bind_ok, wp_ygg. unfold load_user. wp_calm.
  unfold joined_answer in HQ. cbn [st_db set_join_sessions] in *.
  destruct (users (st_db st) !! js_user_id s) as [u|]; cbn [option_map ok_or map_err ygg_from]; [|exact HQ].
  cbn [row]. destruct (negb _); [by apply wp_ret|]. apply wp_bind_ok, wp_ret.
  destruct (u_profile_uuid u) as [p|]; cbn [ok_or]; [|exact HQ].
  apply wp_bind_ok, wp_ret. destruct signing_key as [k|e]; cbn [and_then] in *; [|exact HQ].
  apply wp_bind_ok, wp_build_profile. cbn [pi_user_id identity_of key st_db set_join_sessions].
  destruct (built _ _ _ _ _); [by apply wp_ret|exact HQ].
Qed.
End Handshake.

Lemma elem_of_dedup x l : x ∈ dedup l ↔ x ∈ l.
Proof.
  induction l as [|a l IH]; [done|]. destruct l as [|b l]; [done|]. cbn [dedup] in *.
  destruct (String.eqb_spec a b) as [->|]; rewrite ?elem_of_cons, IH, ?elem_of_cons; naive_solver.
Qed.

(** One account per profile. *)
Lemma profile_unique `{Lowercase} db k k' u u' p :
  schema_ok db → users db !! k = Some u → users db !! k' = Some u' →
  u_profile_uuid u = Some p → u_profile_uuid u' = Some p → k = k'.
Proof.
  intros S Hk Hk' Hp Hp'.
  assert (U : uniq users_profile_uuid_uniq (users db)).
  { eapply table_ok_uniq; [|apply S]. unfold users_indexes. set_solver. }
  apply (U k k' u u' Hk Hk'). simpl. rewrite Hp, Hp'. simpl. by apply bool_decide_eq_true.
Qed.

(** The names asked for. *)
Definition asked `{Lowercase} (names : list string) (normalized : string) : Prop :=
  normalized ≠ "" ∧ ∃ name, name ∈ firstn MAX_NAMES names ∧ normalized = to_lowercase (trim name).

Lemma elem_of_normalize_names `{Lowercase} x names : x ∈ normalize_names names ↔ asked names x.
Proof.
  unfold normalize_names. rewrite elem_of_dedup, merge_sort_Permutation, elem_of_filterb, list_elem_of_fmap.
  unfold asked. destruct (String.eqb_spec x ""); naive_solver.
Qed.

(** ** The schema's invariant *)

Section YggSchema.
Context `{Lowercase} `{PasswordHashing} `{UuidText} `{Primitives} `{PayloadText} `{Signer}.
Context (cfg : Config).

Lemma ygg_rel {A} R (p : prog (AppResult A)) : prog_rel R p → prog_rel R (ygg p).
Proof. intros Hp. by apply prog_rel_bind. Qed.

Lemma on_join_sessions_rel {B} R `{!PreOrder R} (f : gmap string JoinSession → _ * B) :
  prog_rel (db_rel R) (on_join_sessions f).
Proof. apply prog_rel_memory; [exact _|]. intros t st. simpl. by destruct (f (st_join_sessions st)). Qed.
Hint Resolve ygg_rel on_join_sessions_rel : loon.

Lemma build_profile_rel R `{!PreOrder R} b i s : prog_rel (db_rel R) (build_profile b i s).
Proof. unfold build_profile, load_textures. prog_rel_go; apply ygg_rel; prog_rel_go. Qed.
Hint Resolve build_profile_rel : loon.

Lemma ygg_authenticate_schema u p c q : prog_rel (db_rel schema_rel) (authenticate cfg u p c q).
Proof. unfold authenticate. prog_rel_go. Qed.
Lemma ygg_refresh_schema a c q s : prog_rel (db_rel schema_rel) (refresh cfg a c q s).
Proof. unfold refresh. prog_rel_go. apply ygg_rel. unfold refresh_yggdrasil. prog_rel_go. Qed.
Lemma ygg_validate_rel R `{!PreOrder R} a c : prog_rel (db_rel R) (validate a c).
Proof. unfold validate. prog_rel_go. apply ygg_rel. unfold validate_yggdrasil. prog_rel_go. Qed.
Lemma ygg_invalidate_schema a c : prog_rel (db_rel schema_rel) (invalidate a c).
Proof. unfold invalidate. prog_rel_go. apply ygg_rel. unfold invalidate_yggdrasil. prog_rel_go. Qed.
Lemma ygg_join_rel R `{!PreOrder R} a p s : prog_rel (db_rel R) (join a p s).
Proof.
  unfold join, record. prog_rel_go. apply ygg_rel. unfold validate_yggdrasil. prog_rel_go.
Qed.
Lemma ygg_has_joined_rel R `{!PreOrder R} u s i : prog_rel (db_rel R) (has_joined cfg u s i).
Proof. unfold has_joined, take. prog_rel_go. Qed.
Lemma ygg_profile_rel R `{!PreOrder R} u q : prog_rel (db_rel R) (profile_by_uuid cfg u q).
Proof. unfold profile_by_uuid. prog_rel_go. Qed.
Lemma ygg_names_rel R `{!PreOrder R} l : prog_rel (db_rel R) (profiles_by_name l).
Proof. unfold profiles_by_name. prog_rel_go. apply ygg_rel. prog_rel_go. Qed.
End YggSchema.

#[export] Hint Resolve ygg_authenticate_schema ygg_refresh_schema ygg_validate_rel
  ygg_invalidate_schema ygg_join_rel ygg_has_joined_rel ygg_profile_rel ygg_names_rel : loon.

(** ** Properties *)

Section YggProperties.
Context `{Lowercase} `{PasswordHashing} `{UuidText} `{Primitives} `{PayloadText} `{Signer}.
Context (cfg : Config).

(** C13. The handshake of the game. After a [join] that succeeds, the token was live and its owner
    has the selected profile; the next [hasJoined] for that server, whatever address it asks
    about, finds the join for thirty seconds and consumes it. It answers no content if the time
    is over or the name it asks about is not the owner's up to ASCII case. Otherwise it answers
    the owner's profile, with the owner's profile id and name and every property carrying the
    signature of its value under the installed key; or an internal error, and that only if no
    key is installed, the key cannot sign, or the owner's name is empty. The database is not
    changed. (The database answers every statement, and the two calls come one after the
    other.) *)
Theorem handshake access sel sid username ip now now' o o' st st1 st2 r :
  (∀ i, calm now (o i)) → (∀ i, calm now' (o' i)) → (now ≤ now')%Z →
  exec (join access sel sid) o st = (st1, Ok ()) →
  exec (has_joined cfg username sid ip) o' st1 = (st2, r) →
  ∃ k u p, token_owner access now (st_db st) k u ∧ u_profile_uuid u = Some p ∧
    undash_uuid sel = Ok p ∧
    st_db st2 = st_db st ∧ st_join_sessions st2 !! sid = None ∧
    r = (if (now' <? now + secs 30)%Z then joined_answer cfg username k now' (st_db st)
         else Ok NoContent) ∧
    match r with
    | Ok NoContent =>
        (now + secs 30 ≤ now')%Z ∨ eq_ignore_ascii_case (u_username u) (trim username) = false
    | Ok (Profile g) =>
        (now' < now + secs 30)%Z ∧ eq_ignore_ascii_case (u_username u) (trim username) = true ∧
        gp_id g = p ∧ gp_name g = u_username u ∧
        ∀ q, q ∈ gp_properties g → ∃ key s,
          installed = Some key ∧ sign_value key (pp_value q) = Some s ∧ pp_signature q = Some s
    | Err e =>
        (now' < now + secs 30)%Z ∧ eq_ignore_ascii_case (u_username u) (trim username) = true ∧
        e = YggInternal ∧
        (installed = None ∨ u_username u = "" ∨
         ∃ key value, installed = Some key ∧ sign_value key value = None)
    end.
Proof.
  intros Ho Ho' Hn Hj Hex. revert Hex. exec_start Hj (calm now). apply wp_join; [by intros e [=]|].
  intros k u p Hu Hp Hs _ Hex. exec_start Hex (calm now'). apply wp_has_joined.
  cbn [st_join_sessions set_join_sessions st_db]. exists k, u, p. repeat (split; [done|]).
  split; [by rewrite lookup_delete_eq|]. rewrite lookup_retain_live. unfold record_at.
  rewrite lookup_insert_eq. unfold is_expired. cbn [js_expires_at js_ip js_user_id ip_differs].
  change (secs JOIN_SESSION_TTL_SECONDS) with (secs 30).
  destruct (Z.leb_spec (now + secs 30) now') as [L|L].
  { rewrite (proj2 (Z.ltb_ge _ _) L). split; [done|by left]. }
  rewrite (proj2 (Z.ltb_lt _ _) L). split; [done|].
  destruct Hu as (i & t & _ & _ & _ & _ & Hk & _). unfold joined_answer.
  cbn [st_db set_join_sessions js_user_id js_ip ip_differs]. rewrite Hk.
  destruct (eq_ignore_ascii_case _ _); cbn [negb]; [|by right]. rewrite Hp.
  unfold signing_key. destruct installed as [sk|] eqn:I; cbn [ok_or and_then]; [|by auto].
  assert (P := undash_uuid_spec sel). rewrite Hs in P. destruct P as (_ & [U _] & _).
  apply built_cases; [done|..].
  - intros ps Hps. split_and!; [done..|]. intros q Hq. destruct (Hps q Hq) as (s' & ? & ?). eauto.
  - intros Hne. cbn [and_then]. split_and!; [done..|]. right. exact Hne.
Qed.

(** The bulk look-up. It answers, in some order and each once, the profile id and name
    of exactly the accounts that have a profile and whose normalised name is one of the
    first hundred asked for, trimmed, in lower case and not empty. Nothing changes. *)
Theorem profiles_by_name_exact names now o st st' r :
  schema_ok (st_db st) → (∀ i, calm now (o i)) →
  exec (profiles_by_name names) o st = (st', r) →
  st' = st ∧ ∃ l, r = Ok l ∧ NoDup (map ps_id l) ∧
    ∀ s, s ∈ l ↔ ∃ k u, users (st_db st) !! k = Some u ∧
      u_profile_uuid u = Some (ps_id s) ∧ u_username u = ps_name s ∧
      asked names (u_normalized_username u).
Proof.
  intros S Ho Hex. exec_start Hex (calm now). unfold profiles_by_name.
  apply wp_bind_ok, wp_ygg. wp_calm. split; [done|].
  assert (Hrow : ∀ x, x ∈ select_rows (λ _ u, named_profile (normalize_names names) u) (users (st_db st)) ↔
    users (st_db st) !! key x = Some (row x) ∧ is_Some (u_profile_uuid (row x)) ∧
    asked names (u_normalized_username (row x))).
  { intros x. rewrite elem_of_select_rows. unfold named_profile.
    rewrite andb_true_iff, existsb_spec, bool_decide_eq_true.
    setoid_rewrite elem_of_normalize_names. setoid_rewrite String.eqb_eq. naive_solver. }
  eexists. split; [done|]. unfold named_profiles, name_and_profile. split.
  - rewrite map_map. apply NoDup_map_omap; [apply NoDup_select_rows|].
    intros [k u] [k' u'] [n p] [n' p'] (Hk & _)%Hrow (Hk' & _)%Hrow E E'. simpl in *.
    destruct (u_profile_uuid u) as [q|] eqn:Q; [|done]. injection E as _ ->.
    destruct (u_profile_uuid u') as [q'|] eqn:Q'; [|done]. injection E' as _ ->. intros ->.
    assert (k = k') as <-; [|by simplify_eq].
    by eapply (profile_unique (st_db st)).
  - intros [i n]. rewrite list_elem_of_fmap. split.
    + intros ([n' p] & [= -> ->] & ([k u] & (Hk & _ & Ha)%Hrow & E)%list_elem_of_omap). simpl in *.
      destruct (u_profile_uuid u) as [q|] eqn:Q; [|done]. injection E as <- <-. eauto 10.
    + intros (k & u & Hk & Hp & Hn & Ha). simpl in *. exists (n, i). split; [done|].
      apply list_elem_of_omap. exists (mkKeyed k u). simpl. rewrite Hp, <- Hn. split; [|done].
      apply Hrow. simpl. eauto.
Qed.
End YggProperties.

(** ** Concrete instances *)

(** A key that signs by prefixing. *)
Definition toy_signer : Signer :=
  {| SigningKey := string; sign_value k v := Some (k +:+ v); public_spki_pem k := k;
     installed := Some "k" |}.

(** dora has a slim skin and the token pair ("a", "c"). *)
Definition with_skin : AppState :=
  let db := st_db with_dora in
  set_db (set_yggdrasil_tokens {[ 3%N := mkYggToken 1002 "#a" "c" 1 (secs 100) ]}
    (set_user_textures {[ (1002%N, "skin") := mkUserTexture "" "" "" "" 0 (Some "slim") 0 ]} db))
    with_dora.

Definition toy_join (access : string) : prog (YggResult unit) :=
  join (H2 := toy_primitives) access (hex_digits 32 1001) "srv".
Definition toy_has_joined (ip : option string) : prog (YggResult ProfileAnswer) :=
  has_joined (H3 := plain_text) (H4 := toy_signer) default_config " DORA " "srv" ip.

Definition joined : AppState := (exec (toy_join "a") (calm_oracle 50) with_skin).1.

Lemma handshake_witness :
  exec (toy_join "a") (calm_oracle 50) with_skin = (joined, Ok ()) ∧
  let r := exec (toy_has_joined (Some "1.2.3.4")) (calm_oracle 60) joined in
  st_join_sessions r.1 !! "srv" = None ∧
  ∃ g, r.2 = Ok (Profile g) ∧ gp_name g = "Dora" ∧ length (gp_properties g) = 1%nat.
Proof.
  assert (E : exec (toy_join "a") (calm_oracle 50) with_skin = (joined, Ok ())).
  { rewrite (surjective_pairing (exec _ _ _)). f_equal. }
  split; [exact E|]. intros r.
  destruct (handshake (H2 := toy_primitives) (H3 := plain_text) (H4 := toy_signer) default_config
    "a" (hex_digits 32 1001) "srv" " DORA " (Some "1.2.3.4") 50 60 (calm_oracle 50) (calm_oracle 60)
    with_skin joined r.1 r.2 (calm_oracle_calm 50) (calm_oracle_calm 60) ltac:(lia) E
    (surjective_pairing _)) as (k & u & p & _ & _ & _ & _ & Hnone & _).
  split; [exact Hnone|].
  destruct (match r.2 with Ok (Profile g) => Some g | _ => None end) as [g|] eqn:G; cycle 1.
  { exfalso. assert (K : bool_decide (is_Some (match r.2 with Ok (Profile g) => Some g | _ => None end)) = true)
      by (vm_compute; reflexivity). rewrite G in K. discriminate. }
  exists g. assert (R : r.2 = Ok (Profile g)) by (destruct r.2 as [[]|]; congruence).
  split; [exact R|].
  vm_compute in G. injection G as <-. split; reflexivity.
Defined.

Lemma profiles_by_name_exact_witness :
  exec (profiles_by_name (H := ascii_lowercase) [" doRA"; ""; "nobody"]) (calm_oracle 9) with_dora
  = (with_dora, Ok [mkProfileSummary (hex_digits 32 1001) "Dora"]) ∧
  asked (H := ascii_lowercase) [" doRA"; ""; "nobody"] "dora".
Proof.
  assert (E : exec (profiles_by_name (H := ascii_lowercase) [" doRA"; ""; "nobody"]) (calm_oracle 9) with_dora
  = (with_dora, Ok [mkProfileSummary (hex_digits 32 1001) "Dora"])).
  { rewrite (surjective_pairing (exec _ _ _)). f_equal; vm_compute; reflexivity. }
  split; [exact E|].
  destruct (profiles_by_name_exact (H := ascii_lowercase) [" doRA"; ""; "nobody"] 9 (calm_oracle 9)
    with_dora with_dora _ with_dora_ok (calm_oracle_calm 9) E) as (_ & l & [= <-] & _ & Hl).
  destruct (proj1 (Hl (mkProfileSummary (hex_digits 32 1001) "Dora")) ltac:(constructor))
    as (k & u & Hk & Hp & _ & Ha).
  assert (u = row dora) as ->; [|exact Ha].
  assert (D : users (st_db with_dora) !! 1002%N = Some (row dora)) by (vm_compute; reflexivity).
  assert (k = 1002%N) as ->; [|congruence].
  eapply (profile_unique (H := ascii_lowercase)); [exact with_dora_ok|exact Hk|exact D|exact Hp|].
  reflexivity.
Defined.

(** ** What the model shows

    A refresh that is refused because of the selected profile has already used the pair
    up: the client holds a token that is gone, and the new pair was told to nobody. *)
Lemma refused_refresh_burns_token :
  let r := exec (refresh (H2 := toy_primitives) default_config "a" None false
                   (Some (JObject [("id", JString "other")]))) (random_oracle 50 "b") with_skin in
  r.2 = Err YggForbidden ∧
  (exec (validate (H2 := toy_primitives) "a" None) (calm_oracle 60) with_skin).2 = Ok () ∧
  (exec (validate (H2 := toy_primitives) "a" None) (calm_oracle 60) r.1).2 = Err YggForbidden ∧
  (exec (validate (H2 := toy_primitives) "b" None) (calm_oracle 60) r.1).2 = Ok ().
Proof. vm_compute. repeat split; reflexivity. Qed.

(** [join] records no address, so the address [hasJoined] asks about is never compared. *)
Lemma address_never_checked :
  (exec (toy_has_joined (Some "1.2.3.4")) (calm_oracle 60) joined).2
  = (exec (toy_has_joined None) (calm_oracle 60) joined).2.
Proof. vm_compute. reflexivity. Qed.
