(* ===== verification/KeyStore.v ===== *)
(** * The signing key on disk

    [yggdrasil/crypto.rs], in its Unix form: the RSA key is read from its file, or generated
    and written when there is none. The disk is a map from paths to files and directories with
    their permission bits, which are recorded and not enforced; every call on it may fail, and a write
    may fail half way. *)

From S2P Require Import Prelude RustStr Errors Payload BundlePaths YggService.

(** ** Parameters *)

(** [RsaPrivateKey] and its encodings; [sign] is PKCS#1 v1.5 over a SHA-1 digest. *)
Class Rsa := {
  RsaPrivateKey : Type;
  sha1_digest : string → string;
  rsa_sign : RsaPrivateKey → string → option string;
  to_pkcs8_pem : RsaPrivateKey → option string;
  from_pkcs8_pem : string → option RsaPrivateKey;
  to_public_key_pem : RsaPrivateKey → option string;
  from_to_pem : ∀ k s, to_pkcs8_pem k = Some s → from_pkcs8_pem s = Some k
}.

(** ** The disk *)

(** A directory has no contents. *)
Record Entry : Type := mkEntry {
  contents : option string;
  mode : Z
}.

Abbreviation Disk := (gmap string Entry) (only parsing).

Inductive CryptoError : Type :=
| Read (path : string)
| Write (path : string)
| ParsePkcs8
| Generate
| EncodeSpki
| Sign.

(** [Path::parent]: [None] for the root and the empty path, [Some ""] for a bare name. *)
Definition render (l : list Component) : string :=
  let name c := match c with Normal s => s | CurDir => "." | ParentDir => ".." | RootDir => "" end in
  match l with
  | [RootDir] => "/"
  | _ => String.concat "/" (map name l)
  end.

Definition path_parent (path : string) : option string :=
  match rev (components path) with
  | [] | RootDir :: _ => None
  | _ :: rest => Some (render (rev rest))
  end.

(** What happens to each call: [None], it is served; [Some n], it fails, a write after [n]
    bytes. *)
Abbreviation Faults := (nat → option nat) (only parsing).

(** A program: the calls made so far, the disks so far, newest first, and the outcome. *)
Record World : Type := mkWorld {
  calls : nat;
  disk : Disk;
  past : list Disk
}.

Definition io (A : Type) : Type := Faults → World → World * result A CryptoError.

Definition io_ret {A} (a : A) : io A := λ _ w, (w, Ok a).
Definition io_err {A} (e : CryptoError) : io A := λ _ w, (w, Err e).
Definition io_bind {A B} (m : io A) (k : A → io B) : io B := λ fl w,
  match m fl w with
  | (w, Ok a) => k a fl w
  | (w, Err e) => (w, Err e)
  end.

Notation "'try!' x ':=' m 'in' k" := (io_bind m (λ x, k))
  (at level 10, x name, m at level 100, k at level 200, only parsing) : loon_scope.
Notation "'do!' m ';' k" := (io_bind m (λ _, k))
  (at level 10, m at level 100, k at level 200, only parsing) : loon_scope.

(** One call of the operating system. *)
Definition call {A} (f : option nat → Disk → Disk * result A CryptoError) : io A := λ fl w,
  let '(d, r) := f (fl (calls w)) (disk w) in
  (mkWorld (S (calls w)) d (disk w :: past w), r).

(** [Path::exists]: an error counts as absence. *)
Definition looks_present (path : string) : io bool :=
  call (λ f d, (d, Ok (match f with None => bool_decide (is_Some (d !! path)) | Some _ => false end))).

(** [metadata(path)]: the permission bits. *)
Definition metadata (path : string) : io Z :=
  call (λ f d, (d, match f, d !! path with None, Some e => Ok (mode e) | _, _ => Err (Read path) end)).

Definition metadata_ok (path : string) : io (option Z) :=
  call (λ f d, (d, Ok (match f with None => mode <$> d !! path | Some _ => None end))).

Definition set_permissions (path : string) (m : Z) : io unit :=
  call (λ f d,
    match f, d !! path with
    | None, Some e => (<[path := mkEntry (contents e) m]> d, Ok ())
    | _, _ => (d, Err (Write path))
    end).

Definition read_to_string (path : string) : io string :=
  call (λ f d,
    (d, match f, d !! path with
        | None, Some (mkEntry (Some s) _) => Ok s
        | _, _ => Err (Read path)
        end)).

(** The ancestors of a directory below the root, itself last. *)
Fixpoint prefixes (done todo : list Component) : list string :=
  match todo with
  | [] => []
  | RootDir :: todo => prefixes (done ++ [RootDir]) todo
  | c :: todo => render (done ++ [c]) :: prefixes (done ++ [c]) todo
  end.

(** [DirBuilder::new().recursive(true).mode(m).create(dir)]: the directories that are missing
    are made, an existing one stays as it is, a file in the way is an error. *)
Fixpoint make_dirs (m : Z) (paths : list string) (d : Disk) : option Disk :=
  match paths with
  | [] => Some d
  | p :: paths =>
      match d !! p with
      | None => make_dirs m paths (<[p := mkEntry None m]> d)
      | Some (mkEntry None _) => make_dirs m paths d
      | Some (mkEntry (Some _) _) => None
      end
  end.

Definition PRIVATE_FILE : Z := 384.
Definition PRIVATE_DIR : Z := 448.

Section Keys.
Context `{Rsa} `{PayloadText} (umask : Z).

(** What a mode becomes on a new file or directory. *)
Definition masked (m : Z) : Z := Z.land m (Z.lnot umask).

Definition create_dirs (dir : string) : io unit :=
  call (λ f d,
    match f, make_dirs (masked PRIVATE_DIR) (prefixes [] (components dir)) d with
    | None, Some d' => (d', Ok ())
    | _, _ => (d, Err (Write dir))
    end).

Definition is_directory (d : Disk) (p : string) : bool :=
  match d !! p with Some (mkEntry None _) => true | _ => false end.

Definition has_parent (d : Disk) (path : string) : bool :=
  match path_parent path with Some dir => (dir =? "")%string || is_directory d dir | None => false end.

(** [OpenOptions] with [write], [create] and [truncate]; an existing file keeps its mode. *)
Definition open_truncated (path : string) : io unit :=
  call (λ f d,
    match f, d !! path with
    | None, Some (mkEntry (Some _) m) => (<[path := mkEntry (Some "") m]> d, Ok ())
    | None, None =>
        if has_parent d path then (<[path := mkEntry (Some "") (masked PRIVATE_FILE)]> d, Ok ())
        else (d, Err (Write path))
    | _, _ => (d, Err (Write path))
    end).

(** [write_all] to the file that has just been opened. *)
Definition write_all (path bytes : string) : io unit :=
  call (λ f d,
    let to s := match d !! path with Some e => <[path := mkEntry (Some s) (mode e)]> d | None => d end in
    match f with
    | None => (to bytes, Ok ())
    | Some n => (to (substring 0 n bytes), Err (Write path))
    end).

Record SigningKey : Type := mkSigningKey {
  private_key : RsaPrivateKey;
  spki_pem : string
}.

Definition from_private (k : RsaPrivateKey) : io SigningKey :=
  match to_public_key_pem k with
  | Some pem => io_ret (mkSigningKey k pem)
  | None => io_err EncodeSpki
  end.

Definition sign_value (key : SigningKey) (value : string) : result string CryptoError :=
  match rsa_sign (private_key key) (sha1_digest value) with
  | Some signature => Ok (base64_encode signature)
  | None => Err Sign
  end.

Definition create_key_dir (dir : string) : io unit :=
  try! there := looks_present dir in
  if (there : bool) then set_permissions dir PRIVATE_DIR else create_dirs dir.

Definition write_key_file (path bytes : string) : io unit :=
  do! open_truncated path; write_all path bytes.

(** The directory that holds the key, if the path names one. *)
Definition key_dir (path : string) : option string :=
  match path_parent path with
  | Some dir => if (dir =? "")%string then None else Some dir
  | None => None
  end.

Definition repair_key_perms (path : string) : io unit :=
  try! file_mode := metadata path in
  do! (if (Z.land file_mode 511 =? PRIVATE_FILE)%Z then io_ret () else set_permissions path PRIVATE_FILE);
  match key_dir path with
  | None => io_ret ()
  | Some dir =>
      try! dir_mode := metadata_ok dir in
      match dir_mode with
      | Some m => if (Z.land m 511 =? PRIVATE_DIR)%Z then io_ret () else set_permissions dir PRIVATE_DIR
      | None => io_ret ()
      end
  end.

(** [fresh] is what [RsaPrivateKey::new] would yield. *)
Definition load_or_generate_key (path : string) (fresh : option RsaPrivateKey) : io SigningKey :=
  try! there := looks_present path in
  if (there : bool) then
    do! repair_key_perms path;
    try! pem := read_to_string path in
    match from_pkcs8_pem pem with
    | Some k => from_private k
    | None => io_err ParsePkcs8
    end
  else
    match fresh with
    | None => io_err Generate
    | Some k =>
        do! match key_dir path with Some dir => create_key_dir dir | None => io_ret () end;
        match to_pkcs8_pem k with
        | None => io_err ParsePkcs8
        | Some pem => do! write_key_file path pem; from_private k
        end
    end.

(** [init_crypto]: [slot] is the [OnceLock]; the first key wins. *)
Definition init_crypto (path : string) (fresh : option RsaPrivateKey) (slot : option SigningKey)
  : io (option SigningKey) :=
  try! key := load_or_generate_key path fresh in
  io_ret (Some (default key slot)).

(** What the handlers sign with. *)
Definition signer (slot : option SigningKey) : YggService.Signer := {|
  YggService.SigningKey := SigningKey;
  YggService.sign_value := λ k v, match sign_value k v with Ok s => Some s | Err _ => None end;
  YggService.public_spki_pem := spki_pem;
  YggService.installed := slot
|}.

(** A program from its first call on. *)
Definition start {A} (m : io A) (fl : Faults) (d : Disk) : World * result A CryptoError :=
  m fl (mkWorld 0 d []).

(** ** Rules *)

Definition after {A} (m : io A) (fl : Faults) (w : World) (Q : World → result A CryptoError → Prop) : Prop :=
  Q (m fl w).1 (m fl w).2.

Lemma after_bind {A B} (m : io A) (k : A → io B) fl w Q :
  after m fl w (λ w' r, match r with Ok a => after (k a) fl w' Q | Err e => Q w' (Err e) end) →
  after (io_bind m k) fl w Q.
Proof. unfold after, io_bind. by destruct (m fl w) as [w' [a|e]]. Qed.

Lemma after_ret {A} (a : A) fl w (Q : World → result A CryptoError → Prop) :
  Q w (Ok a) → after (io_ret a) fl w Q.
Proof. done. Qed.

Lemma after_call {A} (f : option nat → Disk → Disk * result A CryptoError) fl w
  (Q : World → result A CryptoError → Prop) :
  (∀ x, x = fl (calls w) → Q (mkWorld (S (calls w)) (f x (disk w)).1 (disk w :: past w)) (f x (disk w)).2) →
  after (call f) fl w Q.
Proof.
  intros HQ. specialize (HQ _ eq_refl). unfold after, call. by destruct (f (fl (calls w)) (disk w)).
Qed.

Lemma after_start {A} (m : io A) fl d w r (Q : World → result A CryptoError → Prop) :
  start m fl d = (w, r) → after m fl (mkWorld 0 d []) Q → Q w r.
Proof. unfold start, after. by intros ->. Qed.

Lemma after_mono {A} (m : io A) fl w (Q Q' : World → result A CryptoError → Prop) :
  (∀ w' r, Q w' r → Q' w' r) → after m fl w Q → after m fl w Q'.
Proof. intros HQ. apply HQ. Qed.

(** Programs that never leave [P]. *)
Definition within {A} (P : Disk → Prop) (m : io A) : Prop :=
  ∀ fl w, P (disk w) →
    after m fl w (λ w' _, P (disk w') ∧ ∃ new, past w' = new ++ past w ∧ Forall P new).

Lemma within_bind {A B} P (m : io A) (k : A → io B) :
  within P m → (∀ a, within P (k a)) → within P (io_bind m k).
Proof.
  intros Hm Hk fl w Hw. apply after_bind. eapply after_mono; [|by apply Hm].
  intros w1 [a|e] (H1 & n1 & E1 & F1); [|by eauto]. eapply after_mono; [|by apply Hk].
  intros w2 _ (H2 & n2 & E2 & F2). split; [done|]. exists (n2 ++ n1).
  split; [by rewrite E2, E1, app_assoc|by apply Forall_app].
Qed.

Lemma within_call {A} P (f : option nat → Disk → Disk * result A CryptoError) :
  (∀ x d, P d → P (f x d).1) → within P (call f).
Proof.
  intros Hf fl w Hw. apply after_call. intros x _. split; cbn; [by apply Hf|].
  exists [disk w]. split; [done|by constructor].
Qed.

Lemma within_ret {A} P (a : A) : within P (io_ret a).
Proof. intros fl w Hw. split; [done|]. by exists []. Qed.

Lemma within_err {A} P e : within P (io_err e : io A).
Proof. intros fl w Hw. split; [done|]. by exists []. Qed.

Lemma within_look {A} P (f : option nat → Disk → result A CryptoError) : within P (call (λ x d, (d, f x d))).
Proof. by apply within_call. Qed.

(** The permissions keep everyone else out. *)
Definition private (m : Z) : Prop := Z.land m 63 = 0%Z.

Lemma private_masked m : private m → private (masked m).
Proof.
  unfold private, masked. intros E. rewrite <- Z.land_assoc, (Z.land_comm (Z.lnot umask)), Z.land_assoc, E. done.
Qed.

(** What is at [path] is private, or as it was in [d0]. *)
Definition shielded (path : string) (d0 : option Entry) (d : Disk) : Prop :=
  ∀ e, d !! path = Some e → private (mode e) ∨ d0 = Some e.

Lemma shielded_insert path d0 p e d :
  private (mode e) → shielded path d0 d → shielded path d0 (<[p := e]> d).
Proof.
  intros He Hd e' Hl. apply lookup_insert_Some in Hl as [[_ <-]|[_ Hl]]; [by left|by apply Hd].
Qed.

Lemma shielded_permissions path d0 p m : private m → within (shielded path d0) (set_permissions p m).
Proof.
  intros Hm. apply within_call. intros x d Hd. destruct x; [done|]. destruct (d !! p) as [e|]; [|done].
  by apply shielded_insert.
Qed.

Lemma shielded_dirs path d0 m paths d d' :
  private m → shielded path d0 d → make_dirs m paths d = Some d' → shielded path d0 d'.
Proof.
  intros Hm. revert d. induction paths as [|p paths IH]; intros d Hd; cbn [make_dirs]; [by intros [= <-]|].
  destruct (d !! p) as [[[s|] m']|]; [done|by apply IH|]. apply IH. by apply shielded_insert.
Qed.

Lemma shielded_create path d0 dir : within (shielded path d0) (create_dirs dir).
Proof.
  apply within_call. intros x d Hd. destruct x; [done|]. destruct (make_dirs _ _ _) as [d'|] eqn:E; [|done].
  eapply shielded_dirs; [|exact Hd|exact E]. by apply private_masked.
Qed.

Lemma shielded_key_dir path d0 dir : within (shielded path d0) (create_key_dir dir).
Proof.
  apply within_bind; [apply within_look|]. intros [|]; [by apply shielded_permissions|apply shielded_create].
Qed.

Lemma shielded_repair path d0 : within (shielded path d0) (repair_key_perms path).
Proof.
  apply within_bind; [apply within_look|]. intros m. apply within_bind; [|intros _].
  { destruct (_ =? _)%Z; [apply within_ret|by apply shielded_permissions]. }
  destruct (key_dir path); [|apply within_ret]. apply within_bind; [apply within_look|]. intros [m'|]; [|apply within_ret].
  destruct (_ =? _)%Z; [apply within_ret|by apply shielded_permissions].
Qed.

Lemma shielded_write path bytes : within (shielded path None) (write_key_file path bytes).
Proof.
  apply within_bind; [|intros _]; apply within_call; intros x d Hd.
  - destruct x; [by destruct (d !! path) as [[[s|] m]|]|].
    destruct (d !! path) as [[[s|] m]|] eqn:E; [|done|].
    + apply shielded_insert; [|done]. by destruct (Hd _ E).
    + destruct (has_parent d path); [|done]. apply shielded_insert; [|done]. by apply private_masked.
  - assert (K : ∀ s, shielded path None (match d !! path with Some e => <[path := mkEntry (Some s) (mode e)]> d | None => d end)).
    { intros s. destruct (d !! path) as [e|] eqn:E; [|done]. apply shielded_insert; [|done]. by destruct (Hd _ E). }
    destruct x; apply K.
Qed.

(** The file holds [pem]. *)
Definition holds (path pem : string) (d : Disk) : Prop := ∃ m, d !! path = Some (mkEntry (Some pem) m).

Definition sealed (path : string) (d : Disk) : Prop := ∃ e, d !! path = Some e ∧ private (mode e).

Lemma within_permissions (P : Disk → Prop) p m :
  (∀ d e, P d → d !! p = Some e → P (<[p := mkEntry (contents e) m]> d)) → within P (set_permissions p m).
Proof.
  intros HP. apply within_call. intros x d Hd. destruct x; [done|]. destruct (d !! p) as [e|] eqn:E; [|done].
  by apply HP.
Qed.

Lemma holds_permissions path pem p m : within (holds path pem) (set_permissions p m).
Proof.
  apply within_permissions. intros d e [m' Hd] He. destruct (decide (p = path)) as [->|Hne].
  - exists m. rewrite lookup_insert_eq. rewrite Hd in He. by injection He as <-.
  - exists m'. by rewrite lookup_insert_ne.
Qed.

Lemma sealed_permissions path p m : private m → within (sealed path) (set_permissions p m).
Proof.
  intros Hm. apply within_permissions. intros d e (e' & Hd & Hp) He. destruct (decide (p = path)) as [->|Hne].
  - eexists. by rewrite lookup_insert_eq.
  - exists e'. by rewrite lookup_insert_ne.
Qed.

Lemma within_dir_repair (P : Disk → Prop) path :
  (∀ dir, within P (set_permissions dir PRIVATE_DIR)) →
  within P (match key_dir path with
            | None => io_ret ()
            | Some dir =>
                try! dir_mode := metadata_ok dir in
                match dir_mode with
                | Some m => if (Z.land m 511 =? PRIVATE_DIR)%Z then io_ret () else set_permissions dir PRIVATE_DIR
                | None => io_ret ()
                end
            end).
Proof.
  intros HP. destruct (key_dir path) as [dir|]; [|apply within_ret].
  apply within_bind; [apply within_look|]. intros [m|]; [|apply within_ret].
  destruct (_ =? _)%Z; [apply within_ret|apply HP].
Qed.

Lemma holds_repair path pem : within (holds path pem) (repair_key_perms path).
Proof.
  apply within_bind; [apply within_look|]. intros m. apply within_bind; [|intros _].
  { destruct (_ =? _)%Z; [apply within_ret|apply holds_permissions]. }
  apply within_dir_repair. intros dir. apply holds_permissions.
Qed.

Lemma within_after {A} P (m : io A) fl w : within P m → P (disk w) → after m fl w (λ w' _, P (disk w')).
Proof. intros Hm Hw. eapply after_mono; [|by apply Hm]. by intros w' r [H' _]. Qed.

Lemma sealed_repair path fl w :
  after (repair_key_perms path) fl w (λ w' r, r = Ok () → sealed path (disk w')).
Proof.
  apply after_bind, after_call. intros x _. cbn [fst snd]. destruct x; [done|].
  destruct (disk w !! path) as [e|] eqn:E; [|done]. apply after_bind.
  assert (S : after (if (Z.land (mode e) 511 =? PRIVATE_FILE)%Z then io_ret () else set_permissions path PRIVATE_FILE)
    fl (mkWorld (S (calls w)) (disk w) (disk w :: past w)) (λ w' r, r = Ok () → sealed path (disk w'))).
  { destruct (Z.eqb_spec (Z.land (mode e) 511) PRIVATE_FILE) as [M|_].
    - intros _. exists e. split; [done|]. unfold private.
      change 63%Z with (Z.land 511 63). by rewrite Z.land_assoc, M.
    - apply after_call. intros x _. cbn [fst snd disk]. destruct x; [done|]. rewrite E. intros _.
      eexists. split; [apply lookup_insert_eq|done]. }
  eapply after_mono; [|exact S]. intros w1 [[]|e1] H1; [|done].
  eapply after_mono; [|apply within_after; [apply within_dir_repair|by apply H1]].
  - by intros w2 r H2 _.
  - intros dir. by apply sealed_permissions.
Qed.

Lemma written path pem fl w :
  after (write_key_file path pem) fl w (λ w' r, r = Ok () → holds path pem (disk w')).
Proof.
  apply after_bind, after_call. intros x _.
  assert (O : ∀ m w1, w1 = mkWorld (S (calls w)) (<[path := mkEntry (Some "") m]> (disk w)) (disk w :: past w) →
    after (write_all path pem) fl w1 (λ w' r, r = Ok () → holds path pem (disk w'))).
  { intros m w1 ->. apply after_call. intros y _. destruct y; [done|].
    intros _. exists m. cbv beta zeta. cbn [fst disk]. rewrite lookup_insert_eq. cbn [fst]. by rewrite lookup_insert_eq. }
  destruct x; [by destruct (disk w !! path) as [[[s|] m]|]|].
  destruct (disk w !! path) as [[[s|] m]|]; [by eapply O|done|].
  destruct (has_parent (disk w) path); [by eapply O|done].
Qed.

(** The key that was answered is the one in the file. *)
Definition stored (path : string) (key : SigningKey) (d : Disk) : Prop :=
  ∃ pem, holds path pem d ∧ from_pkcs8_pem pem = Some (private_key key) ∧
    to_public_key_pem (private_key key) = Some (spki_pem key).

Lemma after_from_private path k pem fl w :
  holds path pem (disk w) → from_pkcs8_pem pem = Some k →
  after (from_private k) fl w (λ w' r, ∀ key, r = Ok key → stored path key (disk w')).
Proof.
  intros Hd Hk. unfold from_private. destruct (to_public_key_pem k) as [spki|] eqn:E; [|done].
  intros key [= <-]. by exists pem.
Qed.

Lemma load_stores path fresh fl w :
  after (load_or_generate_key path fresh) fl w (λ w' r, ∀ key, r = Ok key → stored path key (disk w')).
Proof.
  apply after_bind, after_call. intros x _. cbn [fst snd].
  destruct (match x with None => bool_decide (is_Some (disk w !! path)) | Some _ => false end).
  - apply after_bind. eapply after_mono; [|apply (within_after (λ _, True)); [|done]].
    2: { intros fl' w' _. eapply after_mono; [|apply (shielded_repair path (disk w' !! path))].
         - intros w2 r (_ & new & E & F). split; [done|]. exists new. split; [done|by eapply Forall_impl].
         - intros e He. by right. }
    intros w1 [[]|e] _; [|done]. apply after_bind, after_call. intros y _. cbn [fst snd].
    destruct y; [done|]. destruct (disk w1 !! path) as [[[pem|] m]|] eqn:E; try done.
    destruct (from_pkcs8_pem pem) as [k|] eqn:K; [|done]. eapply after_from_private; [|exact K]. by exists m.
  - destruct fresh as [k|]; [|done]. apply after_bind.
    assert (G : ∀ w1, after (match to_pkcs8_pem k with
        | None => io_err ParsePkcs8
        | Some pem => do! write_key_file path pem; from_private k
        end) fl w1 (λ w' r, ∀ key, r = Ok key → stored path key (disk w'))).
    { intros w1. destruct (to_pkcs8_pem k) as [pem|] eqn:P; [|done]. apply after_bind.
      eapply after_mono; [|apply written]. intros w2 [[]|e] H2; [|done].
      apply after_from_private with (pem := pem); [by apply H2|by apply from_to_pem]. }
    unfold after at 1. destruct (_ fl _) as [w1 [[]|e]]; [apply G|done].
Qed.

(** Repairing permissions touches nothing else. *)
Definition same_contents (d0 d : Disk) : Prop := ∀ p, contents <$> d !! p = contents <$> d0 !! p.

Lemma same_repair path d0 : within (same_contents d0) (repair_key_perms path).
Proof.
  assert (P : ∀ p m, within (same_contents d0) (set_permissions p m)).
  { intros p m. apply within_permissions. intros d e Hd He q. rewrite <- Hd. destruct (decide (p = q)) as [->|Hne].
    - by rewrite lookup_insert_eq, He.
    - by rewrite lookup_insert_ne. }
  apply within_bind; [apply within_look|]. intros m. apply within_bind; [|intros _].
  { destruct (_ =? _)%Z; [apply within_ret|apply P]. }
  apply within_dir_repair. intros dir. apply P.
Qed.

Definition served : Faults := λ _, None.

Lemma served_permissions p m w :
  is_Some (disk w !! p) → after (set_permissions p m) served w (λ _ r, r = Ok ()).
Proof. intros [e He]. apply after_call. intros x ->. cbn. by rewrite He. Qed.

Lemma served_repair path w :
  is_Some (disk w !! path) → after (repair_key_perms path) served w (λ _ r, r = Ok ()).
Proof.
  intros [e He]. apply after_bind, after_call. intros x ->. cbn [served fst snd]. rewrite He.
  apply after_bind. set (w1 := mkWorld _ _ _).
  assert (S : after (if (Z.land (mode e) 511 =? PRIVATE_FILE)%Z then io_ret () else set_permissions path PRIVATE_FILE)
    served w1 (λ _ r, r = Ok ())) by (destruct (_ =? _)%Z; [done|apply served_permissions; by exists e]).
  eapply after_mono; [|exact S]. intros w2 r ->. destruct (key_dir path) as [dir|]; [|done].
  apply after_bind, after_call. intros x ->. cbn [served fst snd].
  destruct (disk w2 !! dir) as [e'|] eqn:E'; cbn [fmap option_fmap option_map]; [|done].
  clear S. destruct (_ =? _)%Z; [done|]. apply served_permissions. by exists e'.
Qed.

Lemma reload path fresh key w :
  stored path key (disk w) →
  after (load_or_generate_key path fresh) served w (λ w' r, r = Ok key ∧ same_contents (disk w) (disk w')).
Proof.
  intros (pem & [m Hd] & Hk & Hs). apply after_bind, after_call. intros x ->. cbn [served fst snd].
  rewrite bool_decide_true by by eexists. apply after_bind. set (w1 := mkWorld _ _ _).
  assert (R : after (repair_key_perms path) served w1 (λ w' r, r = Ok () ∧ same_contents (disk w) (disk w'))).
  { split; [apply served_repair; by eexists|]. by apply (within_after _ _ served w1 (same_repair path (disk w))). }
  eapply after_mono; [|exact R]. intros w2 r [-> Sm]. apply after_bind, after_call. intros x ->. cbn [served fst snd].
  pose proof (Sm path) as Ep. rewrite Hd in Ep. destruct (disk w2 !! path) as [[c m']|]; [|done].
  injection Ep as ->. rewrite Hk. unfold from_private. rewrite Hs. split; [by destruct key|done].
Qed.

(** C17. The key is persistent. Whatever failed on the way, a key that the start-up has got is
    in its file: every later start-up that the disk serves gets the same key, whatever it
    would have generated, and leaves the contents of all files as they are. *)
Theorem key_reloaded path fresh fl d w key :
  start (load_or_generate_key path fresh) fl d = (w, Ok key) →
  ∀ fresh', ∃ w', start (load_or_generate_key path fresh') served (disk w) = (w', Ok key) ∧
    same_contents (disk w) (disk w').
Proof.
  intros E fresh'. assert (St : stored path key (disk w)).
  { exact (after_start _ _ _ _ _ (λ w' r, ∀ key, r = Ok key → stored path key (disk w')) E
      (load_stores path fresh fl (mkWorld 0 d [])) key eq_refl). }
  destruct (start (load_or_generate_key path fresh') served (disk w)) as [w' r] eqn:E'. exists w'.
  apply (after_start _ _ _ _ _ (λ w' r, (w', r) = (w', Ok key) ∧ same_contents (disk w) (disk w')) E').
  eapply after_mono; [|apply (reload path fresh' key (mkWorld 0 (disk w) []) St)].
  by intros w2 r' [-> Sm].
Qed.

Lemma within_private (P : Disk → Prop) k : within P (from_private k).
Proof. unfold from_private. destruct (to_public_key_pem k); [apply within_ret|apply within_err]. Qed.

(** What a start-up does once it knows whether the file is there. *)
Definition load_key (path : string) : io SigningKey :=
  do! repair_key_perms path;
  try! pem := read_to_string path in
  match from_pkcs8_pem pem with Some k => from_private k | None => io_err ParsePkcs8 end.

Definition generate_key (path : string) (fresh : option RsaPrivateKey) : io SigningKey :=
  match fresh with
  | None => io_err Generate
  | Some k =>
      do! match key_dir path with Some dir => create_key_dir dir | None => io_ret () end;
      match to_pkcs8_pem k with
      | None => io_err ParsePkcs8
      | Some pem => do! write_key_file path pem; from_private k
      end
  end.

Lemma within_load (P : Disk → Prop) path : within P (repair_key_perms path) → within P (load_key path).
Proof.
  intros HP. apply within_bind; [done|]. intros _. apply within_bind; [apply within_look|]. intros pem.
  destruct (from_pkcs8_pem pem); [apply within_private|apply within_err].
Qed.

Lemma shielded_generate path fresh : within (shielded path None) (generate_key path fresh).
Proof.
  destruct fresh as [k|]; [|apply within_err]. apply within_bind; [|intros _].
  { destruct (key_dir path); [apply shielded_key_dir|apply within_ret]. }
  destruct (to_pkcs8_pem k); [|apply within_err]. apply within_bind; [apply shielded_write|]. intros _.
  apply within_private.
Qed.

Lemma sealed_load path fl w : after (load_key path) fl w (λ w' r, ∀ key, r = Ok key → sealed path (disk w')).
Proof.
  apply after_bind. eapply after_mono; [|apply sealed_repair]. intros w1 [[]|e] H1; [|done].
  assert (R : within (sealed path) (try! pem := read_to_string path in
    match from_pkcs8_pem pem with Some k => from_private k | None => io_err ParsePkcs8 end)).
  { apply within_bind; [apply within_look|]. intros pem.
    destruct (from_pkcs8_pem pem); [apply within_private|apply within_err]. }
  eapply after_mono; [|apply within_after; [exact R|by apply H1]]. by intros w2 r H2 key _.
Qed.

(** The start-up, when its first call is served. *)
Lemma start_load path fresh fl d :
  fl 0%nat = None →
  start (load_or_generate_key path fresh) fl d
  = (if bool_decide (is_Some (d !! path)) then load_key path else generate_key path fresh) fl (mkWorld 1 d [d]).
Proof.
  intros F. unfold start, load_or_generate_key, looks_present, io_bind at 1, call at 1. cbn [calls disk past]. rewrite F.
  by destruct (bool_decide (is_Some (d !! path))).
Qed.

(** [within], for a start-up. *)
Lemma within_start {A} (P : Disk → Prop) (m : io A) fl d w r :
  within P m → P d → m fl (mkWorld 1 d [d]) = (w, r) → Forall P (disk w :: past w).
Proof.
  intros Hm Hd E. pose proof (Hm fl (mkWorld 1 d [d]) Hd) as W. unfold after in W. rewrite E in W.
  destruct W as (Hw & new & Ep & Fn). constructor; [done|]. cbn in Ep. rewrite Ep.
  apply Forall_app. split; [done|by constructor].
Qed.

(** C16. The key is confined. When the file can be looked up: no moment of the start-up has the
    key file open to others unless it already was, untouched since before; whatever else
    fails, a key that was there stays; and a start-up that succeeds leaves the file closed. *)
Theorem key_confined path fresh fl d w r :
  start (load_or_generate_key path fresh) fl d = (w, r) → fl 0%nat = None →
  Forall (shielded path (d !! path)) (disk w :: past w) ∧
  (∀ pem, holds path pem d → Forall (holds path pem) (disk w :: past w)) ∧
  (∀ key, r = Ok key → sealed path (disk w)).
Proof.
  intros E F. rewrite start_load in E by done. case_bool_decide as X.
  - split_and!.
    + eapply within_start; [apply within_load, shielded_repair| |exact E]. intros e He. by right.
    + intros pem Hp. eapply within_start; [apply within_load, holds_repair|exact Hp|exact E].
    + pose proof (sealed_load path fl (mkWorld 1 d [d])) as S. unfold after in S. by rewrite E in S.
  - assert (N : d !! path = None) by (by apply eq_None_not_Some).
    assert (Sh : Forall (shielded path None) (disk w :: past w)).
    { eapply within_start; [apply shielded_generate| |exact E]. intros e He. congruence. }
    rewrite N. split_and!; [done|intros pem [m Hp]; congruence|].
    intros key ->. apply Forall_cons in Sh as [Sh _].
    pose proof (load_stores path fresh fl (mkWorld 0 d [])) as L. unfold after in L.
    fold (start (load_or_generate_key path fresh) fl d) in L.
    rewrite start_load, bool_decide_false, E in L by done. destruct (L key eq_refl) as (pem & [m Hp] & _).
    exists (mkEntry (Some pem) m). split; [done|]. by destruct (Sh _ Hp).
Qed.
End Keys.

(** ** On a concrete disk *)

Definition toy_rsa : Rsa.
Proof.
  refine {| RsaPrivateKey := string; sha1_digest := λ s, s; rsa_sign := λ k s, Some (k +:+ s);
            to_pkcs8_pem := λ k, Some ("PEM" +:+ k +:+ ".");
            from_pkcs8_pem := λ s, match str_rev <$> strip_prefix "PEM" s with
                                   | Some (String "." r) => Some (str_rev r)
                                   | _ => None
                                   end;
            to_public_key_pem := λ k, Some ("PUB" +:+ k) |}.
  intros k s [= <-]. change (strip_prefix "PEM" ?x) with (Some (k +:+ ".")). cbn [fmap option_fmap option_map].
  rewrite str_rev_app. change (str_rev "." +:+ str_rev k) with (String "." (str_rev k)). cbv iota beta.
  by rewrite str_rev_involutive.
Defined.

Definition key_path : string := "data/yggdrasil/active.key.pem".

Definition fresh_disk : gmap string Entry := {["data" := mkEntry None 493]}.

(** A key that everyone may read, as an old version left it. *)
Definition old_disk : gmap string Entry :=
  {["data" := mkEntry None 493; "data/yggdrasil" := mkEntry None 493; key_path := mkEntry (Some "PEMold.") 420]}.

Abbreviation load fresh := (load_or_generate_key (H := toy_rsa) 18 key_path (Some fresh)) (only parsing).

(** Served up to call [n], which fails. *)
Definition failing (n k : nat) (i : nat) : option nat := if (i =? n)%nat then Some k else None.

Lemma key_reloaded_witness :
  let r := start (load "new") served fresh_disk in
  r.2 = Ok (mkSigningKey (H := toy_rsa) "new" "PUBnew") ∧
  mode <$> disk r.1 !! key_path = Some PRIVATE_FILE ∧ mode <$> disk r.1 !! "data/yggdrasil" = Some PRIVATE_DIR ∧
  ∃ w', start (load "other") served (disk r.1) = (w', Ok (mkSigningKey (H := toy_rsa) "new" "PUBnew")) ∧
    same_contents (disk r.1) (disk w').
Proof.
  split; [vm_compute; reflexivity|]. split; [vm_compute; reflexivity|]. split; [vm_compute; reflexivity|].
  apply (key_reloaded (H := toy_rsa) 18 key_path (Some "new") served fresh_disk).
  vm_compute. reflexivity.
Defined.

(** The old key is kept and closed, although reading it fails afterwards. *)
Lemma key_confined_witness :
  let r := start (load "new") (failing 5 0) old_disk in
  r.2 = Err (Read key_path) ∧ holds key_path "PEMold." (disk r.1) ∧ mode <$> disk r.1 !! key_path = Some PRIVATE_FILE ∧
  mode <$> disk r.1 !! "data/yggdrasil" = Some PRIVATE_DIR.
Proof.
  split; [vm_compute; reflexivity|]. split; [|split; vm_compute; reflexivity].
  destruct (key_confined (H := toy_rsa) 18 key_path (Some "new") (failing 5 0) old_disk _ _
    (surjective_pairing _) eq_refl) as (_ & K & _).
  specialize (K "PEMold." ltac:(exists 420%Z; vm_compute; reflexivity)). by inversion K.
Defined.

(** When the file cannot be looked up, it counts as missing: the key is replaced for good, and
    the file keeps its permissions. *)
Example lookup_failure_replaces_key :
  let r := start (load "new") (failing 0 0) old_disk in
  r.2 = Ok (mkSigningKey (H := toy_rsa) "new" "PUBnew") ∧ disk r.1 !! key_path = Some (mkEntry (Some "PEMnew.") 420).
Proof. vm_compute. by split. Qed.

(** A write that fails half way leaves a file that no later start-up accepts. *)
Example half_written_key :
  let r := start (load "new") (failing 4 4) fresh_disk in
  let r' := start (load "new") served (disk r.1) in
  r.2 = Err (Write key_path) ∧ contents <$> disk r.1 !! key_path = Some (Some "PEMn") ∧
  r'.2 = Err ParsePkcs8.
Proof. vm_compute. by repeat split. Qed.
