(* ===== verification/Queries.v ===== *)
(** * Queries the network handlers share

    [crates/network/src/queries.rs], [join::fetch_user_dto], and the analytics write
    [crates/core/src/analytics.rs]. *)

From S2P Require Import Prelude RustStr Errors Models Table Realtime Schema Prog Invariant.

(** [user_a_id = LEAST(a, b) AND user_b_id = GREATEST(a, b)]. *)
Definition is_pair (a b : Uuid) (f : Friendship) : bool :=
  (fs_user_a_id f =? N.min a b)%N && (fs_user_b_id f =? N.max a b)%N.

Definition friends (a b : Uuid) (db : Db) : bool :=
  exists_row (λ _ f, is_pair a b f) (friendships db).

Definition are_friends (a b : Uuid) : prog (AppResult bool) := select (λ _ db, friends a b db).

Definition user_exists (id : Uuid) : prog (AppResult bool) := select (λ _ db, is_row id (users db)).

(** The columns of [users] that the row queries join: [None] when the join is empty. *)
Definition join_user (id : Uuid) (db : Db) : option UserDto := user_dto id <$> users db !! id.

Definition fetch_user_dto (id : Uuid) : prog (AppResult UserDto) :=
  let? user := select (λ _ db, users db !! id) in
  let? user := lift (ok_or (NotFound "user not found") user) in
  ret_ok (user_dto id user).

(** [analytics::record_event], and the detached task of [spawn_event], whose insert is
    taken where the task is spawned; the event's JSON is not modelled. *)
Definition insert_event (event_type : string) (user_id : option Uuid) (t : Tick) (db : Db)
  : SqlResult (Db * unit) :=
  try _ := match user_id with
           | Some u => fk "user_events_user_id_fkey" u (users db)
           | None => Ok ()
           end in
  try m := insert_row "user_events_pkey" [] (t_uuid t)
             (mkUserEvent user_id event_type (t_db t)) (user_events db) in
  Ok (set_user_events m db, ()).

Definition record_event (event_type : string) (user_id : option Uuid) : prog (SqlResult unit) :=
  sql (insert_event event_type user_id).

Definition spawn_event (event_type : string) (user_id : option Uuid) : prog unit :=
  ignore (record_event event_type user_id).

(** ** Lemmas *)

(** The two users are friends. *)
Definition befriended (a b : Uuid) (db : Db) : Prop :=
  ∃ k f, friendships db !! k = Some f ∧ fs_user_a_id f = N.min a b ∧ fs_user_b_id f = N.max a b.

Lemma is_pair_true a b f :
  is_pair a b f = true ↔ fs_user_a_id f = N.min a b ∧ fs_user_b_id f = N.max a b.
Proof. unfold is_pair. by rewrite andb_true_iff, !N.eqb_eq. Qed.

Lemma friends_spec a b db : friends a b db = true ↔ befriended a b db.
Proof.
  unfold friends, befriended. rewrite exists_row_true. by setoid_rewrite is_pair_true.
Qed.

Lemma befriended_sym a b db : befriended a b db ↔ befriended b a db.
Proof. unfold befriended. by rewrite N.min_comm, N.max_comm. Qed.

Lemma friends_sym a b db : friends a b db = friends b a db.
Proof. unfold friends, is_pair. by rewrite N.min_comm, N.max_comm. Qed.

(** Order of the users in an ordered pair. *)
Lemma pair_of_ordered a b f :
  (fs_user_a_id f < fs_user_b_id f)%N →
  is_pair a b f = true ↔
  (fs_user_a_id f = a ∧ fs_user_b_id f = b) ∨ (fs_user_a_id f = b ∧ fs_user_b_id f = a).
Proof. intros Ho. rewrite is_pair_true. lia. Qed.

Section QueriesSchema.
Context `{Lowercase}.

Lemma insert_event_schema ty u t db db' x :
  insert_event ty u t db = Ok (db', x) → schema_rel db db'.
Proof.
  unfold insert_event. rewrite and_then_ok. intros ([] & Hfk & E).
  apply and_then_ok in E as (m & (_ & -> & _)%insert_row_ok & [= <- <-]). intros S.
  apply schema_set_user_events; [done|]. apply table_ok_insert; [by index_side|done| |apply S].
  simpl. destruct u; [by apply fk_ok in Hfk|done].
Qed.

Lemma spawn_event_schema ty u : prog_rel (db_rel schema_rel) (spawn_event ty u).
Proof.
  unfold spawn_event, record_event. prog_rel_go. intros t db db' b. apply insert_event_schema.
Qed.
End QueriesSchema.

#[export] Hint Resolve spawn_event_schema : loon.

(** A detached event, whether or not it could be written, changes at most the event log. *)
Lemma wp_spawn_event ty u T st (Q : AppState → unit → Prop) :
  (∀ m, Q (set_db (set_user_events m (st_db st)) st) ()) → wp (spawn_event ty u) T st Q.
Proof.
  intros HQ. apply wp_ignore. unfold record_event. apply wp_sql. intros t _.
  assert (Q st ()) by (specialize (HQ (user_events (st_db st))); by destruct st as [[] ? ? ? ? ?]).
  destruct (t_fault t); [done|]. destruct (insert_event ty u t (st_db st)) as [[db b]|e] eqn:E; [|done].
  unfold insert_event in E. apply and_then_ok in E as (? & _ & E).
  apply and_then_ok in E as (m & _ & [= <- <-]). apply HQ.
Qed.
