(* ===== verification/Account.v ===== *)
(** * Accounts of the launcher

    [crates/yggdrasil/src/account.rs]: log in, register, refresh, log out and [me] under
    [/api/auth]. Logging in opens a session of the service and a token pair of the game. *)

From S2P Require Import Prelude RustStr Errors YggUuid Models Table Realtime Schema Prog.
From S2P Require Import Auth YggTokens Invariant AuthSchema Identity Queries.

Record SessionDto : Type := mkSessionDto { sd_token : string; sd_expires_at : Time }.

Record MinecraftTokens : Type := mkMinecraftTokens {
  mt_access_token : string;
  mt_client_token : string
}.

Record AccountDto : Type := mkAccountDto {
  ac_id : Uuid;
  ac_username : string;
  ac_email : option string;
  ac_uuid : option string;
  ac_is_admin : bool
}.

Definition account_dto (user : Keyed User) : AccountDto :=
  mkAccountDto (key user) (u_username (row user)) (u_email (row user))
    (u_profile_uuid (row user)) (u_is_admin (row user)).

Record AuthResponse : Type := mkAuthResponse {
  ar_session : SessionDto;
  ar_minecraft : MinecraftTokens;
  ar_profile : AccountDto
}.

Section Account.
Context `{Lowercase} `{PasswordHashing} `{UuidText} `{Primitives} (cfg : Config).

Definition auth_response (user : Keyed User) : prog (AppResult AuthResponse) :=
  let? session := issue_session (key user) (session_ttl cfg) in
  let? ygg := issue_yggdrasil_tokens (key user) None (ygg_token_ttl cfg)
                (ygg_max_tokens_per_user cfg) in
  ret_ok (mkAuthResponse (mkSessionDto (token session) (is_expires_at session))
            (mkMinecraftTokens (access_token ygg) (client_token ygg)) (account_dto user)).

Definition login (username password : string) : prog (AppResult AuthResponse) :=
  let? user := authenticate_password username password in
  auth_response user.

Definition register (username email password : string) : prog (AppResult AuthResponse) :=
  let? user := register_user username email password in
  do* spawn_event "new_user" (Some (key user));
  auth_response user.

(** Revoke the session the request presents, if it presents one. *)
Definition revoke_presented (h : HeaderMap) : prog (AppResult unit) :=
  match session_token_from_headers h (admin_cookie_name cfg) with
  | Some token => do? revoke_session token; ret_ok ()
  | None => ret_ok ()
  end.

(** [auth] is what the extractor [Auth.auth_user] let through. *)
Definition refresh (auth : Keyed User) (h : HeaderMap) : prog (AppResult AuthResponse) :=
  do? revoke_presented h;
  auth_response auth.

Definition logout (h : HeaderMap) : prog (AppResult unit) :=
  do? revoke_presented h; ret_ok ().

Definition me (auth : Keyed User) : prog (AppResult AccountDto) := ret_ok (account_dto auth).
End Account.

(** ** Lemmas *)

Section AccountLemmas.
Context `{Lowercase} `{PasswordHashing} `{UuidText} `{Primitives} (cfg : Config).

Lemma exec_user_from_token tok id u now o st :
  (∀ i, calm now (o i)) → uniq sessions_token_hash_key (sessions (st_db st)) →
  authenticates tok now (st_db st) id u →
  exec (user_from_token tok) o st = (st, Ok (mkKeyed id u)).
Proof.
  intros Ho U A. destruct (exec _ _ _) as [st' r] eqn:E. exec_start E (calm now).
  apply wp_user_from_token; [intros t (F & _); congruence|]. intros t (F & D & _) _. rewrite <- D in A.
  by apply (query_user_of_token_spec tok t _ id u U) in A as ->.
Qed.

(** What [auth_response] leaves of the answer [resp] for the account [x]. *)
Record opened (now : Time) (x : Keyed User) (resp : AuthResponse) (st st' : AppState) : Prop := {
  op_users : users (st_db st') = users (st_db st);
  op_profile : ar_profile resp = account_dto x;
  op_sessions_uniq : uniq sessions_token_hash_key (sessions (st_db st'));
  op_session : ∃ k s, sessions (st_db st') !! k = Some s ∧
    s_token_hash s = hash_token (sd_token (ar_session resp)) ∧ s_revoked_at s = None ∧
    s_expires_at s = sd_expires_at (ar_session resp) ∧ s_user_id s = key x;
  op_only : ∀ k s, sessions (st_db st') !! k = Some s → sessions (st_db st) !! k = Some s
    ∨ s_token_hash s = hash_token (sd_token (ar_session resp));
  op_tokens_uniq : uniq yggdrasil_tokens_access_token_key (yggdrasil_tokens (st_db st'));
  op_token : ∃ k t, yggdrasil_tokens (st_db st') !! k = Some t ∧
    yt_access_token_hash t = hash_token (mt_access_token (ar_minecraft resp)) ∧
    yt_expires_at t = (now + default (secs 1296000) (from_std (ygg_token_ttl cfg)))%Z ∧
    yt_client_token t = mt_client_token (ar_minecraft resp) ∧ yt_user_id t = key x
}.

(** Every launcher token was issued before [now]. *)
Definition tokens_before (now : Time) (db : Db) : Prop :=
  ∀ k r, yggdrasil_tokens db !! k = Some r → (yt_issued_at r < now)%Z.

Lemma wp_auth_response x now st (Q : AppState → AppResult AuthResponse → Prop) :
  uniq sessions_token_hash_key (sessions (st_db st)) →
  uniq yggdrasil_tokens_access_token_key (yggdrasil_tokens (st_db st)) →
  tokens_before now (st_db st) →
  (∀ st' e, Q st' (Err e)) →
  (∀ st' resp, opened now x resp st st' → Q st' (Ok resp)) →
  wp (auth_response cfg x) (calm now) st Q.
Proof.
  intros US UT Old HE HOk. unfold auth_response. apply wp_bind_ok, wp_issue_session; [by eauto|].
  intros s0 s1 s2 _ _ _ tok exp db' Hi. apply wp_bind_ok, wp_issue; [by eauto|].
  intros t0 t1 t2 t3 c db1 db2 n _ (F1 & D1 & A1) (F2 & D2 & A2) _ _ acc texp Hy Hev.
  apply wp_ret, HOk. cbn [st_db set_db] in *.
  apply insert_session_ok in Hi as (_ & Hn & -> & Hv). cbn [set_sessions] in *.
  set (s := mkSession (key x) (hash_token tok) exp None (t_db s2)) in *.
  destruct (issue_rows _ _ _ _ _ _ _ _ _ _ _ Hy Hev) as (HU & _).
  assert (HS : sessions db2 = <[t_uuid s2 := s]> (sessions (st_db st))).
  { pose proof (insert_ygg_token_ok _ _ _ _ _ _ _ _ Hy) as (_ & -> & _).
    destruct (0 <? _)%Z; [by injection Hev as <- _|by subst db2]. }
  split; cbn [st_db set_db]; rewrite ?HS; try done.
  - apply uniq_insert; auto with loon. by apply (proj1 (violated_None _ _ _ _) Hv), list_elem_of_singleton.
  - exists (t_uuid s2), s. by rewrite lookup_insert_eq.
  - intros k r [[_ <-]|[_ Hk]]%lookup_insert_Some; auto.
  - by eapply issue_uniq.
  - exists (t_uuid t2). eexists. split; [eapply issue_row_kept; [exact Hy|exact Hev|]|].
    + intros k r Hk. rewrite D2. by eapply Old.
    + cbn. subst texp. by rewrite A1.
Qed.

(** The session of the answer works until it expires. *)
Lemma opened_session now x resp st st' now' o' :
  opened now x resp st st' → (∀ i, calm now' (o' i)) →
  users (st_db st) !! key x = Some (row x) → u_blocked (row x) = false →
  (now' < sd_expires_at (ar_session resp))%Z →
  exec (user_from_token (sd_token (ar_session resp))) o' st' = (st', Ok x).
Proof.
  intros [HU _ US (k & s & Hk & Hh & Hr & He & Hid) _ _ _] Ho Hx Hb L. destruct x as [id u].
  eapply exec_user_from_token; [exact Ho|exact US|]. exists k, s. by rewrite HU, He.
Qed.

(** So does the pair. *)
Lemma opened_tokens now x resp st st' now' o' :
  opened now x resp st st' → (∀ i, calm now' (o' i)) →
  users (st_db st) !! key x = Some (row x) → u_blocked (row x) = false →
  u_confirmed (row x) = true →
  (now' < now + default (secs 1296000) (from_std (ygg_token_ttl cfg)))%Z →
  exec (validate_yggdrasil (mt_access_token (ar_minecraft resp))
          (Some (mt_client_token (ar_minecraft resp)))) o' st' = (st', Ok x).
Proof.
  intros [HU _ _ _ _ UT (i & t & Hi & Hth & Hte & Htc & Htu)] Ho Hx Hb Hc L. destruct x as [id u].
  cbn [key row] in *. destruct (exec _ _ _) as [st1 r] eqn:E. exec_start E (calm now').
  eapply wp_conseq; [eapply wp_validate_row; [exact UT|exact Hi|exact Hth]|].
  intros ? ? [-> ->]. rewrite HU, Htu, Hx, Hte, Htc, Hb, Hc, (proj2 (Z.ltb_lt _ _) L). cbn.
  by rewrite String.eqb_refl.
Qed.
End AccountLemmas.

(** ** The schema's invariant *)

Section AccountSchema.
Context `{Lowercase} `{PasswordHashing} `{UuidText} `{Primitives} (cfg : Config).

Lemma auth_response_schema x : prog_rel (db_rel schema_rel) (auth_response cfg x).
Proof. unfold auth_response. prog_rel_go. Qed.

Lemma revoke_presented_schema h : prog_rel (db_rel schema_rel) (revoke_presented cfg h).
Proof. unfold revoke_presented, revoke_session. prog_rel_go. Qed.
Hint Resolve auth_response_schema revoke_presented_schema : loon.

Lemma account_login_schema u p : prog_rel (db_rel schema_rel) (login cfg u p).
Proof. unfold login. prog_rel_go. Qed.
Lemma account_register_schema u e p : prog_rel (db_rel schema_rel) (register cfg u e p).
Proof. unfold register. prog_rel_go. Qed.
Lemma account_refresh_schema a h : prog_rel (db_rel schema_rel) (refresh cfg a h).
Proof. unfold refresh. prog_rel_go. Qed.
Lemma account_logout_schema h : prog_rel (db_rel schema_rel) (logout cfg h).
Proof. unfold logout. prog_rel_go. Qed.
End AccountSchema.

#[export] Hint Resolve account_login_schema account_register_schema account_refresh_schema
  account_logout_schema : loon.

(** ** Properties *)

Section AccountProperties.
Context `{Lowercase} `{PasswordHashing} `{UuidText} `{Primitives} (cfg : Config).

(** C12. One login opens both doors. When it succeeds, and the launcher tokens in the table
    are older, the answer describes an account that the identifier names and whose
    password was given; until they expire, the session token authenticates that account
    and the game's token pair validates as it. *)
Theorem login_opens_both username password now now' o o' st st' resp :
  schema_ok (st_db st) → tokens_before now (st_db st) →
  (∀ i, calm now (o i)) → (∀ i, calm now' (o' i)) →
  exec (login cfg username password) o st = (st', Ok resp) →
  ∃ x u, users (st_db st) !! key x = Some u ∧
    identified (normalize_username (trim username)) u = true ∧ has_password u password ∧
    ar_profile resp = account_dto x ∧
    ((now' < sd_expires_at (ar_session resp))%Z →
       exec (user_from_token (sd_token (ar_session resp))) o' st' = (st', Ok x)) ∧
    ((now' < now + default (secs 1296000) (from_std (ygg_token_ttl cfg)))%Z →
       exec (validate_yggdrasil (mt_access_token (ar_minecraft resp))
               (Some (mt_client_token (ar_minecraft resp)))) o' st' = (st', Ok x)).
Proof.
  intros S Old Ho Ho' Hex. exec_start Hex (calm now). unfold login.
  apply wp_bind_ok, wp_authenticate; [done|]. intros x Hx Hid Hp Hb Hc _ _.
  assert (US : uniq sessions_token_hash_key (sessions (st_db st))).
  { eapply table_ok_uniq; [|apply S]. set_solver. }
  assert (UT : uniq yggdrasil_tokens_access_token_key (yggdrasil_tokens (st_db st))).
  { eapply table_ok_uniq; [|apply S]. set_solver. }
  apply wp_assign; [done|..].
  - intros p _ _. apply wp_auth_response; [done..|]. intros st1 r Hop [= <-].
    exists x, (row x). repeat (split; [done|]). split; [apply Hop|].
    split; [by eapply opened_session|by eapply opened_tokens].
  - intros p t _ _ _ u. destruct (violated _ _ _ _); [done|].
    apply wp_auth_response; [done..|]. intros st1 r Hop [= <-].
    exists (mkKeyed (key x) u), (row x). repeat (split; [done|]). split; [apply Hop|].
    split; [eapply opened_session|eapply opened_tokens]; (done || apply lookup_insert_eq).
  - done.
Qed.

(** Refreshing replaces the session. When it succeeds, the answer's session token
    authenticates the caller until it expires, and the presented token, unless it is the
    new one, no longer authenticates anybody. *)
Theorem refresh_replaces auth h tok now now' o o' st st' resp :
  schema_ok (st_db st) → tokens_before now (st_db st) →
  (∀ i, calm now (o i)) → (∀ i, calm now' (o' i)) →
  users (st_db st) !! key auth = Some (row auth) → u_blocked (row auth) = false →
  session_token_from_headers h (admin_cookie_name cfg) = Some tok →
  exec (refresh cfg auth h) o st = (st', Ok resp) →
  ((now' < sd_expires_at (ar_session resp))%Z →
     exec (user_from_token (sd_token (ar_session resp))) o' st' = (st', Ok auth)) ∧
  (hash_token tok ≠ hash_token (sd_token (ar_session resp)) →
     exec (user_from_token tok) o' st' = (st', Err Unauthorized)).
Proof.
  intros S Old Ho Ho' Hx Hb Htok Hex. exec_start Hex (calm now). unfold refresh, revoke_presented.
  rewrite Htok. apply wp_bind_ok, wp_bind_ok, wp_sql_app. intros t (F & _). rewrite F.
  destruct (revoke_where _ t (st_db st)) as [[db n]|e] eqn:R; [|done].
  pose proof (revoke_where_schema _ _ _ _ _ R S) as S'. injection R as <- <-. apply wp_ret.
  apply wp_auth_response.
  - eapply table_ok_uniq; [|apply S']. set_solver.
  - eapply table_ok_uniq; [|apply S']. set_solver.
  - exact Old.
  - done.
  - intros st1 r Hop [= <-]. split.
    + by eapply opened_session.
    + intros Hne. destruct (exec _ o' _) as [st2 r2] eqn:E. exec_start E (calm now').
      apply wp_user_from_token; [intros t' (F' & _); congruence|]. intros t' _ _.
      destruct (query_user_of_token _ t' _) as [y|] eqn:Q; [|done]. exfalso.
      apply query_user_of_token_auth in Q as (k & s & Hs & Hh & Hr & _).
      apply (op_only _ _ _ _ _ _ Hop) in Hs as [Hs|Hs]; [|congruence].
      cbn [st_db set_db set_sessions sessions] in Hs.
      apply lookup_update_where_Some in Hs as (s0 & _ & ->).
      destruct (_ && _) eqn:P in Hr, Hh; cbn in Hr, Hh; [done|].
      rewrite Hh, String.eqb_refl, Hr in P. done.
Qed.
End AccountProperties.

(** ** Concrete instances *)

Definition toy_account_login :=
  login (H := ascii_lowercase) (H0 := toy_hashing) (H1 := hex_text) (H2 := toy_primitives)
    default_config.

Lemma tokens_beforeb now db :
  forallb (λ kr, (yt_issued_at kr.2 <? now)%Z) (map_to_list (yggdrasil_tokens db)) = true →
  tokens_before now db.
Proof.
  rewrite forallb_forall. intros F k r Hk. apply Z.ltb_lt, (F (k, r)), list_elem_of_In.
  by apply elem_of_map_to_list.
Qed.

(** dora logs in at instant 20. *)
Definition dora_in : AppState := (exec (toy_account_login "dora" "pw") (random_oracle 20 "s1") with_dora).1.
Definition dora_answer : AuthResponse :=
  mkAuthResponse (mkSessionDto "s1" (secs 86400 + 20)) (mkMinecraftTokens "s1" "s1")
    (account_dto dora).

Lemma login_opens_both_witness :
  exec (toy_account_login "dora" "pw") (random_oracle 20 "s1") with_dora = (dora_in, Ok dora_answer) ∧
  ∃ x, account_dto x = account_dto dora ∧
    exec (user_from_token (H := toy_primitives) "s1") (calm_oracle 30) dora_in = (dora_in, Ok x).
Proof.
  assert (E : exec (toy_account_login "dora" "pw") (random_oracle 20 "s1") with_dora
              = (dora_in, Ok dora_answer)).
  { rewrite (surjective_pairing (exec _ _ _)). f_equal; vm_compute; reflexivity. }
  split; [exact E|].
  destruct (login_opens_both (H := ascii_lowercase) (H0 := toy_hashing) (H1 := hex_text)
    (H2 := toy_primitives) default_config "dora" "pw" 20 30 (random_oracle 20 "s1") (calm_oracle 30)
    with_dora dora_in dora_answer with_dora_ok) as (x & u & Hu & _ & _ & Hx & Hs & _).
  - apply tokens_beforeb. vm_compute. reflexivity.
  - intros i. repeat split; reflexivity.
  - apply calm_oracle_calm.
  - exact E.
  - exists x. split; [by rewrite <- Hx|]. apply Hs. vm_compute. reflexivity.
Defined.

Definition bearer_s1 : HeaderMap :=
  λ name, if (name =? AUTHORIZATION)%string then Some "Bearer s1" else None.

Lemma refresh_replaces_witness :
  let r := exec (refresh (H2 := toy_primitives) default_config dora bearer_s1)
             (λ i, mkTick 40 40 (N.of_nat i + 2000) "s2" false) dora_in in
  let resp := mkAuthResponse (mkSessionDto "s2" (secs 86400 + 40)) (mkMinecraftTokens "s2" "s2")
                (account_dto dora) in
  r = (r.1, Ok resp) ∧
  exec (user_from_token (H := toy_primitives) "s2") (calm_oracle 50) r.1 = (r.1, Ok dora) ∧
  exec (user_from_token (H := toy_primitives) "s1") (calm_oracle 50) r.1 = (r.1, Err Unauthorized).
Proof.
  intros r resp. assert (E : r = (r.1, Ok resp)).
  { rewrite (surjective_pairing r) at 1. f_equal; vm_compute; reflexivity. }
  split; [exact E|].
  destruct (refresh_replaces (H := ascii_lowercase) (H2 := toy_primitives) default_config dora bearer_s1 "s1" 40 50
    (λ i, mkTick 40 40 (N.of_nat i + 2000) "s2" false) (calm_oracle 50) dora_in r.1 resp) as [H1 H2].
  - apply schema_okb_sound. vm_compute. reflexivity.
  - apply tokens_beforeb. vm_compute. reflexivity.
  - intros i. repeat split.
  - apply calm_oracle_calm.
  - vm_compute. reflexivity.
  - reflexivity.
  - reflexivity.
  - exact E.
  - split; [apply H1; vm_compute; reflexivity|apply H2; discriminate].
Defined.
