(* ===== verification/Presence.v ===== *)
(** * Presence

    [crates/network/src/presence.rs]: heartbeats, explicit status changes, the effective
    status seen by others, and the fan-out of presence updates to a user's friends. *)

From S2P Require Import Prelude RustStr Errors Models Table Realtime Schema Prog Invariant.
From S2P Require Import Queries.

(** ** The effective status *)

(** [effective_status] at the instant [now] that its [Utc::now()] reads. *)
Definition effective_status_at (now : Time) (stored : PresenceStatus) (last_heartbeat : Time)
  (timeout : Duration) : PresenceStatus :=
  let timeout := default (secs 60) (from_std timeout) in
  if (timeout <? now - last_heartbeat)%Z then Offline else stored.

Definition effective_status (stored : PresenceStatus) (last_heartbeat : Time)
  (timeout : Duration) : prog PresenceStatus :=
  let* now := utc_now in
  Ret (effective_status_at now stored last_heartbeat timeout).

Definition derive_friend_status (base : PresenceStatus) (guest_world_id : option Uuid)
  (current_world_session_id : option Uuid) : PresenceStatus * option Uuid :=
  match guest_world_id with
  | Some world =>
      if negb (bool_decide (base = Offline)) then (InWorld, Some world)
      else if is_in_world base then (base, current_world_session_id)
      else (base, None)
  | None =>
      if is_in_world base then (base, current_world_session_id) else (base, None)
  end.

Section Presence.
Context (cfg : Config).

Definition effective_status_for (user_id : Uuid) : prog (AppResult PresenceStatus) :=
  let? row := select (λ _ db, presence db !! user_id) in
  match row with
  | Some p =>
      let* s := effective_status (from_db (p_status p)) (p_last_heartbeat_at p)
                  (heartbeat_timeout cfg) in
      ret_ok s
  | None => ret_ok Offline
  end.

(** ** Writes *)

(** [status = CASE WHEN presence.status = 'offline' THEN 'online' ELSE ... END]. *)
Definition online_if_offline (status : string) : string :=
  if (status =? "offline")%string then "online" else status.

(** The upsert of [heartbeat] and [mark_online]. *)
Definition upsert_online (user_id : Uuid) (t : Tick) (db : Db) : SqlResult (Db * unit) :=
  match presence db !! user_id with
  | Some p =>
      Ok (set_presence (<[user_id :=
            mkPresence (online_if_offline (p_status p)) (t_db t) (p_minecraft_version p)
              (p_mod_version p) (p_loader p) (p_current_world_session_id p) (t_db t)]>
            (presence db)) db, ())
  | None =>
      try _ := fk "presence_user_id_fkey" user_id (users db) in
      Ok (set_presence (<[user_id :=
            mkPresence "online" (t_db t) None None None None (t_db t)]> (presence db)) db, ())
  end.

Definition heartbeat (user_id : Uuid) : prog (AppResult PresenceStatus) :=
  do? sql_app (upsert_online user_id);
  do* on_metrics (λ m, mkMetrics (bootstraps m) (counter_incr (heartbeats m))
        (friend_requests_created m) (join_tickets_issued m) (relay_sessions_opened m)
        (relay_bytes_forwarded m) (signaling_connections m));
  effective_status_for user_id.

Definition mark_online (user_id : Uuid) : prog (AppResult unit) :=
  sql_app (upsert_online user_id).

Definition mark_offline (user_id : Uuid) : prog (AppResult unit) :=
  sql_app (λ t db,
    Ok (set_presence (update_where (λ k _, (k =? user_id)%N)
          (λ p, mkPresence "offline" (p_last_heartbeat_at p) (p_minecraft_version p)
                  (p_mod_version p) (p_loader p) None (t_db t)) (presence db)) db, ())).

(** ** Fan-out *)

(** [CASE WHEN user_a_id = $1 THEN user_b_id ELSE user_a_id END]. *)
Definition other_of (user_id : Uuid) (f : Friendship) : Uuid :=
  if (fs_user_a_id f =? user_id)%N then fs_user_b_id f else fs_user_a_id f.

Definition involves (user_id : Uuid) (f : Friendship) : bool :=
  (fs_user_a_id f =? user_id)%N || (fs_user_b_id f =? user_id)%N.

Definition friend_ids_in (user_id : Uuid) (db : Db) : list Uuid :=
  map (λ x, other_of user_id (row x)) (select_rows (λ _ f, involves user_id f) (friendships db)).

Definition friend_ids (user_id : Uuid) : prog (AppResult (list Uuid)) :=
  select (λ _ db, friend_ids_in user_id db).

Definition broadcast_presence (user_id : Uuid) : prog (AppResult unit) :=
  let? ids := friend_ids user_id in
  do* for_each ids (λ friend_id, signal friend_id (PresenceUpdate user_id));
  ret_ok ().

(** ** [POST /presence/status] *)

Definition owns_open_world (world_id user_id : Uuid) (db : Db) : bool :=
  match world_sessions db !! world_id with
  | Some w => (ws_host_user_id w =? user_id)%N && is_open (ws_status w)
  | None => false
  end.

Definition upsert_status (user_id : Uuid) (status : string) (world_id : option Uuid)
  (t : Tick) (db : Db) : SqlResult (Db * unit) :=
  try _ := match world_id with
           | Some w => fk "presence_world_fk" w (world_sessions db)
           | None => Ok ()
           end in
  match presence db !! user_id with
  | Some p =>
      Ok (set_presence (<[user_id :=
            mkPresence status (t_db t) (p_minecraft_version p) (p_mod_version p) (p_loader p)
              world_id (t_db t)]> (presence db)) db, ())
  | None =>
      try _ := fk "presence_user_id_fkey" user_id (users db) in
      Ok (set_presence (<[user_id :=
            mkPresence status (t_db t) None None None world_id (t_db t)]> (presence db)) db, ())
  end.

Definition set_status (user_id : Uuid) (status : string) (current_world_session_id : option Uuid)
  : prog (AppResult PresenceStatus) :=
  let? status := lift (ok_or (BadRequest "status must be online, inWorld or joinable")
                         (from_client status)) in
  do? (if is_in_world status then
         match current_world_session_id with
         | Some world_id =>
             let? owns := select (λ _ db, owns_open_world world_id user_id db) in
             if negb owns
             then ret_err (BadRequest "currentWorldSessionId must be your own open world session")
             else ret_ok ()
         | None => ret_ok ()
         end
       else ret_ok ());
  let world_id := if is_in_world status then current_world_session_id else None in
  do? sql_app (upsert_status user_id (as_str status) world_id);
  do* ignore (broadcast_presence user_id);
  ret_ok status.

(** ** [GET /friends], [GET /presence/friends] *)

Record FriendPresenceRow : Type := mkFriendPresenceRow {
  fpr_user : UserDto;
  fpr_normalized_username : string;
  fpr_presence : option Presence;   (* the left join's columns *)
  fpr_guest_world_id : option Uuid
}.

(** An open friends-of-friends world the user is an active guest in. *)
Definition guest_of (user_id : Uuid) (db : Db) (r : RelaySession) : bool :=
  bool_decide (rs_guest_user_id r = Some user_id)
  && (rs_status r =? "active")%string
  && match world_sessions db !! rs_world_session_id r with
     | Some w => is_open (ws_status w) && bool_decide (ws_invite_policy w = FriendsOfFriends)
     | None => false
     end.

(** The lateral join: the newest such world. *)
Definition guest_world (user_id : Uuid) (db : Db) : option Uuid :=
  rs_world_session_id ∘ row <$>
  head (order_by_desc rs_created_at
          (select_rows (λ _ r, guest_of user_id db r) (relay_sessions db))).

Definition friend_row (db : Db) (id : Uuid) : option FriendPresenceRow :=
  (λ u, mkFriendPresenceRow (user_dto id u) (u_normalized_username u) (presence db !! id)
          (guest_world id db)) <$> users db !! id.

(** Text is ordered bytewise. *)
Definition by_name : relation FriendPresenceRow :=
  λ a b, String.leb (fpr_normalized_username a) (fpr_normalized_username b) = true.
#[export] Instance by_name_dec : RelDecision by_name.
Proof. intros a b. unfold by_name. apply _. Defined.

Definition friend_rows (user_id : Uuid) (db : Db) : list FriendPresenceRow :=
  merge_sort by_name (omap (friend_row db) (friend_ids_in user_id db)).

Record FriendPresence : Type := mkFriendPresence {
  fp_user : UserDto;
  fp_status : PresenceStatus;
  fp_current_world_session_id : option Uuid;
  fp_minecraft_version : option string;
  fp_loader : option string
}.

Definition friend_presence (row : FriendPresenceRow) (base : PresenceStatus) : FriendPresence :=
  let p := fpr_presence row in
  let '(status, world) :=
    derive_friend_status base (fpr_guest_world_id row) (p ≫= p_current_world_session_id) in
  mkFriendPresence (fpr_user row) status world (p ≫= p_minecraft_version) (p ≫= p_loader).

Fixpoint friend_presences (rows : list FriendPresenceRow) : prog (list FriendPresence) :=
  match rows with
  | [] => Ret []
  | row :: rows =>
      let* base :=
        match fpr_presence row with
        | Some p => effective_status (from_db (p_status p)) (p_last_heartbeat_at p)
                      (heartbeat_timeout cfg)
        | None => Ret Offline
        end in
      let* rest := friend_presences rows in
      Ret (friend_presence row base :: rest)
  end.

Definition friends_with_presence (user_id : Uuid) : prog (AppResult (list FriendPresence)) :=
  let? rows := select (λ _ db, friend_rows user_id db) in
  let* friends := friend_presences rows in
  ret_ok friends.
End Presence.

(** ** Lemmas *)

Section PresenceSchema.
Context `{Lowercase} (cfg : Config).

Lemma presence_ok_insert db uid p :
  schema_ok db → ref uid (users db) → opt_ref (p_current_world_session_id p) (world_sessions db) →
  schema_ok (set_presence (<[uid := p]> (presence db)) db).
Proof.
  intros S U W. apply schema_set_presence; [done|].
  apply table_ok_insert; [by index_side|done|done|]. apply S.
Qed.

Lemma presence_row_ok db uid p :
  schema_ok db → presence db !! uid = Some p →
  ref uid (users db) ∧ opt_ref (p_current_world_session_id p) (world_sessions db).
Proof. intros S Hp. by apply (ok_presence _ S) in Hp. Qed.

Lemma upsert_online_schema uid t db db' u :
  upsert_online uid t db = Ok (db', u) → schema_rel db db'.
Proof.
  unfold upsert_online. destruct (presence db !! uid) as [p|] eqn:E.
  - intros [= <- <-] S. destruct (presence_row_ok _ _ _ S E). by apply presence_ok_insert.
  - rewrite and_then_ok. intros ([] & Hfk & [= <- <-]) S. apply fk_ok in Hfk.
    by apply presence_ok_insert.
Qed.

Lemma upsert_status_schema uid st w t db db' u :
  upsert_status uid st w t db = Ok (db', u) → schema_rel db db'.
Proof.
  unfold upsert_status. rewrite and_then_ok. intros ([] & Hw & E) S.
  assert (W : opt_ref w (world_sessions db)) by (destruct w; [by apply fk_ok in Hw|done]).
  destruct (presence db !! uid) as [p|] eqn:Ep.
  - injection E as <- _. destruct (presence_row_ok _ _ _ S Ep). by apply presence_ok_insert.
  - apply and_then_ok in E as ([] & Hfk & [= <- <-]). apply fk_ok in Hfk.
    by apply presence_ok_insert.
Qed.

Lemma mark_offline_schema uid : prog_rel (db_rel schema_rel) (mark_offline uid).
Proof.
  unfold mark_offline. prog_rel_step. intros t db db' b [= <- <-] S.
  apply schema_set_presence; [done|]. apply table_ok_update; [by index_side..| |apply S].
  intros k p _ [? _]. by split.
Qed.

Hint Resolve upsert_online_schema upsert_status_schema mark_offline_schema : loon.

(** Reads, and what only touches the hub, are in every relation. *)
Lemma effective_status_for_rel R `{!PreOrder R} uid :
  prog_rel (db_rel R) (effective_status_for cfg uid).
Proof. unfold effective_status_for, effective_status. prog_rel_go. Qed.
Hint Resolve effective_status_for_rel : loon.

Lemma heartbeat_schema uid : prog_rel (db_rel schema_rel) (heartbeat cfg uid).
Proof. unfold heartbeat. prog_rel_go. eauto with loon. Qed.

Lemma mark_online_schema uid : prog_rel (db_rel schema_rel) (mark_online uid).
Proof. unfold mark_online. prog_rel_go. eauto with loon. Qed.

Lemma broadcast_presence_rel R `{!PreOrder R} uid : prog_rel (db_rel R) (broadcast_presence uid).
Proof. unfold broadcast_presence, friend_ids. prog_rel_go. Qed.
Hint Resolve broadcast_presence_rel : loon.

Lemma set_status_schema uid s w : prog_rel (db_rel schema_rel) (set_status uid s w).
Proof. unfold set_status. prog_rel_go. eauto with loon. Qed.

Lemma friends_with_presence_rel R `{!PreOrder R} uid :
  prog_rel (db_rel R) (friends_with_presence cfg uid).
Proof.
  unfold friends_with_presence. prog_rel_go.
  match goal with |- prog_rel _ (friend_presences _ ?l) => induction l; simpl end; [done|].
  unfold effective_status. prog_rel_go.
Qed.
End PresenceSchema.

#[export] Hint Resolve heartbeat_schema mark_online_schema mark_offline_schema
  broadcast_presence_rel set_status_schema friends_with_presence_rel
  effective_status_for_rel : loon.

(** A heartbeat of this instant is in time. *)
Lemma effective_fresh now s timeout :
  (0 ≤ timeout)%Z → effective_status_at now s now timeout = s.
Proof.
  intros HT. unfold effective_status_at. rewrite (proj2 (Z.ltb_ge _ _)); [done|].
  rewrite Z.sub_diag. unfold from_std. by destruct (timeout <=? _)%Z.
Qed.

(** ** Fan-out lemmas *)

Lemma friend_ids_spec uid db f :
  (∀ k r, friendships db !! k = Some r → (fs_user_a_id r < fs_user_b_id r)%N) →
  f ∈ friend_ids_in uid db ↔ befriended uid f db.
Proof.
  intros Ho. unfold friend_ids_in. rewrite list_elem_of_fmap. split.
  - intros ([k r] & -> & Hx). apply elem_of_select_rows in Hx as [Hk Hi]; simpl in *.
    exists k, r. split; [done|]. specialize (Ho _ _ Hk). unfold other_of, involves in *.
    apply orb_true_iff in Hi. rewrite !N.eqb_eq in Hi. case_match; bool_simpl; lia.
  - intros (k & r & Hk & Ha & Hb). exists (mkKeyed k r). specialize (Ho _ _ Hk).
    rewrite elem_of_select_rows. simpl. unfold other_of, involves.
    rewrite orb_true_iff, !N.eqb_eq. case_match; bool_simpl; repeat split; auto; lia.
Qed.

Lemma friend_ids_NoDup uid db :
  (∀ k r, friendships db !! k = Some r → (fs_user_a_id r < fs_user_b_id r)%N) →
  uniq friendships_pair_unique (friendships db) → NoDup (friend_ids_in uid db).
Proof.
  intros Ho Hu. unfold friend_ids_in. apply NoDup_fmap_2_strong; [|apply NoDup_select_rows].
  intros [k1 r1] [k2 r2] H1 H2 E.
  apply elem_of_select_rows in H1 as [H1 I1], H2 as [H2 I2]; simpl in *.
  pose proof (Ho _ _ H1). pose proof (Ho _ _ H2).
  assert (k1 = k2) as <-; [|by simplify_eq].
  eapply (Hu k1 k2 r1 r2 H1 H2). simpl. rewrite andb_true_iff, !N.eqb_eq.
  unfold other_of, involves in *. apply orb_true_iff in I1, I2. rewrite !N.eqb_eq in I1, I2.
  repeat case_match; bool_simpl; lia.
Qed.

Lemma schema_pair_ordered `{Lowercase} db :
  schema_ok db → ∀ k r, friendships db !! k = Some r → (fs_user_a_id r < fs_user_b_id r)%N.
Proof. intros S k r Hk. by apply (ok_friendships _ S) in Hk as (_ & _ & ?). Qed.

Lemma schema_pair_unique `{Lowercase} db :
  schema_ok db → uniq friendships_pair_unique (friendships db).
Proof. intros S. eapply table_ok_uniq; [|apply S]. apply list_elem_of_singleton. done. Qed.

(** Sending one event to each user of a list in turn. *)
Definition fan_out (ids : list Uuid) (ev : ServerEvent) (hub : SignalingHub) : SignalingHub :=
  foldl (λ h f, send_to f ev h) hub ids.

Definition conns_of (hub : SignalingHub) (u : Uuid) : list Connection :=
  default [] (connections hub !! u).

Lemma conns_of_disjoint hub u v tx :
  hub_wf hub → tx ∈ txs (conns_of hub u) → tx ∈ txs (conns_of hub v) → u = v.
Proof.
  unfold conns_of. intros W. destruct (connections hub !! u) eqn:U, (connections hub !! v) eqn:V;
    simpl; try (by intros ? ?%not_elem_of_nil); try (by intros ?%not_elem_of_nil).
  intros H1 H2. by eapply (wf_disjoint _ W u v).
Qed.

Lemma fan_out_spec ids ev hub :
  hub_wf hub → NoDup ids →
  hub_wf (fan_out ids ev hub) ∧
  ∀ tx, channels (fan_out ids ev hub) !! tx =
    if existsb (λ f, bool_decide (tx ∈ txs (conns_of hub f))) ids
    then push ev <$> channels hub !! tx else channels hub !! tx.
Proof.
  revert hub. induction ids as [|f ids IH]; intros hub W Hnd; simpl; [done|].
  apply NoDup_cons in Hnd as [Hf Hnd]. destruct (send_to_spec f ev hub W) as [C1 C2].
  destruct (IH (send_to f ev hub) (hub_wf_send_to f ev hub W) Hnd) as [W' C].
  split; [done|]. intros tx. rewrite C, C1. fold (conns_of hub f).
  assert (E : existsb (λ g, bool_decide (tx ∈ txs (conns_of (send_to f ev hub) g))) ids
    = existsb (λ g, bool_decide (tx ∈ txs (conns_of hub g))) ids).
  { apply eq_true_iff_eq. rewrite !existsb_spec. f_equiv. intros g.
    split; intros [Hg Hx]; (split; [done|]); revert Hx; unfold conns_of;
      rewrite C2, decide_False by (intros ->; by apply Hf); done. }
  rewrite E. clear E C. destruct (bool_decide (tx ∈ txs (conns_of hub f))) eqn:B; simpl; [|done].
  destruct (existsb _ ids) eqn:X; [|done].
  exfalso. apply existsb_spec in X as (g & Hg & Hx). bool_simpl.
  apply Hf. by rewrite (conns_of_disjoint hub f g tx W).
Qed.

Lemma wp_for_each_signal ids ev T st (Q : AppState → unit → Prop) :
  Q (set_signaling (fan_out ids ev (st_signaling st)) st) () →
  wp (for_each ids (λ f, signal f ev)) T st Q.
Proof.
  revert st. induction ids as [|f ids IH]; intros st H; simpl.
  - by destruct st.
  - intros t _. by apply IH.
Qed.

(** A broadcast whose result is ignored changes at most the hub. *)
Lemma wp_ignore_broadcast uid T st (Q : AppState → unit → Prop) :
  (∀ hub, Q (set_signaling hub st) ()) → wp (ignore (broadcast_presence uid)) T st Q.
Proof.
  intros HQ. apply wp_ignore. unfold broadcast_presence, friend_ids. wp_step. wp_step.
  assert (Q st ()) by (specialize (HQ (st_signaling st)); by destruct st).
  fault_case F; [done|]. wp_step. apply wp_for_each_signal. wp_step. apply HQ.
Qed.

(** The status a user is seen with at an instant. *)
Definition status_at (cfg : Config) (now : Time) (uid : Uuid) (db : Db) : PresenceStatus :=
  match presence db !! uid with
  | Some p => effective_status_at now (from_db (p_status p)) (p_last_heartbeat_at p)
                (heartbeat_timeout cfg)
  | None => Offline
  end.

Lemma wp_effective_status_for cfg uid now st (Q : AppState → AppResult PresenceStatus → Prop) :
  Q st (Ok (status_at cfg now uid (st_db st))) →
  wp (effective_status_for cfg uid) (calm now) st Q.
Proof.
  intros HQ. unfold effective_status_for, effective_status. wp_calm. unfold status_at in HQ.
  destruct (presence (st_db st) !! uid); by wp_calm.
Qed.

(** ** The list of friends *)

Lemma friend_presences_spec cfg rows now st Q :
  Q st (map (λ r, friend_presence r
          match fpr_presence r with
          | Some p => effective_status_at now (from_db (p_status p)) (p_last_heartbeat_at p)
                        (heartbeat_timeout cfg)
          | None => Offline
          end) rows) →
  wp (friend_presences cfg rows) (calm now) st Q.
Proof.
  revert Q. induction rows as [|r rows IH]; intros Q HQ; [done|]. cbn [friend_presences].
  wp_step. unfold effective_status. revert HQ.
  cbn [map]. destruct (fpr_presence r) as [p|]; intros HQ; wp_calm; apply IH; wp_calm; done.
Qed.

Lemma friend_rows_spec `{Lowercase} uid db :
  schema_ok db →
  map (dto_id ∘ fpr_user) (friend_rows uid db) ≡ₚ friend_ids_in uid db ∧
  ∀ r, r ∈ friend_rows uid db → friend_row db (dto_id (fpr_user r)) = Some r.
Proof.
  intros S. unfold friend_rows. split.
  - rewrite merge_sort_Permutation.
    assert (F : ∀ f, f ∈ friend_ids_in uid db → is_Some (users db !! f)).
    { intros f Hf. apply list_elem_of_fmap in Hf as ([k r] & -> & Hx).
      apply elem_of_select_rows in Hx as [Hk _]; simpl in *.
      apply (ok_friendships _ S) in Hk as (Ha & Hb & _). unfold other_of. by case_match. }
    induction (friend_ids_in uid db) as [|f l IH]; simpl; [done|].
    destruct (F f) as [u Hu]; [constructor|]. unfold friend_row at 1. rewrite Hu. simpl.
    constructor. apply IH. intros g Hg. apply F. by constructor.
  - intros r. rewrite merge_sort_Permutation, list_elem_of_omap. intros (f & _ & Hr).
    unfold friend_row in Hr. destruct (users db !! f) as [u|] eqn:U; [|done].
    injection Hr as <-. simpl. unfold friend_row. by rewrite U.
Qed.

Lemma guest_world_spec uid db w :
  guest_world uid db = Some w →
  ∃ k r ws, relay_sessions db !! k = Some r ∧ rs_guest_user_id r = Some uid
    ∧ rs_status r = "active" ∧ rs_world_session_id r = w
    ∧ world_sessions db !! w = Some ws ∧ ws_status ws = Open
    ∧ ws_invite_policy ws = FriendsOfFriends.
Proof.
  unfold guest_world. destruct (head _) as [x|] eqn:E; [|done]. intros [= <-].
  assert (Hx : x ∈ order_by_desc rs_created_at
    (select_rows (λ _ r, guest_of uid db r) (relay_sessions db))).
  { destruct (order_by_desc _ _); [done|]. injection E as ->. constructor. }
  apply elem_of_order_by_desc, elem_of_select_rows in Hx as [Hx G].
  unfold guest_of in G. destruct (world_sessions db !! _) as [ws|] eqn:W; [|by rewrite andb_false_r in G].
  unfold is_open in G. bool_simpl. simpl. eauto 12.
Qed.

(** ** Properties *)

(** What a viewer may be shown about one friend. *)
Definition shown (cfg : Config) (now : Time) (db : Db) (e : FriendPresence) : Prop :=
  let f := dto_id (fp_user e) in
  let base := status_at cfg now f db in
  (fp_status e = Offline ↔ base = Offline) ∧
  (∀ w, fp_current_world_session_id e = Some w →
     is_in_world (fp_status e) = true ∧
     ((∃ k r ws, relay_sessions db !! k = Some r ∧ rs_guest_user_id r = Some f
         ∧ rs_status r = "active" ∧ rs_world_session_id r = w
         ∧ world_sessions db !! w = Some ws ∧ ws_status ws = Open
         ∧ ws_invite_policy ws = FriendsOfFriends)
      ∨ ∃ p, presence db !! f = Some p ∧ p_current_world_session_id p = Some w)).

Lemma friend_presence_shown cfg now db r :
  friend_row db (dto_id (fpr_user r)) = Some r →
  shown cfg now db (friend_presence r
    match fpr_presence r with
    | Some p => effective_status_at now (from_db (p_status p)) (p_last_heartbeat_at p)
                  (heartbeat_timeout cfg)
    | None => Offline
    end).
Proof.
  unfold friend_row. destruct (users db !! _) as [u|] eqn:U; [|done]. intros [= E].
  assert (P : fpr_presence r = presence db !! dto_id (fpr_user r)) by (by rewrite <- E).
  assert (G : fpr_guest_world_id r = guest_world (dto_id (fpr_user r)) db) by (by rewrite <- E).
  unfold shown, friend_presence. rewrite G, P. clear E U G P u.
  set (f := dto_id (fpr_user r)).
  change (match presence db !! f with Some _ => _ | None => _ end) with (status_at cfg now f db).
  set (base := status_at cfg now f db).
  unfold derive_friend_status.
  destruct (guest_world f db) as [w|] eqn:GW.
  - destruct (bool_decide_reflect (base = Offline)) as [B|B]; simpl.
    + rewrite B. simpl. done.
    + split; [by split|]. intros w' [= <-]. split; [done|]. left. by apply guest_world_spec.
  - destruct (is_in_world base) eqn:I; simpl; (split; [done|]); [|done].
    intros w Hw. split; [done|]. right. fold f. subst base. unfold status_at in I.
    destruct (presence db !! f) as [p|] eqn:P; [|done]. eauto.
Qed.

Section PresenceProperties.
Context `{Lowercase}.

(** The friends list shows every friend exactly once and nobody else; a friend
    shows as offline exactly when they have no presence or their last heartbeat is
    older than the timeout; and a world is shown only for a friend who is in one,
    their own or an open friends-of-friends world in which they are an active guest. *)
Theorem friends_list_exact cfg uid now o st st' r :
  schema_ok (st_db st) → (∀ i, calm now (o i)) →
  exec (friends_with_presence cfg uid) o st = (st', r) →
  st' = st ∧ ∃ l, r = Ok l ∧
    NoDup (map (dto_id ∘ fp_user) l) ∧
    (∀ f, f ∈ map (dto_id ∘ fp_user) l ↔ befriended uid f (st_db st)) ∧
    Forall (shown cfg now (st_db st)) l.
Proof.
  intros S Ho Hex. exec_start Hex (calm now). unfold friends_with_presence.
  wp_calm. apply friend_presences_spec. wp_calm. split; [done|]. eexists. split; [done|].
  destruct (friend_rows_spec uid (st_db st) S) as [P1 P2].
  assert (E : ∀ b, map (dto_id ∘ fp_user) (map (λ r, friend_presence r (b r)) (friend_rows uid (st_db st)))
    = map (dto_id ∘ fpr_user) (friend_rows uid (st_db st))).
  { intros b. rewrite map_map. apply map_ext. intros r. simpl. unfold friend_presence.
    by destruct (derive_friend_status _ _ _). }
  rewrite E. clear E. repeat split.
  - rewrite P1. by apply friend_ids_NoDup; [apply schema_pair_ordered|apply schema_pair_unique].
  - rewrite P1. apply friend_ids_spec. by apply schema_pair_ordered.
  - rewrite P1. apply friend_ids_spec. by apply schema_pair_ordered.
  - apply Forall_forall. intros e He. apply list_elem_of_fmap in He as (r & -> & Hr).
    by apply friend_presence_shown, P2.
Qed.

(** A presence broadcast reaches exactly the user's friends. Each open channel of
    each friend gets the update once; every other channel, and the database, are
    untouched. *)
Theorem broadcast_reaches_friends uid now o st st' r :
  schema_ok (st_db st) → hub_wf (st_signaling st) → (∀ i, calm now (o i)) →
  exec (broadcast_presence uid) o st = (st', r) →
  r = Ok () ∧ st_db st' = st_db st ∧
  ∀ tx,
    (∀ f, befriended uid f (st_db st) → tx ∈ txs (conns_of (st_signaling st) f) →
       channels (st_signaling st') !! tx
       = push (PresenceUpdate uid) <$> channels (st_signaling st) !! tx) ∧
    ((∀ f, tx ∈ txs (conns_of (st_signaling st) f) → ¬ befriended uid f (st_db st)) →
       channels (st_signaling st') !! tx = channels (st_signaling st) !! tx).
Proof.
  intros S W Ho Hex. exec_start Hex (calm now). unfold broadcast_presence, friend_ids.
  wp_calm. apply wp_for_each_signal. wp_calm. split; [done|]. split; [done|]. intros tx.
  assert (Ho' := schema_pair_ordered _ S). cbn [st_signaling set_signaling].
  destruct (fan_out_spec (friend_ids_in uid (st_db st)) (PresenceUpdate uid) (st_signaling st) W)
    as [_ C].
  { apply friend_ids_NoDup; [done|by apply schema_pair_unique]. }
  rewrite C. split.
  - intros f Hf Htx. rewrite (proj2 (existsb_spec _ _)); [done|].
    exists f. split; [by apply friend_ids_spec|by apply bool_decide_eq_true].
  - intros Hn. rewrite (proj2 (existsb_none _ _)); [done|]. intros f Hf.
    apply bool_decide_eq_false. intros Htx. apply (Hn f Htx). by apply friend_ids_spec.
Qed.
End PresenceProperties.

(** ** Concrete instances *)

Lemma friends_list_exact_witness :
  let r := exec (friends_with_presence default_config 1) (calm_oracle 9) sample_state in
  @schema_ok ascii_lowercase (st_db sample_state) ∧
  r.2 = Ok [mkFriendPresence (mkUserDto 2 None "bob") Joinable (Some 50%N) (Some "1.20")
              (Some "fabric")] ∧
  r.1 = sample_state ∧ ∃ l, r.2 = Ok l ∧ NoDup (map (dto_id ∘ fp_user) l) ∧
    (∀ f, f ∈ map (dto_id ∘ fp_user) l ↔ befriended 1 f (st_db sample_state)) ∧
    Forall (shown default_config 9 (st_db sample_state)) l.
Proof.
  intros r. split; [exact sample_schema_ok|]. split; [vm_compute; reflexivity|].
  apply (friends_list_exact (H := ascii_lowercase) default_config 1 9 (calm_oracle 9));
    [exact sample_schema_ok|exact (calm_oracle_calm 9)|unfold r; by destruct (exec _ _ _)].
Defined.

Lemma broadcast_reaches_friends_witness :
  let r := exec (broadcast_presence 1) (calm_oracle 9) sample_state in
  @schema_ok ascii_lowercase (st_db sample_state) ∧ hub_wf (st_signaling sample_state) ∧
  (ch_queue <$> channels (st_signaling r.1) !! 1%N,
   ch_queue <$> channels (st_signaling r.1) !! 2%N) = (Some [PresenceUpdate 1], Some []) ∧
  r.2 = Ok () ∧ st_db r.1 = st_db sample_state ∧
  ∀ tx,
    (∀ f, befriended 1 f (st_db sample_state) →
       tx ∈ txs (conns_of (st_signaling sample_state) f) →
       channels (st_signaling r.1) !! tx
       = push (PresenceUpdate 1) <$> channels (st_signaling sample_state) !! tx) ∧
    ((∀ f, tx ∈ txs (conns_of (st_signaling sample_state) f) →
        ¬ befriended 1 f (st_db sample_state)) →
       channels (st_signaling r.1) !! tx = channels (st_signaling sample_state) !! tx).
Proof.
  intros r. split; [exact sample_schema_ok|]. split; [exact sample_hub_wf|].
  split; [vm_compute; reflexivity|].
  apply (broadcast_reaches_friends (H := ascii_lowercase) 1 9 (calm_oracle 9));
    [exact sample_schema_ok|exact sample_hub_wf|exact (calm_oracle_calm 9)|
     unfold r; by destruct (exec _ _ _)].
Defined.
