(* ===== verification/Friends.v ===== *)
(** * Friends

    [crates/network/src/friends.rs]: friend requests, the friendships they become, and
    their removal. *)

From S2P Require Import Prelude RustStr Errors Models Table Realtime Schema Prog Invariant.
From S2P Require Import Queries Presence.

(** ** Rows and DTOs *)

(** A request joined with its two users. *)
Record FriendRequestRow : Type := mkFriendRequestRow {
  frr_id : Uuid;
  frr_status : RequestStatus;
  frr_created_at : Time;
  frr_from : UserDto;
  frr_to : UserDto
}.

Record FriendRequestDto : Type := mkFriendRequestDto {
  frd_id : Uuid;
  frd_status : RequestStatus;
  frd_created_at : Time;
  frd_from_user : UserDto;
  frd_to_user : UserDto
}.

(** [impl From<FriendRequestRow> for FriendRequestDto]. *)
Definition friend_request_dto (r : FriendRequestRow) : FriendRequestDto :=
  mkFriendRequestDto (frr_id r) (frr_status r) (frr_created_at r) (frr_from r) (frr_to r).

(** [FRIEND_REQUEST_SELECT]: inner joins, so no row without both users. *)
Definition friend_request_row (db : Db) (x : Keyed FriendRequest) : option FriendRequestRow :=
  match join_user (fr_from_user_id (row x)) db, join_user (fr_to_user_id (row x)) db with
  | Some from, Some to =>
      Some (mkFriendRequestRow (key x) (fr_status (row x)) (fr_created_at (row x)) from to)
  | _, _ => None
  end.

Definition query_request (id : Uuid) (db : Db) : option FriendRequestRow :=
  match friend_requests db !! id with
  | Some r => friend_request_row db (mkKeyed id r)
  | None => None
  end.

Definition load_request (id : Uuid) : prog (AppResult FriendRequestRow) :=
  let? row := select (λ _ db, query_request id db) in
  lift (ok_or (NotFound "friend request not found") row).

(** ** Statements *)

Definition set_fr_status (status : RequestStatus) (now : Time) (r : FriendRequest)
  : FriendRequest :=
  mkFriendRequest (fr_from_user_id r) (fr_to_user_id r) status (fr_created_at r) now.

(** [UPDATE friend_requests SET status = .., updated_at = now() WHERE id = $1]. *)
Definition update_request (id : Uuid) (status : RequestStatus) (t : Tick) (db : Db)
  : SqlResult (Db * unit) :=
  Ok (set_friend_requests
        (update_where (λ k _, (k =? id)%N) (set_fr_status status (t_db t)) (friend_requests db))
        db, ()).

(** [INSERT INTO friendships .. ON CONFLICT (user_a_id, user_b_id) DO NOTHING]. *)
Definition insert_friendship (from to : Uuid) (t : Tick) (db : Db) : SqlResult (Db * unit) :=
  let f := mkFriendship (N.min from to) (N.max from to) (t_db t) in
  if negb (fs_user_a_id f <? fs_user_b_id f)%N then Err (CheckViolation "friendships_ordered")
  else if friends from to db then Ok (db, ())
  else
    try _ := fk "friendships_user_a_id_fkey" (fs_user_a_id f) (users db) in
    try _ := fk "friendships_user_b_id_fkey" (fs_user_b_id f) (users db) in
    try m := insert_row "friendships_pkey" [friendships_pair_unique] (t_uuid t) f
               (friendships db) in
    Ok (set_friendships m db, ()).

(** [INSERT INTO friend_requests .. RETURNING id]. *)
Definition insert_request (from to : Uuid) (t : Tick) (db : Db) : SqlResult (Db * Uuid) :=
  if (from =? to)%N then Err (CheckViolation "friend_requests_not_self")
  else
    try _ := fk "friend_requests_from_user_id_fkey" from (users db) in
    try _ := fk "friend_requests_to_user_id_fkey" to (users db) in
    try m := insert_row "friend_requests_pkey" [friend_requests_pending_unique] (t_uuid t)
               (mkFriendRequest from to Pending (t_db t) (t_db t)) (friend_requests db) in
    Ok (set_friend_requests m db, t_uuid t).

(** The pending request of one user to another. *)
Definition pending_request (from to : Uuid) (db : Db) : option Uuid :=
  key <$> find_row (λ _ r, (fr_from_user_id r =? from)%N && (fr_to_user_id r =? to)%N
                           && is_pending (fr_status r)) (friend_requests db).

Definition incr_friend_requests (m : Metrics) : Metrics :=
  mkMetrics (bootstraps m) (heartbeats m) (counter_incr (friend_requests_created m))
    (join_tickets_issued m) (relay_sessions_opened m) (relay_bytes_forwarded m)
    (signaling_connections m).

(** ** Handlers *)

(** The transaction of [accept_internal]: the two users of the accepted request. *)
Definition accept_tx (me request_id : Uuid) : prog (AppResult (Uuid * Uuid)) :=
  let? request := select (λ _ db, friend_requests db !! request_id) in
  let? request := lift (ok_or (NotFound "friend request not found") request) in
  if negb (fr_to_user_id request =? me)%N then ret_err Forbidden
  else if negb (is_pending (fr_status request)) then ret_err (Conflict "request is not pending")
  else
    do? sql_app (update_request request_id Accepted);
    do? sql_app (insert_friendship (fr_from_user_id request) (fr_to_user_id request));
    ret_ok (fr_from_user_id request, fr_to_user_id request).

Definition accept_internal (me request_id : Uuid) : prog (AppResult FriendRequestDto) :=
  let? '(from_user_id, to_user_id) := transaction (accept_tx me request_id) in
  let? row := load_request request_id in
  let dto := friend_request_dto row in
  do* signal from_user_id (FriendRequestAccepted request_id (frd_to_user dto));
  do* ignore (broadcast_presence from_user_id);
  do* ignore (broadcast_presence to_user_id);
  ret_ok dto.

Definition create_request (me target : Uuid) : prog (AppResult FriendRequestDto) :=
  if (me =? target)%N then ret_err (BadRequest "you cannot add yourself")
  else
    let? exists_ := user_exists target in
    if negb exists_ then ret_err (NotFound "user not found")
    else
      let? friends := are_friends me target in
      if friends then ret_err (Conflict "you are already friends")
      else
        let? reverse := select (λ _ db, pending_request target me db) in
        match reverse with
        | Some reverse_id => accept_internal me reverse_id
        | None =>
            let* inserted := sql (insert_request me target) in
            match inserted with
            | Err err =>
                if is_unique_violation err
                then ret_err (Conflict "a request is already pending")
                else ret_err (Database err)
            | Ok request_id =>
                do* on_metrics incr_friend_requests;
                let? row := load_request request_id in
                let dto := friend_request_dto row in
                do* signal target (FriendRequestEv request_id (frd_from_user dto));
                ret_ok dto
            end
        end.

(** The lists, newest first. *)
Definition list_requests (p : FriendRequest → bool) (db : Db) : list FriendRequestDto :=
  map friend_request_dto
    (omap (friend_request_row db)
      (order_by_desc fr_created_at (select_rows (λ _ r, p r) (friend_requests db)))).

Definition incoming (me : Uuid) : prog (AppResult (list FriendRequestDto)) :=
  select (λ _ db, list_requests (λ r, (fr_to_user_id r =? me)%N && is_pending (fr_status r)) db).

Definition outgoing (me : Uuid) : prog (AppResult (list FriendRequestDto)) :=
  select (λ _ db, list_requests (λ r, (fr_from_user_id r =? me)%N && is_pending (fr_status r)) db).

Definition accept (me id : Uuid) : prog (AppResult FriendRequestDto) :=
  let? dto := accept_internal me id in ret_ok dto.

Definition decline (me id : Uuid) : prog (AppResult FriendRequestDto) :=
  let? request := load_request id in
  if negb (dto_id (frr_to request) =? me)%N then ret_err Forbidden
  else if negb (is_pending (frr_status request)) then ret_err (Conflict "request is not pending")
  else
    do? sql_app (update_request id Declined);
    do* signal (dto_id (frr_from request)) (FriendRequestDeclined id);
    let? row := load_request id in
    ret_ok (friend_request_dto row).

(** The [DELETE], with the number of rows affected. *)
Definition delete_friendship (a b : Uuid) (_ : Tick) (db : Db) : SqlResult (Db * nat) :=
  Ok (set_friendships (delete_where (λ _ f, is_pair a b f) (friendships db)) db,
      count_rows (λ _ f, is_pair a b f) (friendships db)).

Definition remove_friend (me other : Uuid) : prog (AppResult unit) :=
  let? affected := sql_app (delete_friendship me other) in
  do? lift (found affected "friendship");
  do* signal other (FriendRemoved me);
  ret_ok ().

(** ** The schema's invariant *)

Lemma update_request_schema `{Lowercase} id s t db db' u :
  is_pending s = false → update_request id s t db = Ok (db', u) → schema_rel db db'.
Proof.
  intros Hs [= <- <-] S. apply schema_set_friend_requests; [done|].
  apply table_ok_update; [by index_side| |by intros k r _|apply S].
  index_side. intros k r1 r2 _. simpl. by rewrite Hs.
Qed.

Lemma insert_friendship_schema `{Lowercase} a b t db db' u :
  insert_friendship a b t db = Ok (db', u) → schema_rel db db'.
Proof.
  unfold insert_friendship. destruct (negb _) eqn:O; [done|]. destruct (friends a b db).
  { by intros [= <- <-]. }
  rewrite and_then_ok. intros ([] & Ha & E) S. apply fk_ok in Ha.
  apply and_then_ok in E as ([] & Hb & E). apply fk_ok in Hb.
  apply and_then_ok in E as (m & Hi & [= <- <-]). apply insert_row_ok in Hi as (_ & -> & Hv).
  apply schema_set_friendships; [done|].
  apply table_ok_insert; [by index_side|done| |apply S]. bool_simpl. apply N.ltb_lt in O. done.
Qed.

Lemma insert_request_schema `{Lowercase} a b t db db' u :
  insert_request a b t db = Ok (db', u) → schema_rel db db'.
Proof.
  unfold insert_request. destruct (a =? b)%N eqn:O; [done|].
  rewrite and_then_ok. intros ([] & Ha & E) S. apply fk_ok in Ha.
  apply and_then_ok in E as ([] & Hb & E). apply fk_ok in Hb.
  apply and_then_ok in E as (m & Hi & [= <- <-]). apply insert_row_ok in Hi as (_ & -> & Hv).
  apply schema_set_friend_requests; [done|].
  apply table_ok_insert; [by index_side|done| |apply S]. bool_simpl. done.
Qed.

Lemma delete_friendship_schema `{Lowercase} a b t db db' n :
  delete_friendship a b t db = Ok (db', n) → schema_rel db db'.
Proof.
  intros [= <- <-] S. apply schema_set_friendships; [done|]. apply table_ok_delete, S.
Qed.

Section FriendsSchema.
Context `{Lowercase}.

Lemma accept_internal_schema me id : prog_rel (db_rel schema_rel) (accept_internal me id).
Proof.
  unfold accept_internal, accept_tx, load_request. prog_rel_go; intros t db db' b.
  - by apply update_request_schema.
  - apply insert_friendship_schema.
Qed.
Hint Resolve accept_internal_schema : loon.

Lemma create_request_schema me target :
  prog_rel (db_rel schema_rel) (create_request me target).
Proof.
  unfold create_request, user_exists, are_friends, load_request. prog_rel_go.
  intros t db db' b. apply insert_request_schema.
Qed.

Lemma friends_accept_schema me id : prog_rel (db_rel schema_rel) (accept me id).
Proof. unfold accept. prog_rel_go. Qed.

Lemma friends_decline_schema me id : prog_rel (db_rel schema_rel) (decline me id).
Proof.
  unfold decline, load_request. prog_rel_go. intros t db db' b. by apply update_request_schema.
Qed.

Lemma remove_friend_schema me other : prog_rel (db_rel schema_rel) (remove_friend me other).
Proof. unfold remove_friend. prog_rel_go. intros t db db' b. apply delete_friendship_schema. Qed.

Lemma friends_incoming_schema me : prog_rel (db_rel schema_rel) (incoming me).
Proof. unfold incoming. prog_rel_go. Qed.
Lemma friends_outgoing_schema me : prog_rel (db_rel schema_rel) (outgoing me).
Proof. unfold outgoing. prog_rel_go. Qed.
End FriendsSchema.

#[export] Hint Resolve create_request_schema friends_accept_schema friends_decline_schema
  remove_friend_schema friends_incoming_schema friends_outgoing_schema : loon.

(** ** Lemmas *)

Lemma query_request_spec `{Lowercase} id db r :
  schema_ok db → friend_requests db !! id = Some r →
  ∃ from to, users db !! fr_from_user_id r = Some from ∧ users db !! fr_to_user_id r = Some to ∧
    query_request id db = Some (mkFriendRequestRow id (fr_status r) (fr_created_at r)
      (user_dto (fr_from_user_id r) from) (user_dto (fr_to_user_id r) to)).
Proof.
  intros S Hr. pose proof (proj2 (ok_friend_requests _ S) _ _ Hr) as ([from Hf] & [to Ht] & _).
  exists from, to. split; [done|]. split; [done|].
  unfold query_request, friend_request_row, join_user. rewrite Hr. simpl. by rewrite Hf, Ht.
Qed.

Lemma query_request_none id db : friend_requests db !! id = None → query_request id db = None.
Proof. unfold query_request. by intros ->. Qed.

Lemma insert_friendship_ok a b t db db' u :
  insert_friendship a b t db = Ok (db', u) →
  befriended a b db' ∧ a ≠ b ∧ db' = set_friendships (friendships db') db
  ∧ (∀ c d, befriended c d db' ↔ befriended c d db ∨ (N.min c d = N.min a b ∧ N.max c d = N.max a b)).
Proof.
  unfold insert_friendship. simpl. destruct (negb _) eqn:O; [done|]. bool_simpl. apply N.ltb_lt in O.
  destruct (friends a b db) eqn:F.
  - intros [= <- <-]. apply friends_spec in F. split; [done|]. split; [lia|].
    split; [by destruct db|]. intros c d. split; [auto|]. intros [?|[E1 E2]]; [done|].
    destruct F as (k & f & Hk & Ha & Hb). exists k, f. by rewrite E1, E2.
  - rewrite and_then_ok. intros ([] & _ & E). apply and_then_ok in E as ([] & _ & E).
    apply and_then_ok in E as (m & Hi & [= <- <-]). apply insert_row_ok in Hi as (Hn & -> & Hv).
    set (f := mkFriendship _ _ _) in *. unfold befriended. simpl.
    split; [exists (t_uuid t), f; by rewrite lookup_insert_eq|]. split; [lia|]. split; [done|].
    intros c d. split.
    + intros (k & g & Hk & Ha & Hb). apply lookup_insert_Some in Hk as [[<- <-]|[_ Hk]]; [|eauto 8].
      right. by simpl in Ha, Hb.
    + intros [(k & g & Hk & Ha & Hb)|[E1 E2]].
      * exists k, g. split; [|done]. rewrite lookup_insert_ne; [done|]. congruence.
      * exists (t_uuid t), f. rewrite lookup_insert_eq. by rewrite E1, E2.
Qed.

Lemma insert_friendship_succeeds a b t db :
  a ≠ b → ref a (users db) → ref b (users db) → friendships db !! t_uuid t = None →
  ∃ db', insert_friendship a b t db = Ok (db', ()).
Proof.
  intros Hne Ha Hb Hf. unfold insert_friendship. cbn [fs_user_a_id fs_user_b_id].
  rewrite (proj2 (N.ltb_lt _ _)) by lia. simpl.
  destruct (friends a b db) eqn:F; [eauto|].
  assert (ref (N.min a b) (users db) ∧ ref (N.max a b) (users db)) as [Ha' Hb'].
  { destruct (N.min_spec a b) as [[_ ->]|[_ ->]], (N.max_spec a b) as [[_ ->]|[_ ->]]; done. }
  rewrite (proj2 (fk_ok _ _ _) Ha'), (proj2 (fk_ok _ _ _) Hb'). simpl.
  unfold insert_row. rewrite Hf.
  assert (V : violated [friendships_pair_unique] (t_uuid t)
    (mkFriendship (N.min a b) (N.max a b) (t_db t)) (friendships db) = None).
  { apply violated_None. intros ix ->%list_elem_of_singleton k f Hk _. simpl.
    unfold friends in F. rewrite exists_row_false in F. specialize (F _ _ Hk).
    unfold is_pair in F. by rewrite (N.eqb_sym (N.min a b)), (N.eqb_sym (N.max a b)). }
  rewrite V. simpl. eauto.
Qed.

Section FriendsProofs.
Context `{Lowercase}.

Lemma wp_load_request id q T st (Q : AppState → AppResult FriendRequestRow → Prop) :
  schema_ok (st_db st) → (∀ t, T t → t_fault t = false) →
  friend_requests (st_db st) !! id = Some q →
  (∀ from to, users (st_db st) !! fr_from_user_id q = Some from →
     users (st_db st) !! fr_to_user_id q = Some to →
     Q st (Ok (mkFriendRequestRow id (fr_status q) (fr_created_at q)
       (user_dto (fr_from_user_id q) from) (user_dto (fr_to_user_id q) to)))) →
  wp (load_request id) T st Q.
Proof.
  intros S HT Hq HQ. unfold load_request. wp_step. wp_step.
  destruct (query_request_spec id _ q S Hq) as (from & to & Hf & Ht & E).
  rewrite HT by done. rewrite E. wp_step. by apply HQ.
Qed.

(** The row of [friend_requests] after the transaction. *)
Lemma wp_accept_internal me id now st (Q : AppState → AppResult FriendRequestDto → Prop) :
  schema_ok (st_db st) →
  match friend_requests (st_db st) !! id with
  | None => Q st (Err (NotFound "friend request not found"))
  | Some q =>
      if negb (fr_to_user_id q =? me)%N then Q st (Err Forbidden)
      else if negb (is_pending (fr_status q)) then Q st (Err (Conflict "request is not pending"))
      else ∀ st' dto,
        frd_id dto = id → frd_status dto = Accepted →
        friend_requests (st_db st') = update_where (λ k _, (k =? id)%N)
          (set_fr_status Accepted now) (friend_requests (st_db st)) →
        (∀ c d, befriended c d (st_db st') ↔ befriended c d (st_db st)
           ∨ (N.min c d = N.min (fr_from_user_id q) (fr_to_user_id q)
              ∧ N.max c d = N.max (fr_from_user_id q) (fr_to_user_id q))) →
        Q st' (Ok dto)
  end →
  wp (accept_internal me id) (quiet now (λ u, is_row u (friendships (st_db st)))) st Q.
Proof.
  intros S HQ. unfold accept_internal, accept_tx. wp_calm.
  destruct (friend_requests (st_db st) !! id) as [q|] eqn:Hq; cycle 1.
  { wp_calm. unfold rollback. by rewrite set_db_same. }
  wp_calm. destruct (negb (fr_to_user_id q =? me)%N).
  { wp_calm. unfold rollback. by rewrite set_db_same. }
  destruct (negb (is_pending (fr_status q))).
  { wp_calm. unfold rollback. by rewrite set_db_same. }
  wp_calm. unfold update_request. wp_calm.
  set (db1 := set_friend_requests _ (st_db st)).
  assert (S1 : schema_ok db1).
  { by eapply (update_request_schema id Accepted). }
  destruct (proj2 (ok_friend_requests _ S) _ _ Hq) as (Rf & Rt & Hne).
  destruct (insert_friendship_succeeds (fr_from_user_id q) (fr_to_user_id q) t1 db1)
    as [db2 E]; try done.
  { apply eq_None_not_Some. intros X. apply is_row_true in X.
    change (friendships db1) with (friendships (st_db st)) in X. congruence. }
  rewrite E. pose proof (insert_friendship_schema _ _ _ _ _ _ E S1) as S2.
  apply insert_friendship_ok in E as (_ & _ & E2 & HB).
  wp_calm. apply (wp_load_request id (set_fr_status Accepted now q)); try done.
  { by intros ? [(? & ?) ?]. }
  { cbn [st_db set_db]. rewrite E2. simpl. rewrite lookup_update_where, Hq. simpl.
    by rewrite N.eqb_refl, D0. }
  intros from to _ _. wp_calm. apply wp_ignore_broadcast. intros hub1. wp_calm.
  apply wp_ignore_broadcast. intros hub2. wp_calm.
  apply HQ; [done|done| |].
  - simpl. rewrite E2. simpl. by rewrite D0.
  - intros c d. simpl. by rewrite HB.
Qed.
End FriendsProofs.

Lemma exists_row_set_requests m db a b : friends a b (set_friend_requests m db) = friends a b db.
Proof. done. Qed.

(** At most one pending request goes from one user to another. *)
Lemma pending_request_spec `{Lowercase} from to db id :
  schema_ok db →
  pending_request from to db = Some id ↔
  ∃ q, friend_requests db !! id = Some q ∧ fr_from_user_id q = from ∧ fr_to_user_id q = to
    ∧ fr_status q = Pending.
Proof.
  intros S. unfold pending_request, is_pending. split.
  - destruct (find_row _ _) as [[k q]|] eqn:E; [|done]. intros [= <-].
    apply find_row_Some in E as [Hk P]; simpl in *. bool_simpl. eauto 10.
  - intros (q & Hq & <- & <- & Hs). rewrite (find_row_unique _ _ id q Hq); [done| |].
    + rewrite !N.eqb_refl. simpl. by rewrite bool_decide_eq_true.
    + intros k' q' Hq' P. bool_simpl.
      assert (U : uniq friend_requests_pending_unique (friend_requests db)).
      { eapply table_ok_uniq; [|apply S]. by apply list_elem_of_singleton. }
      eapply (U k' id q' q Hq' Hq). simpl. unfold is_pending.
      rewrite !andb_true_iff, !N.eqb_eq, !bool_decide_eq_true. done.
Qed.

(** ** Properties *)

Section FriendsProperties.
Context `{Lowercase}.

(** Accepting a friend request. An unknown request, one addressed to somebody else
    and one that is no longer pending are refused with the matching error and nothing
    changes. Otherwise the request, and no other, becomes accepted; its two users
    become friends; and every other pair is friends exactly if it was before. *)
Theorem friend_accept_exact me id now o st st' r :
  schema_ok (st_db st) →
  (∀ i, quiet now (λ u, is_row u (friendships (st_db st))) (o i)) →
  exec (accept me id) o st = (st', r) →
  match friend_requests (st_db st) !! id with
  | None => st' = st ∧ r = Err (NotFound "friend request not found")
  | Some q =>
      if negb (fr_to_user_id q =? me)%N then st' = st ∧ r = Err Forbidden
      else if negb (is_pending (fr_status q))
      then st' = st ∧ r = Err (Conflict "request is not pending")
      else is_ok r = true ∧
        (∀ k, friend_requests (st_db st') !! k =
           if (k =? id)%N then Some (set_fr_status Accepted now q)
           else friend_requests (st_db st) !! k) ∧
        (∀ c d, befriended c d (st_db st') ↔
           befriended c d (st_db st)
           ∨ (c = fr_from_user_id q ∧ d = me) ∨ (c = me ∧ d = fr_from_user_id q))
  end.
Proof.
  intros S Ho Hex. exec_start Hex (quiet now (λ u, is_row u (friendships (st_db st)))).
  unfold accept. wp_step. apply wp_accept_internal; [done|].
  destruct (friend_requests (st_db st) !! id) as [q|] eqn:Hq; [|done].
  destruct (negb (fr_to_user_id q =? me)%N) eqn:M; [done|].
  destruct (negb (is_pending (fr_status q))); [done|].
  intros st' dto _ _ Er Eb. wp_step. bool_simpl. split; [done|]. split.
  - intros k. rewrite Er, lookup_update_where.
    destruct (N.eqb_spec k id) as [->|]; [by rewrite Hq|]. by destruct (friend_requests _ !! k).
  - intros c d. rewrite Eb. apply or_iff_compat_l. clear -M. lia.
Qed.

(** Asking somebody who has already asked accepts their request: when the target
    has a pending request to the caller and they are not friends yet, the answer is
    that request, accepted; the two become friends and no new request is created. *)
Theorem mutual_request_accepts me target id now o st st' r :
  schema_ok (st_db st) →
  (∀ i, quiet now (λ u, is_row u (friendships (st_db st))) (o i)) →
  me ≠ target → ¬ befriended me target (st_db st) →
  (∃ q, friend_requests (st_db st) !! id = Some q ∧ fr_from_user_id q = target
     ∧ fr_to_user_id q = me ∧ fr_status q = Pending) →
  exec (create_request me target) o st = (st', r) →
  (∃ dto, r = Ok dto ∧ frd_id dto = id ∧ frd_status dto = Accepted) ∧
  befriended me target (st_db st') ∧
  ∀ k, is_Some (friend_requests (st_db st') !! k) ↔ is_Some (friend_requests (st_db st) !! k).
Proof.
  intros S Ho Hne Hnf Hq Hex.
  assert (P := proj2 (pending_request_spec target me (st_db st) id S) Hq).
  destruct Hq as (q & Hq & Hf & Ht & Hs).
  exec_start Hex (quiet now (λ u, is_row u (friendships (st_db st)))).
  unfold create_request, user_exists, are_friends. rewrite (proj2 (N.eqb_neq _ _) Hne).
  destruct (proj2 (ok_friend_requests _ S) _ _ Hq) as (Rf & _ & _).
  wp_calm. rewrite Hf in Rf. rewrite (proj2 (is_row_true target _) Rf). wp_calm.
  destruct (friends me target (st_db st)) eqn:Fr; [by apply friends_spec in Fr|].
  wp_calm. rewrite P. apply wp_accept_internal; [done|].
  rewrite Hq, Ht, N.eqb_refl, Hs. simpl. intros st' dto Hd Hds Er Eb.
  split; [eauto|]. split.
  - apply Eb. right. rewrite Hf. lia.
  - intros k. rewrite Er, lookup_update_where. by rewrite fmap_is_Some.
Qed.

(** Unfriending. Removing a friend who is one ends that friendship, in both
    directions, and no other; when there is none the answer is [NotFound] and nothing
    changes. *)
Theorem remove_friend_exact me other now o st st' r :
  (∀ i, calm now (o i)) →
  exec (remove_friend me other) o st = (st', r) →
  (is_ok r = true ↔ befriended me other (st_db st)) ∧
  (is_ok r = false → st' = st ∧ r = Err (NotFound "friendship not found")) ∧
  (∀ c d, befriended c d (st_db st') ↔ befriended c d (st_db st)
     ∧ ¬ (c = me ∧ d = other) ∧ ¬ (c = other ∧ d = me)).
Proof.
  intros Ho Hex. exec_start Hex (calm now). unfold remove_friend. wp_calm.
  unfold delete_friendship. cbn beta iota.
  set (db' := set_friendships _ _).
  assert (B : ∀ c d, befriended c d db' ↔ befriended c d (st_db st)
     ∧ ¬ (c = me ∧ d = other) ∧ ¬ (c = other ∧ d = me)).
  { intros c d. unfold befriended. simpl. setoid_rewrite lookup_delete_where_Some.
    split.
    - intros (k & f & [Hk Hp] & Ha & Hb).
      apply not_true_iff_false in Hp. rewrite is_pair_true in Hp.
      split; [eauto|]. split; intros [-> ->]; apply Hp; lia.
    - intros ((k & f & Hk & Ha & Hb) & N1 & N2). exists k, f.
      split; [|done]. split; [done|]. apply not_true_iff_false. rewrite is_pair_true.
      rewrite Ha, Hb. lia. }
  unfold found. destruct (count_rows _ (friendships (st_db st)) =? 0)%nat eqn:C; wp_calm.
  - bool_simpl.
    assert (Hn : ¬ befriended me other (st_db st)).
    { rewrite <- friends_spec. unfold friends. rewrite not_true_iff_false, exists_row_false.
      by apply count_rows_zero. }
    assert (E : db' = st_db st).
    { etrans; [|apply set_friendships_same]. unfold db'. f_equal. apply map_eq. intros k. rewrite lookup_delete_where.
      destruct (friendships (st_db st) !! k) as [f|] eqn:Hk; [|done].
      rewrite count_rows_zero in C. by rewrite (C _ _ Hk). }
    rewrite E in *. rewrite set_db_same. split; [by split|]. split; [done|]. apply B.
  - split; [|split; [done|exact B]]. split; [|done]. intros _. rewrite <- friends_spec.
    unfold friends. rewrite exists_row_true. apply count_rows_pos. bool_simpl. lia.
Qed.
End FriendsProperties.

(** ** Concrete instances *)

(** [sample_state] with a pending request 20 from user 3 to user 1. *)
Definition st_asked : AppState :=
  set_db (set_friend_requests {[ 20%N := mkFriendRequest 3 1 Pending 4 4 ]} sample_db)
    sample_state.

Lemma st_asked_ok : @schema_ok ascii_lowercase (st_db st_asked).
Proof. apply schema_okb_sound. vm_compute. reflexivity. Qed.

Lemma calm_oracle_avoids {R} now (m : gmap N R) i :
  (∀ k r, m !! k = Some r → (k < 1000)%N) →
  quiet now (λ u, is_row u m) (calm_oracle now i).
Proof.
  intros Hm. split; [done|]. apply not_true_iff_false. rewrite is_row_true.
  intros [r Hr]. specialize (Hm _ _ Hr). simpl in Hm. lia.
Qed.

Lemma sample_friendships_low k f : friendships sample_db !! k = Some f → (k < 1000)%N.
Proof.
  simpl. rewrite lookup_insert_Some, lookup_singleton_Some. lia.
Qed.

Lemma friend_accept_exact_witness :
  let r := exec (accept 1 20) (calm_oracle 9) st_asked in
  @schema_ok ascii_lowercase (st_db st_asked) ∧
  (∀ i, quiet 9 (λ u, is_row u (friendships (st_db st_asked))) (calm_oracle 9 i)) ∧
  is_ok r.2 = true ∧
  (∀ k, friend_requests (st_db r.1) !! k =
     if (k =? 20)%N then Some (mkFriendRequest 3 1 Accepted 4 9)
     else friend_requests (st_db st_asked) !! k) ∧
  (∀ c d, befriended c d (st_db r.1) ↔
     befriended c d (st_db st_asked) ∨ (c = 3%N ∧ d = 1%N) ∨ (c = 1%N ∧ d = 3%N)).
Proof.
  intros r. split; [exact st_asked_ok|].
  assert (Hq : ∀ i, quiet 9 (λ u, is_row u (friendships (st_db st_asked))) (calm_oracle 9 i))
    by (intros i; apply calm_oracle_avoids, sample_friendships_low).
  split; [exact Hq|].
  apply (friend_accept_exact (H := ascii_lowercase) 1 20 9 (calm_oracle 9) st_asked r.1 r.2);
    [exact st_asked_ok|exact Hq|unfold r; by destruct (exec _ _ _)].
Defined.

Lemma mutual_request_accepts_witness :
  let r := exec (create_request 1 3) (calm_oracle 9) st_asked in
  @schema_ok ascii_lowercase (st_db st_asked) ∧
  (∃ dto, r.2 = Ok dto ∧ frd_id dto = 20%N ∧ frd_status dto = Accepted) ∧
  befriended 1 3 (st_db r.1) ∧
  ∀ k, is_Some (friend_requests (st_db r.1) !! k) ↔ is_Some (friend_requests (st_db st_asked) !! k).
Proof.
  intros r. split; [exact st_asked_ok|].
  apply (mutual_request_accepts (H := ascii_lowercase) 1 3 20 9 (calm_oracle 9) st_asked r.1 r.2).
  - exact st_asked_ok.
  - intros i; apply calm_oracle_avoids, sample_friendships_low.
  - done.
  - rewrite <- friends_spec. by vm_compute.
  - by eexists.
  - unfold r; by destruct (exec _ _ _).
Defined.

Lemma remove_friend_exact_witness :
  let r := exec (remove_friend 1 2) (calm_oracle 9) sample_state in
  r.2 = Ok () ∧
  (is_ok r.2 = true ↔ befriended 1 2 (st_db sample_state)) ∧
  (is_ok r.2 = false → r.1 = sample_state ∧ r.2 = Err (NotFound "friendship not found")) ∧
  (∀ c d, befriended c d (st_db r.1) ↔ befriended c d (st_db sample_state)
     ∧ ¬ (c = 1%N ∧ d = 2%N) ∧ ¬ (c = 2%N ∧ d = 1%N)).
Proof.
  intros r. split; [vm_compute; reflexivity|].
  apply (remove_friend_exact 1 2 9 (calm_oracle 9) sample_state r.1 r.2);
    [exact (calm_oracle_calm 9)|unfold r; by destruct (exec _ _ _)].
Defined.

(** ** A race

    [decline] reads the request and then updates it without repeating the condition that
    it is pending, so an acceptance that commits in between is overwritten: both answers
    are successes, and the two users stay friends over a declined request. *)
Theorem decline_overwrites_accept :
  ∃ ps st',
    rtc pool_step ([prog_map is_ok (decline 1 20); prog_map is_ok (accept 1 20)], st_asked) (ps, st')
    ∧ ps = [Ret true; Ret true]
    ∧ befriended 1 3 (st_db st')
    ∧ (fr_status <$> friend_requests (st_db st') !! 20%N) = Some Declined.
Proof.
  set (s := sched (calm_oracle 9) 0 ([0; 1; 1; 1; 1; 1; 1; 1; 1; 1; 1; 1; 1; 1] ++ [0; 0; 0; 0])
    ([prog_map is_ok (decline 1 20); prog_map is_ok (accept 1 20)], st_asked)).
  exists s.1, s.2. split; [rewrite <- surjective_pairing; apply sched_pool|].
  split; [vm_compute; reflexivity|]. split; [|vm_compute; reflexivity].
  apply friends_spec. by vm_compute.
Qed.
