(* ===== verification/Worlds.v ===== *)
(** * World sessions

    [crates/network/src/worlds.rs]: opening, changing and closing a hosted world. A
    [WorldSession] of the source, row and DTO in one, is a [Keyed WorldSession]. *)

From S2P Require Import Prelude RustStr Errors Models Table Realtime Schema Prog Invariant.
From S2P Require Import Queries Presence.

(** [i32::clamp] panics when its bounds are in the wrong order. *)
Definition clamp (lo hi v : Z) : option Z :=
  if (hi <? lo)%Z then None
  else Some (if (v <? lo)%Z then lo else if (hi <? v)%Z then hi else v).

(** A panic unwinds the request's task; the request is answered as an internal error. *)
Definition panicked {A} : AppResult A := Err (Internal "panic").

Definition load_open_world_session (id : Uuid) : prog (AppResult (Keyed WorldSession)) :=
  let? row := select (λ _ db,
    match world_sessions db !! id with
    | Some w => if is_open (ws_status w) then Some (mkKeyed id w) else None
    | None => None
    end) in
  lift (ok_or (NotFound "world session not found or closed") row).

(** ** [POST /world-sessions] *)

(** [INSERT .. ON CONFLICT (host_user_id) WHERE status = 'open' DO UPDATE SET max_players =
    EXCLUDED.max_players, current_players = 0 RETURNING ..]. *)
Definition upsert_world (host : Uuid) (max_players : Z) (t : Tick) (db : Db)
  : SqlResult (Db * Keyed WorldSession) :=
  match find_row (λ _ w, (ws_host_user_id w =? host)%N && is_open (ws_status w))
          (world_sessions db) with
  | Some x =>
      let w := mkWorldSession (ws_host_user_id (row x)) (ws_status (row x)) max_players 0
                 (ws_invite_policy (row x)) (ws_created_at (row x)) (ws_closed_at (row x)) in
      Ok (set_world_sessions (<[key x := w]> (world_sessions db)) db, mkKeyed (key x) w)
  | None =>
      let w := mkWorldSession host Open max_players 0 HostOnly (t_db t) None in
      try _ := fk "world_sessions_host_user_id_fkey" host (users db) in
      try m := insert_row "world_sessions_pkey" [world_sessions_one_open_per_host] (t_uuid t) w
                 (world_sessions db) in
      Ok (set_world_sessions m db, mkKeyed (t_uuid t) w)
  end.

Section Worlds.
Context (cfg : Config).

Definition create (me : Uuid) (max_players : option Z) : prog (AppResult (Keyed WorldSession)) :=
  let cap := max_players_per_world cfg in
  match clamp 1 cap (default cap max_players) with
  | None => Ret panicked
  | Some requested => sql_app (upsert_world me requested)
  end.

(** ** Closing *)

Definition close_relay (now : Time) (r : RelaySession) : RelaySession :=
  mkRelaySession (rs_world_session_id r) (rs_host_user_id r) (rs_guest_user_id r)
    (rs_join_ticket_id r) "closed" (rs_created_at r) (Some now).

Definition open_relay_of (world_id : Uuid) (r : RelaySession) : bool :=
  (rs_world_session_id r =? world_id)%N && negb (rs_status r =? "closed")%string.

Definition leave_world (now : Time) (p : Presence) : Presence :=
  mkPresence "online" (p_last_heartbeat_at p) (p_minecraft_version p) (p_mod_version p)
    (p_loader p) None now.

Definition zero_players (w : WorldSession) : WorldSession :=
  mkWorldSession (ws_host_user_id w) (ws_status w) (ws_max_players w) 0 (ws_invite_policy w)
    (ws_created_at w) (ws_closed_at w).

Definition close_world_cleanup (world_id host_id : Uuid) : prog (AppResult (Keyed WorldSession)) :=
  do? sql_app (λ t db,
    Ok (set_relay_sessions (update_where (λ _ r, open_relay_of world_id r)
          (close_relay (t_db t)) (relay_sessions db)) db, ()));
  do? sql_app (λ t db,
    Ok (set_presence (update_where (λ k _, (k =? host_id)%N) (leave_world (t_db t))
          (presence db)) db, ()));
  sql_app (λ _ db,
    match world_sessions db !! world_id with
    | None => Err RowNotFound
    | Some w =>
        Ok (set_world_sessions (<[world_id := zero_players w]> (world_sessions db)) db,
            mkKeyed world_id (zero_players w))
    end).

(** ** [PATCH /world-sessions/:id] *)

Record UpdateWorldSession : Type := mkUpdate {
  up_max_players : option Z;
  up_status : option string;
  up_invite_policy : option string
}.

(** [UPDATE .. RETURNING ..] under the unique index: reopening a world while the host has
    another open one fails. *)
Definition update_world (id : Uuid) (max_players : Z) (status : WorldStatus)
  (invite_policy : InvitePolicy) (t : Tick) (db : Db) : SqlResult (Db * Keyed WorldSession) :=
  match world_sessions db !! id with
  | None => Err RowNotFound
  | Some w =>
      let w' := mkWorldSession (ws_host_user_id w) status max_players (ws_current_players w)
                  invite_policy (ws_created_at w)
                  (if bool_decide (status = Closed) then Some (t_db t) else None) in
      try m := update_row [world_sessions_one_open_per_host] id w' (world_sessions db) in
      Ok (set_world_sessions m db, mkKeyed id w')
  end.

Definition active_guests (world_id : Uuid) (db : Db) : list Uuid :=
  omap (λ x, rs_guest_user_id (row x))
    (select_rows (λ _ r, (rs_world_session_id r =? world_id)%N
                         && (rs_status r =? "active")%string) (relay_sessions db)).

(** [.await.unwrap_or_default()]. *)
Definition or_nil {A} (r : AppResult (list A)) : list A :=
  match r with Ok l => l | Err _ => [] end.

(** [body.max_players.map(|value| value.clamp(1, cap)).unwrap_or(world.max_players)]. *)
Definition new_max_players (body : UpdateWorldSession) (world : WorldSession) : option Z :=
  match up_max_players body with
  | Some value => clamp 1 (max_players_per_world cfg) value
  | None => Some (ws_max_players world)
  end.

Definition update_tx (id : Uuid) (world : WorldSession) (max_players : Z)
  (status : WorldStatus) (invite_policy : InvitePolicy)
  : prog (AppResult (Keyed WorldSession)) :=
  let closing := bool_decide (status = Closed) && bool_decide (ws_status world = Open) in
  let? updated := sql_app (update_world id max_players status invite_policy) in
  if closing then close_world_cleanup id (ws_host_user_id world) else ret_ok updated.

(** The pushes after a change of the invite policy. *)
Definition announce_policy (id : Uuid) (host : Uuid) (invite_policy : InvitePolicy) : prog unit :=
  let* guests := select (λ _ db, active_guests id db) in
  do* for_each (or_nil guests) (λ guest,
        do* signal guest (WorldPolicyChanged id invite_policy);
        ignore (broadcast_presence guest));
  ignore (broadcast_presence host).

Definition update (me id : Uuid) (body : UpdateWorldSession)
  : prog (AppResult (Keyed WorldSession)) :=
  let? world := select (λ _ db, world_sessions db !! id) in
  let? world := lift (ok_or (NotFound "world session not found") world) in
  if negb (ws_host_user_id world =? me)%N then ret_err Forbidden
  else
    match new_max_players body world with
    | None => Ret panicked
    | Some max_players =>
        let? status := lift match up_status body with
                            | Some value => parse_world_status value
                            | None => Ok (ws_status world)
                            end in
        let? invite_policy := lift match up_invite_policy body with
                                   | Some value => parse_invite_policy value
                                   | None => Ok (ws_invite_policy world)
                                   end in
        let? updated := transaction (update_tx id world max_players status invite_policy) in
        do* (if bool_decide (invite_policy = ws_invite_policy world) then Ret ()
             else announce_policy id (ws_host_user_id world) invite_policy);
        ret_ok updated
    end.

(** ** [DELETE /world-sessions/:id] *)

Definition close_world (now : Time) (w : WorldSession) : WorldSession :=
  mkWorldSession (ws_host_user_id w) Closed (ws_max_players w) (ws_current_players w)
    (ws_invite_policy w) (ws_created_at w) (Some now).

Definition close_tx (me id : Uuid) : prog (AppResult (Keyed WorldSession)) :=
  do? sql_app (λ t db,
    Ok (set_world_sessions (update_where (λ k w, (k =? id)%N && is_open (ws_status w))
          (close_world (t_db t)) (world_sessions db)) db, ()));
  close_world_cleanup id me.

Definition close (me id : Uuid) : prog (AppResult unit) :=
  let? host := select (λ _ db, option_map ws_host_user_id (world_sessions db !! id)) in
  match host with
  | None => ret_err (NotFound "world session not found")
  | Some host_id =>
      if negb (host_id =? me)%N then ret_err Forbidden
      else do? transaction (close_tx me id); ret_ok ()
  end.
End Worlds.

(** [reconcile_after_restart] of [crates/core/src/db.rs]. *)
Definition reconcile_after_restart : prog (AppResult nat) :=
  let? closed := sql_app (λ t db,
    let p := λ (_ : Uuid) r, negb (rs_status r =? "closed")%string in
    Ok (set_relay_sessions (update_where p (close_relay (t_db t)) (relay_sessions db)) db,
        count_rows p (relay_sessions db))) in
  do? sql_app (λ _ db,
    Ok (set_world_sessions (update_where (λ _ w, is_open (ws_status w)) zero_players
          (world_sessions db)) db, ()));
  ret_ok closed.

(** ** The schema's invariant *)

Section WorldsSchema.
Context `{Lowercase} (cfg : Config).

Lemma worlds_insert_schema db k w :
  schema_ok db → ref (ws_host_user_id w) (users db) → (0 ≤ ws_current_players w)%Z →
  violated [world_sessions_one_open_per_host] k w (world_sessions db) = None →
  schema_ok (set_world_sessions (<[k := w]> (world_sessions db)) db).
Proof.
  intros S Hh Hc Hv. apply schema_set_world_sessions; [done|apply keeps_insert|].
  apply table_ok_insert; [by index_side|done|done|apply S].
Qed.

(** A new version of a row that stays in the indexes it was in. *)
Lemma worlds_replace_schema db k w w' :
  schema_ok db → world_sessions db !! k = Some w →
  ws_host_user_id w' = ws_host_user_id w → (0 ≤ ws_current_players w')%Z →
  (is_open (ws_status w') = true → is_open (ws_status w) = true) →
  schema_ok (set_world_sessions (<[k := w']> (world_sessions db)) db).
Proof.
  intros S Hk Hh Hc Ho. apply worlds_insert_schema; [done| |done|].
  { rewrite Hh. by apply (proj2 (ok_worlds _ S) _ _ Hk). }
  apply violated_None. intros ix ->%list_elem_of_singleton k2 w2 Hk2 Hne.
  destruct (idx_conflict _ _ _) eqn:C; [|done]. exfalso. simpl in C.
  rewrite !andb_true_iff in C. destruct C as [[C1 C2] C3]. apply Hne.
  assert (U : uniq world_sessions_one_open_per_host (world_sessions db)).
  { eapply table_ok_uniq; [|apply S]. by apply list_elem_of_singleton. }
  apply (U k2 k w2 w Hk2 Hk). simpl. rewrite !andb_true_iff, C2, Ho by done.
  rewrite N.eqb_eq in C3 |- *. split; [done|congruence].
Qed.

Lemma upsert_world_schema host mp t db db' x :
  upsert_world host mp t db = Ok (db', x) → schema_rel db db'.
Proof.
  unfold upsert_world. destruct (find_row _ _) as [[k w]|] eqn:E.
  - intros [= <- <-] S. apply find_row_Some in E as [Ek P]; simpl in *. bool_simpl.
    eapply worlds_replace_schema; [done|done|done|simpl; lia|done].
  - rewrite and_then_ok. intros ([] & Hf & E') S. apply fk_ok in Hf.
    apply and_then_ok in E' as (m & Hi & [= <- <-]). apply insert_row_ok in Hi as (_ & -> & Hv).
    apply worlds_insert_schema; try done; simpl; lia.
Qed.

Lemma update_world_schema id mp s ip t db db' x :
  update_world id mp s ip t db = Ok (db', x) → schema_rel db db'.
Proof.
  unfold update_world. destruct (world_sessions db !! id) as [w|] eqn:E; [|done].
  rewrite and_then_ok. intros (m & Hu & [= <- <-]) S.
  apply update_row_ok in Hu as [-> Hv]. destruct (proj2 (ok_worlds _ S) _ _ E) as [Hh Hc].
  by apply worlds_insert_schema.
Qed.

Lemma relay_update_schema db p f :
  schema_ok db →
  (∀ r, rs_world_session_id (f r) = rs_world_session_id r ∧ rs_host_user_id (f r) = rs_host_user_id r
     ∧ rs_guest_user_id (f r) = rs_guest_user_id r ∧ rs_join_ticket_id (f r) = rs_join_ticket_id r) →
  schema_ok (set_relay_sessions (update_where p f (relay_sessions db)) db).
Proof.
  intros S Hf. apply schema_set_relay_sessions; [done|].
  apply table_ok_update; [by index_side..| |apply S].
  intros k r _. by destruct (Hf r) as (-> & -> & -> & ->).
Qed.

Lemma zero_players_schema db p :
  schema_ok db →
  schema_ok (set_world_sessions (update_where p zero_players (world_sessions db)) db).
Proof.
  intros S. apply schema_set_world_sessions; [done|apply keeps_update|].
  apply table_ok_update; [by index_side|by index_side| |apply S].
  intros k w _ [? _]. split; [done|simpl; lia].
Qed.

Lemma close_world_cleanup_schema id host :
  prog_rel (db_rel schema_rel) (close_world_cleanup id host).
Proof.
  unfold close_world_cleanup. prog_rel_go; intros t db db' b.
  - intros [= <- <-] S. by apply relay_update_schema.
  - intros [= <- <-] S. apply schema_set_presence; [done|].
    apply table_ok_update; [by index_side..| |apply S]. by intros k p _ [? _].
  - destruct (world_sessions db !! id) as [w|] eqn:E; [|done]. intros [= <- <-] S.
    eapply worlds_replace_schema; [done|done|done|simpl; lia|done].
Qed.
Hint Resolve close_world_cleanup_schema : loon.

Lemma worlds_create_schema me mp : prog_rel (db_rel schema_rel) (create cfg me mp).
Proof. unfold create. prog_rel_go. intros t db db' b. apply upsert_world_schema. Qed.

Lemma announce_policy_schema id host ip : prog_rel (db_rel schema_rel) (announce_policy id host ip).
Proof. unfold announce_policy. prog_rel_go. Qed.
Hint Resolve announce_policy_schema : loon.

Lemma worlds_update_schema me id body : prog_rel (db_rel schema_rel) (update cfg me id body).
Proof.
  unfold update, update_tx. prog_rel_go. intros t db db' b. apply update_world_schema.
Qed.

Lemma worlds_close_schema me id : prog_rel (db_rel schema_rel) (close me id).
Proof.
  unfold close, close_tx. prog_rel_go. intros t db db' b [= <- <-] S.
  apply schema_set_world_sessions; [done|apply keeps_update|].
  apply table_ok_update; [by index_side| | |apply S].
  - index_side. intros k w1 w2 _. simpl. done.
  - by intros k w _ [? ?].
Qed.

Lemma load_open_world_rel R `{!PreOrder R} id : prog_rel (db_rel R) (load_open_world_session id).
Proof. unfold load_open_world_session. prog_rel_go. Qed.

Lemma reconcile_schema : prog_rel (db_rel schema_rel) reconcile_after_restart.
Proof.
  unfold reconcile_after_restart. prog_rel_go; intros t db db' b [= <- <-] S.
  - by apply relay_update_schema.
  - by apply zero_players_schema.
Qed.
End WorldsSchema.

#[export] Hint Resolve worlds_create_schema worlds_update_schema worlds_close_schema
  load_open_world_rel reconcile_schema : loon.

(** ** Lemmas *)

(** The database a close leaves: the world's row is [w], its relay sessions are closed,
    the host's presence has left. *)
Definition closed_db (now : Time) (id host : Uuid) (w : WorldSession) (db : Db) : Db :=
  set_world_sessions (<[id := w]> (world_sessions db))
    (set_presence (update_where (λ k _, (k =? host)%N) (leave_world now) (presence db))
      (set_relay_sessions (update_where (λ _ r, open_relay_of id r) (close_relay now)
        (relay_sessions db)) db)).

Lemma wp_close_world_cleanup id host now st w (Q : AppState → AppResult (Keyed WorldSession) → Prop) :
  world_sessions (st_db st) !! id = Some w →
  Q (set_db (closed_db now id host (zero_players w) (st_db st)) st)
    (Ok (mkKeyed id (zero_players w))) →
  wp (close_world_cleanup id host) (calm now) st Q.
Proof.
  intros Hw HQ. unfold close_world_cleanup. wp_calm.
  cbn [world_sessions set_presence set_relay_sessions]. rewrite Hw. exact HQ.
Qed.

Lemma calm_wp_transaction {A} now (body : prog (AppResult A)) st (Q : AppState → AppResult A → Prop) a :
  wp body (calm now) st (λ st' r, r = Ok a ∧ Q st' (Ok a)) →
  wp (transaction body) (calm now) st Q.
Proof.
  intros H. apply wp_transaction_calm. eapply wp_conseq; [exact H|]. by intros st' r [-> HQ].
Qed.

(** The world as a close leaves it. *)
Definition final_world (now : Time) (w : WorldSession) : WorldSession :=
  zero_players (if is_open (ws_status w) then close_world now w else w).

Lemma wp_close me id now st (Q : AppState → AppResult unit → Prop) :
  match world_sessions (st_db st) !! id with
  | None => Q st (Err (NotFound "world session not found"))
  | Some w =>
      if negb (ws_host_user_id w =? me)%N then Q st (Err Forbidden)
      else Q (set_db (closed_db now id me (final_world now w) (st_db st)) st) (Ok ())
  end →
  wp (close me id) (calm now) st Q.
Proof.
  intros HQ. unfold close. wp_calm.
  destruct (world_sessions (st_db st) !! id) as [w|] eqn:Hw; simpl; [|by wp_calm].
  destruct (negb _); [by wp_calm|]. wp_step. unfold close_tx. wp_calm.
  eapply (wp_close_world_cleanup _ _ _ _ (if is_open (ws_status w) then close_world now w else w)).
  - cbn [world_sessions set_world_sessions st_db set_db]. rewrite lookup_update_where, Hw. simpl.
    by rewrite N.eqb_refl.
  - wp_calm. fold (final_world now w).
    match goal with |- Q ?s _ => replace s with
      (set_db (closed_db now id me (final_world now w) (st_db st)) st) end; [done|].
    unfold closed_db. simpl. unfold set_db, set_world_sessions, set_presence. simpl. f_equal. f_equal.
    apply map_eq. intros k. destruct (decide (k = id)) as [->|Hne].
    + by rewrite !lookup_insert_eq.
    + rewrite !lookup_insert_ne by done. rewrite lookup_update_where.
      rewrite (proj2 (N.eqb_neq k id)) by done. by destruct (world_sessions (st_db st) !! k).
Qed.

(** Closing does not touch the unique index: a closed row conflicts with none. *)
Lemma update_world_closing id mp ip t db w :
  world_sessions db !! id = Some w →
  update_world id mp Closed ip t db =
  Ok (set_world_sessions (<[id := mkWorldSession (ws_host_user_id w) Closed mp
        (ws_current_players w) ip (ws_created_at w) (Some (t_db t))]> (world_sessions db)) db,
      mkKeyed id (mkWorldSession (ws_host_user_id w) Closed mp (ws_current_players w) ip
        (ws_created_at w) (Some (t_db t)))).
Proof.
  intros Hw. unfold update_world. rewrite Hw. unfold update_row.
  rewrite (proj2 (violated_None _ _ _ _)); [done|].
  by intros ix ->%list_elem_of_singleton k' r' _ _.
Qed.

(** ** Properties *)

(** Closing a world. Only its host may: an unknown world is [NotFound], another
    user's is [Forbidden], and then nothing changes. Otherwise the world ends closed with
    no players, every relay session of the world is closed, the host's presence points
    at no world, and no other world, relay session or presence changes. *)
Theorem close_exact me id now o st st' r :
  (∀ i, calm now (o i)) → exec (close me id) o st = (st', r) →
  match world_sessions (st_db st) !! id with
  | None => st' = st ∧ r = Err (NotFound "world session not found")
  | Some w =>
      if negb (ws_host_user_id w =? me)%N then st' = st ∧ r = Err Forbidden
      else r = Ok () ∧
        (∀ k, world_sessions (st_db st') !! k =
           if (k =? id)%N then Some (final_world now w) else world_sessions (st_db st) !! k) ∧
        (∀ k x, relay_sessions (st_db st') !! k = Some x →
           rs_world_session_id x = id → rs_status x = "closed") ∧
        (∀ k x, rs_world_session_id x ≠ id →
           relay_sessions (st_db st') !! k = Some x ↔ relay_sessions (st_db st) !! k = Some x) ∧
        (∀ k, presence (st_db st') !! k =
           if (k =? me)%N then leave_world now <$> presence (st_db st) !! k
           else presence (st_db st) !! k)
  end.
Proof.
  intros Ho Hex. exec_start Hex (calm now). apply wp_close.
  destruct (world_sessions (st_db st) !! id) as [w|] eqn:Hw; [|done].
  destruct (negb _); [done|]. split; [done|]. cbn [st_db set_db closed_db world_sessions
    relay_sessions presence set_world_sessions set_presence set_relay_sessions].
  repeat split.
  - intros k. destruct (N.eqb_spec k id) as [->|Hne]; [by rewrite lookup_insert_eq|].
    by rewrite lookup_insert_ne.
  - intros k x Hk Hx. apply lookup_update_where_Some in Hk as (x0 & Hk & ->).
    unfold open_relay_of in *. destruct (_ && _) eqn:E; [done|].
    apply andb_false_iff in E as [E|E]; bool_simpl; [|done]. done.
  - intros Hk. apply lookup_update_where_Some in Hk as (x0 & Hk & E).
    unfold open_relay_of in E. destruct (_ && _) eqn:B; [|congruence].
    bool_simpl. subst x. done.
  - intros Hk. apply lookup_update_where_Some. exists x. split; [done|].
    unfold open_relay_of. by rewrite (proj2 (N.eqb_neq _ _)).
  - intros k. rewrite lookup_update_where.
    destruct (presence (st_db st) !! k); simpl; by destruct (k =? me)%N.
Qed.

(** The two ways to close agree: a [PATCH] that closes an open world, and changes
    nothing else, leaves the same database as [DELETE]. *)
Theorem patch_close_is_close cfg me id w now o1 o2 st :
  (∀ i, calm now (o1 i)) → (∀ i, calm now (o2 i)) →
  world_sessions (st_db st) !! id = Some w → ws_host_user_id w = me → ws_status w = Open →
  let patch := exec (update cfg me id (mkUpdate None (Some "closed") None)) o1 st in
  let delete := exec (close me id) o2 st in
  st_db patch.1 = st_db delete.1 ∧ is_ok patch.2 = true ∧ is_ok delete.2 = true.
Proof.
  intros Ho1 Ho2 Hw Hh Hs patch delete.
  assert (D : delete.1 = set_db (closed_db now id me (final_world now w) (st_db st)) st
    ∧ delete.2 = Ok ()).
  { destruct delete as [st2 r2] eqn:E. unfold delete in E. exec_start E (calm now). apply wp_close.
    by rewrite Hw, Hh, N.eqb_refl. }
  assert (P : patch.1 = set_db (closed_db now id me (final_world now w) (st_db st)) st
    ∧ is_ok patch.2 = true).
  { destruct patch as [st1 r1] eqn:E. unfold patch in E. exec_start E (calm now).
    unfold update. wp_calm. rewrite Hw. wp_calm. rewrite Hh, N.eqb_refl. cbn [negb].
    unfold new_max_players. cbn [up_max_players up_status up_invite_policy]. wp_calm.
    change (parse_world_status "closed") with (@Ok WorldStatus AppError Closed). wp_calm.
    unfold update_tx. wp_calm. rewrite (update_world_closing _ _ _ _ _ _ Hw).
    rewrite Hs. cbn [bool_decide decide andb]. wp_calm.
    eapply wp_close_world_cleanup; [apply lookup_insert_eq|].
    rewrite bool_decide_true by done. wp_calm. split; [|done].
    unfold final_world. rewrite Hs. simpl. unfold closed_db, set_db. simpl. f_equal.
    rewrite Hh. unfold set_world_sessions. simpl. f_equal.
    rewrite insert_insert_eq. match goal with E : t_db ?t = now |- context [t_db ?t] => rewrite E end.
    by rewrite <- Hh. }
  destruct D as [D1 D2], P as [P1 P2]. by rewrite D1, D2, P1.
Qed.

(** Opening a world is idempotent. When it succeeds the caller hosts an open world
    with no players and a capacity between 1 and the configured cap, it is the only one
    they host, and if they hosted one before it is the same one; no other world
    changes. *)
Theorem create_world_idempotent `{Lowercase} cfg me mp o st st' x :
  schema_ok (st_db st) → exec (create cfg me mp) o st = (st', Ok x) →
  ws_host_user_id (row x) = me ∧ ws_status (row x) = Open ∧ ws_current_players (row x) = 0%Z ∧
  (1 ≤ ws_max_players (row x) ≤ max_players_per_world cfg)%Z ∧
  (∀ k, world_sessions (st_db st') !! k =
     if (k =? key x)%N then Some (row x) else world_sessions (st_db st) !! k) ∧
  (∀ k w, world_sessions (st_db st') !! k = Some w → ws_host_user_id w = me →
     ws_status w = Open → k = key x).
Proof.
  intros S Hex. exec_start Hex any_tick. unfold create.
  destruct (clamp 1 _ _) as [n|] eqn:C; [|done].
  assert (Hn : (1 ≤ n ≤ max_players_per_world cfg)%Z).
  { unfold clamp in C. destruct (_ <? 1)%Z eqn:E; [done|]. injection C as <-. bool_simpl.
    repeat case_match; bool_simpl; lia. }
  apply wp_sql_app. intros t _. fault_case F; [done|].
  destruct (upsert_world me n t (st_db st)) as [[db' y]|e] eqn:U; [|done]. intros [= <-].
  assert (S' := upsert_world_schema _ _ _ _ _ _ U S).
  assert (HU : uniq world_sessions_one_open_per_host (world_sessions db')).
  { eapply table_ok_uniq; [|apply S']. by apply list_elem_of_singleton. }
  assert (HR : ws_host_user_id (row y) = me ∧ ws_status (row y) = Open
    ∧ ws_current_players (row y) = 0%Z ∧ ws_max_players (row y) = n
    ∧ world_sessions db' = <[key y := row y]> (world_sessions (st_db st))).
  { unfold upsert_world in U. destruct (find_row _ _) as [[k w]|] eqn:E.
    - injection U as <- <-. apply find_row_Some in E as [Ek P]; simpl in *.
      unfold is_open in P. by bool_simpl.
    - apply and_then_ok in U as ([] & _ & U). apply and_then_ok in U as (m & Hi & [= <- <-]).
      by apply insert_row_ok in Hi as (_ & -> & _). }
  destruct HR as (Hh & Hs & Hc & Hm & HW). rewrite Hm. cbn [st_db set_db].
  split; [done|]. split; [done|]. split; [done|]. split; [done|]. split.
  - intros k. rewrite HW. destruct (N.eqb_spec k (key y)) as [->|Hne].
    + apply lookup_insert_eq.
    + by rewrite lookup_insert_ne.
  - intros k w Hk Hwh Hws. eapply (HU k (key y) w (row y) Hk).
    + rewrite HW. apply lookup_insert_eq.
    + simpl. unfold is_open. rewrite !andb_true_iff, !bool_decide_eq_true, N.eqb_eq. by rewrite Hwh.
Qed.

(** ** Concrete instances *)

(** [sample_state] with an active relay session 70 of guest 1 in world 50, which counts
    one player. *)
Definition st_playing : AppState :=
  set_db (set_world_sessions {[ 50%N := mkWorldSession 2 Open 3 1 FriendsOfFriends 0 None ]}
    (set_relay_sessions {[ 70%N := mkRelaySession 50 2 (Some 1%N) None "active" 6 None ]}
      sample_db)) sample_state.

Lemma close_exact_witness :
  let r := exec (close 2 50) (calm_oracle 9) st_playing in
  (∀ i, calm 9 (calm_oracle 9 i)) ∧ r.2 = Ok () ∧
  (∀ k, world_sessions (st_db r.1) !! k =
     if (k =? 50)%N then Some (mkWorldSession 2 Closed 3 0 FriendsOfFriends 0 (Some 9%Z))
     else world_sessions (st_db st_playing) !! k) ∧
  (∀ k x, relay_sessions (st_db r.1) !! k = Some x →
     rs_world_session_id x = 50%N → rs_status x = "closed") ∧
  (∀ k x, rs_world_session_id x ≠ 50%N →
     relay_sessions (st_db r.1) !! k = Some x ↔ relay_sessions (st_db st_playing) !! k = Some x) ∧
  (∀ k, presence (st_db r.1) !! k =
     if (k =? 2)%N then leave_world 9 <$> presence (st_db st_playing) !! k
     else presence (st_db st_playing) !! k).
Proof.
  intros r. split; [exact (calm_oracle_calm 9)|].
  apply (close_exact 2 50 9 (calm_oracle 9) st_playing r.1 r.2);
    [exact (calm_oracle_calm 9)|unfold r; by destruct (exec _ _ _)].
Defined.

Lemma patch_close_is_close_witness :
  let patch := exec (update default_config 2 50 (mkUpdate None (Some "closed") None))
                 (calm_oracle 9) st_playing in
  let delete := exec (close 2 50) (λ i, calm_oracle 9 (i + 5)) st_playing in
  (fmap ws_status (world_sessions (st_db delete.1) !! 50%N)) = Some Closed ∧
  st_db patch.1 = st_db delete.1 ∧ is_ok patch.2 = true ∧ is_ok delete.2 = true.
Proof.
  intros patch delete. split; [vm_compute; reflexivity|].
  apply (patch_close_is_close default_config 2 50 (mkWorldSession 2 Open 3 1 FriendsOfFriends 0 None) 9);
    [exact (calm_oracle_calm 9)|intros i; exact (calm_oracle_calm 9 (i + 5))|
     vm_compute; reflexivity..].
Defined.

Lemma create_world_idempotent_witness :
  let r := exec (create default_config 2 (Some 100%Z)) (calm_oracle 9) st_playing in
  let x := mkKeyed 50%N (mkWorldSession 2 Open 5 0 FriendsOfFriends 0 None) in
  r = (r.1, Ok x) ∧
  ws_host_user_id (row x) = 2%N ∧ ws_status (row x) = Open ∧ ws_current_players (row x) = 0%Z ∧
  (1 ≤ ws_max_players (row x) ≤ max_players_per_world default_config)%Z ∧
  (∀ k, world_sessions (st_db r.1) !! k =
     if (k =? key x)%N then Some (row x) else world_sessions (st_db st_playing) !! k) ∧
  (∀ k w, world_sessions (st_db r.1) !! k = Some w → ws_host_user_id w = 2%N →
     ws_status w = Open → k = key x).
Proof.
  intros r x. assert (E : r = (r.1, Ok x)) by (vm_compute; reflexivity). split; [exact E|].
  apply (create_world_idempotent (H := ascii_lowercase) default_config 2 (Some 100%Z)
    (calm_oracle 9) st_playing r.1 x); [|exact E].
  apply schema_okb_sound. vm_compute. reflexivity.
Defined.
