(* ===== verification/Join.v ===== *)
(** * Joining a world

    [crates/network/src/join.rs]: join tickets and the relay sessions they open, direct
    joins of a joinable host, and join requests with the host's approval. *)

From S2P Require Import Prelude RustStr Errors Models Table Realtime Schema Prog Auth.
From S2P Require Import Invariant AuthSchema.
From S2P Require Import Queries Presence Worlds.

(** ** Friend-of-friend admission *)

(** The [EXISTS] of [is_friend_of_active_member]: a guest row of the world that is active,
    whose guest is present and heard from within the timeout, and a friend. *)
Definition live_member_link (now : Time) (timeout : Duration) (requester world_id : Uuid) (db : Db)
  (r : RelaySession) : bool :=
  (rs_world_session_id r =? world_id)%N
  && (rs_status r =? "active")%string
  && match rs_guest_user_id r with
     | None => false
     | Some guest =>
         friends guest requester db
         && match presence db !! guest with
            | Some p => negb (p_status p =? "offline")%string
                        && (now - timeout <? p_last_heartbeat_at p)%Z
            | None => false
            end
     end.

Definition is_friend_of_active_member (heartbeat_timeout : Duration) (requester world_id : Uuid)
  : prog (AppResult bool) :=
  select (λ t db, exists_row (λ _ r, live_member_link (t_db t) heartbeat_timeout requester world_id db r)
                    (relay_sessions db)).

Definition incr_join_tickets (m : Metrics) : Metrics :=
  mkMetrics (bootstraps m) (heartbeats m) (friend_requests_created m)
    (counter_incr (join_tickets_issued m)) (relay_sessions_opened m) (relay_bytes_forwarded m)
    (signaling_connections m).

(** ** Rows *)

Record JoinRequestRow : Type := mkJoinRequestRow {
  jrr_id : Uuid;
  jrr_request : JoinRequest;
  jrr_requester : UserDto;
  jrr_host : UserDto
}.

Record JoinRequestDto : Type := mkJoinRequestDto {
  jrd_id : Uuid;
  jrd_status : RequestStatus;
  jrd_world_session_id : Uuid;
  jrd_created_at : Time;
  jrd_expires_at : Time;
  jrd_requester : UserDto;
  jrd_host : UserDto
}.

(** [impl From<JoinRequestRow> for JoinRequestDto]. *)
Definition join_request_dto (r : JoinRequestRow) : JoinRequestDto :=
  let j := jrr_request r in
  mkJoinRequestDto (jrr_id r) (jr_status j) (jr_world_session_id j) (jr_created_at j)
    (jr_expires_at j) (jrr_requester r) (jrr_host r).

(** [JOIN_REQUEST_SELECT]. *)
Definition join_request_row (db : Db) (x : Keyed JoinRequest) : option JoinRequestRow :=
  match join_user (jr_requester_user_id (row x)) db, join_user (jr_host_user_id (row x)) db with
  | Some requester, Some host => Some (mkJoinRequestRow (key x) (row x) requester host)
  | _, _ => None
  end.

Definition query_join_request (id : Uuid) (db : Db) : option JoinRequestRow :=
  match join_requests db !! id with
  | Some r => join_request_row db (mkKeyed id r)
  | None => None
  end.

(** Also [load_join_request_for_update]: the row lock is the atomicity of the
    transaction. *)
Definition load_join_request (id : Uuid) : prog (AppResult JoinRequestRow) :=
  let? row := select (λ _ db, query_join_request id db) in
  lift (ok_or (NotFound "join request not found") row).

(** ** Statements *)

Definition insert_ticket (user_id world_id : Uuid) (hash : string) (expires_at : Time)
  (t : Tick) (db : Db) : SqlResult (Db * Uuid) :=
  try _ := fk "join_tickets_user_id_fkey" user_id (users db) in
  try _ := fk "join_tickets_world_session_id_fkey" world_id (world_sessions db) in
  try m := insert_row "join_tickets_pkey" [join_tickets_token_hash_key] (t_uuid t)
             (mkJoinTicket user_id world_id hash expires_at None (t_db t)) (join_tickets db) in
  Ok (set_join_tickets m db, t_uuid t).

Definition insert_relay_session (world_id host_id guest_id ticket_id : Uuid)
  (t : Tick) (db : Db) : SqlResult (Db * Uuid) :=
  try _ := fk "relay_sessions_world_session_id_fkey" world_id (world_sessions db) in
  try _ := fk "relay_sessions_host_user_id_fkey" host_id (users db) in
  try _ := fk "relay_sessions_guest_user_id_fkey" guest_id (users db) in
  try _ := fk "relay_sessions_join_ticket_id_fkey" ticket_id (join_tickets db) in
  try m := insert_row "relay_sessions_pkey" [] (t_uuid t)
             (mkRelaySession world_id host_id (Some guest_id) (Some ticket_id) "pending" (t_db t) None)
             (relay_sessions db) in
  Ok (set_relay_sessions m db, t_uuid t).

Definition set_jr_status (status : RequestStatus) (now : Time) (r : JoinRequest) : JoinRequest :=
  mkJoinRequest (jr_requester_user_id r) (jr_host_user_id r) (jr_world_session_id r) status
    (jr_expires_at r) (jr_created_at r) now.

(** [UPDATE join_requests SET status = .., updated_at = now() WHERE p], with the rows
    affected. *)
Definition update_join_requests (p : Uuid → JoinRequest → bool) (status : RequestStatus) (t : Tick)
  (db : Db) : SqlResult (Db * nat) :=
  Ok (set_join_requests (update_where p (set_jr_status status (t_db t)) (join_requests db)) db,
      count_rows p (join_requests db)).

Definition insert_join_request (requester host world_id : Uuid) (expires_at : Time)
  (t : Tick) (db : Db) : SqlResult (Db * Uuid) :=
  try _ := fk "join_requests_requester_user_id_fkey" requester (users db) in
  try _ := fk "join_requests_host_user_id_fkey" host (users db) in
  try _ := fk "join_requests_world_session_id_fkey" world_id (world_sessions db) in
  try m := insert_row "join_requests_pkey" [join_requests_pending_unique] (t_uuid t)
             (mkJoinRequest requester host world_id Pending expires_at (t_db t) (t_db t))
             (join_requests db) in
  Ok (set_join_requests m db, t_uuid t).

Section Join.
Context `{Primitives} (cfg : Config).

(** ** Tickets *)

(** The policy, and the host's version and loader. *)
Definition ticket_context (world_id : Uuid) (db : Db)
  : SqlResult (string * option string * option string) :=
  match world_sessions db !! world_id with
  | None => Err RowNotFound
  | Some w =>
      let p := presence db !! ws_host_user_id w in
      Ok (invite_policy_text (ws_invite_policy w), p ≫= p_minecraft_version, p ≫= p_loader)
  end.

Definition issue_ticket_and_relay_tx (guest_id host_id world_session_id : Uuid)
  : prog (AppResult JoinTicketDto) :=
  let* token := generate_token in
  let ttl := default (secs 60) (from_std (join_ticket_ttl cfg)) in
  let* now := utc_now in
  let expires_at := (now + ttl)%Z in
  let? '(invite_policy, host_minecraft_version, host_loader) :=
    sql_app (λ _ db, try c := ticket_context world_session_id db in Ok (db, c)) in
  let? ticket_id :=
    sql_app (insert_ticket guest_id world_session_id (hash_token token) expires_at) in
  let? relay_session_id :=
    sql_app (insert_relay_session world_session_id host_id guest_id ticket_id) in
  ret_ok (mkJoinTicketDto token relay_session_id world_session_id host_id expires_at
            invite_policy host_minecraft_version host_loader).

Definition issue_ticket_and_relay (guest_id host_id world_session_id : Uuid)
  : prog (AppResult JoinTicketDto) :=
  let? ticket := transaction (issue_ticket_and_relay_tx guest_id host_id world_session_id) in
  do* on_metrics incr_join_tickets;
  ret_ok ticket.

Definition host_effective_status (host_id : Uuid) : prog (AppResult PresenceStatus) :=
  effective_status_for cfg host_id.

(** ** [POST /world-sessions/:id/join-ticket] *)

Definition create_join_ticket (guest world_id : Uuid) : prog (AppResult JoinTicketDto) :=
  let? world := load_open_world_session world_id in
  let host := ws_host_user_id (row world) in
  if (host =? guest)%N then ret_err (BadRequest "you cannot join your own world")
  else
    let? friends := are_friends guest host in
    if negb friends then ret_err Forbidden
    else
      let? status := host_effective_status host in
      if negb (bool_decide (status = Joinable))
      then ret_err (Conflict "host is not open for free join; send a join request instead")
      else if (ws_max_players (row world) <=? ws_current_players (row world))%Z
      then ret_err (Conflict "world is full")
      else
        let? ticket := issue_ticket_and_relay guest host world_id in
        let? guest_dto := fetch_user_dto guest in
        do* signal host (GuestArriving (jt_relay_session_id ticket) world_id guest_dto);
        ret_ok ticket.

(** ** [POST /world-sessions/:id/join-requests] *)

(** The admission test of requests: the host's friends may ask; a friend of a friend
    only if the world opts in and somebody they know is in it. *)
Definition may_join (requester : Uuid) (host : Uuid) (world_id : Uuid) (policy : InvitePolicy)
  : prog (AppResult unit) :=
  let? direct := are_friends requester host in
  if direct then ret_ok ()
  else if negb (bool_decide (policy = FriendsOfFriends)) then ret_err Forbidden
  else
    let? via_member := is_friend_of_active_member (heartbeat_timeout cfg) requester world_id in
    if via_member then ret_ok () else ret_err Forbidden.

(** The lapsed pending requests of one requester for one world. *)
Definition lapsed_request (world_id requester : Uuid) (now : Time) (_ : Uuid) (r : JoinRequest)
  : bool :=
  (jr_world_session_id r =? world_id)%N && (jr_requester_user_id r =? requester)%N
  && is_pending (jr_status r) && (jr_expires_at r <=? now)%Z.

Definition create_join_request (requester world_id : Uuid) : prog (AppResult JoinRequestDto) :=
  let? world := load_open_world_session world_id in
  let host := ws_host_user_id (row world) in
  if (host =? requester)%N then ret_err (BadRequest "you cannot join your own world")
  else
    do? may_join requester host world_id (ws_invite_policy (row world));
    let? status := host_effective_status host in
    if negb (is_in_world status) then ret_err (Conflict "host is not in a world")
    else
      let ttl := default (secs 60) (from_std (join_request_ttl cfg)) in
      let* now := utc_now in
      let expires_at := (now + ttl)%Z in
      do? sql_app (λ t db,
        update_join_requests (lapsed_request world_id requester (t_db t)) Expired t db);
      let* inserted := sql (insert_join_request requester host world_id expires_at) in
      match inserted with
      | Err err =>
          if is_unique_violation err
          then ret_err (Conflict "a join request is already pending")
          else ret_err (Database err)
      | Ok id =>
          let? row := load_join_request id in
          let dto := join_request_dto row in
          do* signal host (JoinRequestEv id world_id (jrd_requester dto));
          ret_ok dto
      end.

Definition incoming (me : Uuid) : prog (AppResult (list JoinRequestDto)) :=
  select (λ t db,
    map join_request_dto (omap (join_request_row db)
      (order_by_desc jr_created_at
        (select_rows (λ _ r, (jr_host_user_id r =? me)%N && is_pending (jr_status r)
                             && (t_db t <? jr_expires_at r)%Z) (join_requests db))))).

(** ** [POST /join-requests/:id/accept] *)

Definition pending_id (id k : Uuid) (r : JoinRequest) : bool :=
  (k =? id)%N && is_pending (jr_status r).

Definition accept_tx (me id : Uuid) : prog (AppResult (JoinRequest * JoinTicketDto)) :=
  let? row := load_join_request id in
  let r := jrr_request row in
  if negb (jr_host_user_id r =? me)%N then ret_err Forbidden
  else if negb (is_pending (jr_status r)) then ret_err (Conflict "join request is not pending")
  else
    let* now := utc_now in
    if (jr_expires_at r <=? now)%Z then ret_err (Conflict "join request has expired")
    else
      let? world := load_open_world_session (jr_world_session_id r) in
      let w := Models.row world in
      do? may_join (jr_requester_user_id r) (jr_host_user_id r) (jr_world_session_id r)
            (ws_invite_policy w);
      if (ws_max_players w <=? ws_current_players w)%Z then ret_err (Conflict "world is full")
      else
        let? transitioned := sql_app (update_join_requests (pending_id id) Accepted) in
        if negb (transitioned =? 1)%nat then ret_err (Conflict "join request is not pending")
        else
          let? ticket := issue_ticket_and_relay_tx (jr_requester_user_id r) (jr_host_user_id r)
                           (jr_world_session_id r) in
          ret_ok (r, ticket).

Definition accept (me id : Uuid) : prog (AppResult JoinRequestDto) :=
  let? '(r, ticket) := transaction (accept_tx me id) in
  do* on_metrics incr_join_tickets;
  let? guest_dto := fetch_user_dto (jr_requester_user_id r) in
  do* signal (jr_requester_user_id r) (JoinRequestAccepted id ticket);
  do* signal (jr_host_user_id r)
        (GuestArriving (jt_relay_session_id ticket) (jr_world_session_id r) guest_dto);
  let? row := load_join_request id in
  ret_ok (join_request_dto row).

Definition decline (me id : Uuid) : prog (AppResult JoinRequestDto) :=
  let? row := load_join_request id in
  let r := jrr_request row in
  if negb (jr_host_user_id r =? me)%N then ret_err Forbidden
  else if negb (is_pending (jr_status r)) then ret_err (Conflict "join request is not pending")
  else
    let? transitioned := sql_app (update_join_requests (pending_id id) Declined) in
    if (transitioned =? 0)%nat then ret_err (Conflict "join request is not pending")
    else
      let? row := load_join_request id in
      let dto := join_request_dto row in
      do* signal (jr_requester_user_id r) (JoinRequestDeclined id);
      ret_ok dto.
End Join.

(** ** The schema's invariant *)

Section JoinSchema.
Context `{Lowercase} `{Primitives} (cfg : Config).

Lemma insert_ticket_ok u w h e t db db' k :
  insert_ticket u w h e t db = Ok (db', k) →
  let r := mkJoinTicket u w h e None (t_db t) in
  ref u (users db) ∧ ref w (world_sessions db) ∧ join_tickets db !! t_uuid t = None
  ∧ k = t_uuid t ∧ db' = set_join_tickets (<[k := r]> (join_tickets db)) db
  ∧ violated [join_tickets_token_hash_key] k r (join_tickets db) = None.
Proof.
  unfold insert_ticket. rewrite and_then_ok. intros ([] & Hu & E). apply fk_ok in Hu.
  apply and_then_ok in E as ([] & Hw & E). apply fk_ok in Hw.
  apply and_then_ok in E as (m & Hi & [= <- <-]). by apply insert_row_ok in Hi as (? & -> & ?).
Qed.

Lemma insert_relay_session_ok w h g k t db db' rid :
  insert_relay_session w h g k t db = Ok (db', rid) →
  ref w (world_sessions db) ∧ ref h (users db) ∧ ref g (users db) ∧ ref k (join_tickets db)
  ∧ relay_sessions db !! t_uuid t = None ∧ rid = t_uuid t
  ∧ db' = set_relay_sessions
      (<[rid := mkRelaySession w h (Some g) (Some k) "pending" (t_db t) None]> (relay_sessions db)) db.
Proof.
  unfold insert_relay_session. rewrite and_then_ok. intros ([] & Hw & E). apply fk_ok in Hw.
  apply and_then_ok in E as ([] & Hh & E). apply fk_ok in Hh.
  apply and_then_ok in E as ([] & Hg & E). apply fk_ok in Hg.
  apply and_then_ok in E as ([] & Hk & E). apply fk_ok in Hk.
  apply and_then_ok in E as (m & Hi & [= <- <-]). by apply insert_row_ok in Hi as (? & -> & ?).
Qed.

Lemma insert_ticket_schema u w h e t db db' k :
  insert_ticket u w h e t db = Ok (db', k) → schema_rel db db'.
Proof.
  intros E S. apply insert_ticket_ok in E as (Hu & Hw & _ & -> & -> & Hv).
  apply schema_set_join_tickets; [done|apply keeps_insert|].
  apply table_ok_insert; [by index_side|done|done|apply S].
Qed.

Lemma insert_relay_session_schema w h g k t db db' rid :
  insert_relay_session w h g k t db = Ok (db', rid) → schema_rel db db'.
Proof.
  intros E S. apply insert_relay_session_ok in E as (Hw & Hh & Hg & Hk & _ & -> & ->).
  apply schema_set_relay_sessions; [done|].
  apply table_ok_insert; [by index_side|done|done|apply S].
Qed.

Lemma update_join_requests_schema p s t db db' n :
  is_pending s = false → update_join_requests p s t db = Ok (db', n) → schema_rel db db'.
Proof.
  intros Hs [= <- <-] S. apply schema_set_join_requests; [done|].
  apply table_ok_update; [by index_side| |by intros k r _|apply S].
  index_side. intros k r1 r2 _. simpl. by rewrite Hs.
Qed.

Lemma insert_join_request_schema a h w e t db db' k :
  insert_join_request a h w e t db = Ok (db', k) → schema_rel db db'.
Proof.
  unfold insert_join_request. rewrite and_then_ok. intros ([] & Ha & E) S. apply fk_ok in Ha.
  apply and_then_ok in E as ([] & Hh & E). apply fk_ok in Hh.
  apply and_then_ok in E as ([] & Hw & E). apply fk_ok in Hw.
  apply and_then_ok in E as (m & Hi & [= <- <-]). apply insert_row_ok in Hi as (_ & -> & Hv).
  apply schema_set_join_requests; [done|].
  apply table_ok_insert; [by index_side|done|done|apply S].
Qed.


Lemma issue_ticket_and_relay_tx_schema g h w :
  prog_rel (db_rel schema_rel) (issue_ticket_and_relay_tx cfg g h w).
Proof.
  unfold issue_ticket_and_relay_tx. prog_rel_go.
  - intros t db db' b E. apply and_then_ok in E as (c & _ & [= <- <-]). reflexivity.
  - intros t db db' b. apply insert_ticket_schema.
  - intros t db db' b. apply insert_relay_session_schema.
Qed.
Hint Resolve issue_ticket_and_relay_tx_schema : loon.

Lemma may_join_rel R `{!PreOrder R} a h w p : prog_rel (db_rel R) (may_join cfg a h w p).
Proof. unfold may_join, are_friends, is_friend_of_active_member. prog_rel_go. Qed.
Hint Resolve may_join_rel : loon.

Lemma create_join_ticket_schema g w : prog_rel (db_rel schema_rel) (create_join_ticket cfg g w).
Proof.
  unfold create_join_ticket, are_friends, issue_ticket_and_relay, fetch_user_dto,
    host_effective_status. prog_rel_go.
Qed.

Lemma create_join_request_schema a w : prog_rel (db_rel schema_rel) (create_join_request cfg a w).
Proof.
  unfold create_join_request, host_effective_status, load_join_request. prog_rel_go.
  - intros t db db' b. by apply update_join_requests_schema.
  - intros t db db' b. apply insert_join_request_schema.
Qed.

Lemma join_incoming_schema me : prog_rel (db_rel schema_rel) (incoming me).
Proof. unfold incoming. prog_rel_go. Qed.

Lemma join_accept_schema me id : prog_rel (db_rel schema_rel) (accept cfg me id).
Proof.
  unfold accept, accept_tx, load_join_request, fetch_user_dto. prog_rel_go.
  intros t db db' b. by apply update_join_requests_schema.
Qed.

Lemma join_decline_schema me id : prog_rel (db_rel schema_rel) (decline me id).
Proof.
  unfold decline, load_join_request. prog_rel_go.
  intros t db db' b. by apply update_join_requests_schema.
Qed.
End JoinSchema.

#[export] Hint Resolve issue_ticket_and_relay_tx_schema create_join_ticket_schema
  create_join_request_schema may_join_rel join_incoming_schema join_accept_schema join_decline_schema : loon.

(** ** Once pending, once settled

    A request that is no longer pending. Every handler keeps it so. *)

Definition settled (id : Uuid) (db : Db) : Prop :=
  ∃ r, join_requests db !! id = Some r ∧ is_pending (jr_status r) = false.

#[export] Instance settled_dec id db : Decision (settled id db).
Proof.
  destruct (join_requests db !! id) as [r|] eqn:E.
  - destruct (is_pending (jr_status r)) eqn:P; [right|left; by exists r]. intros (r' & E' & P'). congruence.
  - right. intros (r' & E' & _). congruence.
Defined.

Section Settled.
Context `{Primitives} (cfg : Config) (id : Uuid).

Abbreviation keeps := (keeps_gate (settled id)).

Lemma settled_other db db' :
  join_requests db' = join_requests db → keeps db db'.
Proof. intros E (r & Hr). exists r. by rewrite E. Qed.

Lemma update_join_requests_settled p s t db db' n :
  is_pending s = false → update_join_requests p s t db = Ok (db', n) → keeps db db'.
Proof.
  intros Hs [= <- <-] (r & Hr & Hp). unfold settled. simpl. rewrite lookup_update_where, Hr. simpl.
  eexists. split; [done|]. by destruct (p id r).
Qed.

Lemma insert_join_request_settled a h w e t db db' k :
  insert_join_request a h w e t db = Ok (db', k) → keeps db db'.
Proof.
  unfold insert_join_request. rewrite and_then_ok. intros ([] & Ha & E) (r & Hr & Hp).
  apply and_then_ok in E as ([] & Hh & E). apply and_then_ok in E as ([] & Hw & E).
  apply and_then_ok in E as (m & Hi & [= <- <-]). apply insert_row_ok in Hi as (Hn & -> & Hv).
  exists r. simpl. rewrite lookup_insert_ne; [done|congruence].
Qed.

Lemma issue_ticket_settled g h w : prog_rel (db_rel keeps) (issue_ticket_and_relay_tx cfg g h w).
Proof.
  unfold issue_ticket_and_relay_tx. prog_rel_go; intros t db db' b.
  - intros E. apply and_then_ok in E as (c & _ & [= <- <-]). reflexivity.
  - intros E. apply insert_ticket_ok in E as (_ & _ & _ & _ & -> & _). by apply settled_other.
  - intros E. apply insert_relay_session_ok in E as (_ & _ & _ & _ & _ & _ & ->).
    by apply settled_other.
Qed.

Lemma decline_settled me id' : prog_rel (db_rel keeps) (decline me id').
Proof.
  unfold decline, load_join_request. prog_rel_go. intros t db db' b.
  by apply update_join_requests_settled.
Qed.

Lemma create_join_request_settled a w : prog_rel (db_rel keeps) (create_join_request cfg a w).
Proof.
  unfold create_join_request, host_effective_status, load_join_request. prog_rel_go.
  - intros t db db' b. by apply update_join_requests_settled.
  - intros t db db' b. apply insert_join_request_settled.
Qed.
End Settled.

(** ** What an acceptance may mint

    While the request is not settled there is one ticket and one relay session to give. *)

Definition unsettled (id : Uuid) (db : Db) : nat :=
  if bool_decide (settled id db) then 0 else 1.

Definition frugal (id : Uuid) : relation Db := λ db db',
  (unsettled id db' ≤ unsettled id db)%nat ∧
  (size (join_tickets db') + unsettled id db' ≤ size (join_tickets db) + unsettled id db)%nat ∧
  (size (relay_sessions db') + unsettled id db' ≤ size (relay_sessions db) + unsettled id db)%nat.

#[export] Instance frugal_preorder id : PreOrder (frugal id).
Proof. split; [intros db; unfold frugal; lia|]. intros a b c. unfold frugal. lia. Qed.

Lemma frugal_settled id db db' : frugal id db db' → keeps_gate (settled id) db db'.
Proof. intros (L & _) S. unfold unsettled in L. rewrite (bool_decide_true (settled id db)) in L by done. case_bool_decide; [done|lia]. Qed.

(** Settling, or keeping settled, without minting. *)
Lemma frugal_keeps id db db' :
  keeps_gate (settled id) db db' → join_tickets db' = join_tickets db → relay_sessions db' = relay_sessions db →
  frugal id db db'.
Proof.
  intros K E1 E2. unfold frugal. rewrite E1, E2.
  assert (unsettled id db' ≤ unsettled id db)%nat; [|lia].
  unfold unsettled, keeps_gate in *. repeat case_bool_decide; try lia. tauto.
Qed.

Lemma decline_frugal `{Primitives} id me id' : prog_rel (db_rel (frugal id)) (decline me id').
Proof.
  unfold decline, load_join_request. prog_rel_go. intros t db db' b E. apply frugal_keeps.
  - revert E. by apply update_join_requests_settled.
  - by injection E as <- _.
  - by injection E as <- _.
Qed.

(** ** Symbolic execution of the shared parts *)

Section JoinWp.
Context `{Primitives} (cfg : Config).

(** What issuing a ticket writes. *)
Record issued (guest host world : Uuid) (tok : string) (db db' : Db) (dto : JoinTicketDto)
  (ticket_id : Uuid) (now_app now_db : Time) : Prop := {
  is_ticket : ticket dto = tok;
  is_world : jt_world_session_id dto = world;
  is_host : jt_host_user_id dto = host;
  is_expires : jt_expires_at dto = (now_app + default (secs 60) (from_std (join_ticket_ttl cfg)))%Z;
  is_fresh_ticket : join_tickets db !! ticket_id = None;
  is_fresh_relay : relay_sessions db !! jt_relay_session_id dto = None;
  is_db : ∃ now_rs, db' =
    set_relay_sessions
      (<[jt_relay_session_id dto :=
           mkRelaySession world host (Some guest) (Some ticket_id) "pending" now_rs None]>
         (relay_sessions db))
      (set_join_tickets
        (<[ticket_id := mkJoinTicket guest world (hash_token tok) (jt_expires_at dto) None now_db]>
           (join_tickets db)) db)
}.

Lemma wp_issue_ticket guest host world T st (Q : AppState → AppResult JoinTicketDto → Prop) :
  (∀ st' e, Q st' (Err e)) →
  (∀ t0 t1 t2 dto db', T t0 → T t1 → T t2 →
     issued guest host world (hex_encode (t_random t0)) (st_db st) db' dto (t_uuid t2)
       (t_app t1) (t_db t2) →
     Q (set_db db' st) (Ok dto)) →
  wp (issue_ticket_and_relay_tx cfg guest host world) T st Q.
Proof.
  intros HE HQ. unfold issue_ticket_and_relay_tx, generate_token.
  apply wp_bind. intros t0 H0. apply wp_bind. intros t1 H1.
  apply wp_bind_ok, wp_sql_app. intros tc _. wp_red. fault_case F; [apply HE|].
  destruct (ticket_context world (st_db st)) as [[[ip mv] ld]|e]; [|apply HE].
  wp_red. rewrite set_db_same.
  apply wp_bind_ok, wp_sql_app. intros t2 H2. fault_case F2; [apply HE|].
  destruct (insert_ticket _ _ _ _ t2 _) as [[db1 tid]|e] eqn:E1; [|apply HE].
  apply insert_ticket_ok in E1 as (_ & _ & N1 & -> & -> & _).
  apply wp_bind_ok, wp_sql_app. intros t3 H3. fault_case F3; [apply HE|]. wp_red.
  destruct (insert_relay_session _ _ _ _ t3 _) as [[db2 rid]|e] eqn:E2; [|apply HE].
  apply insert_relay_session_ok in E2 as (_ & _ & _ & _ & N2 & -> & ->).
  repeat wp_step. apply (HQ t0 t1 t2); try done. split; try done. by exists (t_db t3).
Qed.

Lemma wp_load_join_request id T st (Q : AppState → AppResult JoinRequestRow → Prop) :
  (∀ e, (∃ t, T t ∧ t_fault t = true) → Q st (Err e)) →
  (query_join_request id (st_db st) = None → Q st (Err (NotFound "join request not found"))) →
  (∀ r u1 u2, join_requests (st_db st) !! id = Some r →
     Q st (Ok (mkJoinRequestRow id r u1 u2))) →
  wp (load_join_request id) T st Q.
Proof.
  intros HF HN HQ. unfold load_join_request. repeat wp_step. fault_case F; [eauto|].
  destruct (query_join_request id (st_db st)) as [x|] eqn:E; repeat wp_step; [|by apply HN].
  unfold query_join_request in E. destruct (join_requests (st_db st) !! id) as [r|] eqn:Hr; [|done].
  unfold join_request_row in E. cbn [row] in E.
  destruct (join_user (jr_requester_user_id r) (st_db st)) as [u1|]; [|done].
  destruct (join_user (jr_host_user_id r) (st_db st)) as [u2|]; [|done].
  injection E as <-. by apply HQ.
Qed.

(** The admission test, as a condition on the database. *)
Definition admissible (now : Time) (requester host world : Uuid) (policy : InvitePolicy) (db : Db)
  : Prop :=
  befriended requester host db ∨
  (policy = FriendsOfFriends ∧
   ∃ k r, relay_sessions db !! k = Some r ∧
     live_member_link now (heartbeat_timeout cfg) requester world db r = true).

Lemma wp_may_join requester host world policy T st (Q : AppState → AppResult unit → Prop) :
  (∀ e, (∃ t, T t ∧ t_fault t = true) → Q st (Err e)) →
  (∀ t, T t → admissible (t_db t) requester host world policy (st_db st) → Q st (Ok ())) →
  (∀ t, T t → ¬ admissible (t_db t) requester host world policy (st_db st) → Q st (Err Forbidden)) →
  wp (may_join cfg requester host world policy) T st Q.
Proof.
  intros HE HY HN. unfold may_join, are_friends, is_friend_of_active_member.
  apply wp_bind_ok, wp_select. intros t Ht. fault_case F; [eauto|].
  destruct (friends requester host (st_db st)) eqn:Fr.
  { wp_step. apply (HY t Ht). left. by apply friends_spec. }
  assert (Hnf : ¬ befriended requester host (st_db st)).
  { rewrite <- friends_spec. by rewrite Fr. }
  destruct (bool_decide_reflect (policy = FriendsOfFriends)) as [Hp|Hp]; cbn [negb]; cycle 1.
  { wp_step. apply (HN t Ht). intros [?|[? _]]; done. }
  apply wp_bind_ok, wp_select. intros t1 Ht1. fault_case F1; [eauto|].
  destruct (exists_row _ (relay_sessions (st_db st))) eqn:X; wp_step.
  - apply (HY t1 Ht1). right. split; [done|]. by apply exists_row_true in X.
  - apply (HN t1 Ht1). intros [?|(_ & k & r & Hr & Hl)]; [done|].
    rewrite exists_row_false in X. by rewrite (X _ _ Hr) in Hl.
Qed.

Lemma wp_load_open_world id T st (Q : AppState → AppResult (Keyed WorldSession) → Prop) :
  (∀ e, (∃ t, T t ∧ t_fault t = true) → Q st (Err e)) →
  match world_sessions (st_db st) !! id with
  | Some w => if is_open (ws_status w) then Q st (Ok (mkKeyed id w))
              else Q st (Err (NotFound "world session not found or closed"))
  | None => Q st (Err (NotFound "world session not found or closed"))
  end →
  wp (load_open_world_session id) T st Q.
Proof.
  intros HE HQ. unfold load_open_world_session. repeat wp_step. fault_case F; [eauto|].
  destruct (world_sessions (st_db st) !! id) as [w|]; [|by repeat wp_step].
  destruct (is_open (ws_status w)); by repeat wp_step.
Qed.

Lemma count_pending_id id db r :
  join_requests db !! id = Some r → is_pending (jr_status r) = true →
  count_rows (pending_id id) (join_requests db) = 1%nat.
Proof.
  intros Hr Hp. unfold count_rows.
  assert (E : select_rows (pending_id id) (join_requests db) ≡ₚ [mkKeyed id r]).
  { apply NoDup_Permutation; [apply NoDup_select_rows|apply NoDup_singleton|].
    intros [k r']. rewrite elem_of_select_rows, list_elem_of_singleton. simpl. unfold pending_id.
    rewrite andb_true_iff, N.eqb_eq. split.
    - intros (Hk & -> & _). congruence.
    - intros [= -> ->]. auto. }
  by rewrite E.
Qed.

(** Everything the acceptance transaction commits. *)
Lemma wp_accept_tx me id T st (Q : AppState → AppResult (JoinRequest * JoinTicketDto) → Prop) :
  (∀ st' e, Q st' (Err e)) →
  (∀ t t0 t1 t2 t3 t4 r w dto db', T t → T t0 → T t1 → T t2 → T t3 → T t4 →
    join_requests (st_db st) !! id = Some r →
    jr_host_user_id r = me → jr_status r = Pending → (t_app t < jr_expires_at r)%Z →
    world_sessions (st_db st) !! jr_world_session_id r = Some w → ws_status w = Open →
    admissible (t_db t0) (jr_requester_user_id r) me (jr_world_session_id r)
      (ws_invite_policy w) (st_db st) →
    (ws_current_players w < ws_max_players w)%Z →
    issued (jr_requester_user_id r) me (jr_world_session_id r) (hex_encode (t_random t1))
      (set_join_requests (update_where (pending_id id) (set_jr_status Accepted (t_db t4))
         (join_requests (st_db st))) (st_db st)) db' dto (t_uuid t3) (t_app t2) (t_db t3) →
    Q (set_db db' st) (Ok (r, dto))) →
  wp (accept_tx cfg me id) T st Q.
Proof.
  intros HE HQ. unfold accept_tx. wp_step. apply wp_load_join_request; [intros; apply HE..|].
  intros r u1 u2 Hr. cbn [jrr_request].
  destruct (negb (jr_host_user_id r =? me)%N) eqn:Hm; [by wp_step|].
  destruct (negb (is_pending (jr_status r))) eqn:Hp; [by wp_step|]. bool_simpl.
  apply wp_bind, wp_utc_now. intros t Ht. wp_red.
  destruct (jr_expires_at r <=? t_app t)%Z eqn:Hx; [by wp_step|]. bool_simpl.
  wp_step. apply wp_load_open_world; [intros; apply HE|].
  destruct (world_sessions (st_db st) !! jr_world_session_id r) as [w|] eqn:Hw; [|done].
  destruct (is_open (ws_status w)) eqn:Ho; [|done]. cbn [Models.row].
  wp_step. apply wp_may_join; [intros; apply HE| |intros; apply HE]. intros t0 Ht0 Had.
  destruct (ws_max_players w <=? ws_current_players w)%Z eqn:Hc; [by wp_step|]. bool_simpl.
  apply wp_bind_ok, wp_sql_app. intros t4 Ht4. fault_case F; [by eauto|].
  unfold update_join_requests. rewrite (count_pending_id id _ r Hr Hp). wp_red. cbn [Nat.eqb negb].
  wp_step. apply wp_issue_ticket; [intros; apply HE|].
  intros t1 t2 t3 dto db' H1 H2 H3 Hi. repeat wp_step. cbn [st_db set_db] in Hi.
  apply (HQ t t0 t1 t2 t3 t4 r w dto db'); try done.
  - unfold is_pending in Hp. by bool_simpl.
  - unfold is_open in Ho. by bool_simpl.
  - by subst me.
  - by subst me.
Qed.
End JoinWp.

Section JoinGate.
Context `{Primitives} (cfg : Config).

Lemma accept_tx_gated me id : gated (settled id) (accept_tx cfg me id).
Proof.
  apply gated_wp. intros st. apply wp_accept_tx; [done|].
  intros t t0 t1 t2 t3 t4 r w dto db' _ _ _ _ _ _ Hr _ Hs _ _ _ _ _ Hi _.
  destruct (is_db _ _ _ _ _ _ _ _ _ _ _ Hi) as (now_rs & ->). split.
  - intros (r' & Hr' & Hp). simplify_eq. unfold is_pending in Hp. by rewrite Hs in Hp.
  - eexists. simpl. rewrite lookup_update_where, Hr. simpl. split; [done|].
    unfold pending_id, is_pending. by rewrite N.eqb_refl, Hs.
Qed.

(** What [accept] does once its transaction has committed. *)
Definition accept_rest (id : Uuid) : JoinRequest * JoinTicketDto → prog (AppResult JoinRequestDto) :=
  λ '(r, ticket),
    do* on_metrics incr_join_tickets;
    let? guest_dto := fetch_user_dto (jr_requester_user_id r) in
    do* signal (jr_requester_user_id r) (JoinRequestAccepted id ticket);
    do* signal (jr_host_user_id r)
          (GuestArriving (jt_relay_session_id ticket) (jr_world_session_id r) guest_dto);
    let? row := load_join_request id in
    ret_ok (join_request_dto row).

Lemma accept_frugal_tx me id : prog_rel (db_rel (frugal id)) (transaction (accept_tx cfg me id)).
Proof.
  apply prog_rel_commit; [exact _|intros st st'; unfold db_rel; simpl; reflexivity|].
  intros st. apply wp_accept_tx; [done|].
  intros t t0 t1 t2 t3 t4 r w dto db' _ _ _ _ _ _ Hr _ Hs _ _ _ _ _ Hi _. unfold db_rel, frugal. cbn [st_db set_db].
  assert (U : unsettled id (st_db st) = 1%nat).
  { unfold unsettled. rewrite bool_decide_false; [done|]. intros (r' & Hr' & Hp). simplify_eq.
    unfold is_pending in Hp. by rewrite Hs in Hp. }
  assert (U' : unsettled id db' = 0%nat).
  { unfold unsettled. rewrite bool_decide_true; [done|]. destruct (is_db _ _ _ _ _ _ _ _ _ _ _ Hi) as (now_rs & ->).
    eexists. simpl. rewrite lookup_update_where, Hr. simpl. split; [done|].
    unfold pending_id, is_pending. by rewrite N.eqb_refl, Hs. }
  rewrite U, U'. pose proof (is_fresh_ticket _ _ _ _ _ _ _ _ _ _ _ Hi) as Ft.
  pose proof (is_fresh_relay _ _ _ _ _ _ _ _ _ _ _ Hi) as Fr.
  destruct (is_db _ _ _ _ _ _ _ _ _ _ _ Hi) as (now_rs & ->). cbn in Ft, Fr |- *.
  rewrite !map_size_insert_None by done. lia.
Qed.

Lemma accept_rest_rel R `{!PreOrder R} id b : prog_rel (db_rel R) (accept_rest id b).
Proof. unfold accept_rest, fetch_user_dto, load_join_request. prog_rel_go. Qed.

Lemma wp_accept_rest id r ticket now T st (Q : AppState → AppResult JoinRequestDto → Prop) :
  ref (jr_requester_user_id r) (users (st_db st)) → ref (jr_host_user_id r) (users (st_db st)) →
  join_requests (st_db st) !! id = Some (set_jr_status Accepted now r) →
  (∀ st', st_db st' = st_db st → (∃ t, T t ∧ t_fault t = true) → Q st' (Err (Database Io))) →
  (∀ st' dto u, st_db st' = st_db st → jrd_id dto = id → jrd_status dto = Accepted →
     users (st_db st) !! jr_requester_user_id r = Some u →
     st_signaling st' = send_to (jr_host_user_id r)
       (GuestArriving (jt_relay_session_id ticket) (jr_world_session_id r) (user_dto (jr_requester_user_id r) u))
       (send_to (jr_requester_user_id r) (JoinRequestAccepted id ticket) (st_signaling st)) →
     Q st' (Ok dto)) →
  wp (accept_rest id (r, ticket)) T st Q.
Proof.
  intros [u Hu] [h Hh] Hr HE HQ. unfold accept_rest, fetch_user_dto, load_join_request.
  repeat wp_step. fault_case F; [by apply HE; eauto|]. cbn [st_db set_metrics]. rewrite Hu. repeat wp_step.
  fault_case F'; [by apply HE; eauto|]. unfold query_join_request. simpl. rewrite Hr.
  unfold join_request_row, join_user. simpl. rewrite Hu, Hh. simpl. repeat wp_step. by eapply HQ.
Qed.

Lemma accept_frugal me id : prog_rel (db_rel (frugal id)) (accept cfg me id).
Proof.
  change (accept cfg me id) with (bind_ok (transaction (accept_tx cfg me id)) (accept_rest id)).
  apply prog_rel_bind_ok; [apply accept_frugal_tx|]. intros b. apply accept_rest_rel, _.
Qed.
End JoinGate.

(** ** Properties *)

Section JoinProperties.
Context `{Lowercase} `{Primitives}.

(** C5. A join request is accepted at most once. Run any number of acceptances of one
    request, by any users, interleaved in any way with each other and with any handlers
    that keep a settled request settled and mint nothing (declining it, creating requests),
    with any clocks and database failures: at most one of them answers with success, and, even
    if its answer is lost to a failure after its commit, all of them together mint at most one
    ticket and at most one relay session. *)
Theorem join_accept_once cfg id mes others st ps st' :
  Forall (prog_rel (db_rel (frugal id))) others →
  rtc pool_step (map (λ me, accept cfg me id) mes ++ others, st) (ps, st') →
  (∀ i j a b, (i < length mes)%nat → (j < length mes)%nat →
     ps !! i = Some (Ret (Ok a)) → ps !! j = Some (Ret (Ok b)) → i = j) ∧
  (size (join_tickets (st_db st')) ≤ size (join_tickets (st_db st)) + 1)%nat ∧
  (size (relay_sessions (st_db st')) ≤ size (relay_sessions (st_db st)) + 1)%nat.
Proof.
  intros Ho Hr. split.
  - assert (E : map (λ me, accept cfg me id) mes
      = gate_threads (accept_rest id) (map (λ me, accept_tx cfg me id) mes)).
    { unfold gate_threads. by rewrite map_map. }
    rewrite E in Hr. intros i j a b Hi Hj Pi Pj.
    eapply (gate_once (settled id) (accept_rest id)); [| | |exact Hr| | |exact Pi|exact Pj];
      [|intros b'; apply accept_rest_rel, _| |by rewrite length_map..].
    + apply Forall_forall. intros tx (me & -> & _)%list_elem_of_fmap. apply accept_tx_gated.
    + eapply Forall_impl; [exact Ho|]. intros p. apply prog_rel_mono. intros s s' F. by apply frugal_settled.
  - destruct (pool_step_rel (db_rel (frugal id)) _ _ Hr) as [(L1 & L2 & L3) _].
    + apply Forall_app. split; [|exact Ho]. apply Forall_forall. intros p (me & -> & _)%list_elem_of_fmap.
      apply accept_frugal.
    + unfold unsettled in *. cbn [snd] in *. repeat case_bool_decide; lia.
Qed.

(** Accepting a join request: a refusal leaves the database; otherwise the ticket is minted, and
    the answer is lost only if the database fails after the commit. *)
Lemma wp_join_accept cfg me id now T st (Q : AppState → AppResult JoinRequestDto → Prop) :
  schema_ok (st_db st) → (∀ t, T t → timed now t) →
  (∀ st' e, st_db st' = st_db st → Q st' (Err e)) →
  (∀ st' q w ticket_id dto r,
    join_requests (st_db st) !! id = Some q → jr_host_user_id q = me → jr_status q = Pending →
    (now < jr_expires_at q)%Z →
    world_sessions (st_db st) !! jr_world_session_id q = Some w → ws_status w = Open →
    (ws_current_players w < ws_max_players w)%Z →
    admissible cfg now (jr_requester_user_id q) me (jr_world_session_id q) (ws_invite_policy w) (st_db st) →
    issued cfg (jr_requester_user_id q) me (jr_world_session_id q) (ticket dto)
      (set_join_requests (update_where (pending_id id) (set_jr_status Accepted now)
        (join_requests (st_db st))) (st_db st)) (st_db st') dto ticket_id now now →
    ((∃ answer u, r = Ok answer ∧ jrd_id answer = id ∧ jrd_status answer = Accepted ∧
       users (st_db st) !! jr_requester_user_id q = Some u ∧
       st_signaling st' = send_to me
         (GuestArriving (jt_relay_session_id dto) (jr_world_session_id q) (user_dto (jr_requester_user_id q) u))
         (send_to (jr_requester_user_id q) (JoinRequestAccepted id dto) (st_signaling st)))
     ∨ r = Err (Database Io) ∧ ∃ t, T t ∧ t_fault t = true) →
    Q st' r) →
  wp (accept cfg me id) T st Q.
Proof.
  intros S HT HE HQ. change (accept cfg me id) with
    (bind_ok (transaction (accept_tx cfg me id)) (accept_rest id)).
  wp_step. apply (wp_transaction_timed _ _ now), wp_accept_tx; [done|by intros; apply HE|done|].
  intros t t0 t1 t2 t3 t4 q w dto db' (D & A) (D0 & A0) H1 (D2 & A2) (D3 & A3) (D4 & A4) Hq Hm Hs Hx Hw Hopen Had Hc Hi.
  rewrite A in Hx. rewrite D0 in Had. rewrite D4, A2, D3 in Hi.
  destruct (proj2 (ok_join_requests _ S) _ _ Hq) as (Ru & Rh & _).
  pose proof (is_ticket _ _ _ _ _ _ _ _ _ _ _ Hi) as Et. rewrite <- Et in Hi.
  destruct (is_db _ _ _ _ _ _ _ _ _ _ _ Hi) as (now_rs & E).
  apply (wp_accept_rest id q dto now); [by rewrite E..| | |].
  - cbn [st_db set_db]. rewrite E. simpl. rewrite lookup_update_where, Hq. simpl.
    unfold pending_id, is_pending. by rewrite N.eqb_refl, Hs.
  - intros st' Est Hf. eapply HQ; try done; [by rewrite Est|by right].
  - intros st' answer u Est Hd Hds Hu Hsig. eapply HQ; try done; [by rewrite Est|]. left.
    exists answer, u. cbn [st_db set_db] in Hu. rewrite E in Hu. rewrite Hm in Hsig. auto.
Qed.

(** C3. What accepting a join request takes and does, also when statements fail. If the database
    is changed at all, the request was pending, addressed to the caller and not expired; its
    world was open with a free slot; and the requester was the host's friend, or the world
    admits friends of friends and somebody they know was live in it. The request is then
    accepted, one unconsumed ticket for the requester and one pending relay session tied to it
    are added, and nothing else in the database changes. A success means that this was done,
    that the requester has been sent the ticket, whose token is the one that the stored hash
    is of, and that the host has been told of the arrival. A failure means that the database is
    as it was, unless it stopped answering after the commit: then all that was done, and the
    answer is an internal error. (The
    database begins well formed and both clocks read one instant throughout.) *)
Theorem join_accept_admission cfg me id now o st st' r :
  schema_ok (st_db st) → (∀ i, timed now (o i)) →
  exec (accept cfg me id) o st = (st', r) →
  (is_ok r = false ∧ st_db st' = st_db st) ∨
  ∃ q w ticket_id dto,
    join_requests (st_db st) !! id = Some q ∧ jr_host_user_id q = me ∧ jr_status q = Pending ∧
    (now < jr_expires_at q)%Z ∧
    world_sessions (st_db st) !! jr_world_session_id q = Some w ∧ ws_status w = Open ∧
    (ws_current_players w < ws_max_players w)%Z ∧
    admissible cfg now (jr_requester_user_id q) me (jr_world_session_id q) (ws_invite_policy w)
      (st_db st) ∧
    issued cfg (jr_requester_user_id q) me (jr_world_session_id q) (ticket dto)
      (set_join_requests (update_where (pending_id id) (set_jr_status Accepted now)
        (join_requests (st_db st))) (st_db st)) (st_db st') dto ticket_id now now ∧
    ((∃ answer u, r = Ok answer ∧ jrd_id answer = id ∧ jrd_status answer = Accepted ∧
       users (st_db st) !! jr_requester_user_id q = Some u ∧
       st_signaling st' = send_to me
         (GuestArriving (jt_relay_session_id dto) (jr_world_session_id q) (user_dto (jr_requester_user_id q) u))
         (send_to (jr_requester_user_id q) (JoinRequestAccepted id dto) (st_signaling st)))
     ∨ r = Err (Database Io) ∧ ∃ i, t_fault (o i) = true).
Proof.
  intros S Ho Hex. exec_start Hex (λ t, timed now t ∧ ∃ i, t = o i); [eauto|].
  apply (wp_join_accept _ _ _ now); [done|by intros t []|by left|].
  intros st' q w ticket_id dto r Hq Hm Hs Hx Hw Hopen Hc Had Hi Hr. right. exists q, w, ticket_id, dto.
  repeat (split; [done|]). destruct Hr as [?|(-> & t & [_ (i & ->)] & F)]; [by left|]. right. eauto.
Qed.

(** Joining without approval: every refusal leaves the database, and what an answer means. *)
Lemma wp_direct_join cfg guest world_id now st (Q : AppState → AppResult JoinTicketDto → Prop) :
  schema_ok (st_db st) → (∀ st' e, st_db st' = st_db st → Q st' (Err e)) →
  (∀ st' ticket w u tok ticket_id,
    world_sessions (st_db st) !! world_id = Some w → ws_status w = Open →
    ws_host_user_id w ≠ guest → befriended guest (ws_host_user_id w) (st_db st) →
    status_at cfg now (ws_host_user_id w) (st_db st) = Joinable →
    (ws_current_players w < ws_max_players w)%Z →
    issued cfg guest (ws_host_user_id w) world_id tok (st_db st) (st_db st') ticket ticket_id now now →
    users (st_db st) !! guest = Some u →
    st_signaling st' = send_to (ws_host_user_id w)
      (GuestArriving (jt_relay_session_id ticket) world_id (user_dto guest u)) (st_signaling st) →
    Q st' (Ok ticket)) →
  wp (create_join_ticket cfg guest world_id) (calm now) st Q.
Proof.
  intros S HE HQ. unfold create_join_ticket, are_friends.
  wp_step. apply wp_load_open_world; [intros e (t & (F & _) & F'); congruence|].
  destruct (world_sessions (st_db st) !! world_id) as [w|] eqn:Hw; [|by apply HE].
  destruct (is_open (ws_status w)) eqn:Ho'; [|by apply HE]. cbn [Models.row].
  destruct (ws_host_user_id w =? guest)%N eqn:Hh; [wp_calm; by apply HE|]. bool_simpl.
  wp_calm. destruct (friends guest _ (st_db st)) eqn:Fr; cbn [negb]; [|wp_calm; by apply HE].
  wp_step. apply wp_effective_status_for.
  destruct (bool_decide_reflect (status_at cfg now (ws_host_user_id w) (st_db st) = Joinable))
    as [Hj|Hj]; cbn [negb]; [|wp_calm; by apply HE].
  destruct (ws_max_players w <=? ws_current_players w)%Z eqn:Hc; [wp_calm; by apply HE|]. bool_simpl.
  wp_step. unfold issue_ticket_and_relay. wp_step. apply wp_transaction_calm, wp_issue_ticket.
  { intros st' e. by apply HE. }
  intros t0 t1 t2 ticket db' H1 (F1 & D1 & A1) (F2 & D2 & A2) Hi. rewrite A1, D2 in Hi.
  destruct (is_db _ _ _ _ _ _ _ _ _ _ _ Hi) as (now_rs & E).
  assert (U : ref guest (users (st_db st))).
  { apply friends_spec in Fr as (k & f & Hk & Ha & Hb).
    destruct (proj2 (ok_friendships _ S) _ _ Hk) as (Ra & Rb & _). rewrite Ha in Ra. rewrite Hb in Rb.
    destruct (N.min_spec guest (ws_host_user_id w)) as [[_ M]|[_ M]],
      (N.max_spec guest (ws_host_user_id w)) as [[_ M']|[_ M']]; try lia; rewrite ?M, ?M' in *; done. }
  destruct U as [u U].
  wp_calm. unfold fetch_user_dto. wp_calm. cbn [st_db set_metrics set_db].
  replace (users db') with (users (st_db st)) by (by rewrite E). rewrite U. wp_calm.
  apply friends_spec in Fr. unfold is_open in Ho'. bool_simpl. by eapply HQ.
Qed.

(** Joining without approval. A ticket is answered only when the world is open with
    a free slot, somebody else hosts it, the caller is their friend and they are seen
    as joinable; the ticket and its relay session are then all that is added to the
    database, and the host is told of the arrival. On failure the database is
    unchanged. *)
Theorem direct_join_admission cfg guest world_id now o st st' r :
  schema_ok (st_db st) → (∀ i, calm now (o i)) →
  exec (create_join_ticket cfg guest world_id) o st = (st', r) →
  (is_ok r = false ∧ st_db st' = st_db st) ∨
  ∃ ticket w u tok ticket_id,
    r = Ok ticket ∧
    world_sessions (st_db st) !! world_id = Some w ∧ ws_status w = Open ∧
    ws_host_user_id w ≠ guest ∧ befriended guest (ws_host_user_id w) (st_db st) ∧
    status_at cfg now (ws_host_user_id w) (st_db st) = Joinable ∧
    (ws_current_players w < ws_max_players w)%Z ∧
    issued cfg guest (ws_host_user_id w) world_id tok (st_db st) (st_db st') ticket ticket_id
      now now ∧
    users (st_db st) !! guest = Some u ∧
    st_signaling st' = send_to (ws_host_user_id w)
      (GuestArriving (jt_relay_session_id ticket) world_id (user_dto guest u)) (st_signaling st).
Proof.
  intros S Ho Hex. exec_start Hex (calm now). apply wp_direct_join; [done|by left|].
  intros. right. eauto 15.
Qed.
End JoinProperties.

(** ** Concrete instances *)

(** [sample_state] with a pending request 60 of user 1 for world 50. *)
Definition st_requested : AppState :=
  set_db (set_join_requests {[ 60%N := mkJoinRequest 1 2 50 Pending 100 4 4 ]} sample_db)
    sample_state.

Lemma st_requested_ok : @schema_ok ascii_lowercase (st_db st_requested).
Proof. apply schema_okb_sound. vm_compute. reflexivity. Qed.

Definition race_of_accepts : list (prog (AppResult JoinRequestDto)) * AppState :=
  sched (calm_oracle 9) 0 [0; 1; 2; 2; 2; 2; 0; 0; 0; 0; 0; 0; 0; 1; 1; 1; 1; 1; 1]%nat
    (map (λ me, accept (H := toy_primitives) default_config me 60) [2%N; 2%N] ++ [decline 2 60],
     st_requested).

Definition accepted_60 : JoinRequestDto :=
  mkJoinRequestDto 60 Accepted 50 4 100 (mkUserDto 1 None "ada") (mkUserDto 2 None "bob").

Lemma join_accept_once_witness :
  Forall (prog_rel (db_rel (frugal 60))) [decline 2 60] ∧
  race_of_accepts.1 !! 0%nat = Some (Ret (Ok accepted_60)) ∧
  (∀ i j a b, (i < 2)%nat → (j < 2)%nat →
     race_of_accepts.1 !! i = Some (Ret (Ok a)) → race_of_accepts.1 !! j = Some (Ret (Ok b)) → i = j) ∧
  (size (join_tickets (st_db race_of_accepts.2)) ≤ size (join_tickets (st_db st_requested)) + 1)%nat ∧
  (size (relay_sessions (st_db race_of_accepts.2)) ≤ size (relay_sessions (st_db st_requested)) + 1)%nat.
Proof.
  assert (F : Forall (prog_rel (db_rel (frugal 60))) [decline 2 60])
    by (apply Forall_singleton, (decline_frugal (H := toy_primitives))).
  split; [exact F|]. split; [vm_compute; reflexivity|].
  apply (join_accept_once (H0 := toy_primitives) default_config 60 [2%N; 2%N] [decline 2 60]
           st_requested race_of_accepts.1 race_of_accepts.2 F).
  rewrite <- surjective_pairing. apply sched_pool.
Defined.

(** The database fails from the moment the transaction has committed: the request is accepted
    and the ticket minted, but the caller is answered an error and the requester, who alone is to
    know the token, is not told. *)
Definition failing_late (i : nat) : Tick :=
  let t := calm_oracle 9 i in mkTick (t_app t) (t_db t) (t_uuid t) (t_random t) (12 <=? i)%nat.

Example minted_but_untold :
  let r := exec (accept (H := toy_primitives) default_config 2 60) failing_late st_requested in
  r.2 = Err (Database Io) ∧ size (join_tickets (st_db r.1)) = 1%nat ∧
  (jr_status <$> join_requests (st_db r.1) !! 60%N) = Some Accepted ∧
  st_signaling r.1 = st_signaling st_requested.
Proof. vm_compute. repeat split. Qed.

Lemma join_accept_admission_witness :
  let r := exec (accept (H := toy_primitives) default_config 2 60) (calm_oracle 9) st_requested in
  @schema_ok ascii_lowercase (st_db st_requested) ∧ r.2 = Ok accepted_60 ∧
  ((is_ok r.2 = false ∧ st_db r.1 = st_db st_requested) ∨
   ∃ q w ticket_id dto,
     join_requests (st_db st_requested) !! 60%N = Some q ∧ jr_host_user_id q = 2%N ∧
     jr_status q = Pending ∧ (9 < jr_expires_at q)%Z ∧
     world_sessions (st_db st_requested) !! jr_world_session_id q = Some w ∧ ws_status w = Open ∧
     (ws_current_players w < ws_max_players w)%Z ∧
     admissible default_config 9 (jr_requester_user_id q) 2 (jr_world_session_id q)
       (ws_invite_policy w) (st_db st_requested) ∧
     issued (H := toy_primitives) default_config (jr_requester_user_id q) 2 (jr_world_session_id q) (ticket dto)
       (set_join_requests (update_where (pending_id 60) (set_jr_status Accepted 9)
         (join_requests (st_db st_requested))) (st_db st_requested)) (st_db r.1) dto ticket_id 9 9 ∧
     ((∃ answer u, r.2 = Ok answer ∧ jrd_id answer = 60%N ∧ jrd_status answer = Accepted ∧
        users (st_db st_requested) !! jr_requester_user_id q = Some u ∧
        st_signaling r.1 = send_to 2
          (GuestArriving (jt_relay_session_id dto) (jr_world_session_id q) (user_dto (jr_requester_user_id q) u))
          (send_to (jr_requester_user_id q) (JoinRequestAccepted 60 dto) (st_signaling st_requested)))
      ∨ r.2 = Err (Database Io) ∧ ∃ i, t_fault (calm_oracle 9 i) = true)).
Proof.
  intros r. split; [exact st_requested_ok|]. split; [vm_compute; reflexivity|].
  apply (join_accept_admission (H := ascii_lowercase) (H0 := toy_primitives) default_config 2 60 9
           (calm_oracle 9)); [exact st_requested_ok|intros i; apply calm_timed, calm_oracle_calm|].
  unfold r. by destruct (exec _ _ _).
Defined.

Lemma direct_join_admission_witness :
  let r := exec (create_join_ticket (H := toy_primitives) default_config 1 50) (calm_oracle 9)
             sample_state in
  @schema_ok ascii_lowercase (st_db sample_state) ∧ is_ok r.2 = true ∧
  ((is_ok r.2 = false ∧ st_db r.1 = st_db sample_state) ∨
   ∃ ticket w u tok ticket_id,
     r.2 = Ok ticket ∧
     world_sessions (st_db sample_state) !! 50%N = Some w ∧ ws_status w = Open ∧
     ws_host_user_id w ≠ 1%N ∧ befriended 1 (ws_host_user_id w) (st_db sample_state) ∧
     status_at default_config 9 (ws_host_user_id w) (st_db sample_state) = Joinable ∧
     (ws_current_players w < ws_max_players w)%Z ∧
     issued (H := toy_primitives) default_config 1 (ws_host_user_id w) 50 tok (st_db sample_state)
       (st_db r.1) ticket ticket_id 9 9 ∧
     users (st_db sample_state) !! 1%N = Some u ∧
     st_signaling r.1 = send_to (ws_host_user_id w)
       (GuestArriving (jt_relay_session_id ticket) 50 (user_dto 1 u)) (st_signaling sample_state)).
Proof.
  intros r. split; [exact sample_schema_ok|]. split; [vm_compute; reflexivity|].
  apply (direct_join_admission (H := ascii_lowercase) (H0 := toy_primitives) default_config 1 50 9
           (calm_oracle 9)); [exact sample_schema_ok|exact (calm_oracle_calm 9)|].
  unfold r. by destruct (exec _ _ _).
Defined.
