(* ===== verification/Invites.v ===== *)
(** * World invites

    [crates/network/src/invites.rs]: inviting a player into a world, the host's approval
    of friend-of-friend invites, and the invite's acceptance, which mints a ticket. *)

From S2P Require Import Prelude RustStr Errors Models Table Realtime Schema Prog Auth.
From S2P Require Import Invariant AuthSchema.
From S2P Require Import Queries Presence Worlds Join.

(** ** Rows *)

Record InviteRow : Type := mkInviteRow {
  ivr_id : Uuid;
  ivr_invite : WorldInvite;
  ivr_inviter : UserDto;
  ivr_invitee : UserDto;
  ivr_host : UserDto
}.

Record WorldInviteDto : Type := mkWorldInviteDto {
  ivd_id : Uuid;
  ivd_status : RequestStatus;
  ivd_world_session_id : Uuid;
  ivd_created_at : Time;
  ivd_expires_at : Time;
  ivd_requires_host_approval : bool;
  ivd_inviter : UserDto;
  ivd_invitee : UserDto;
  ivd_host : UserDto
}.

(** [impl From<InviteRow> for WorldInviteDto]. *)
Definition world_invite_dto (r : InviteRow) : WorldInviteDto :=
  let i := ivr_invite r in
  mkWorldInviteDto (ivr_id r) (wi_status i) (wi_world_session_id i) (wi_created_at i)
    (wi_expires_at i) (bool_decide (wi_status i = PendingApproval)) (ivr_inviter r)
    (ivr_invitee r) (ivr_host r).

(** [INVITE_SELECT]. *)
Definition invite_row (db : Db) (x : Keyed WorldInvite) : option InviteRow :=
  let i := row x in
  match join_user (wi_inviter_user_id i) db, join_user (wi_invitee_user_id i) db,
        join_user (wi_host_user_id i) db with
  | Some inviter, Some invitee, Some host => Some (mkInviteRow (key x) i inviter invitee host)
  | _, _, _ => None
  end.

Definition query_invite (id : Uuid) (db : Db) : option InviteRow :=
  match world_invites db !! id with
  | Some i => invite_row db (mkKeyed id i)
  | None => None
  end.

(** Also [load_invite_for_update]. *)
Definition load_invite (id : Uuid) : prog (AppResult InviteRow) :=
  let? row := select (λ _ db, query_invite id db) in
  lift (ok_or (NotFound "invite not found") row).

(** [list_by]. *)
Definition list_by (p : Time → WorldInvite → bool) : prog (AppResult (list WorldInviteDto)) :=
  select (λ t db,
    map world_invite_dto (omap (invite_row db)
      (order_by_desc wi_created_at (select_rows (λ _ i, p (t_db t) i) (world_invites db))))).

(** ** Statements *)

Definition set_wi_status (status : RequestStatus) (now : Time) (i : WorldInvite) : WorldInvite :=
  mkWorldInvite (wi_world_session_id i) (wi_host_user_id i) (wi_inviter_user_id i)
    (wi_invitee_user_id i) status (wi_expires_at i) (wi_created_at i) now.

Definition update_invites (p : Uuid → WorldInvite → bool) (status : RequestStatus) (t : Tick)
  (db : Db) : SqlResult (Db * nat) :=
  Ok (set_world_invites (update_where p (set_wi_status status (t_db t)) (world_invites db)) db,
      count_rows p (world_invites db)).

Definition insert_invite (world host inviter invitee : Uuid) (status : RequestStatus)
  (expires_at : Time) (t : Tick) (db : Db) : SqlResult (Db * Uuid) :=
  if (inviter =? invitee)%N then Err (CheckViolation "world_invites_not_self")
  else
    try _ := fk "world_invites_world_session_id_fkey" world (world_sessions db) in
    try _ := fk "world_invites_host_user_id_fkey" host (users db) in
    try _ := fk "world_invites_inviter_user_id_fkey" inviter (users db) in
    try _ := fk "world_invites_invitee_user_id_fkey" invitee (users db) in
    try m := insert_row "world_invites_pkey" [world_invites_active_unique] (t_uuid t)
               (mkWorldInvite world host inviter invitee status expires_at (t_db t) (t_db t))
               (world_invites db) in
    Ok (set_world_invites m db, t_uuid t).

(** [WHERE id = $1 AND status = ..]. *)
Definition id_in_status (id : Uuid) (status : RequestStatus) (k : Uuid) (i : WorldInvite) : bool :=
  (k =? id)%N && bool_decide (wi_status i = status).

Definition id_active (id k : Uuid) (i : WorldInvite) : bool :=
  (k =? id)%N && is_active (wi_status i).

Definition lapsed_invite (world invitee : Uuid) (now : Time) (_ : Uuid) (i : WorldInvite) : bool :=
  (wi_world_session_id i =? world)%N && (wi_invitee_user_id i =? invitee)%N
  && is_active (wi_status i) && (wi_expires_at i <=? now)%Z.

Section Invites.
Context `{Primitives} (cfg : Config).

(** ** [POST /world-sessions/:id/invites] *)

(** The status a new invite starts in, or why it may not be sent. *)
Definition invite_status (caller host invitee : Uuid) (policy : InvitePolicy)
  : prog (AppResult RequestStatus) :=
  if (caller =? host)%N then
    let? f := are_friends host invitee in
    if negb f then ret_err Forbidden else ret_ok Pending
  else if negb (bool_decide (policy = FriendsOfFriends)) then ret_err Forbidden
  else
    let? f := are_friends host caller in
    if negb f then ret_err Forbidden
    else
      let? f := are_friends caller invitee in
      if negb f then ret_err Forbidden
      else
        let? f := are_friends host invitee in
        ret_ok (if f then Pending else PendingApproval).

Definition create (caller world_id invitee : Uuid) : prog (AppResult WorldInviteDto) :=
  let? world := load_open_world_session world_id in
  let host := ws_host_user_id (Models.row world) in
  if (invitee =? caller)%N then ret_err (BadRequest "you cannot invite yourself")
  else if (invitee =? host)%N then ret_err (BadRequest "the host is already in the world")
  else
    let? exists_ := user_exists invitee in
    if negb exists_ then ret_err (NotFound "user not found")
    else
      let? status := invite_status caller host invitee (ws_invite_policy (Models.row world)) in
      let ttl := default (secs 600) (from_std (invite_ttl cfg)) in
      let* now := utc_now in
      let expires_at := (now + ttl)%Z in
      do? sql_app (λ t db, update_invites (lapsed_invite world_id invitee (t_db t)) Expired t db);
      let* inserted := sql (insert_invite world_id host caller invitee status expires_at) in
      match inserted with
      | Err err =>
          if is_unique_violation err
          then ret_err (Conflict "an invite for this player is already pending")
          else ret_err (Database err)
      | Ok invite_id =>
          let? row := load_invite invite_id in
          let dto := world_invite_dto row in
          do* (if bool_decide (status = Pending)
               then signal invitee (WorldInviteEv invite_id world_id (ivd_inviter dto) (ivd_host dto))
               else signal host (InviteApprovalRequest invite_id world_id (ivd_inviter dto)
                                   (ivd_invitee dto)));
          ret_ok dto
      end.

(** ** The lists *)

Definition incoming (me : Uuid) : prog (AppResult (list WorldInviteDto)) :=
  list_by (λ now i, (wi_invitee_user_id i =? me)%N && is_pending (wi_status i)
                    && (now <? wi_expires_at i)%Z).

Definition outgoing (me : Uuid) : prog (AppResult (list WorldInviteDto)) :=
  list_by (λ now i, (wi_inviter_user_id i =? me)%N && is_active (wi_status i)
                    && (now <? wi_expires_at i)%Z).

Definition pending_approval (me : Uuid) : prog (AppResult (list WorldInviteDto)) :=
  list_by (λ now i, (wi_host_user_id i =? me)%N && bool_decide (wi_status i = PendingApproval)
                    && (now <? wi_expires_at i)%Z).

(** ** [POST /invites/:id/accept] *)

(** The chain of trust a friend-of-friend invite still needs at admission. *)
Definition recheck_chain (i : WorldInvite) (policy : InvitePolicy) : prog (AppResult unit) :=
  if (wi_inviter_user_id i =? wi_host_user_id i)%N then ret_ok ()
  else if negb (bool_decide (policy = FriendsOfFriends)) then ret_err Forbidden
  else
    let? f := are_friends (wi_host_user_id i) (wi_inviter_user_id i) in
    if negb f then ret_err Forbidden
    else
      let? f := are_friends (wi_inviter_user_id i) (wi_invitee_user_id i) in
      if negb f then ret_err Forbidden else ret_ok ().

Definition accept_tx (me id : Uuid) : prog (AppResult (WorldInvite * JoinTicketDto)) :=
  let? row := load_invite id in
  let i := ivr_invite row in
  if negb (wi_invitee_user_id i =? me)%N then ret_err Forbidden
  else if negb (is_pending (wi_status i)) then ret_err (Conflict "invite is not ready to accept")
  else
    let* now := utc_now in
    if (wi_expires_at i <=? now)%Z then ret_err (Conflict "invite has expired")
    else
      let? world := load_open_world_session (wi_world_session_id i) in
      let w := Models.row world in
      do? recheck_chain i (ws_invite_policy w);
      if (ws_max_players w <=? ws_current_players w)%Z then ret_err (Conflict "world is full")
      else
        let? transitioned := sql_app (update_invites (id_in_status id Pending) Accepted) in
        if negb (transitioned =? 1)%nat then ret_err (Conflict "invite is not ready to accept")
        else
          let? ticket := issue_ticket_and_relay_tx cfg (wi_invitee_user_id i) (wi_host_user_id i)
                           (wi_world_session_id i) in
          ret_ok (i, ticket).

Definition accept (me id : Uuid) : prog (AppResult JoinTicketDto) :=
  let? '(i, ticket) := transaction (accept_tx me id) in
  do* on_metrics incr_join_tickets;
  let? guest_dto := fetch_user_dto (wi_invitee_user_id i) in
  do* signal (wi_host_user_id i)
        (GuestArriving (jt_relay_session_id ticket) (wi_world_session_id i) guest_dto);
  ret_ok ticket.

(** ** Decline, approve, revoke *)

Definition decline (me id : Uuid) : prog (AppResult WorldInviteDto) :=
  let? row := load_invite id in
  let i := ivr_invite row in
  if negb (wi_invitee_user_id i =? me)%N then ret_err Forbidden
  else if negb (is_pending (wi_status i)) then ret_err (Conflict "invite is not pending")
  else
    let? transitioned := sql_app (update_invites (id_in_status id Pending) Declined) in
    if (transitioned =? 0)%nat then ret_err (Conflict "invite is not pending")
    else
      let? row := load_invite id in
      ret_ok (world_invite_dto row).

Definition approve (me id : Uuid) : prog (AppResult WorldInviteDto) :=
  let? row := load_invite id in
  let i := ivr_invite row in
  if negb (wi_host_user_id i =? me)%N then ret_err Forbidden
  else if negb (bool_decide (wi_status i = PendingApproval))
  then ret_err (Conflict "invite is not awaiting approval")
  else
    let* now := utc_now in
    if (wi_expires_at i <=? now)%Z then ret_err (Conflict "invite has expired")
    else
      let? transitioned := sql_app (update_invites (id_in_status id PendingApproval) Pending) in
      if (transitioned =? 0)%nat then ret_err (Conflict "invite is not awaiting approval")
      else
        let? row := load_invite id in
        let dto := world_invite_dto row in
        do* signal (wi_invitee_user_id i)
              (WorldInviteEv id (wi_world_session_id i) (ivd_inviter dto) (ivd_host dto));
        ret_ok dto.

Definition revoke (me id : Uuid) : prog (AppResult unit) :=
  let? row := load_invite id in
  let i := ivr_invite row in
  if negb (wi_host_user_id i =? me)%N && negb (wi_inviter_user_id i =? me)%N
  then ret_err Forbidden
  else
    let? affected := sql_app (update_invites (id_active id) Revoked) in
    if (affected =? 0)%nat then ret_err (Conflict "invite is no longer active")
    else ret_ok ().
End Invites.

(** ** The schema's invariant *)

Section InvitesSchema.
Context `{Lowercase} `{Primitives} (cfg : Config).

(** An update that takes rows out of the active ones, or moves active ones. *)
Lemma update_invites_schema p s t db db' n :
  (∀ k i, p k i = true → is_active s = true → is_active (wi_status i) = true) →
  update_invites p s t db = Ok (db', n) → schema_rel db db'.
Proof.
  intros Hp [= <- <-] S. apply schema_set_world_invites; [done|].
  apply table_ok_update; [by index_side| |by intros k r _|apply S].
  index_side. intros k r1 r2 P. simpl. rewrite !andb_true_iff.
  intros [[[H1 H2] H3] H4]. repeat split; try done. by eapply Hp.
Qed.

Lemma insert_invite_ok w h a b s e t db db' k :
  insert_invite w h a b s e t db = Ok (db', k) →
  a ≠ b ∧ ref w (world_sessions db) ∧ ref h (users db) ∧ ref a (users db) ∧ ref b (users db)
  ∧ world_invites db !! t_uuid t = None ∧ k = t_uuid t
  ∧ let i := mkWorldInvite w h a b s e (t_db t) (t_db t) in
    db' = set_world_invites (<[k := i]> (world_invites db)) db
    ∧ violated [world_invites_active_unique] k i (world_invites db) = None.
Proof.
  unfold insert_invite. destruct (a =? b)%N eqn:Hab; [done|]. bool_simpl.
  rewrite and_then_ok. intros ([] & Hw & E). apply fk_ok in Hw.
  apply and_then_ok in E as ([] & Hh & E). apply fk_ok in Hh.
  apply and_then_ok in E as ([] & Ha & E). apply fk_ok in Ha.
  apply and_then_ok in E as ([] & Hb & E). apply fk_ok in Hb.
  apply and_then_ok in E as (m & Hi & [= <- <-]). by apply insert_row_ok in Hi as (? & -> & ?).
Qed.

Lemma insert_invite_schema w h a b s e t db db' k :
  insert_invite w h a b s e t db = Ok (db', k) → schema_rel db db'.
Proof.
  intros E S. apply insert_invite_ok in E as (Hne & Hw & Hh & Ha & Hb & _ & -> & -> & Hv).
  apply schema_set_world_invites; [done|].
  apply table_ok_insert; [by index_side|done|done|apply S].
Qed.

Lemma invite_status_rel R `{!PreOrder R} c h i p : prog_rel (db_rel R) (invite_status c h i p).
Proof. unfold invite_status, are_friends. prog_rel_go. Qed.
Lemma recheck_chain_rel R `{!PreOrder R} i p : prog_rel (db_rel R) (recheck_chain i p).
Proof. unfold recheck_chain, are_friends. prog_rel_go. Qed.
Lemma load_invite_rel R `{!PreOrder R} id : prog_rel (db_rel R) (load_invite id).
Proof. unfold load_invite. prog_rel_go. Qed.
Hint Resolve invite_status_rel recheck_chain_rel load_invite_rel : loon.

Lemma id_in_status_active id s s' k i :
  (is_active s' = true → is_active s = true) →
  id_in_status id s k i = true → is_active s' = true → is_active (wi_status i) = true.
Proof. unfold id_in_status. intros Hs P Ha. bool_simpl. subst. auto. Qed.

Lemma invites_create_schema c w i : prog_rel (db_rel schema_rel) (create cfg c w i).
Proof.
  unfold create, user_exists. prog_rel_go; intros t db db' b.
  - by apply update_invites_schema.
  - apply insert_invite_schema.
Qed.

Lemma invites_accept_schema me id : prog_rel (db_rel schema_rel) (accept cfg me id).
Proof.
  unfold accept, accept_tx, fetch_user_dto. prog_rel_go. intros t db db' b.
  by apply update_invites_schema.
Qed.

Lemma invites_decline_schema me id : prog_rel (db_rel schema_rel) (decline me id).
Proof. unfold decline. prog_rel_go. intros t db db' b. by apply update_invites_schema. Qed.

Lemma invites_approve_schema me id : prog_rel (db_rel schema_rel) (approve me id).
Proof.
  unfold approve. prog_rel_go. intros t db db' b. apply update_invites_schema.
  intros k i. by apply id_in_status_active.
Qed.

Lemma invites_revoke_schema me id : prog_rel (db_rel schema_rel) (revoke me id).
Proof. unfold revoke. prog_rel_go. intros t db db' b. by apply update_invites_schema. Qed.

Lemma invites_list_rel R `{!PreOrder R} p : prog_rel (db_rel R) (list_by p).
Proof. unfold list_by. prog_rel_go. Qed.
End InvitesSchema.

#[export] Hint Resolve invite_status_rel recheck_chain_rel load_invite_rel invites_list_rel
  invites_create_schema invites_accept_schema invites_decline_schema invites_approve_schema
  invites_revoke_schema : loon.

(** ** The life of an invite *)

(** The statuses a stored invite may move between. *)
Inductive invite_step : RequestStatus → RequestStatus → Prop :=
| step_approve : invite_step PendingApproval Pending
| step_accept : invite_step Pending Accepted
| step_decline : invite_step Pending Declined
| step_revoke s : is_active s = true → invite_step s Revoked
| step_expire s : is_active s = true → invite_step s Expired.

(** A later version of the same invite: everything but the status and the time of its
    last change is as it was. *)
Definition follows (i i' : WorldInvite) : Prop :=
  rtc invite_step (wi_status i) (wi_status i') ∧
  i' = mkWorldInvite (wi_world_session_id i) (wi_host_user_id i) (wi_inviter_user_id i)
         (wi_invitee_user_id i) (wi_status i') (wi_expires_at i) (wi_created_at i)
         (wi_updated_at i').

Definition lifecycle (db db' : Db) : Prop :=
  ∀ k i, world_invites db !! k = Some i →
    ∃ i', world_invites db' !! k = Some i' ∧ follows i i'.

#[export] Instance follows_preorder : PreOrder follows.
Proof.
  split.
  - intros []. by split.
  - intros a b c [H1 E1] [H2 E2]. split; [by etrans|]. rewrite E2 at 1. rewrite E1. done.
Qed.

#[export] Instance lifecycle_preorder : PreOrder lifecycle.
Proof.
  split.
  - intros db k i Hk. exists i. split; [done|]. reflexivity.
  - intros a b c H1 H2 k i Hk. destruct (H1 _ _ Hk) as (i1 & Hk1 & F1).
    destruct (H2 _ _ Hk1) as (i2 & Hk2 & F2). exists i2. split; [done|]. by etrans.
Qed.

Section Lifecycle.
Context `{Primitives} (cfg : Config).

Lemma lifecycle_other db db' : world_invites db' = world_invites db → lifecycle db db'.
Proof. intros E k i Hk. exists i. rewrite E. split; [done|]. reflexivity. Qed.

Lemma update_invites_lifecycle p s t db db' n :
  (∀ k i, p k i = true → invite_step (wi_status i) s) →
  update_invites p s t db = Ok (db', n) → lifecycle db db'.
Proof.
  intros Hp [= <- <-] k i Hk. simpl. rewrite lookup_update_where, Hk. simpl. eexists.
  split; [done|]. destruct (p k i) eqn:P; [|reflexivity].
  split; [|done]. by apply rtc_once, (Hp k).
Qed.

Lemma insert_invite_lifecycle w h a b s e t db db' k :
  insert_invite w h a b s e t db = Ok (db', k) → lifecycle db db'.
Proof.
  intros E. apply insert_invite_ok in E as (_ & _ & _ & _ & _ & Hn & -> & -> & _).
  intros k i Hk. exists i. simpl. rewrite lookup_insert_ne by congruence.
  split; [done|]. reflexivity.
Qed.

Lemma issue_ticket_lifecycle g h w :
  prog_rel (db_rel lifecycle) (issue_ticket_and_relay_tx cfg g h w).
Proof.
  unfold issue_ticket_and_relay_tx. prog_rel_go; intros t db db' b.
  - intros E. apply and_then_ok in E as (c & _ & [= <- <-]). reflexivity.
  - intros E. apply insert_ticket_ok in E as (_ & _ & _ & _ & -> & _). by apply lifecycle_other.
  - intros E. apply insert_relay_session_ok in E as (_ & _ & _ & _ & _ & _ & ->).
    by apply lifecycle_other.
Qed.
Hint Resolve issue_ticket_lifecycle : loon.

Lemma id_in_status_step id s s' k i :
  invite_step s s' → id_in_status id s k i = true → invite_step (wi_status i) s'.
Proof. unfold id_in_status. intros Hs P. bool_simpl. by subst. Qed.
Hint Resolve id_in_status_step : loon.
Hint Constructors invite_step : loon.

Lemma create_lifecycle c w i : prog_rel (db_rel lifecycle) (create cfg c w i).
Proof.
  unfold create, user_exists. prog_rel_go; intros t db db' b.
  - apply update_invites_lifecycle. intros k j P. unfold lapsed_invite in P. bool_simpl.
    by constructor.
  - apply insert_invite_lifecycle.
Qed.

Lemma accept_lifecycle me id : prog_rel (db_rel lifecycle) (accept cfg me id).
Proof.
  unfold accept, accept_tx, fetch_user_dto. prog_rel_go. intros t db db' b.
  apply update_invites_lifecycle. eauto with loon.
Qed.

Lemma decline_lifecycle me id : prog_rel (db_rel lifecycle) (decline me id).
Proof.
  unfold decline. prog_rel_go. intros t db db' b. apply update_invites_lifecycle.
  eauto with loon.
Qed.

Lemma approve_lifecycle me id : prog_rel (db_rel lifecycle) (approve me id).
Proof.
  unfold approve. prog_rel_go. intros t db db' b. apply update_invites_lifecycle.
  eauto with loon.
Qed.

Lemma revoke_lifecycle me id : prog_rel (db_rel lifecycle) (revoke me id).
Proof.
  unfold revoke. prog_rel_go. intros t db db' b. apply update_invites_lifecycle.
  intros k i P. unfold id_active in P. bool_simpl. by constructor.
Qed.

(** The requests the module serves. *)
Inductive invite_request : Type :=
| ReqCreate (caller world invitee : Uuid)
| ReqList (p : Time → WorldInvite → bool)
| ReqAccept (me id : Uuid)
| ReqDecline (me id : Uuid)
| ReqApprove (me id : Uuid)
| ReqRevoke (me id : Uuid).

(** Each, its answer reduced to success or failure. *)
Definition serve_invite (req : invite_request) : prog bool :=
  match req with
  | ReqCreate caller world invitee => prog_map is_ok (create cfg caller world invitee)
  | ReqList p => prog_map is_ok (list_by p)
  | ReqAccept me id => prog_map is_ok (accept cfg me id)
  | ReqDecline me id => prog_map is_ok (decline me id)
  | ReqApprove me id => prog_map is_ok (approve me id)
  | ReqRevoke me id => prog_map is_ok (revoke me id)
  end.

Lemma serve_invite_lifecycle req : prog_rel (db_rel lifecycle) (serve_invite req).
Proof.
  destruct req; cbn [serve_invite]; (apply prog_rel_bind; [|done]);
    auto using create_lifecycle, accept_lifecycle, decline_lifecycle, approve_lifecycle,
      revoke_lifecycle with loon.
Qed.
End Lifecycle.

(** ** The acceptance *)

Section InviteAccept.
Context `{Primitives} (cfg : Config).

Definition invite_settled (id : Uuid) (db : Db) : Prop :=
  ∃ i, world_invites db !! id = Some i ∧ is_active (wi_status i) = false.

Lemma lifecycle_settled id db db' : lifecycle db db' → keeps_gate (invite_settled id) db db'.
Proof.
  intros L (i & Hi & Ha). destruct (L _ _ Hi) as (i' & Hi' & [Hs _]). exists i'. split; [done|].
  revert Ha. generalize (wi_status i') Hs. clear. intros s' Hs.
  induction Hs as [|x y z Hxy _ IH]; [done|]. intros Ha. apply IH.
  destruct Hxy; try done; congruence.
Qed.

Lemma wp_load_invite id T st (Q : AppState → AppResult InviteRow → Prop) :
  (∀ e, Q st (Err e)) →
  (∀ i u1 u2 u3, world_invites (st_db st) !! id = Some i → Q st (Ok (mkInviteRow id i u1 u2 u3))) →
  wp (load_invite id) T st Q.
Proof.
  intros HE HQ. unfold load_invite. repeat wp_step. fault_case F; [apply HE|].
  destruct (query_invite id (st_db st)) as [x|] eqn:E; repeat wp_step; [|apply HE].
  unfold query_invite in E. destruct (world_invites (st_db st) !! id) as [i|] eqn:Hi; [|done].
  unfold invite_row in E. cbn [row key] in E.
  destruct (join_user (wi_inviter_user_id i) (st_db st)) as [u1|]; [|done].
  destruct (join_user (wi_invitee_user_id i) (st_db st)) as [u2|]; [|done].
  destruct (join_user (wi_host_user_id i) (st_db st)) as [u3|]; [|done].
  injection E as <-. by apply HQ.
Qed.

(** The chain of trust: a host's own invite needs none; another's needs the world to
    admit friends of friends and both friendships still to hold. *)
Definition chain_holds (i : WorldInvite) (policy : InvitePolicy) (db : Db) : Prop :=
  wi_inviter_user_id i = wi_host_user_id i ∨
  (policy = FriendsOfFriends ∧ befriended (wi_host_user_id i) (wi_inviter_user_id i) db
   ∧ befriended (wi_inviter_user_id i) (wi_invitee_user_id i) db).

Lemma wp_recheck_chain i policy T st (Q : AppState → AppResult unit → Prop) :
  (∀ e, Q st (Err e)) → (chain_holds i policy (st_db st) → Q st (Ok ())) →
  wp (recheck_chain i policy) T st Q.
Proof.
  intros HE HQ. unfold recheck_chain, are_friends, chain_holds in *.
  destruct (_ =? _)%N eqn:E; bool_simpl; [wp_step; auto|].
  destruct (bool_decide_reflect (policy = FriendsOfFriends)); cbn [negb]; [|by wp_step].
  repeat wp_step. fault_case F; [apply HE|].
  destruct (friends _ _ (st_db st)) eqn:F1; cbn [negb]; repeat wp_step; [|apply HE].
  fault_case F2; [apply HE|].
  destruct (friends (wi_inviter_user_id i) (wi_invitee_user_id i) (st_db st)) eqn:F3;
    cbn [negb]; repeat wp_step; [|apply HE].
  apply HQ. right. by rewrite <- !friends_spec.
Qed.

Lemma count_id_in_status id s db i :
  world_invites db !! id = Some i → wi_status i = s →
  count_rows (id_in_status id s) (world_invites db) = 1%nat.
Proof.
  intros Hi Hs. unfold count_rows.
  assert (E : select_rows (id_in_status id s) (world_invites db) ≡ₚ [mkKeyed id i]).
  { apply NoDup_Permutation; [apply NoDup_select_rows|apply NoDup_singleton|].
    intros [k i']. rewrite elem_of_select_rows, list_elem_of_singleton. simpl. unfold id_in_status.
    rewrite andb_true_iff, N.eqb_eq, bool_decide_eq_true. split.
    - intros (Hk & -> & _). congruence.
    - intros [= -> ->]. auto. }
  by rewrite E.
Qed.

Lemma wp_invite_accept_tx me id T st (Q : AppState → AppResult (WorldInvite * JoinTicketDto) → Prop) :
  (∀ st' e, Q st' (Err e)) →
  (∀ t t1 t2 t3 t4 i w dto db', T t → T t1 → T t2 → T t3 → T t4 →
    world_invites (st_db st) !! id = Some i →
    wi_invitee_user_id i = me → wi_status i = Pending → (t_app t < wi_expires_at i)%Z →
    world_sessions (st_db st) !! wi_world_session_id i = Some w → ws_status w = Open →
    chain_holds i (ws_invite_policy w) (st_db st) →
    (ws_current_players w < ws_max_players w)%Z →
    issued cfg me (wi_host_user_id i) (wi_world_session_id i) (hex_encode (t_random t1))
      (set_world_invites (update_where (id_in_status id Pending) (set_wi_status Accepted (t_db t4))
         (world_invites (st_db st))) (st_db st)) db' dto (t_uuid t3) (t_app t2) (t_db t3) →
    Q (set_db db' st) (Ok (i, dto))) →
  wp (accept_tx cfg me id) T st Q.
Proof.
  intros HE HQ. unfold accept_tx. wp_step. apply wp_load_invite; [intros; apply HE|].
  intros i u1 u2 u3 Hi. cbn [ivr_invite].
  destruct (negb (wi_invitee_user_id i =? me)%N) eqn:Hm; [by wp_step|].
  destruct (negb (is_pending (wi_status i))) eqn:Hp; [by wp_step|]. bool_simpl.
  apply wp_bind, wp_utc_now. intros t Ht. wp_red.
  destruct (wi_expires_at i <=? t_app t)%Z eqn:Hx; [by wp_step|]. bool_simpl.
  wp_step. apply wp_load_open_world; [intros; apply HE|].
  destruct (world_sessions (st_db st) !! wi_world_session_id i) as [w|] eqn:Hw; [|done].
  destruct (is_open (ws_status w)) eqn:Ho; [|done]. cbn [Models.row].
  wp_step. apply wp_recheck_chain; [intros; apply HE|]. intros Hch.
  destruct (ws_max_players w <=? ws_current_players w)%Z eqn:Hc; [by wp_step|]. bool_simpl.
  assert (Hs : wi_status i = Pending) by (unfold is_pending in Hp; by bool_simpl).
  apply wp_bind_ok, wp_sql_app. intros t4 Ht4. fault_case F; [apply HE|].
  unfold update_invites. rewrite (count_id_in_status id _ _ i Hi Hs). wp_red. cbn [Nat.eqb negb].
  wp_step. apply wp_issue_ticket; [intros; apply HE|].
  intros t1 t2 t3 dto db' H1 H2 H3 Hiss. repeat wp_step. cbn [st_db set_db] in Hiss.
  apply (HQ t t1 t2 t3 t4 i w dto db'); try done.
  - unfold is_open in Ho. by bool_simpl.
  - by subst me.
Qed.

Lemma invite_accept_tx_gated me id : gated (invite_settled id) (accept_tx cfg me id).
Proof.
  apply gated_wp. intros st. apply wp_invite_accept_tx; [done|].
  intros t t1 t2 t3 t4 i w dto db' _ _ _ _ _ Hi _ Hs _ _ _ _ _ Hiss _.
  destruct (is_db _ _ _ _ _ _ _ _ _ _ _ Hiss) as (now_rs & ->). split.
  - intros (i' & Hi' & Hp). simplify_eq. by rewrite Hs in Hp.
  - eexists. simpl. rewrite lookup_update_where, Hi. simpl. split; [done|].
    unfold id_in_status. rewrite N.eqb_refl, Hs. done.
Qed.

(** What [accept] does once its transaction has committed. *)
Definition invite_accept_rest : WorldInvite * JoinTicketDto → prog (AppResult JoinTicketDto) :=
  λ '(i, ticket),
    do* on_metrics incr_join_tickets;
    let? guest_dto := fetch_user_dto (wi_invitee_user_id i) in
    do* signal (wi_host_user_id i)
          (GuestArriving (jt_relay_session_id ticket) (wi_world_session_id i) guest_dto);
    ret_ok ticket.

Lemma invite_accept_rest_rel R `{!PreOrder R} b : prog_rel (db_rel R) (invite_accept_rest b).
Proof. unfold invite_accept_rest, fetch_user_dto. prog_rel_go. Qed.
End InviteAccept.

(** ** Properties *)

Section InviteProperties.
Context `{Lowercase} `{Primitives}.

(** C33. Invites only move forward. However the requests of this module interleave, an
    invite that was stored is still stored afterwards with the same world, host,
    inviter, invitee, expiry and creation time, and its status has moved along the life
    cycle only: approval releases it, and once accepted, declined, revoked or expired
    it never changes again. *)
Theorem invite_lifecycle cfg reqs st ps st' k i :
  rtc pool_step (map (serve_invite cfg) reqs, st) (ps, st') →
  world_invites (st_db st) !! k = Some i →
  ∃ i', world_invites (st_db st') !! k = Some i' ∧ follows i i'.
Proof.
  intros Hr Hi. destruct (pool_step_rel (db_rel lifecycle) _ _ Hr) as [L _]; [|by apply L].
  apply Forall_forall. intros p (req & -> & _)%list_elem_of_fmap. apply serve_invite_lifecycle.
Qed.

(** An invite is accepted at most once. Run any number of acceptances of one invite,
    interleaved in any way with each other and with any handlers that follow the
    invites' life cycle (approval, declining, revoking, inviting): at most one of them
    answers with a ticket. *)
Theorem invite_accept_once cfg id mes others st ps st' i j a b :
  Forall (prog_rel (db_rel lifecycle)) others →
  rtc pool_step (map (λ me, accept cfg me id) mes ++ others, st) (ps, st') →
  (i < length mes)%nat → (j < length mes)%nat →
  ps !! i = Some (Ret (Ok a)) → ps !! j = Some (Ret (Ok b)) → i = j.
Proof.
  intros Ho Hr Hi Hj Pi Pj.
  assert (E : map (λ me, accept cfg me id) mes
    = gate_threads invite_accept_rest (map (λ me, accept_tx cfg me id) mes)).
  { unfold gate_threads. by rewrite map_map. }
  rewrite E in Hr.
  eapply (gate_once (invite_settled id) invite_accept_rest);
    [| | |exact Hr| | |exact Pi|exact Pj]; [| | |by rewrite length_map..].
  - apply Forall_forall. intros tx (me & -> & _)%list_elem_of_fmap. apply invite_accept_tx_gated.
  - intros b'. apply invite_accept_rest_rel, _.
  - eapply Forall_impl; [exact Ho|]. intros p. apply prog_rel_mono.
    intros s s' L. by apply lifecycle_settled.
Qed.

(** Accepting an invite: a refusal leaves the database; otherwise the ticket is minted, and the
    answer is lost only if the database fails after the commit. *)
Lemma wp_invite_accept cfg me id now T st (Q : AppState → AppResult JoinTicketDto → Prop) :
  schema_ok (st_db st) → (∀ t, T t → timed now t) →
  (∀ st' e, st_db st' = st_db st → Q st' (Err e)) →
  (∀ st' dto i w ticket_id r,
    world_invites (st_db st) !! id = Some i → wi_invitee_user_id i = me → wi_status i = Pending →
    (now < wi_expires_at i)%Z →
    world_sessions (st_db st) !! wi_world_session_id i = Some w → ws_status w = Open →
    (ws_current_players w < ws_max_players w)%Z → chain_holds i (ws_invite_policy w) (st_db st) →
    issued cfg me (wi_host_user_id i) (wi_world_session_id i) (ticket dto)
      (set_world_invites (update_where (id_in_status id Pending) (set_wi_status Accepted now)
        (world_invites (st_db st))) (st_db st)) (st_db st') dto ticket_id now now →
    ((∃ u, r = Ok dto ∧ users (st_db st) !! me = Some u ∧
       st_signaling st' = send_to (wi_host_user_id i)
         (GuestArriving (jt_relay_session_id dto) (wi_world_session_id i) (user_dto me u)) (st_signaling st))
     ∨ r = Err (Database Io) ∧ ∃ t, T t ∧ t_fault t = true) →
    Q st' r) →
  wp (accept cfg me id) T st Q.
Proof.
  intros S HT HE HQ. change (accept cfg me id) with
    (bind_ok (transaction (accept_tx cfg me id)) invite_accept_rest).
  wp_step. apply (wp_transaction_timed _ _ now), wp_invite_accept_tx; [done|by intros; apply HE|done|].
  intros t t1 t2 t3 t4 i w dto db' (D & A) H1 (D2 & A2) (D3 & A3) (D4 & A4) Hi Hm Hs Hx Hw Hopen Hch Hc Hiss.
  rewrite A in Hx. rewrite D4, A2, D3 in Hiss.
  destruct (proj2 (ok_world_invites _ S) _ _ Hi) as (_ & _ & _ & [u Ru] & _).
  pose proof (is_ticket _ _ _ _ _ _ _ _ _ _ _ Hiss) as Et. rewrite <- Et in Hiss.
  destruct (is_db _ _ _ _ _ _ _ _ _ _ _ Hiss) as (now_rs & E).
  unfold invite_accept_rest, fetch_user_dto. repeat wp_step. fault_case F.
  { eapply HQ; try done. right. eauto. }
  cbn [st_db set_metrics]. replace (users (st_db (set_db db' st))) with (users (st_db st)) by (cbn [st_db set_db]; by rewrite E).
  rewrite Ru. repeat wp_step. eapply HQ; try done. left. exists u. rewrite Hm in *. auto.
Qed.

(** C4. What accepting an invite takes and does, also when statements fail. If the database is
    changed at all, the invite was pending, addressed to the caller and not expired; its world
    was open with a free slot; and it came from the host, or the world still admits friends of
    friends and the chain from the host over the inviter to the caller still holds. The invite
    is then accepted, one unconsumed ticket for the caller and one pending relay session tied to
    it are added, and nothing else in the database changes. A success answers the ticket whose
    token the stored hash is of, and the host has been told of the arrival. A failure means that
    the database is as it was, unless it stopped answering after the commit: then all that was
    done, and the answer is an internal error. (The database begins well formed and both clocks read
    one instant throughout.) *)
Theorem invite_accept_admission cfg me id now o st st' r :
  schema_ok (st_db st) → (∀ i, timed now (o i)) →
  exec (accept cfg me id) o st = (st', r) →
  (is_ok r = false ∧ st_db st' = st_db st) ∨
  ∃ dto i w ticket_id,
    world_invites (st_db st) !! id = Some i ∧ wi_invitee_user_id i = me ∧ wi_status i = Pending ∧
    (now < wi_expires_at i)%Z ∧
    world_sessions (st_db st) !! wi_world_session_id i = Some w ∧ ws_status w = Open ∧
    (ws_current_players w < ws_max_players w)%Z ∧
    chain_holds i (ws_invite_policy w) (st_db st) ∧
    issued cfg me (wi_host_user_id i) (wi_world_session_id i) (ticket dto)
      (set_world_invites (update_where (id_in_status id Pending) (set_wi_status Accepted now)
        (world_invites (st_db st))) (st_db st)) (st_db st') dto ticket_id now now ∧
    ((∃ u, r = Ok dto ∧ users (st_db st) !! me = Some u ∧
       st_signaling st' = send_to (wi_host_user_id i)
         (GuestArriving (jt_relay_session_id dto) (wi_world_session_id i) (user_dto me u)) (st_signaling st))
     ∨ r = Err (Database Io) ∧ ∃ j, t_fault (o j) = true).
Proof.
  intros S Ho Hex. exec_start Hex (λ t, timed now t ∧ ∃ i, t = o i); [eauto|].
  apply (wp_invite_accept _ _ _ now); [done|by intros t []|by left|].
  intros st' dto i w ticket_id r Hi Hm Hs Hx Hw Hopen Hc Hch Hiss Hr. right. exists dto, i, w, ticket_id.
  repeat (split; [done|]). destruct Hr as [?|(-> & t & [_ (j & ->)] & F)]; [by left|]. right. eauto.
Qed.
End InviteProperties.

(** ** Concrete instances *)

(** [sample_state] with two invites of the host of world 50: a pending one, 80, to user 1,
    and one awaiting approval, 81, from user 1 to user 3. *)
Definition st_invited : AppState :=
  set_db (set_world_invites
    {[ 80%N := mkWorldInvite 50 2 2 1 Pending 100 4 4;
       81%N := mkWorldInvite 50 2 1 3 PendingApproval 100 4 4 ]} sample_db) sample_state.

Lemma st_invited_ok : @schema_ok ascii_lowercase (st_db st_invited).
Proof. apply schema_okb_sound. vm_compute. reflexivity. Qed.

(** Approving 81, then two declines by its invitee and a revocation, interleaved. *)
Definition busy_invite : list (prog bool) * AppState :=
  sched (calm_oracle 9) 0 ([0; 0; 0; 1; 2; 0; 0; 3; 1; 2; 3; 1; 2; 1; 2])%nat
    (map (serve_invite (H := toy_primitives) default_config)
       [ReqApprove 2 81; ReqDecline 3 81; ReqDecline 3 81; ReqRevoke 2 81], st_invited).

Lemma invite_lifecycle_witness :
  wi_status <$> world_invites (st_db busy_invite.2) !! 81%N = Some Declined ∧
  ∃ i', world_invites (st_db busy_invite.2) !! 81%N = Some i' ∧
    follows (mkWorldInvite 50 2 1 3 PendingApproval 100 4 4) i'.
Proof.
  split; [vm_compute; reflexivity|].
  eapply (invite_lifecycle (H0 := toy_primitives) default_config
           [ReqApprove 2 81; ReqDecline 3 81; ReqDecline 3 81; ReqRevoke 2 81] st_invited
           busy_invite.1 busy_invite.2 81).
  - rewrite <- surjective_pairing. apply sched_pool.
  - vm_compute. reflexivity.
Defined.

Definition race_of_invites : list (prog (AppResult JoinTicketDto)) * AppState :=
  sched (calm_oracle 9) 0 [0; 1; 0; 0; 0; 0; 1; 1; 1]%nat
    (map (λ me, accept (H := toy_primitives) default_config me 80) [1%N; 1%N] ++ [], st_invited).

Definition ticket_80 : JoinTicketDto :=
  mkJoinTicketDto "" 1008 50 2 (9 + secs 60) "friends_of_friends" (Some "1.20") (Some "fabric").

Lemma invite_accept_once_witness :
  race_of_invites.1 !! 0%nat = Some (Ret (Ok ticket_80)) ∧
  ∀ j b, (j < 2)%nat → race_of_invites.1 !! j = Some (Ret (Ok b)) → 0%nat = j.
Proof.
  assert (E : race_of_invites.1 !! 0%nat = Some (Ret (Ok ticket_80)))
    by (vm_compute; reflexivity).
  split; [exact E|]. intros j b Hj Hb.
  eapply (invite_accept_once (H0 := toy_primitives) default_config 80 [1%N; 1%N] []
           st_invited race_of_invites.1 race_of_invites.2 0 j ticket_80 b).
  - constructor.
  - rewrite <- surjective_pairing. apply sched_pool.
  - simpl. lia.
  - exact Hj.
  - exact E.
  - exact Hb.
Defined.

Lemma invite_accept_admission_witness :
  let r := exec (accept (H := toy_primitives) default_config 1 80) (calm_oracle 9) st_invited in
  @schema_ok ascii_lowercase (st_db st_invited) ∧ is_ok r.2 = true ∧
  ((is_ok r.2 = false ∧ st_db r.1 = st_db st_invited) ∨
   ∃ dto i w ticket_id,
     world_invites (st_db st_invited) !! 80%N = Some i ∧ wi_invitee_user_id i = 1%N ∧
     wi_status i = Pending ∧ (9 < wi_expires_at i)%Z ∧
     world_sessions (st_db st_invited) !! wi_world_session_id i = Some w ∧ ws_status w = Open ∧
     (ws_current_players w < ws_max_players w)%Z ∧
     chain_holds i (ws_invite_policy w) (st_db st_invited) ∧
     issued (H := toy_primitives) default_config 1 (wi_host_user_id i) (wi_world_session_id i) (ticket dto)
       (set_world_invites (update_where (id_in_status 80 Pending) (set_wi_status Accepted 9)
         (world_invites (st_db st_invited))) (st_db st_invited)) (st_db r.1) dto ticket_id 9 9 ∧
     ((∃ u, r.2 = Ok dto ∧ users (st_db st_invited) !! 1%N = Some u ∧
        st_signaling r.1 = send_to (wi_host_user_id i)
          (GuestArriving (jt_relay_session_id dto) (wi_world_session_id i) (user_dto 1 u)) (st_signaling st_invited))
      ∨ r.2 = Err (Database Io) ∧ ∃ j, t_fault (calm_oracle 9 j) = true)).
Proof.
  intros r. split; [exact st_invited_ok|]. split; [vm_compute; reflexivity|].
  apply (invite_accept_admission (H := ascii_lowercase) (H0 := toy_primitives) default_config 1 80 9
           (calm_oracle 9)); [exact st_invited_ok|intros i; apply calm_timed, calm_oracle_calm|].
  unfold r. by destruct (exec _ _ _).
Defined.
