(* ===== verification/Pipe.v ===== *)
(** * The pipe between the two sockets of a tunnel

    [crates/network/src/relay.rs], [pipe] and [classify]. Each direction is a task that reads a
    frame, sends it on, and reads the next; [tokio::select!] runs the two until one of them
    ends, and drops the other where it stands. What arrives on a socket before its stream ends
    or fails is a list of frames; which direction goes on next, and whether the send it waits
    for succeeds, is the environment's choice. *)

From S2P Require Import Prelude Errors Realtime Schema Prog Invariant.

(** ** Frames *)

Inductive Message : Type :=
| Text (text : string)
| Binary (data : string)
| Ping (data : string)
| Pong (data : string)
| Close.

Inductive Forward : Type :=
| Send (frame : Message)
| Skip
| Stop.

(** [classify]: the frame's disposition and the bytes it adds to the counter. *)
Definition classify (message : Message) : Forward * Z :=
  match message with
  | Binary data => (Send (Binary data), Z.of_nat (String.length data))
  | Text text => (Send (Text text), 0%Z)
  | Close => (Stop, 0%Z)
  | Ping _ | Pong _ => (Skip, 0%Z)
  end.

(** ** The two directions *)

(** What a direction waits for: the next frame, the end of a send, the end of its last send. *)
Inductive Phase : Type :=
| Reading
| Sending (frame : Message)
| Closing.

(** A direction: what is still to come from its stream, where it is, and the frames its sink
    has taken, oldest first. *)
Record Direction : Type := mkDirection {
  incoming : list Message;
  phase : Phase;
  sent : list Message
}.

Record Pipe : Type := mkPipe { host_to_guest : Direction; guest_to_host : Direction }.

Definition side (from_host : bool) (s : Pipe) : Direction :=
  if from_host then host_to_guest s else guest_to_host s.

Definition put_side (from_host : bool) (d : Direction) (s : Pipe) : Pipe :=
  if from_host then mkPipe d (guest_to_host s) else mkPipe (host_to_guest s) d.

(** A direction goes on: what it waits for is there. For a send, whether it succeeded. *)
Record Poll : Type := mkPoll { po_from_host : bool; po_ok : bool }.

(** The frame is counted when it is read. *)
Definition add_bytes (n : Z) (m : Metrics) : Metrics :=
  mkMetrics (bootstraps m) (heartbeats m) (friend_requests_created m)
    (join_tickets_issued m) (relay_sessions_opened m) (counter_add n (relay_bytes_forwarded m))
    (signaling_connections m).

(** After a frame is classified: where the loop goes. *)
Definition after_classify (f : Forward) : Phase :=
  match f with Send frame => Sending frame | Skip => Reading | Stop => Closing end.

(** The [select!]; [None] when the fuel runs out. The direction that ended comes first. *)
Fixpoint pipe_loop (fuel : nat) (polls : nat → Poll) (s : Pipe) : prog (option (bool * Pipe)) :=
  match fuel with
  | O => Ret None
  | S fuel =>
      let b := po_from_host (polls O) in
      let ok := po_ok (polls O) in
      let d := side b s in
      let go ph frames rest := pipe_loop fuel (λ i, polls (S i)) (put_side b (mkDirection rest ph frames) s) in
      match phase d, incoming d with
      | Reading, [] => go Closing (sent d) []
      | Reading, message :: rest =>
          let '(fwd, bytes) := classify message in
          do* on_metrics (add_bytes bytes);
          go (after_classify fwd) (sent d) rest
      | Sending frame, rest =>
          if ok then go Reading (sent d ++ [frame]) rest else go Closing (sent d) rest
      | Closing, rest =>
          Ret (Some (b, put_side b (mkDirection rest Closing (if ok then sent d ++ [Close] else sent d)) s))
      end
  end.

(** How often the directions can go on: twice per frame, and once to begin closing and once to
    end it. *)
Definition work (d : Direction) : nat :=
  match phase d with
  | Reading => 2 * length (incoming d) + 2
  | Sending _ => 2 * length (incoming d) + 3
  | Closing => 1
  end.

Definition fresh (frames : list Message) : Direction := mkDirection frames Reading [].

Definition pipe (host guest : list Message) (polls : nat → Poll) : prog (option (bool * Pipe)) :=
  pipe_loop (work (fresh host) + work (fresh guest)) polls (mkPipe (fresh host) (fresh guest)).

(** Nothing but the counters is touched. *)
Lemma pipe_loop_rel R `{!PreOrder R} fuel polls s : prog_rel (db_rel R) (pipe_loop fuel polls s).
Proof.
  revert polls s. induction fuel as [|fuel IH]; intros polls s; cbn [pipe_loop]; [done|].
  destruct (phase _), (incoming _) as [|m rest]; try destruct (po_ok _); try destruct (classify m); try done; try apply IH.
  prog_rel_go.
Qed.

Lemma pipe_rel R `{!PreOrder R} host guest polls : prog_rel (db_rel R) (pipe host guest polls).
Proof. apply pipe_loop_rel, _. Qed.

#[export] Hint Resolve pipe_rel : loon.

(** ** What is forwarded *)

Definition payload (m : Message) : option Message :=
  match m with Text _ | Binary _ => Some m | _ => None end.

Definition size (m : Message) : Z :=
  match m with Binary data => Z.of_nat (String.length data) | _ => 0%Z end.

Definition bytes_of (l : list Message) : Z := foldr (λ m n, (size m + n)%Z) 0%Z l.

Lemma bytes_snoc l m : bytes_of (l ++ [m]) = (bytes_of l + size m)%Z.
Proof. unfold bytes_of. induction l as [|x l IH]; cbn [foldr app]; lia. Qed.

Lemma counter_add_add a b c : counter_add a (counter_add b c) = counter_add (b + a) c.
Proof. unfold counter_add. rewrite Zplus_mod_idemp_l. f_equal. lia. Qed.

(** The state with [n] more bytes on the counter. *)
Definition counted (n : Z) (st : AppState) : AppState := set_metrics (add_bytes n (st_metrics st)) st.

Definition metrics_sound (st : AppState) : Prop :=
  (0 ≤ relay_bytes_forwarded (st_metrics st) < U64)%Z.

Lemma counted_zero st : metrics_sound st → counted 0 st = st.
Proof.
  unfold metrics_sound, counted, add_bytes, counter_add. intros B. destruct st as [? ? ? m]; destruct m; simpl in *.
  unfold set_metrics. simpl. rewrite Z.add_0_r, Z.mod_small by done. done.
Qed.

Lemma counted_counted a b st : counted a (counted b st) = counted (b + a) st.
Proof. unfold counted, add_bytes. destruct st. simpl. by rewrite counter_add_add. Qed.

Section Loop.
(** [streams] is what arrives from each side; [lossy], that some send fails. *)
Context (streams : bool → list Message) (lossy : Prop).

(** A direction that has read [seen]. *)
Definition on_course (stream : list Message) (d : Direction) (seen : list Message) : Prop :=
  stream = seen ++ incoming d ∧
  match phase d with
  | Reading => (Close ∉ seen) ∧ omap payload seen = sent d
  | Sending f => (Close ∉ seen) ∧ omap payload seen = sent d ++ [f]
  | Closing =>
      (omap payload seen = sent d ∧
        (((Close ∉ seen) ∧ incoming d = []) ∨ ∃ before, seen = before ++ [Close] ∧ (Close ∉ before)))
      ∨ (lossy ∧ (Close ∉ seen) ∧ ∃ f, omap payload seen = sent d ++ [f])
  end.

Lemma side_put b b' d s : side b' (put_side b d s) = if Bool.eqb b b' then d else side b' s.
Proof. by destruct b, b'. Qed.

Definition seeing (b : bool) (l : list Message) (seen : bool → list Message) (b' : bool) : list Message :=
  if Bool.eqb b b' then l else seen b'.

(** One direction goes on, the other one stays. *)
Lemma on_course_put b d l s seen :
  (∀ b', on_course (streams b') (side b' s) (seen b')) → on_course (streams b) d l →
  ∀ b', on_course (streams b') (side b' (put_side b d s)) (seeing b l seen b').
Proof. intros I H b'. rewrite side_put. unfold seeing. destruct (Bool.eqb_spec b b') as [<-|]; [exact H|apply I]. Qed.

Definition bytes_seen (seen : bool → list Message) : Z := bytes_of (seen true) + bytes_of (seen false).

Lemma bytes_seeing b m seen :
  bytes_seen (seeing b (seen b ++ [m]) seen) = (bytes_seen seen + size m)%Z.
Proof. unfold bytes_seen, seeing. destruct b; simpl; rewrite bytes_snoc; lia. Qed.

Lemma work_put b d s :
  (work (host_to_guest (put_side b d s)) + work (guest_to_host (put_side b d s)) + work (side b s)
   = work (host_to_guest s) + work (guest_to_host s) + work d)%nat.
Proof. destruct b; simpl; lia. Qed.

(** Reading a frame. *)
Lemma on_course_read stream m rest frames seen :
  on_course stream (mkDirection (m :: rest) Reading frames) seen →
  on_course stream (mkDirection rest (after_classify (classify m).1) frames) (seen ++ [m]) ∧
  (classify m).2 = size m.
Proof.
  intros (E & NC & F). cbn [incoming sent] in *. split; [|by destruct m].
  split; [by rewrite <- app_assoc|]. cbn [phase].
  destruct m; cbn [classify fst after_classify]; rewrite omap_app, F; cbn [omap list_omap payload];
    rewrite ?app_nil_r; rewrite ?elem_of_app, ?list_elem_of_singleton; try (split; [naive_solver|done]).
  left. split; [done|]. right. by exists seen.
Qed.

(** How it ends: the direction that ended, and both as they are then. *)
Definition finished (b : bool) (s : Pipe) (seen : bool → list Message) : Prop :=
  phase (side b s) = Closing ∧
  ∃ before, (∀ b', on_course (streams b') (side b' before) (seen b')) ∧
    side (negb b) s = side (negb b) before ∧ phase (side b before) = Closing ∧
    incoming (side b s) = incoming (side b before) ∧
    (sent (side b s) = sent (side b before) ++ [Close] ∨ lossy ∧ sent (side b s) = sent (side b before)).

Lemma wp_pipe_loop fuel polls s seen T st (Q : AppState → option (bool * Pipe) → Prop) :
  (∀ i, po_ok (polls i) = false → lossy) →
  (∀ b, on_course (streams b) (side b s) (seen b)) →
  (work (host_to_guest s) + work (guest_to_host s) ≤ fuel)%nat →
  (∀ b s' seen', finished b s' seen' →
     Q (counted (bytes_seen seen' - bytes_seen seen) st) (Some (b, s'))) →
  metrics_sound st →
  wp (pipe_loop fuel polls s) T st Q.
Proof.
  revert polls s seen st. induction fuel as [|fuel IH]; intros polls s seen st HL I HW HQ B.
  { exfalso. unfold work in HW. destruct (phase (host_to_guest s)); lia. }
  cbn [pipe_loop]. set (b := po_from_host (polls 0)). pose proof (I b) as Ib. pose proof (work_put b) as W.
  destruct (side b s) as [inc ph fr] eqn:D. cbn [phase incoming sent].
  assert (Next : ∀ d l st1, on_course (streams b) d l → (work d < work (side b s))%nat →
    metrics_sound st1 → (∀ n, counted (n - bytes_seen (seeing b l seen)) st1 = counted (n - bytes_seen seen) st) →
    wp (pipe_loop fuel (λ i, polls (S i)) (put_side b d s)) T st1 Q).
  { intros d l st1 Hd Hw B1 Hn. apply (IH _ _ (seeing b l seen)).
    - intros i. apply HL.
    - by apply on_course_put.
    - specialize (W d s). lia.
    - intros b' s' seen' F. rewrite Hn. by apply HQ.
    - exact B1. }
  rewrite D in Next. unfold work in Next at 2. cbn [phase incoming] in Next.
  assert (Stay : ∀ n, counted (n - bytes_seen (seeing b (seen b) seen)) st = counted (n - bytes_seen seen) st).
  { intros n. replace (bytes_seen (seeing b (seen b) seen)) with (bytes_seen seen); [done|].
    unfold bytes_seen, seeing. by destruct b. }
  destruct ph as [|frame|].
  - destruct inc as [|m rest].
    + destruct Ib as (E & NC & F). apply (Next _ (seen b)); [|cbn; lia|done|exact Stay].
      split; [done|]. left. split; [done|]. by left.
    + destruct (on_course_read _ _ _ _ _ Ib) as [Hd Hs]. destruct (classify m) as [fwd n]. cbn [fst snd] in *. subst n.
      wp_step. apply wp_on_metrics. apply (Next _ (seen b ++ [m])); [done| | |].
      * unfold work. destruct fwd; cbn; lia.
      * unfold metrics_sound. cbn. apply Z.mod_pos_bound. done.
      * intros n. change (set_metrics _ st) with (counted (size m) st). rewrite counted_counted, bytes_seeing.
        f_equal. lia.
  - destruct Ib as (E & NC & F). destruct (po_ok (polls 0)) eqn:Ok.
    + apply (Next _ (seen b)); [|cbn; lia|done|exact Stay]. done.
    + apply (Next _ (seen b)); [|cbn; lia|done|exact Stay]. split; [done|]. right. eauto.
  - apply wp_ret. specialize (HQ b (put_side b (mkDirection inc Closing (if po_ok (polls 0) then fr ++ [Close] else fr)) s) seen).
    rewrite Z.sub_diag, counted_zero in HQ by done. apply HQ.
    split; [by rewrite side_put, Bool.eqb_reflx|]. exists s. split_and!; [exact I| | | |].
    + rewrite side_put. by destruct b.
    + by rewrite D.
    + by rewrite side_put, Bool.eqb_reflx, D.
    + rewrite side_put, Bool.eqb_reflx, D. cbn [sent]. destruct (po_ok (polls 0)) eqn:Ok; [by left|right; eauto].
Qed.
End Loop.

(** ** The contract *)

(** What a direction has done with its [stream], having read [seen]: its sink has got the text
    and binary frames of [seen], in their order, except possibly the last, and after them at most
    a close, from a direction that ended. If no send fails, a frame is missing only if it was
    being sent when the other direction ended, and a direction ends with a close, at the end of
    its stream or at a close frame. *)
Definition carried (stream seen : list Message) (d : Direction) (ended : bool) (lossless : Prop) : Prop :=
  stream = seen ++ incoming d ∧ (∀ l l', seen = l ++ Close :: l' → l' = []) ∧
  ∃ frames cut close, omap payload seen = frames ++ cut ∧ sent d = frames ++ close ∧
    (length cut ≤ 1)%nat ∧ (close = [] ∨ close = [Close] ∧ ended = true) ∧
    (lossless → cut = match phase d with Sending f => [f] | _ => [] end) ∧
    (lossless → ended = true → close = [Close] ∧ (incoming d = [] ∨ ∃ l, seen = l ++ [Close])).

Lemma close_last l : Close ∉ l → ∀ l1 l2, l ++ [Close] = l1 ++ Close :: l2 → l2 = [].
Proof.
  intros NC l1 l2 E. destruct l2 as [|x l2 _] using rev_ind; [done|]. exfalso. apply NC.
  rewrite app_comm_cons, app_assoc in E. apply app_inj_tail in E as [-> _].
  apply elem_of_app. right. by left.
Qed.

Lemma on_course_carried (lossy lossless : Prop) stream d d' seen close ended :
  (lossless → ¬ lossy) →
  on_course lossy stream d seen → incoming d' = incoming d → phase d' = phase d → sent d' = sent d ++ close →
  close = [] ∨ close = [Close] ∧ ended = true →
  (lossless → ended = true → phase d = Closing ∧ close = [Close]) →
  carried stream seen d' ended lossless.
Proof.
  intros LL (E & C) Ei Ep Es Hc He. unfold carried. rewrite Ei, Ep, Es. split; [done|].
  assert (NoClose : Close ∉ seen → ∀ l l', seen = l ++ Close :: l' → l' = []).
  { intros NC l l' ->. destruct NC. apply elem_of_app. right. by left. }
  destruct (phase d) as [|f|].
  - destruct C as [NC F]. split; [by apply NoClose|]. exists (sent d), [], close. rewrite app_nil_r.
    split_and!; try done; [simpl; lia|]. intros L En. by destruct (He L En).
  - destruct C as [NC F]. split; [by apply NoClose|]. exists (sent d), [f], close.
    split_and!; try done. intros L En. by destruct (He L En).
  - destruct C as [(F & Hend)|(L & NC & f & F)].
    + split. { destruct Hend as [[NC _]|(l & -> & NC)]; [by apply NoClose|by apply close_last]. }
      exists (sent d), [], close. rewrite app_nil_r. split_and!; try done; [simpl; lia|].
      intros L En. destruct (He L En). split; [done|]. destruct Hend as [[_ ?]|(l & ? & _)]; eauto.
    + split; [by apply NoClose|]. exists (sent d), [f], close. split_and!; try done; intros LS; by destruct (LL LS).
Qed.

(** C9. The tunnel is faithful. Whatever arrives on the two sockets and however the two
    directions take turns, one of them comes to an end. Until then each party has been sent the
    text and binary frames the other one sent, in their order, and nothing else but at
    most one close from the direction that ended; at most the last frame that was read is
    missing, and if no send fails, only because its send was cut short by the end of the other
    direction; then, too, the direction that ended did so at the end of its stream or at a
    close frame, and has sent its close. The byte
    counter has grown by the lengths of the binary frames read, modulo 2^64, and no other state
    has changed. *)
Theorem pipe_faithful host guest polls o st st' r :
  metrics_sound st →
  exec (pipe host guest polls) o st = (st', r) →
  ∃ over s seen, r = Some (over, s) ∧
    (∀ b : bool, carried (if b then host else guest) (seen b) (side b s) (Bool.eqb b over)
      (∀ i, po_ok (polls i) = true)) ∧
    st' = counted (bytes_of (seen true) + bytes_of (seen false)) st.
Proof.
  intros B E. exec_start E any_tick. unfold pipe.
  apply (wp_pipe_loop (λ b : bool, if b then host else guest) (∃ i, po_ok (polls i) = false) _ _ _ (λ _, []));
    [eauto| |done| |done].
  { intros b. split; [by destruct b|]. destruct b; (split; [apply not_elem_of_nil|done]). }
  intros over s seen (Pc & before & I & Eo & Pb & Ei & Es). exists over, s, seen. split; [done|].
  split; [|unfold bytes_seen; by rewrite Z.sub_0_r].
  assert (LL : (∀ i, po_ok (polls i) = true) → ¬ ∃ i, po_ok (polls i) = false).
  { intros Ok (i & Hi). by rewrite Ok in Hi. }
  intros b. destruct (Bool.eqb_spec b over) as [->|Hne].
  - destruct Es as [Es|[L Es]].
    + apply (on_course_carried _ _ _ _ _ _ [Close] _ LL (I over)); try done; [congruence|by right].
    + apply (on_course_carried _ _ _ _ _ _ [] _ LL (I over)); try done; [congruence|by rewrite app_nil_r|by left|].
      intros Ok. by apply LL in Ok.
  - assert (Hb : b = negb over) by (by destruct b, over). subst b.
    apply (on_course_carried _ _ _ _ _ _ [] _ LL (I (negb over)));
      [by rewrite Eo|by rewrite Eo|by rewrite app_nil_r, Eo|by left|done].
Qed.

(** ** A concrete tunnel

    The host sends two binary frames and a ping, the guest a text and a close; the host's second
    frame is still being sent when the guest's direction ends. *)

Definition sample_host : list Message := [Binary "abc"; Ping "x"; Binary "de"; Text "lost"].
Definition sample_guest : list Message := [Text "hi"; Close].

Definition sample_polls (i : nat) : Poll :=
  mkPoll (nth i [true; false; true; false; true; true; false] false) true.

Lemma pipe_faithful_witness :
  let r := exec (pipe sample_host sample_guest sample_polls) (calm_oracle 9) sample_state in
  r.2 = Some (false, mkPipe (mkDirection [Text "lost"] (Sending (Binary "de")) [Binary "abc"])
                            (mkDirection [] Closing [Text "hi"; Close])) ∧
  ∃ over s seen, r.2 = Some (over, s) ∧
    (∀ b : bool, carried (if b then sample_host else sample_guest) (seen b) (side b s) (Bool.eqb b over)
      (∀ i, po_ok (sample_polls i) = true)) ∧
    r.1 = counted (bytes_of (seen true) + bytes_of (seen false)) sample_state.
Proof.
  intros r. split; [vm_compute; reflexivity|].
  apply (pipe_faithful sample_host sample_guest sample_polls (calm_oracle 9) sample_state r.1 r.2);
    [by split; vm_compute|].
  unfold r. by destruct (exec _ _ _).
Defined.
