(* ===== verification/Relay.v ===== *)
(** * The relay tunnel

    [crates/network/src/relay.rs]: who may open a relay socket, the single-use ticket of a
    guest, the capacity gate at the moment two parties meet, and the task of a socket around
    the [pipe]. Sockets are handles; what arrives on the two sockets of a tunnel, in which
    order and how a send ends, is given along. *)

From S2P Require Import Prelude RustStr Errors Models Table Realtime Schema Prog Auth Invariant.
From S2P Require Import Queries Presence Worlds Join Pipe.

Section Relay.
Context `{Primitives}.

(** ** Admission *)

Definition consume_ticket (ticket_id : Uuid) (t : Tick) (db : Db) : SqlResult (Db * unit) :=
  Ok (set_join_tickets
        (update_where (λ k r, (k =? ticket_id)%N && bool_decide (jk_consumed_at r = None))
          (λ r, mkJoinTicket (jk_user_id r) (jk_world_session_id r) (jk_token_hash r)
                  (jk_expires_at r) (Some (t_db t)) (jk_created_at r))
          (join_tickets db)) db, ()).

(** The [EXISTS] of [validate_guest_ticket]; a [NULL] guest equals no user. *)
Definition ticket_valid (ticket_id : Uuid) (hash : string) (guest : option Uuid) (now : Time)
  (db : Db) : bool :=
  match join_tickets db !! ticket_id with
  | Some r =>
      (jk_token_hash r =? hash)%string && sql_eq (Some (jk_user_id r)) guest
      && bool_decide (jk_consumed_at r = None) && (now <? jk_expires_at r)%Z
  | None => false
  end.

Definition validate_guest_ticket (relay : RelaySession) (token : string) : prog (AppResult unit) :=
  let? ticket_id := lift (ok_or (Conflict "relay session has no ticket") (rs_join_ticket_id relay)) in
  let? valid := select (λ t db,
    ticket_valid ticket_id (hash_token token) (rs_guest_user_id relay) (t_db t) db) in
  if negb valid then ret_err Unauthorized
  else sql_app (consume_ticket ticket_id).

(** What an accepted upgrade runs with. *)
Record RelayUpgrade : Type := mkUpgrade {
  up_role : RelayRole;
  up_world_session_id : Uuid;
  up_guest_user_id : option Uuid
}.

(** [relay_ws], up to the upgrade. *)
Definition relay_ws (relay_session_id : Uuid) (query_token : option string) (query_role : string)
  (h : HeaderMap) : prog (AppResult RelayUpgrade) :=
  let? token := lift (ok_or Unauthorized (or_else (bearer_token_from_headers h) query_token)) in
  let? relay := select (λ _ db, relay_sessions db !! relay_session_id) in
  let? relay := lift (ok_or (NotFound "relay session not found") relay) in
  if (rs_status relay =? "closed")%string then ret_err (Conflict "relay session is closed")
  else
    let? role :=
      if (query_role =? "host")%string then
        let? user := user_from_token token in
        if negb (key user =? rs_host_user_id relay)%N then ret_err Forbidden else ret_ok Host
      else if (query_role =? "guest")%string then
        do? validate_guest_ticket relay token; ret_ok Guest
      else ret_err (BadRequest "role must be host or guest") in
    ret_ok (mkUpgrade role (rs_world_session_id relay) (rs_guest_user_id relay)).

(** ** Player slots and session status

    Failures are logged and count as "not admitted" or as nothing. *)

Definition admit_slot (world : Uuid) (_ : Tick) (db : Db) : SqlResult (Db * nat) :=
  let p := λ k w, (k =? world)%N && is_open (ws_status w)
                  && (ws_current_players w <? ws_max_players w)%Z in
  Ok (set_world_sessions (update_where p
        (λ w, mkWorldSession (ws_host_user_id w) (ws_status w) (ws_max_players w)
                (ws_current_players w + 1) (ws_invite_policy w) (ws_created_at w)
                (ws_closed_at w)) (world_sessions db)) db,
      count_rows p (world_sessions db)).

Definition try_admit_player (world : Uuid) : prog bool :=
  let* r := sql (admit_slot world) in
  Ret match r with Ok affected => (0 <? affected)%nat | Err _ => false end.

Definition release (world : Uuid) (_ : Tick) (db : Db) : SqlResult (Db * unit) :=
  Ok (set_world_sessions (update_where (λ k _, (k =? world)%N)
        (λ w, mkWorldSession (ws_host_user_id w) (ws_status w) (ws_max_players w)
                (Z.max (ws_current_players w - 1) 0) (ws_invite_policy w) (ws_created_at w)
                (ws_closed_at w)) (world_sessions db)) db, ()).

Definition release_player (world : Uuid) : prog unit := ignore (sql (release world)).

Definition set_rs_status (status : string) (closed_at : option Time) (r : RelaySession)
  : RelaySession :=
  mkRelaySession (rs_world_session_id r) (rs_host_user_id r) (rs_guest_user_id r)
    (rs_join_ticket_id r) status (rs_created_at r) closed_at.

Definition mark_relay_active (id : Uuid) : prog unit :=
  ignore (sql (λ _ db,
    Ok (set_relay_sessions (update_where (λ k r, (k =? id)%N && negb (rs_status r =? "closed")%string)
          (λ r, set_rs_status "active" (rs_closed_at r) r) (relay_sessions db)) db, ()))).

Definition mark_relay_closed (id : Uuid) : prog unit :=
  ignore (sql (λ t db,
    Ok (set_relay_sessions (update_where (λ k _, (k =? id)%N)
          (set_rs_status "closed" (Some (t_db t))) (relay_sessions db)) db, ()))).

(** ** The socket's task *)

Definition incr_relay_sessions (m : Metrics) : Metrics :=
  mkMetrics (bootstraps m) (heartbeats m) (friend_requests_created m) (join_tickets_issued m)
    (counter_incr (relay_sessions_opened m)) (relay_bytes_forwarded m) (signaling_connections m).

Definition broadcast_guest (guest : option Uuid) : prog unit :=
  match guest with Some g => ignore (broadcast_presence g) | None => Ret () end.

(** [handle_relay]. Between [park] and [remove_waiting] the task sleeps until its peer is
    done or the rendezvous times out: it may be resumed at any moment. What will arrive on the
    socket that waited and on the one that found it, until their streams end, is [waited] and
    [arrived]. *)
Definition handle_relay (peer : PendingPeer) (relay_session_id : Uuid) (role : RelayRole)
  (world : Uuid) (guest : option Uuid) (waited arrived : list Message) (polls : nat → Poll) : prog unit :=
  let* pending := on_relay (take_peer relay_session_id role) in
  match pending with
  | Some _ =>
      let* admitted := try_admit_player world in
      if negb admitted then mark_relay_closed relay_session_id
      else
        do* on_relay (λ hub, (incr_active hub, ()));
        do* on_metrics incr_relay_sessions;
        do* mark_relay_active relay_session_id;
        do* broadcast_guest guest;
        do* pipe waited arrived polls;
        do* on_relay (λ hub, (decr_active hub, ()));
        do* release_player world;
        do* mark_relay_closed relay_session_id;
        broadcast_guest guest
  | None =>
      let* refused := on_relay (park relay_session_id role peer) in
      match refused with
      | Some _ => Ret ()
      | None => do* on_relay (remove_waiting relay_session_id); Ret ()
      end
  end.
End Relay.

(** ** The schema's invariant *)

Section RelaySchema.
Context `{Lowercase} `{Primitives}.

Lemma worlds_update_where_schema db p f :
  schema_ok db →
  (∀ k w, p k w = true → ws_host_user_id (f w) = ws_host_user_id w ∧ ws_status (f w) = ws_status w
     ∧ ((0 ≤ ws_current_players w)%Z → (0 ≤ ws_current_players (f w))%Z)) →
  schema_ok (set_world_sessions (update_where p f (world_sessions db)) db).
Proof.
  intros S Hf. apply schema_set_world_sessions; [done|apply keeps_update|].
  apply table_ok_update; [by index_side| | |apply S].
  - index_side. intros k w1 w2 P. destruct (Hf k w1 P) as (E1 & E2 & _). simpl.
    by rewrite E1, E2.
  - intros k w P [Hh Hc]. destruct (Hf k w P) as (E1 & _ & E3). rewrite E1. auto.
Qed.

Lemma consume_ticket_schema id t db db' u :
  consume_ticket id t db = Ok (db', u) → schema_rel db db'.
Proof.
  intros [= <- <-] S. apply schema_set_join_tickets; [done|apply keeps_update|].
  apply table_ok_update; [by index_side|by index_side|by intros k r _|apply S].
Qed.

Lemma mark_relay_closed_schema id : prog_rel (db_rel schema_rel) (mark_relay_closed id).
Proof.
  unfold mark_relay_closed. prog_rel_go. intros t db db' b [= <- <-] S. by apply relay_update_schema.
Qed.

Lemma mark_relay_active_schema id : prog_rel (db_rel schema_rel) (mark_relay_active id).
Proof.
  unfold mark_relay_active. prog_rel_go. intros t db db' b [= <- <-] S. by apply relay_update_schema.
Qed.

Lemma try_admit_schema w : prog_rel (db_rel schema_rel) (try_admit_player w).
Proof.
  unfold try_admit_player. prog_rel_go. intros t db db' b [= <- <-] S.
  apply worlds_update_where_schema; [done|]. intros k v _. simpl. repeat split. lia.
Qed.

Lemma release_schema w : prog_rel (db_rel schema_rel) (release_player w).
Proof.
  unfold release_player. prog_rel_go. intros t db db' b [= <- <-] S.
  apply worlds_update_where_schema; [done|]. intros k v _. simpl. repeat split. lia.
Qed.

Hint Resolve mark_relay_closed_schema mark_relay_active_schema try_admit_schema release_schema : loon.

Lemma user_from_token_rel R `{!PreOrder R} tok : prog_rel (db_rel R) (user_from_token tok).
Proof. unfold user_from_token. prog_rel_go. Qed.
Hint Resolve user_from_token_rel : loon.

Lemma broadcast_guest_rel R `{!PreOrder R} g : prog_rel (db_rel R) (broadcast_guest g).
Proof. unfold broadcast_guest. prog_rel_go. Qed.
Hint Resolve broadcast_guest_rel : loon.

Lemma handle_relay_schema peer id role w g fs fs' polls :
  prog_rel (db_rel schema_rel) (handle_relay peer id role w g fs fs' polls).
Proof. unfold handle_relay. prog_rel_go. Qed.

Lemma relay_ws_schema id qt qr h : prog_rel (db_rel schema_rel) (relay_ws id qt qr h).
Proof.
  unfold relay_ws, validate_guest_ticket. prog_rel_go. intros t db db' b.
  apply consume_ticket_schema.
Qed.
End RelaySchema.

#[export] Hint Resolve handle_relay_schema relay_ws_schema user_from_token_rel
  broadcast_guest_rel : loon.

(** ** Capacity *)

(** The relay changes nothing of a world but its player count, and keeps it in bounds. *)
Definition capacity_rel (db db' : Db) : Prop :=
  ∀ k w, world_sessions db !! k = Some w →
    ∃ w', world_sessions db' !! k = Some w' ∧
      ws_host_user_id w' = ws_host_user_id w ∧ ws_status w' = ws_status w ∧
      ws_max_players w' = ws_max_players w ∧ ws_invite_policy w' = ws_invite_policy w ∧
      ((0 ≤ ws_current_players w ≤ ws_max_players w)%Z →
       (0 ≤ ws_current_players w' ≤ ws_max_players w')%Z).

#[export] Instance capacity_rel_preorder : PreOrder capacity_rel.
Proof.
  split.
  - intros db k w Hk. by exists w.
  - intros a b c H1 H2 k w Hk. destruct (H1 _ _ Hk) as (w1 & Hk1 & E1).
    destruct (H2 _ _ Hk1) as (w2 & Hk2 & E2). exists w2. split; [done|]. naive_solver congruence.
Qed.

Section Capacity.
Context `{Primitives}.

Lemma capacity_other db db' : world_sessions db' = world_sessions db → capacity_rel db db'.
Proof. intros E k w Hk. exists w. by rewrite E. Qed.

Lemma try_admit_capacity w : prog_rel (db_rel capacity_rel) (try_admit_player w).
Proof.
  unfold try_admit_player. prog_rel_go. intros t db db' b [= <- <-] k v Hk. simpl.
  rewrite lookup_update_where, Hk. simpl. eexists. split; [done|].
  destruct (_ && _) eqn:P; [|done]. bool_simpl. simpl. repeat split; lia.
Qed.

Lemma release_capacity w : prog_rel (db_rel capacity_rel) (release_player w).
Proof.
  unfold release_player. prog_rel_go. intros t db db' b [= <- <-] k v Hk. simpl.
  rewrite lookup_update_where, Hk. simpl. eexists. split; [done|].
  destruct (_ =? _)%N; simpl; repeat split; lia.
Qed.

Lemma mark_relay_closed_capacity id : prog_rel (db_rel capacity_rel) (mark_relay_closed id).
Proof.
  unfold mark_relay_closed. prog_rel_go. intros t db db' b [= <- <-]. by apply capacity_other.
Qed.

Lemma mark_relay_active_capacity id : prog_rel (db_rel capacity_rel) (mark_relay_active id).
Proof.
  unfold mark_relay_active. prog_rel_go. intros t db db' b [= <- <-]. by apply capacity_other.
Qed.
Hint Resolve try_admit_capacity release_capacity mark_relay_closed_capacity
  mark_relay_active_capacity : loon.

Lemma handle_relay_capacity peer id role w g fs fs' polls :
  prog_rel (db_rel capacity_rel) (handle_relay peer id role w g fs fs' polls).
Proof. unfold handle_relay. prog_rel_go. Qed.

Lemma relay_ws_capacity id qt qr h : prog_rel (db_rel capacity_rel) (relay_ws id qt qr h).
Proof.
  unfold relay_ws, validate_guest_ticket. prog_rel_go. intros t db db' b [= <- <-].
  by apply capacity_other.
Qed.

(** What the module serves: an upgrade request, or the task of an upgraded socket. *)
Inductive relay_request : Type :=
| ReqOpen (id : Uuid) (query_token : option string) (query_role : string) (h : HeaderMap)
| ReqTunnel (peer : PendingPeer) (id : Uuid) (role : RelayRole) (world : Uuid)
    (guest : option Uuid) (waited arrived : list Message) (polls : nat → Poll).

Definition serve_relay (req : relay_request) : prog unit :=
  match req with
  | ReqOpen id qt qr h => ignore (relay_ws id qt qr h)
  | ReqTunnel peer id role world guest waited arrived polls =>
      handle_relay peer id role world guest waited arrived polls
  end.

Lemma serve_relay_capacity req : prog_rel (db_rel capacity_rel) (serve_relay req).
Proof.
  destruct req; cbn [serve_relay].
  - apply prog_rel_ignore, relay_ws_capacity.
  - apply handle_relay_capacity.
Qed.
End Capacity.

(** ** Tickets and slots *)

Section Tickets.
Context `{Primitives}.

Lemma ticket_valid_true id hash guest now db :
  ticket_valid id hash guest now db = true ↔
  ∃ r, join_tickets db !! id = Some r ∧ jk_token_hash r = hash ∧ guest = Some (jk_user_id r)
    ∧ jk_consumed_at r = None ∧ (now < jk_expires_at r)%Z.
Proof.
  unfold ticket_valid. destruct (join_tickets db !! id) as [r|]; [|naive_solver].
  rewrite !andb_true_iff, String.eqb_eq, sql_eq_true, bool_decide_eq_true, Z.ltb_lt.
  naive_solver.
Qed.

Lemma wp_validate_guest relay tok now st (Q : AppState → AppResult unit → Prop) :
  match rs_join_ticket_id relay with
  | None => Q st (Err (Conflict "relay session has no ticket"))
  | Some id =>
      if ticket_valid id (hash_token tok) (rs_guest_user_id relay) now (st_db st)
      then ∀ t db', calm now t → consume_ticket id t (st_db st) = Ok (db', ()) →
        Q (set_db db' st) (Ok ())
      else Q st (Err Unauthorized)
  end →
  wp (validate_guest_ticket relay tok) (calm now) st Q.
Proof.
  intros HQ. unfold validate_guest_ticket.
  destruct (rs_join_ticket_id relay) as [id|]; wp_calm; [|done].
  destruct (ticket_valid id _ _ _ _); cbn [negb]; [|by wp_calm].
  apply wp_sql_app. intros t' Ht. destruct Ht as (F' & D' & A'). rewrite F'.
  unfold consume_ticket at 1. by eapply HQ.
Qed.
End Tickets.

(** ** Properties *)

Section RelayProperties.
Context `{Primitives}.

(** The admission gate. A guest is admitted exactly when the world is open with a
    free slot; admission takes one slot of that world and changes nothing else, a
    refusal changes nothing, and releasing the slot of an admitted guest restores the
    database. *)
Theorem admit_exact world now o st st' ok o' :
  (∀ i, calm now (o i)) → (∀ i, t_fault (o' i) = false) →
  (∀ w, world_sessions (st_db st) !! world = Some w → (0 ≤ ws_current_players w)%Z) →
  exec (try_admit_player world) o st = (st', ok) →
  (ok = true ↔ ∃ w, world_sessions (st_db st) !! world = Some w ∧ ws_status w = Open
                 ∧ (ws_current_players w < ws_max_players w)%Z) ∧
  (∀ k, world_sessions (st_db st') !! k =
     if ok && (k =? world)%N
     then (λ w, mkWorldSession (ws_host_user_id w) (ws_status w) (ws_max_players w)
                  (ws_current_players w + 1) (ws_invite_policy w) (ws_created_at w)
                  (ws_closed_at w)) <$> world_sessions (st_db st) !! k
     else world_sessions (st_db st) !! k) ∧
  (ok = true → st_db (exec (release_player world) o' st').1 = st_db st).
Proof.
  intros Ho Ho' Hpos Hex. exec_start Hex (calm now). unfold try_admit_player.
  wp_step. apply wp_sql. intros t (F & D & A). rewrite F. unfold admit_slot. wp_step.
  set (p := λ k w, (k =? world)%N && _ && _).
  assert (Hp : (0 <? count_rows p (world_sessions (st_db st)))%nat = true ↔
    ∃ w, world_sessions (st_db st) !! world = Some w ∧ ws_status w = Open
         ∧ (ws_current_players w < ws_max_players w)%Z).
  { rewrite Nat.ltb_lt, count_rows_pos. unfold p, is_open. split.
    - intros (k & w & Hk & P). bool_simpl. subst. eauto.
    - intros (w & Hw & Hs & Hc). exists world, w. split; [done|].
      rewrite N.eqb_refl, bool_decide_true, (proj2 (Z.ltb_lt _ _)); done. }
  cbn [st_db set_db world_sessions set_world_sessions]. split; [done|]. split.
  - intros k. rewrite lookup_update_where. destruct (world_sessions (st_db st) !! k) as [w|] eqn:Hk;
      [|by destruct (_ && _)]. simpl. destruct (0 <? _)%nat eqn:C; simpl.
    + destruct (N.eqb_spec k world) as [->|]; [|by unfold p; rewrite (proj2 (N.eqb_neq _ _))].
      destruct (proj1 Hp eq_refl) as (w' & Hw' & Hs & Hc). simplify_eq.
      unfold p, is_open. by rewrite N.eqb_refl, bool_decide_true, (proj2 (Z.ltb_lt _ _)).
    + destruct (p k w) eqn:P; [|done]. exfalso. unfold p, is_open in P. bool_simpl. subst k.
      assert (false = true) by (apply Hp; eauto). done.
  - intros Hok. destruct (proj1 Hp Hok) as (w & Hw & Hs & Hc).
    destruct (exec (release_player world) o' _) as [st2 u] eqn:E.
    exec_start E no_fault. apply wp_ignore, wp_sql. intros t' Ht. unfold no_fault in Ht.
    rewrite Ht. unfold release. cbn [st_db set_db world_sessions set_world_sessions].
    etrans; [|apply set_world_sessions_same]. unfold set_world_sessions. simpl. f_equal.
    apply map_eq. intros k. rewrite !lookup_update_where.
    destruct (world_sessions (st_db st) !! k) as [v|] eqn:Hk; [|done]. simpl. f_equal.
    unfold p. destruct (N.eqb_spec k world) as [->|]; [|done]. simplify_eq.
    unfold is_open. rewrite bool_decide_true, (proj2 (Z.ltb_lt _ _)) by done. simpl.
    specialize (Hpos _ Hw). destruct w as [? ? ? c ? ? ?]; simpl in *. f_equal. lia.
Qed.

(** C8. A guest's ticket works once. It opens the relay session exactly when it is the
    session's own, the presented token is its token, it was issued to the session's
    guest, it has not expired and it has not been used; having opened it, no later
    attempt with any token succeeds. *)
Theorem ticket_single_use relay tok now o st st' r tok' now' o' :
  (∀ i, calm now (o i)) → (∀ i, calm now' (o' i)) →
  exec (validate_guest_ticket relay tok) o st = (st', r) →
  (r = Ok () ↔ ∃ id k, rs_join_ticket_id relay = Some id ∧ join_tickets (st_db st) !! id = Some k ∧
     jk_token_hash k = hash_token tok ∧ rs_guest_user_id relay = Some (jk_user_id k) ∧
     jk_consumed_at k = None ∧ (now < jk_expires_at k)%Z) ∧
  (r ≠ Ok () → st' = st) ∧
  (r = Ok () → exec (validate_guest_ticket relay tok') o' st' = (st', Err Unauthorized)).
Proof.
  intros Ho Ho' Hex. exec_start Hex (calm now). apply wp_validate_guest.
  destruct (rs_join_ticket_id relay) as [id|] eqn:Hid; [|naive_solver].
  destruct (ticket_valid id _ _ now (st_db st)) eqn:V.
  - apply ticket_valid_true in V as (k & Hk & Hh & Hg & Hc & Hx). intros t db' Ht [= <-].
    split; [naive_solver|]. split; [done|]. intros _.
    destruct (exec _ o' _) as [st2 r2] eqn:E. exec_start E (calm now').
    apply wp_validate_guest. rewrite Hid.
    destruct (ticket_valid id _ _ now' _) eqn:V'; [|done]. exfalso.
    apply ticket_valid_true in V' as (k' & Hk' & _ & _ & Hc' & _). simpl in Hk'.
    rewrite lookup_update_where, Hk in Hk'. simpl in Hk'.
    rewrite N.eqb_refl, bool_decide_true in Hk' by done. by injection Hk' as <-.
  - apply not_true_iff_false in V. rewrite ticket_valid_true in V.
    split; [|by split]. split; [done|]. intros (id' & k & [= <-] & H1 & H2 & H3 & H4 & H5).
    destruct V. eauto 10.
Qed.
End RelayProperties.

(** ** Witnesses *)

(** bob's world has one slot left; ada and cy hold tickets for it. *)
Definition st_ticketed : AppState :=
  set_db (set_relay_sessions
      {[ 71%N := mkRelaySession 50 2 (Some 1%N) (Some 70%N) "pending" 6 None;
         73%N := mkRelaySession 50 2 (Some 3%N) (Some 72%N) "pending" 6 None ]}
    (set_join_tickets
      {[ 70%N := mkJoinTicket 1 50 (hash_token (H := toy_primitives) "t1") 100 None 6;
         72%N := mkJoinTicket 3 50 (hash_token (H := toy_primitives) "t3") 100 None 6 ]}
    (set_world_sessions {[ 50%N := mkWorldSession 2 Open 1 0 FriendsOfFriends 0 None ]} sample_db)))
  sample_state.

Definition relay_71 : RelaySession := mkRelaySession 50 2 (Some 1%N) (Some 70%N) "pending" 6 None.

(** A tunnel whose first direction ends at once. *)
Definition to_end (i : nat) : Poll := mkPoll true true.

(** Two tunnels race for the slot: hosts park first, then the guests arrive. *)
Definition race_requests : list relay_request :=
  [ReqTunnel (mkPeer 1 1) 71 Host 50 (Some 1%N) [] [] to_end; ReqTunnel (mkPeer 2 2) 73 Host 50 (Some 3%N) [] [] to_end;
   ReqTunnel (mkPeer 3 3) 71 Guest 50 (Some 1%N) [] [] to_end; ReqTunnel (mkPeer 4 4) 73 Guest 50 (Some 3%N) [] [] to_end].

Definition race_for_a_slot : list (prog unit) * AppState :=
  sched (calm_oracle 9) 0 ([0; 1; 0; 1; 2; 3; 2; 3] ++ replicate 4 2 ++ replicate 4 3)%nat
    (map (serve_relay (H := toy_primitives)) race_requests, st_ticketed).

Example race_for_a_slot_result :
  (ws_current_players <$> world_sessions (st_db race_for_a_slot.2) !! 50%N) = Some 1%Z ∧
  (rs_status <$> relay_sessions (st_db race_for_a_slot.2) !! 71%N) = Some "active" ∧
  (rs_status <$> relay_sessions (st_db race_for_a_slot.2) !! 73%N) = Some "closed".
Proof. vm_compute. auto. Qed.

Lemma admit_exact_witness :
  let r := exec (try_admit_player 50) (calm_oracle 9) st_ticketed in
  r.2 = true ∧
  (r.2 = true ↔ ∃ w, world_sessions (st_db st_ticketed) !! 50%N = Some w ∧ ws_status w = Open
                 ∧ (ws_current_players w < ws_max_players w)%Z) ∧
  (∀ k, world_sessions (st_db r.1) !! k =
     if r.2 && (k =? 50)%N
     then (λ w, mkWorldSession (ws_host_user_id w) (ws_status w) (ws_max_players w)
                  (ws_current_players w + 1) (ws_invite_policy w) (ws_created_at w)
                  (ws_closed_at w)) <$> world_sessions (st_db st_ticketed) !! k
     else world_sessions (st_db st_ticketed) !! k) ∧
  (r.2 = true → st_db (exec (release_player 50) (calm_oracle 11) r.1).1 = st_db st_ticketed).
Proof.
  intros r. split; [vm_compute; reflexivity|].
  apply (admit_exact 50 9 (calm_oracle 9) st_ticketed r.1 r.2 (calm_oracle 11)); [exact (calm_oracle_calm 9)|done| |].
  - intros w. vm_compute. by intros [= <-].
  - unfold r. by destruct (exec _ _ _).
Defined.

Lemma ticket_single_use_witness :
  let r := exec (validate_guest_ticket (H := toy_primitives) relay_71 "t1") (calm_oracle 9)
             st_ticketed in
  r.2 = Ok () ∧
  (r.2 = Ok () ↔ ∃ id k, rs_join_ticket_id relay_71 = Some id ∧
     join_tickets (st_db st_ticketed) !! id = Some k ∧
     jk_token_hash k = hash_token (H := toy_primitives) "t1" ∧
     rs_guest_user_id relay_71 = Some (jk_user_id k) ∧
     jk_consumed_at k = None ∧ (9 < jk_expires_at k)%Z) ∧
  (r.2 ≠ Ok () → r.1 = st_ticketed) ∧
  (r.2 = Ok () →
     exec (validate_guest_ticket (H := toy_primitives) relay_71 "t2") (calm_oracle 10) r.1
     = (r.1, Err Unauthorized)).
Proof.
  intros r. split; [vm_compute; reflexivity|].
  apply (ticket_single_use (H := toy_primitives) relay_71 "t1" 9 (calm_oracle 9) st_ticketed r.1 r.2
           "t2" 10 (calm_oracle 10)); [exact (calm_oracle_calm 9)|exact (calm_oracle_calm 10)|].
  unfold r. by destruct (exec _ _ _).
Defined.

(** ** Races *)

Definition ended (p : prog unit) : bool := match p with Ret _ => true | _ => false end.

(** [validate_guest_ticket] checks the ticket and consumes it in two statements, and the
    second repeats the check but not its result: two requests that both check before
    either consumes are both let through with the same ticket. *)
Theorem ticket_race_lets_two_in :
  ∃ ps st',
    rtc pool_step (replicate 2 (validate_guest_ticket (H := toy_primitives) relay_71 "t1"),
                   st_ticketed) (ps, st')
    ∧ ps = [Ret (Ok ()); Ret (Ok ())].
Proof.
  set (s := sched (calm_oracle 9) 0 [0; 1; 0; 1]%nat
    (replicate 2 (validate_guest_ticket (H := toy_primitives) relay_71 "t1"), st_ticketed)).
  exists s.1, s.2. split; [rewrite <- surjective_pairing; apply sched_pool|]. by vm_compute.
Qed.

(** A parked host whose peer came wakes up when the tunnel ends and removes whatever is
    parked under the session, be it another socket: here a new connection of
    the host that parked while the first tunnel ran. *)
Theorem wakeup_drops_a_stranger :
  ∃ ps st ps' st',
    rtc pool_step (map (serve_relay (H := toy_primitives))
      [ReqTunnel (mkPeer 1 1) 71 Host 50 (Some 1%N) [] [] to_end; ReqTunnel (mkPeer 2 2) 71 Guest 50 (Some 1%N) [] [] to_end;
       ReqTunnel (mkPeer 3 3) 71 Host 50 (Some 1%N) [] [] to_end], st_ticketed) (ps, st) ∧
    waiting (st_relay st) !! 71%N = Some (Host, mkPeer 3 3) ∧
    rtc pool_step (ps, st) (ps', st') ∧
    ended <$> ps = [false; false; false] ∧ ended <$> ps' = [true; false; false] ∧
    waiting (st_relay st') !! 71%N = None.
Proof.
  set (reqs := map (serve_relay (H := toy_primitives)) _).
  set (s := sched (calm_oracle 9) 0 [0; 0; 1; 2; 2]%nat (reqs, st_ticketed)).
  set (s' := sched (calm_oracle 9) 5 [0]%nat s).
  exists s.1, s.2, s'.1, s'.2. rewrite <- !surjective_pairing.
  split; [apply sched_pool|]. split; [vm_compute; reflexivity|].
  split; [apply sched_pool|]. by vm_compute.
Qed.

(** Creating the world again resets its player count while tunnels are open, so the slot of
    a guest still connected is given away. *)
Theorem recreate_readmits :
  let a := exec (try_admit_player 50) (calm_oracle 9) st_ticketed in
  let c := exec (create default_config 2 (Some 1%Z)) (calm_oracle 9) a.1 in
  let b := exec (try_admit_player 50) (calm_oracle 9) c.1 in
  a.2 = true ∧ c.2 = Ok (mkKeyed 50%N (mkWorldSession 2 Open 1 0 FriendsOfFriends 0 None)) ∧
  b.2 = true.
Proof. by vm_compute. Qed.
