(* ===== verification/Slots.v ===== *)
(** * The slots of a world and the tunnels into it

    Which tunnels run: the accounting behind the capacity of a world in [relay.rs]. A task holds
    a slot from its admission to its release; the player count of the world covers the slots
    held, and only a task that holds one forwards anything. *)

From S2P Require Import Prelude Errors Models Table Realtime Schema Prog Auth Invariant.
From S2P Require Import Presence Pipe Relay.

(** ** What can be seen of a world *)

Definition players (k : Uuid) (db : Db) : Z :=
  from_option ws_current_players 0%Z (world_sessions db !! k).

(** The world admits nobody. *)
Definition full (k : Uuid) (db : Db) : Prop :=
  ∀ w, world_sessions db !! k = Some w → ws_status w = Open → (ws_max_players w ≤ ws_current_players w)%Z.

Definition forwarded_bytes (st : AppState) : Z := relay_bytes_forwarded (st_metrics st).

(** A task inside its tunnel: although the world admits nobody, it could still, run alone, forward
    bytes or give a slot back. *)
Definition inside (k : Uuid) (p : prog unit) : Prop :=
  ∃ o st, full k (st_db st) ∧
    let st' := (exec p o st).1 in
    forwarded_bytes st' ≠ forwarded_bytes st ∨ (players k (st_db st') < players k (st_db st))%Z.

(** ** Holding slots *)

Section Slots.
Context (k : Uuid) (tunnels : bool).

(** From holding [c] slots to holding [c']: the count covers the difference. A task that
    [tunnels] into the world and holds none is idle when nobody is admitted. *)
Definition covered (c c' : Z) (st st' : AppState) : Prop :=
  (players k (st_db st) - c ≤ players k (st_db st') - c')%Z ∧
  (tunnels = true → c = 0%Z → full k (st_db st) →
     c' = 0%Z ∧ full k (st_db st') ∧ forwarded_bytes st' = forwarded_bytes st).

Fixpoint slots {A} (p : prog A) (c : Z) (Q : Z → A → Prop) : Prop :=
  match p in prog A return (Z → A → Prop) → Prop with
  | Ret a => λ Q, Q c a
  | Act f g => λ Q, ∀ t st, ∃ c', (0 ≤ c')%Z ∧ covered c c' st (f t st).1 ∧ slots (g (f t st).2) c' Q
  | Txn body g => λ Q,
      (∀ o n st n' st' r, run body o n st = (n', st', r) →
        (is_ok r = true → covered c c st st') ∧ covered c c st (rollback st st')) ∧
      ∀ r, slots (g r) c Q
  end Q.

Lemma covered_refl c st : covered c c st st.
Proof. split; [lia|]. by intros _ ->. Qed.

Lemma slots_bind {A B} (p : prog A) (g : A → prog B) c Q :
  slots p c (λ c' a, slots (g a) c' Q) → slots (bind p g) c Q.
Proof.
  revert c. induction p as [A a|A C f h IH|A C body _ h IH]; intros c; simpl; [done| |].
  - intros H t st. destruct (H t st) as (c' & ? & ? & ?). eauto.
  - intros [H1 H2]. auto.
Qed.

(** A program that changes neither the worlds nor, if it holds nothing, the byte counter. *)
Lemma slots_neutral {A} (p : prog A) c (Q : Z → A → Prop) :
  (0 ≤ c)%Z →
  prog_rel (λ st st', world_sessions (st_db st') = world_sessions (st_db st) ∧
    (c = 0%Z → forwarded_bytes st' = forwarded_bytes st)) p →
  (∀ a, Q c a) → slots p c Q.
Proof.
  intros Hc. assert (N : ∀ st st', world_sessions (st_db st') = world_sessions (st_db st) ∧
      (c = 0%Z → forwarded_bytes st' = forwarded_bytes st) → covered c c st st').
  { intros st st' [E F]. unfold covered, players, full. rewrite E. split; [lia|]. auto. }
  induction p as [A a|A C f h IH|A C body _ h IH]; simpl; intros R HQ; [apply HQ| |].
  - destruct R as [R1 R2]. intros t st. exists c. split; [done|]. split; [by apply N|]. by apply IH.
  - destruct R as [R1 R2]. split; [|intros r; by apply IH]. intros o n st n' st' r E.
    destruct (R1 _ _ _ _ _ _ E) as [Ra Rb]. auto.
Qed.

(** What a step of the task leaves it holding. *)
Lemma slots_step p p' c st st' (Q : Z → unit → Prop) :
  (0 ≤ c)%Z → slots p c Q → prog_step p st p' st' →
  ∃ c', (0 ≤ c')%Z ∧ covered c c' st st' ∧ slots p' c' Q.
Proof.
  destruct p as [A a|A B f h|A B body h]; simpl; intros Hc; [done| |].
  - intros H (t & -> & ->). apply H.
  - intros [H1 H2] [[-> ->]|(o & n & n' & st1 & r & E & [(b & -> & -> & ->)|(e & -> & ->)])]; exists c;
      (split; [done|]); (split; [|apply H2]).
    + apply covered_refl.
    + by apply (H1 _ _ _ _ _ _ E).
    + by apply (H1 _ _ _ _ _ _ E).
Qed.

(** A task that holds nothing is not inside its tunnel. *)
Lemma slots_run {A} (p : prog A) o n st n' st' a c (Q : Z → A → Prop) :
  (0 ≤ c)%Z → slots p c Q → run p o n st = (n', st', a) → ∃ c', (0 ≤ c')%Z ∧ covered c c' st st'.
Proof.
  assert (T : ∀ a b c st1 st2 st3, covered a b st1 st2 → covered b c st2 st3 → covered a c st1 st3).
  { intros a1 b1 c1 st1 st2 st3 [L1 F1] [L2 F2]. split; [lia|]. intros Ht H0 F.
    destruct (F1 Ht H0 F) as (-> & F' & E1). destruct (F2 Ht eq_refl F') as (? & ? & E2). split_and!; [done..|congruence]. }
  revert o n st c. induction p as [A a'|A C f h IH|A C body _ h IH]; intros o n st c Hc; simpl.
  - intros _ [= <- <- <-]. exists c. split; [done|apply covered_refl].
  - intros H E. destruct (H (o n) st) as (c1 & H1 & V & S). destruct (f (o n) st) as [st1 b].
    destruct (IH _ _ _ _ _ _ _ H1 S E) as (c2 & Hc2 & V'). exists c2. split; [done|]. by eapply T.
  - intros [H1 H2] E. destruct (t_fault (o n)); [by eapply IH|].
    destruct (run body _ (S n) st) as [[n1 st1] [b|e]] eqn:Eb; apply H1 in Eb as [V1 V2].
    + destruct (t_fault (o n1)); (destruct (IH _ _ _ _ _ _ _ Hc (H2 _) E) as (c2 & Hc2 & V'); exists c2; split; [done|]).
      * by eapply T.
      * by eapply T; [apply V1|].
    + destruct (IH _ _ _ _ _ _ _ Hc (H2 _) E) as (c2 & Hc2 & V'); exists c2; split; [done|]. by eapply T.
Qed.
End Slots.

Lemma inside_holds k p c Q : (0 ≤ c)%Z → slots k true p c Q → inside k p → (1 ≤ c)%Z.
Proof.
  intros Hc S (o & st & F & H). destruct (decide (c = 0%Z)) as [->|]; [|lia]. exfalso. unfold exec in H.
  destruct (run p o 0 st) as [[n' st'] a] eqn:E. cbn [fst] in H.
  destruct (slots_run k true p o 0 st n' st' a 0 Q Hc S E) as (c' & Hc' & L & I).
  destruct (I eq_refl eq_refl F) as (-> & _ & B). destruct H; [done|lia].
Qed.

(** ** The relay's tasks *)

Lemma prog_rel_and {A} (R R' : relation AppState) (p : prog A) :
  prog_rel R p → prog_rel R' p → prog_rel (λ st st', R st st' ∧ R' st st') p.
Proof.
  induction p as [A a|A C f h IH|A C body _ h IH]; [done|intros [H1 H2] [H3 H4]; split; auto|].
  intros [H1 H2] [H3 H4]. split; [|auto]. intros o n st n' st' r E.
  destruct (H1 _ _ _ _ _ _ E), (H3 _ _ _ _ _ _ E). auto.
Qed.

Definition same_worlds : relation Db := λ db db', world_sessions db' = world_sessions db.

#[export] Instance same_worlds_preorder : PreOrder same_worlds.
Proof. split; [done|]. intros a b c H1 H2. unfold same_worlds in *. congruence. Qed.

Definition same_bytes : relation AppState := λ st st', forwarded_bytes st' = forwarded_bytes st.

Lemma same_bytes_sql {B} (f : Tick → Db → SqlResult (Db * B)) : prog_rel same_bytes (sql f).
Proof.
  split; [|done]. intros t st. unfold same_bytes. destruct (t_fault t); [done|].
  by destruct (f t (st_db st)) as [[db b]|e].
Qed.

Create HintDb slots.

Section Tasks.
Context `{Primitives} (k : Uuid).

Lemma slots_idle {A} b (p : prog A) (Q : Z → A → Prop) :
  prog_rel (db_rel same_worlds) p → prog_rel same_bytes p → (∀ a, Q 0%Z a) → slots k b p 0 Q.
Proof.
  intros W B. apply slots_neutral; [done|]. eapply prog_rel_mono; [|exact (prog_rel_and _ _ _ W B)]. by intros st st' [].
Qed.

Lemma slots_inside {A} b (p : prog A) c (Q : Z → A → Prop) :
  (0 < c)%Z → prog_rel (db_rel same_worlds) p → (∀ a, Q c a) → slots k b p c Q.
Proof.
  intros Hc W. apply slots_neutral; [lia|]. eapply prog_rel_mono; [|exact W]. intros st st' E. split; [done|lia].
Qed.

(** Admission takes a slot, or the world is left as it was. *)
Lemma slots_admit b (Q : Z → bool → Prop) :
  Q 1%Z true → Q 0%Z false → slots k b (try_admit_player k) 0 Q.
Proof.
  intros QT QF t st. destruct (t_fault t) eqn:F.
  { exists 0%Z. split; [done|]. split; [apply covered_refl|exact QF]. }
  unfold admit_slot. cbn [fst snd]. set (p := λ k' w, _).
  destruct (0 <? count_rows p (world_sessions (st_db st)))%nat eqn:C.
  - exists 1%Z. split; [done|]. split; [|apply slots_bind; cbn [slots]; by rewrite C]. split.
    + unfold players. cbn [st_db set_db world_sessions set_world_sessions]. rewrite lookup_update_where.
      apply Nat.ltb_lt, count_rows_pos in C as (k' & w & Hw & P). pose proof P as P'. unfold p in P'. bool_simpl. subst k'.
      rewrite Hw. cbn [fmap option_fmap option_map from_option]. rewrite P. simpl. lia.
    + intros _ _ Fu. exfalso. apply Nat.ltb_lt, count_rows_pos in C as (k' & w & Hw & P). unfold p, is_open in P.
      bool_simpl. subst k'. specialize (Fu _ Hw ltac:(done)). lia.
  - exists 0%Z. split; [done|]. split; [|apply slots_bind; cbn [slots]; by rewrite C].
    assert (E : update_where p (λ w, mkWorldSession (ws_host_user_id w) (ws_status w) (ws_max_players w)
        (ws_current_players w + 1) (ws_invite_policy w) (ws_created_at w) (ws_closed_at w))
        (world_sessions (st_db st)) = world_sessions (st_db st)).
    { apply map_eq. intros k'. rewrite lookup_update_where. destruct (world_sessions (st_db st) !! k') as [w|] eqn:Hw; [|done].
      simpl. destruct (p k' w) eqn:P; [|done]. exfalso. apply Nat.ltb_ge, Nat.le_0_r in C.
      by rewrite (proj1 (count_rows_zero _ _) C _ _ Hw) in P. }
    unfold covered, players, full. cbn [st_db set_db world_sessions set_world_sessions]. rewrite E. split; [lia|done].
Qed.

(** The release gives it back. *)
Lemma slots_release b (Q : Z → unit → Prop) : Q 0%Z () → slots k b (release_player k) 1 Q.
Proof.
  intros HQ t st. exists 0%Z. split; [done|]. split; [|exact HQ]. split; [|by intros _ [=]].
  cbn. destruct (t_fault t); cbn; [lia|]. unfold players. cbn. rewrite lookup_update_where.
  destruct (world_sessions (st_db st) !! k) as [w|]; cbn; [|lia]. rewrite N.eqb_refl. cbn. lia.
Qed.

Lemma mark_active_worlds id : prog_rel (db_rel same_worlds) (mark_relay_active id).
Proof. unfold mark_relay_active. prog_rel_go. by intros t db db' b [= <- <-]. Qed.
Lemma mark_closed_worlds id : prog_rel (db_rel same_worlds) (mark_relay_closed id).
Proof. unfold mark_relay_closed. prog_rel_go. by intros t db db' b [= <- <-]. Qed.
Lemma mark_closed_bytes id : prog_rel same_bytes (mark_relay_closed id).
Proof. unfold mark_relay_closed. apply prog_rel_bind; [apply same_bytes_sql|done]. Qed.
Lemma on_relay_worlds {B} (f : RelayHub → RelayHub * B) : prog_rel (db_rel same_worlds) (on_relay f).
Proof. prog_rel_go. Qed.
Lemma on_relay_bytes {B} (f : RelayHub → RelayHub * B) : prog_rel same_bytes (on_relay f).
Proof. split; [|done]. intros t st. unfold same_bytes. by destruct (f (st_relay st)). Qed.
Lemma broadcast_bytes g : prog_rel same_bytes (broadcast_guest g).
Proof.
  destruct g as [g|]; [|done]. cbn [broadcast_guest]. unfold broadcast_presence, friend_ids, select, sql_app.
  repeat (apply prog_rel_bind; [|done]). apply prog_rel_bind_ok.
  - apply prog_rel_bind; [apply same_bytes_sql|done].
  - intros ids. apply prog_rel_bind; [|done]. apply prog_rel_for_each. intros f. by split.
Qed.
Lemma on_metrics_worlds f : prog_rel (db_rel same_worlds) (on_metrics f).
Proof. prog_rel_go. Qed.
Hint Resolve on_metrics_worlds mark_active_worlds mark_closed_worlds mark_closed_bytes on_relay_worlds on_relay_bytes
  broadcast_bytes broadcast_guest_rel pipe_rel same_worlds_preorder : slots.

(** A tunnel's task starts and ends without a slot, and is only inside while it holds one. *)
Lemma handle_relay_slots b peer id role guest waited arrived polls :
  slots k b (handle_relay peer id role k guest waited arrived polls) 0 (λ c _, c = 0%Z).
Proof.
  unfold handle_relay. apply slots_bind, slots_idle; [auto with slots..|]. intros [peer'|].
  - apply slots_bind, slots_admit; cbn [negb]; [|apply slots_idle; auto with slots].
    do 6 (apply slots_bind, slots_inside; [done|auto with slots|intros _]).
    apply slots_bind, slots_release. do 2 (try apply slots_bind; apply slots_idle; [auto with slots..|]; try intros _); done.
  - apply slots_bind, slots_idle; [auto with slots..|]. intros [|]; [done|].
    apply slots_bind, slots_idle; [auto with slots..|]. done.
Qed.

(** Any other task leaves the players of the world alone. *)
Definition keeps_players : relation Db := λ db db', players k db' = players k db.

#[export] Instance keeps_players_preorder : PreOrder keeps_players.
Proof. split; [done|]. intros x y z H1 H2. unfold keeps_players in *. congruence. Qed.

Lemma keeps_same db db' : same_worlds db db' → keeps_players db db'.
Proof. unfold same_worlds, keeps_players, players. by intros ->. Qed.

Lemma other_world p f w db : w ≠ k → (∀ k' x, p k' x = true → k' = w) →
  keeps_players db (set_world_sessions (update_where p f (world_sessions db)) db).
Proof.
  intros Hne Hp. unfold keeps_players, players. cbn. rewrite lookup_update_where.
  destruct (world_sessions db !! k) as [x|]; [|done]. cbn. destruct (p k x) eqn:P; [|done]. by apply Hp in P.
Qed.

Lemma handle_relay_elsewhere peer id role w guest waited arrived polls :
  w ≠ k → prog_rel (db_rel keeps_players) (handle_relay peer id role w guest waited arrived polls).
Proof.
  intros Hne. unfold handle_relay, try_admit_player, release_player, mark_relay_active, mark_relay_closed.
  prog_rel_go; intros t db db' b' [= <- <-]; try done.
  - eapply other_world; [exact Hne|]. intros k' x P. bool_simpl. done.
  - eapply other_world; [exact Hne|]. intros k' x P. bool_simpl. done.
Qed.

Lemma relay_ws_elsewhere id qt qr h : prog_rel (db_rel keeps_players) (relay_ws id qt qr h).
Proof. unfold relay_ws, validate_guest_ticket. prog_rel_go. by intros t db db' b [= <- <-]. Qed.

Definition tunnels_into (req : relay_request) : bool :=
  match req with ReqTunnel _ _ _ w _ _ _ _ => (w =? k)%N | ReqOpen _ _ _ _ => false end.

Lemma serve_relay_slots req :
  slots k (tunnels_into req) (serve_relay req) 0 (λ c _, c = 0%Z).
Proof.
  assert (O : ∀ p : prog unit, prog_rel (db_rel keeps_players) p → slots k false p 0 (λ c _, c = 0%Z)).
  { intros p. induction p as [A a|A C f h IH|A C body _ h IH]; simpl; [done| |].
    - intros [H1 H2] t st. exists 0%Z. split; [done|]. split; [|auto]. split; [|done]. specialize (H1 t st).
      unfold db_rel, keeps_players in H1. lia.
    - intros [H1 H2]. split; [|auto]. intros o n st n' st' r E. destruct (H1 _ _ _ _ _ _ E) as [R1 R2].
      unfold db_rel, keeps_players in *. split; [intros Ok; specialize (R1 Ok)|]; (split; [lia|done]). }
  destruct req as [id qt qr h|peer id role w guest waited arrived polls]; cbn [serve_relay tunnels_into].
  - apply O, prog_rel_ignore, relay_ws_elsewhere.
  - destruct (N.eqb_spec w k) as [->|Hne]; [apply handle_relay_slots|by apply O, handle_relay_elsewhere].
Qed.
End Tasks.

(** ** Many tasks *)

Section Pool.
Context (k : Uuid).

(** A task of the pool: whether it tunnels into the world, what it holds, and what is left of it. *)
Record Holder : Type := mkHolder { ho_tunnels : bool; ho_slots : Z; ho_task : prog unit }.

Definition sound (h : Holder) : Prop :=
  (0 ≤ ho_slots h)%Z ∧ slots k (ho_tunnels h) (ho_task h) (ho_slots h) (λ c _, c = 0%Z).

Definition held (l : list Holder) : Z := foldr (λ h n, (ho_slots h + n)%Z) 0%Z l.

Lemma held_app l l' : held (l ++ l') = (held l + held l')%Z.
Proof. unfold held. induction l as [|h l IH]; cbn [foldr app]; lia. Qed.

(** The slots held in the pool are covered by the player count, at least from [base] on. *)
Definition accounted (base : Z) (flags : list bool) (s : list (prog unit) * AppState) : Prop :=
  ∃ hs, map ho_task hs = s.1 ∧ map ho_tunnels hs = flags ∧ Forall sound hs ∧
    (base + held hs ≤ players k (st_db s.2))%Z.

Lemma accounted_step base flags s s' : pool_step s s' → accounted base flags s → accounted base flags s'.
Proof.
  intros [l1 l2 p p' st st' S] (hs & E & <- & F & C). cbn [fst snd] in *.
  apply map_eq_app in E as (h1 & h2' & -> & <- & E). apply map_eq_cons in E as (h & h2 & -> & <- & <-).
  apply Forall_app in F as [F1 [[Hc Hs] F2]%Forall_cons].
  destruct (slots_step _ _ _ _ _ _ _ _ Hc Hs S) as (c' & Hc' & [L _] & Hs').
  exists (h1 ++ mkHolder (ho_tunnels h) c' p' :: h2). rewrite !map_app in *. split_and!; [done|done| |].
  - apply Forall_app. split; [done|]. by constructor.
  - rewrite !held_app in *. unfold held in *. cbn [foldr ho_slots snd] in *. lia.
Qed.

(** As many different tasks that hold something as there are, so much is held. *)
Lemma held_distinct hs l :
  Forall sound hs → NoDup l → (∀ i, i ∈ l → ∃ h, hs !! i = Some h ∧ (1 ≤ ho_slots h)%Z) →
  (Z.of_nat (length l) ≤ held hs)%Z.
Proof.
  revert l. induction hs as [|h hs IH] using rev_ind; intros l F Hnd Hl.
  { destruct l as [|i l]; [done|]. destruct (Hl i ltac:(by left)) as (h & ? & _). done. }
  apply Forall_app in F as [F [[Hh _] _]%Forall_cons]. rewrite held_app. change (held [h]) with (ho_slots h + 0)%Z.
  assert (Below : ∀ i h', i ≠ length hs → (hs ++ [h]) !! i = Some h' → hs !! i = Some h').
  { intros i h' Hi E. apply lookup_app_Some in E as [E|[Hge E]]; [done|]. apply list_lookup_singleton_Some in E as [? _]. lia. }
  destruct (decide (length hs ∈ l)) as [Hin|Hout].
  - apply list_elem_of_split in Hin as (l1 & l2 & ->). rewrite NoDup_app, NoDup_cons in Hnd.
    destruct Hnd as (N1 & D & N2 & N3). rewrite length_app. cbn [length].
    destruct (Hl (length hs)) as (h' & E & Hge); [apply elem_of_app; right; by left|].
    rewrite lookup_app_r, Nat.sub_diag in E by done. injection E as <-.
    assert (I : (Z.of_nat (length (l1 ++ l2)) ≤ held hs)%Z); [|rewrite length_app in I; lia].
    apply IH; [done| |].
    + apply NoDup_app. split_and!; [done| |done]. intros i Hi Hi2. apply (D i Hi). by right.
    + intros i Hi. destruct (Hl i) as (h' & E & ?); [rewrite elem_of_app, elem_of_cons; apply elem_of_app in Hi; tauto|].
      exists h'. split; [|done]. apply (Below _ _) in E; [done|]. intros ->. apply elem_of_app in Hi as [Hi|Hi]; [|done].
      apply (D _ Hi). by left.
  - assert (I : (Z.of_nat (length l) ≤ held hs)%Z); [|lia]. apply IH; [done..|]. intros i Hi.
    destruct (Hl i Hi) as (h' & E & ?). exists h'. split; [|done]. apply (Below _ _) in E; [done|]. by intros ->.
Qed.
End Pool.

(** ** The cap *)

(** C7. The capacity of a world is a hard cap for the relay. However many relay upgrades and
    tunnels run and however they interleave, a world whose player count was between zero and
    its maximum still has it there, and its host, status, maximum and invite policy are as they
    were; and the count covers the tunnels: it has grown by at least the number of tasks that are
    inside their tunnel into that world, that is, that could forward bytes or give a slot back
    although the world admits nobody. So there are never more of them than there is room. *)
Theorem relay_capacity `{Primitives} reqs st ps st' k w :
  rtc pool_step (map serve_relay reqs, st) (ps, st') →
  world_sessions (st_db st) !! k = Some w →
  (0 ≤ ws_current_players w ≤ ws_max_players w)%Z →
  ∃ w', world_sessions (st_db st') !! k = Some w' ∧
    (0 ≤ ws_current_players w' ≤ ws_max_players w')%Z ∧
    ws_host_user_id w' = ws_host_user_id w ∧ ws_status w' = ws_status w ∧
    ws_max_players w' = ws_max_players w ∧ ws_invite_policy w' = ws_invite_policy w ∧
    ∀ tasks, NoDup tasks →
      (∀ i, i ∈ tasks → ∃ req p, reqs !! i = Some req ∧ tunnels_into k req = true ∧
         ps !! i = Some p ∧ inside k p) →
      (ws_current_players w + Z.of_nat (length tasks) ≤ ws_current_players w')%Z.
Proof.
  intros Hr Hk Hc. destruct (pool_step_rel (db_rel capacity_rel) _ _ Hr) as [L _].
  { apply Forall_forall. intros p (req & -> & _)%list_elem_of_fmap. apply serve_relay_capacity. }
  destruct (L _ _ Hk) as (w' & Hk' & E). exists w'. split; [done|]. split; [naive_solver|].
  repeat (split; [naive_solver|]). intros tasks Hnd Ht. clear L E Hc.
  assert (A : accounted k (ws_current_players w) (map (tunnels_into k) reqs) (ps, st')).
  { assert (A0 : accounted k (ws_current_players w) (map (tunnels_into k) reqs) (map serve_relay reqs, st)).
    { exists (map (λ req, mkHolder (tunnels_into k req) 0 (serve_relay req)) reqs). cbn [fst snd]. rewrite !map_map.
      split_and!; [done|done| |].
      - apply Forall_forall. intros h (req & -> & _)%list_elem_of_fmap. split; [done|apply serve_relay_slots].
      - unfold players. rewrite Hk. cbn [from_option].
        assert (Z0 : ∀ l, held (map (λ req, mkHolder (tunnels_into k req) 0 (serve_relay req)) l) = 0%Z)
          by (intros l; induction l; [done|]; cbn [map]; unfold held in *; cbn [foldr ho_slots]; lia).
        rewrite Z0. lia. }
    revert A0. generalize (map serve_relay reqs, st) (ps, st') Hr. intros s s' R. induction R as [|x y z S _ IH]; [done|].
    intros A0. by eapply IH, accounted_step. }
  destruct A as (hs & Ep & Ef & F & C). cbn [fst snd] in *. unfold players in C. rewrite Hk' in C. cbn [from_option] in C.
  etrans; [|exact C]. apply Zplus_le_compat_l. apply (held_distinct k); [done..|]. intros i Hi.
  destruct (Ht i Hi) as (req & p & Hreq & Hf & Hp & Hin). rewrite <- Ep, list_lookup_fmap in Hp.
  destruct (hs !! i) as [h|] eqn:Hh; [|done]. injection Hp as <-. exists h. split; [done|].
  assert (Hfl : ho_tunnels h = true).
  { assert (X : map ho_tunnels hs !! i = map (tunnels_into k) reqs !! i) by (by rewrite Ef).
    rewrite !list_lookup_fmap, Hh, Hreq in X. injection X as X. congruence. }
  apply (Forall_lookup_1 _ _ _ _ F) in Hh as [Hc Hs]. rewrite Hfl in Hs. by eapply inside_holds.
Qed.

(** Two tunnels race for the last slot of a world; the task of the guest that came first, the
    third, is inside, so by the count no other one is. *)
Definition third : prog unit := default (Ret ()) (race_for_a_slot.1 !! 2%nat).

Lemma third_inside : race_for_a_slot.1 !! 2%nat = Some third ∧ inside 50 third.
Proof.
  split.
  - assert (E : (match race_for_a_slot.1 !! 2%nat with Some _ => true | None => false end) = true)
      by (vm_compute; reflexivity).
    unfold third. by destruct (race_for_a_slot.1 !! 2%nat).
  - exists (calm_oracle 9), race_for_a_slot.2. split; [|right; vm_compute; reflexivity].
    intros w. vm_compute. intros [= <-] _. discriminate.
Qed.

Lemma relay_capacity_witness :
  (ws_current_players <$> world_sessions (st_db race_for_a_slot.2) !! 50%N) = Some 1%Z ∧
  ∃ w', world_sessions (st_db race_for_a_slot.2) !! 50%N = Some w' ∧
    (0 ≤ ws_current_players w' ≤ ws_max_players w')%Z ∧
    ws_host_user_id w' = 2%N ∧ ws_status w' = Open ∧
    ws_max_players w' = 1%Z ∧ ws_invite_policy w' = FriendsOfFriends ∧
    ∀ tasks, NoDup tasks →
      (∀ i, i ∈ tasks → ∃ req p, race_requests !! i = Some req ∧ tunnels_into 50 req = true ∧
         race_for_a_slot.1 !! i = Some p ∧ inside 50 p) →
      (0 + Z.of_nat (length tasks) ≤ ws_current_players w')%Z.
Proof.
  split; [vm_compute; reflexivity|].
  eapply (relay_capacity (H := toy_primitives) race_requests st_ticketed race_for_a_slot.1 race_for_a_slot.2 50
            (mkWorldSession 2 Open 1 0 FriendsOfFriends 0 None)).
  - rewrite <- surjective_pairing. apply sched_pool.
  - vm_compute. reflexivity.
  - simpl. lia.
Defined.
