(* ===== verification/Journey.v ===== *)
(** * From an admission to the tunnel

    What [network/join.rs], [invites.rs], [core/realtime.rs] and [relay.rs] achieve together: whoever is
    admitted to a world receives a ticket with which the relay lets them, and nobody else,
    through, once. *)

From S2P Require Import Prelude RustStr Errors Models Table Realtime Schema Prog Auth.
From S2P Require Import Invariant Queries Presence Worlds Join Invites Relay.

(** ** A ticket and its relay session *)

Section Tickets.
Context `{Lowercase} `{Primitives} (cfg : Config).

(** What [issued] leaves to be looked up. *)
Lemma issued_rows guest host world tok db db' dto ticket_id now :
  issued cfg guest host world tok db db' dto ticket_id now now →
  (∃ now_rs, relay_sessions db' !! jt_relay_session_id dto
     = Some (mkRelaySession world host (Some guest) (Some ticket_id) "pending" now_rs None)) ∧
  join_tickets db' !! ticket_id = Some (mkJoinTicket guest world (hash_token tok) (jt_expires_at dto) None now) ∧
  world_sessions db' = world_sessions db.
Proof.
  intros [_ _ _ _ _ _ (now_rs & ->)]. split; [exists now_rs; apply lookup_insert_eq|].
  split; [apply lookup_insert_eq|done].
Qed.

(** The database once the ticket is used. *)
Definition used_at (now : Time) (ticket_id : Uuid) (db : Db) : Db :=
  set_join_tickets (alter (λ r, mkJoinTicket (jk_user_id r) (jk_world_session_id r) (jk_token_hash r)
    (jk_expires_at r) (Some now) (jk_created_at r)) ticket_id (join_tickets db)) db.

Lemma consume_unused id k t db db' :
  join_tickets db !! id = Some k → jk_consumed_at k = None →
  consume_ticket id t db = Ok (db', ()) → db' = used_at (t_db t) id db.
Proof.
  intros Hk Hc [= <-]. unfold used_at. f_equal. apply map_eq. intros j. rewrite lookup_update_where, lookup_alter.
  destruct (decide (id = j)) as [<-|Hne].
  - rewrite Hk, N.eqb_refl. simpl. by rewrite bool_decide_true.
  - rewrite (proj2 (N.eqb_neq _ _)) by congruence. by destruct (join_tickets db !! j).
Qed.

(** The guest's upgrade with a ticket that may be used. *)
Lemma wp_relay_guest id rs tok ticket_id k h q now st (Q : AppState → AppResult RelayUpgrade → Prop) :
  or_else (bearer_token_from_headers h) q = Some tok →
  relay_sessions (st_db st) !! id = Some rs → rs_status rs ≠ "closed" →
  rs_join_ticket_id rs = Some ticket_id → join_tickets (st_db st) !! ticket_id = Some k →
  (if ticket_valid ticket_id (hash_token tok) (rs_guest_user_id rs) now (st_db st)
   then Q (set_db (used_at now ticket_id (st_db st)) st)
          (Ok (mkUpgrade Guest (rs_world_session_id rs) (rs_guest_user_id rs)))
   else Q st (Err Unauthorized)) →
  wp (relay_ws id q "guest" h) (calm now) st Q.
Proof.
  intros Htok Hrs Hopen Ht Hk HQ. unfold relay_ws. rewrite Htok. cbn [ok_or].
  wp_calm. rewrite Hrs. cbn [ok_or]. wp_calm. rewrite (proj2 (String.eqb_neq _ _)) by done.
  cbn [String.eqb Ascii.eqb Bool.eqb]. repeat wp_step. apply wp_validate_guest. rewrite Ht.
  destruct (ticket_valid _ _ _ _ _) eqn:V; [|exact HQ].
  intros t2 db' (F2 & D2 & A2) E. apply ticket_valid_true in V as (k' & Hk' & _ & _ & Hc & _).
  rewrite Hk in Hk'. injection Hk' as <-.
  apply (consume_unused _ k) in E as ->; [|done..]. rewrite D2. repeat wp_step. exact HQ.
Qed.
(** What a ticket is worth in a state: until it expires it lets its guest through, whoever
    else tried with another token before, and there is a slot in the world; once used, no
    token does. The host is let through by a session of his own, nobody else's. *)
Record lets_in (guest host world : Uuid) (dto : JoinTicketDto) (st : AppState) : Prop := {
  li_guest h now o :
    bearer_token_from_headers h = None → (∀ i, calm now (o i)) → (now < jt_expires_at dto)%Z →
    ∃ st2, exec (relay_ws (jt_relay_session_id dto) (Some (ticket dto)) "guest" h) o st
        = (st2, Ok (mkUpgrade Guest world (Some guest))) ∧
      (exec (try_admit_player world) o st2).2 = true ∧
      ∀ q h' tok now' o', or_else (bearer_token_from_headers h') q = Some tok → (∀ i, calm now' (o' i)) →
        exec (relay_ws (jt_relay_session_id dto) q "guest" h') o' st2 = (st2, Err Unauthorized);
  li_stranger q h tok now o :
    or_else (bearer_token_from_headers h) q = Some tok → (∀ i, calm now (o i)) →
    hash_token tok ≠ hash_token (ticket dto) →
    exec (relay_ws (jt_relay_session_id dto) q "guest" h) o st = (st, Err Unauthorized);
  li_host q h tok now o x :
    or_else (bearer_token_from_headers h) q = Some tok → (∀ i, calm now (o i)) →
    exec (user_from_token tok) o st = (st, Ok x) →
    exec (relay_ws (jt_relay_session_id dto) q "host" h) o st
    = (st, if (key x =? host)%N then Ok (mkUpgrade Host world (Some guest)) else Err Forbidden)
}.

Lemma token_user now tok o st x :
  (∀ i, calm now (o i)) → exec (user_from_token tok) o st = (st, Ok x) →
  ∀ t, calm now t → query_user_of_token (hash_token tok) t (st_db st) = Some x.
Proof.
  intros Ho E t (F & D & A). assert (S : ∀ t', calm now t' → query_user_of_token (hash_token tok) t' (st_db st)
    = query_user_of_token (hash_token tok) t (st_db st)).
  { intros t' (_ & D' & _). unfold query_user_of_token. by rewrite D, D'. }
  exec_start E (calm now). apply wp_user_from_token; [intros t' (F' & _); congruence|].
  intros t' Ht' _. rewrite (S t' Ht'). by destruct (query_user_of_token _ t _) as [y|]; intros [= ->].
Qed.

Lemma ticket_valid_false id hash guest now db k :
  join_tickets db !! id = Some k → jk_consumed_at k ≠ None ∨ jk_token_hash k ≠ hash →
  ticket_valid id hash guest now db = false.
Proof.
  intros Hk Hor. apply not_true_iff_false. rewrite ticket_valid_true.
  intros (r & Hr & Hh & _ & Hc & _). rewrite Hk in Hr. injection Hr as <-. by destruct Hor.
Qed.

Lemma issued_lets_in guest host world tok ticket_id dto db w st now :
  issued cfg guest host world tok db (st_db st) dto ticket_id now now →
  world_sessions db !! world = Some w → ws_status w = Open →
  (ws_current_players w < ws_max_players w)%Z →
  lets_in guest host world dto st.
Proof.
  intros I Hw Wo Wc. pose proof (is_ticket _ _ _ _ _ _ _ _ _ _ _ I) as Et.
  apply issued_rows in I as ((rs & Hrs) & Hk & Ew). rewrite <- Et in Hk.
  split.
  - intros h now1 o Hb Ho Hx.
    destruct (exec (relay_ws _ _ _ _) o st) as [st2 r] eqn:E.
    assert (K : st2 = set_db (used_at now1 ticket_id (st_db st)) st ∧ r = Ok (mkUpgrade Guest world (Some guest))).
    { exec_start E (calm now1). eapply (wp_relay_guest _ _ (ticket dto)); [by rewrite Hb|exact Hrs|done|done|exact Hk|].
      cbn [rs_guest_user_id rs_world_session_id].
      assert (V : ticket_valid ticket_id (hash_token (ticket dto)) (Some guest) now1 (st_db st) = true)
        by (apply ticket_valid_true; eexists; repeat (split; [done|]); done).
      by rewrite V. }
    destruct K as [-> ->]. exists (set_db (used_at now1 ticket_id (st_db st)) st). split; [done|]. split.
    + destruct (exec (try_admit_player world) o _) as [st3 ok] eqn:E3. cbn [snd]. exec_start E3 (calm now1).
      unfold try_admit_player. wp_step. apply wp_sql. intros t (F & _). rewrite F. unfold admit_slot. wp_step.
      apply Nat.ltb_lt, count_rows_pos. exists world, w. cbn. rewrite Ew. split; [done|].
      unfold is_open. by rewrite N.eqb_refl, bool_decide_true, (proj2 (Z.ltb_lt _ _)).
    + intros q h' tok' now' o' Ht Ho'. destruct (exec (relay_ws _ _ _ _) o' _) as [st3 r] eqn:E3.
      exec_start E3 (calm now').
      assert (Hk' : join_tickets (used_at now1 ticket_id (st_db st)) !! ticket_id
        = Some (mkJoinTicket guest world (hash_token (ticket dto)) (jt_expires_at dto) (Some now1) now)).
      { cbn. by rewrite lookup_alter_eq, Hk. }
      eapply (wp_relay_guest _ _ tok'); [exact Ht|exact Hrs|done|done|exact Hk'|].
      cbn [st_db set_db]. by rewrite (ticket_valid_false _ _ _ _ _ _ Hk') by (by left).
  - intros q h tok' now1 o Ht Ho Hh. destruct (exec (relay_ws _ _ _ _) o _) as [st3 r] eqn:E3.
    exec_start E3 (calm now1). eapply (wp_relay_guest _ _ tok'); [exact Ht|exact Hrs|done|done|exact Hk|].
    rewrite (ticket_valid_false _ _ _ _ _ _ Hk); [done|]. right. cbn. congruence.
  - intros q h tok' now1 o x Ht Ho Hu. pose proof (token_user _ _ _ _ _ Ho Hu) as Q.
    destruct (exec (relay_ws _ _ _ _) o _) as [st3 r] eqn:E3. exec_start E3 (calm now1). unfold relay_ws. rewrite Ht.
    cbn [ok_or]. wp_calm. rewrite Hrs. cbn [ok_or]. wp_calm. cbn [rs_status String.eqb Ascii.eqb Bool.eqb].
    repeat wp_step. apply wp_user_from_token; [intros t2 (Fh & _) Ft; congruence|].
    intros t2 Hc _. rewrite (Q t2 Hc). cbn [rs_host_user_id].
    destruct (key x =? host)%N; repeat wp_step; done.
Qed.

(** Two users signalled one after the other hear one event each, nobody else any. *)
Lemma two_signals hub a b e1 e2 v tx :
  hub_wf hub → a ≠ b → tx ∈ txs (conns_of hub v) →
  channels (send_to b e2 (send_to a e1 hub)) !! tx
  = (if decide (v = a) then push e1 else if decide (v = b) then push e2 else id) <$> channels hub !! tx.
Proof.
  intros W Hab Hv. destruct (send_to_spec a e1 hub W) as [C1 P1].
  destruct (send_to_spec b e2 _ (hub_wf_send_to a e1 hub W)) as [C2 _].
  rewrite C2, C1, P1, decide_False by congruence. fold (conns_of hub a) (conns_of hub b).
  assert (B : ∀ u, bool_decide (tx ∈ txs (conns_of hub u)) = bool_decide (v = u)).
  { intros u. apply bool_decide_ext. split; [by apply conns_of_disjoint|by intros <-]. }
  rewrite !B. repeat case_bool_decide; repeat case_decide; try congruence.
  by destruct (channels hub !! tx).
Qed.

(** C6. An accepted join request is a way in. The requester is told of the acceptance and given
    the ticket, once on each of their connections; the host hears of the arrival, and no other
    connection hears anything. With that ticket the relay lets the requester into the world of
    the request, where a slot is free for them; it lets in no other token at the guest's side,
    before or after, and nobody but the host at the host's. (No statement
    fails, the clocks read one instant, the requester is not the host, and another token is
    one with another hash.) *)
Theorem accepted_guest_arrives me id now o st st' answer :
  schema_ok (st_db st) → hub_wf (st_signaling st) → (∀ i, calm now (o i)) →
  exec (Join.accept cfg me id) o st = (st', Ok answer) →
  ∃ q u dto, join_requests (st_db st) !! id = Some q ∧
    users (st_db st) !! jr_requester_user_id q = Some u ∧
    let guest := jr_requester_user_id q in let world := jr_world_session_id q in
    (guest ≠ me → ∀ v tx, tx ∈ txs (conns_of (st_signaling st) v) →
      channels (st_signaling st') !! tx
      = (if decide (v = guest) then push (JoinRequestAccepted id dto)
         else if decide (v = me) then push (GuestArriving (jt_relay_session_id dto) world (user_dto guest u))
         else λ c, c) <$> channels (st_signaling st) !! tx) ∧
    lets_in guest me world dto st'.
Proof.
  intros S W Ho E. exec_start E (calm now). apply (wp_join_accept _ _ _ now); [done|apply calm_timed|done|].
  intros st' q w ticket_id dto r Hq Hm _ _ Hw Wo Wc _ Hi [(a & u & -> & _ & _ & Hu & Hsig)|(-> & _)]; [|done].
  intros [= ->]. exists q, u, dto. split; [done|]. split; [done|]. split.
  - intros Hne v tx Hv. rewrite Hsig. by apply two_signals.
  - by eapply issued_lets_in.
Qed.

(** A ticket for the world of a friend who is seen as joinable is a way in, ... *)
Theorem direct_guest_arrives guest world_id now o st st' dto :
  schema_ok (st_db st) → (∀ i, calm now (o i)) →
  exec (create_join_ticket cfg guest world_id) o st = (st', Ok dto) →
  ∃ w, world_sessions (st_db st) !! world_id = Some w ∧ lets_in guest (ws_host_user_id w) world_id dto st'.
Proof.
  intros S Ho E. exec_start E (calm now). apply wp_direct_join; [done|done|].
  intros st1 ticket w u tok ticket_id Hw Wo _ _ _ Wc I _ _ [= ->]. exists w. split; [done|].
  by eapply issued_lets_in.
Qed.

(** ... and so is the one an accepted invite is answered with. *)
Theorem invited_guest_arrives me id now o st st' dto :
  schema_ok (st_db st) → (∀ i, calm now (o i)) →
  exec (Invites.accept cfg me id) o st = (st', Ok dto) →
  ∃ i, world_invites (st_db st) !! id = Some i ∧
    lets_in me (wi_host_user_id i) (wi_world_session_id i) dto st'.
Proof.
  intros S Ho E. exec_start E (calm now). apply (wp_invite_accept _ _ _ now); [done|apply calm_timed|done|].
  intros st1 t i w ticket_id r Hi _ _ _ Hw Wo Wc _ I [(u & -> & _)|(-> & _)]; [|done].
  intros [= ->]. exists i. split; [done|]. by eapply issued_lets_in.
Qed.
End Tickets.

(** ** A concrete journey *)

Lemma accepted_guest_arrives_witness :
  let r := exec (Join.accept (H := toy_primitives) default_config 2 60) (calm_oracle 9) st_requested in
  r.2 = Ok accepted_60 ∧
  ∃ q u dto, join_requests (st_db st_requested) !! 60%N = Some q ∧
    users (st_db st_requested) !! jr_requester_user_id q = Some u ∧
    let guest := jr_requester_user_id q in let world := jr_world_session_id q in
    (guest ≠ 2%N → ∀ v tx, tx ∈ txs (conns_of (st_signaling st_requested) v) →
      channels (st_signaling r.1) !! tx
      = (if decide (v = guest) then push (JoinRequestAccepted 60 dto)
         else if decide (v = 2%N)
         then push (GuestArriving (jt_relay_session_id dto) world (user_dto guest u))
         else λ c, c) <$> channels (st_signaling st_requested) !! tx) ∧
    lets_in (H0 := toy_primitives) guest 2 world dto r.1.
Proof.
  intros r. split; [vm_compute; reflexivity|].
  apply (accepted_guest_arrives (H := ascii_lowercase) (H0 := toy_primitives) default_config 2 60 9
           (calm_oracle 9) st_requested r.1 accepted_60);
    [exact st_requested_ok|exact sample_hub_wf|exact (calm_oracle_calm 9)|].
  unfold r. vm_compute. reflexivity.
Defined.
