(* ===== verification/Users.v ===== *)
(** * Users

    [crates/network/src/users.rs]: linking the in-game identity ([bootstrap]), the caller's
    own record ([me]) and the search by name. *)

From stdpp Require Import pretty.
From S2P Require Import Prelude RustStr Errors Models Table Realtime Schema Prog Auth Invariant.
From S2P Require Import Queries Presence.

Section Users.
Context `{Lowercase} (cfg : Config).

Record BootstrapRequest : Type := mkBootstrap {
  br_minecraft_uuid : string;
  br_username : string;
  br_account_type : option string;
  br_xuid : option string;
  br_client_id : option string;
  br_minecraft_version : option string;
  br_mod_version : option string;
  br_loader : option string
}.

(** [NULLIF(x, '')]. *)
Definition nullif_empty (x : string) : option string :=
  if (x =? "")%string then None else Some x.

(** The [SET] of the first statement; [or_else] is [COALESCE]. *)
Definition linked (minecraft_uuid : string) (body : BootstrapRequest) (now : Time) (u : User)
  : User :=
  mkUser (or_else (u_minecraft_uuid u) (nullif_empty minecraft_uuid)) (u_username u)
    (u_normalized_username u) (or_else (br_account_type body) (u_account_type u))
    (or_else (br_xuid body) (u_xuid u)) (or_else (br_client_id body) (u_client_id u))
    (u_first_seen_at u) now (u_created_at u) now (u_email u) (u_password_hash u) (u_origin u)
    (u_profile_uuid u) (u_confirmed u) (u_blocked u) (u_is_admin u).

Definition link_account (me : Uuid) (minecraft_uuid : string) (body : BootstrapRequest)
  (t : Tick) (db : Db) : SqlResult (Db * User) :=
  match users db !! me with
  | None => Err RowNotFound
  | Some u =>
      let u' := linked minecraft_uuid body (t_db t) u in
      try m := update_row users_indexes me u' (users db) in
      Ok (set_users m db, u')
  end.

Definition come_online (me : Uuid) (body : BootstrapRequest) (t : Tick) (db : Db)
  : SqlResult (Db * unit) :=
  match presence db !! me with
  | Some p =>
      Ok (set_presence (<[me :=
            mkPresence "online" (t_db t)
              (or_else (br_minecraft_version body) (p_minecraft_version p))
              (or_else (br_mod_version body) (p_mod_version p))
              (or_else (br_loader body) (p_loader p))
              (p_current_world_session_id p) (t_db t)]> (presence db)) db, ())
  | None =>
      try _ := fk "presence_user_id_fkey" me (users db) in
      Ok (set_presence (<[me :=
            mkPresence "online" (t_db t) (br_minecraft_version body) (br_mod_version body)
              (br_loader body) None (t_db t)]> (presence db)) db, ())
  end.

Definition map_bootstrap_conflict (err : SqlError) : AppError :=
  if is_unique_violation_of err "users_minecraft_uuid_key"
  then Conflict "this Minecraft account is already linked to another user"
  else Database err.

Definition incr_bootstraps (m : Metrics) : Metrics :=
  mkMetrics (counter_incr (bootstraps m)) (heartbeats m) (friend_requests_created m)
    (join_tickets_issued m) (relay_sessions_opened m) (relay_bytes_forwarded m)
    (signaling_connections m).

(** [bootstrap]. *)
Definition bootstrap (me : Uuid) (body : BootstrapRequest) : prog (AppResult UserDto) :=
  let minecraft_uuid := trim (br_minecraft_uuid body) in
  let? user := prog_map (map_err map_bootstrap_conflict)
                 (sql (link_account me minecraft_uuid body)) in
  do? sql_app (come_online me body);
  do* on_metrics incr_bootstraps;
  do* spawn_event "bootstrap" (Some me);
  ret_ok (user_dto me user).

(** [me]; the authenticated user is the row the extractor loaded. *)
Definition me (auth : Keyed User) : prog (AppResult (UserDto * PresenceStatus)) :=
  let? status := effective_status_for cfg (key auth) in
  ret_ok (user_dto (key auth) (row auth), status).

(** ** Search *)

Record SearchResult : Type := mkSearchResult {
  sr_user : UserDto;
  is_friend : bool;
  has_incoming_request : bool;
  has_outgoing_request : bool
}.

Definition pending_request (from to : Uuid) (db : Db) : bool :=
  exists_row (λ _ r, (fr_from_user_id r =? from)%N && (fr_to_user_id r =? to)%N
                     && is_pending (fr_status r)) (friend_requests db).

Definition search_result (me : Uuid) (db : Db) (u : Keyed User) : SearchResult :=
  mkSearchResult (user_dto (key u) (row u)) (friends me (key u) db)
    (pending_request (key u) me db) (pending_request me (key u) db).

(** [ORDER BY u.normalized_username], bytewise. *)
Definition by_username : relation (Keyed User) :=
  λ a b, String.leb (u_normalized_username (row a)) (u_normalized_username (row b)) = true.
#[export] Instance by_username_dec : RelDecision by_username.
Proof. intros a b. unfold by_username. apply _. Defined.

Definition matches (me : Uuid) (pattern : string) (k : Uuid) (u : User) : bool :=
  like (u_normalized_username u) pattern && negb (k =? me)%N.

Definition search_rows (me : Uuid) (pattern : string) (db : Db) : list (Keyed User) :=
  take (search_max_results cfg)
    (order_by by_username (select_rows (matches me pattern) (users db))).

Definition search (me : Uuid) (q : string) : prog (AppResult (list SearchResult)) :=
  let needle := trim q in
  if (String.length needle <? search_min_query_length cfg)%nat
  then ret_err (BadRequest ("query must be at least "
                  +:+ pretty (search_min_query_length cfg) +:+ " characters"))
  else
    let pattern := contains_pattern (normalize_username needle) in
    select (λ _ db, map (search_result me db) (search_rows me pattern db)).
End Users.

(** ** The schema's invariant *)

Section UsersSchema.
Context `{Lowercase} (cfg : Config).

Lemma link_account_schema me mc body t db db' u :
  link_account me mc body t db = Ok (db', u) → schema_rel db db'.
Proof.
  unfold link_account. destruct (users db !! me) as [v|] eqn:E; [|done].
  rewrite and_then_ok. intros (m & [-> Hv]%update_row_ok & [= <- <-]) S.
  apply schema_set_users; [done|apply keeps_insert|].
  apply table_ok_insert; [by index_side|done|done|apply S].
Qed.

Lemma come_online_schema me body t db db' u :
  come_online me body t db = Ok (db', u) → schema_rel db db'.
Proof.
  unfold come_online. destruct (presence db !! me) as [p|] eqn:E.
  - intros [= <- <-] S. destruct (presence_row_ok _ _ _ S E). by apply presence_ok_insert.
  - rewrite and_then_ok. intros ([] & Hfk & [= <- <-]) S. apply fk_ok in Hfk.
    by apply presence_ok_insert.
Qed.
Hint Resolve link_account_schema come_online_schema : loon.

Lemma bootstrap_schema me body : prog_rel (db_rel schema_rel) (bootstrap me body).
Proof. unfold bootstrap. prog_rel_go; eauto with loon. Qed.

Lemma me_rel R `{!PreOrder R} auth : prog_rel (db_rel R) (me cfg auth).
Proof. unfold me. prog_rel_go. Qed.

Lemma search_rel R `{!PreOrder R} uid q : prog_rel (db_rel R) (search cfg uid q).
Proof. unfold search. prog_rel_go. Qed.
End UsersSchema.

#[export] Hint Resolve bootstrap_schema me_rel search_rel : loon.

(** ** Lemmas *)

(** Another account already has the Minecraft identity that [mc] would give to [u]. *)
Definition identity_taken (me : Uuid) (u : User) (mc : string) (db : Db) : Prop :=
  u_minecraft_uuid u = None ∧ mc ≠ "" ∧
  ∃ k v, k ≠ me ∧ users db !! k = Some v ∧ u_minecraft_uuid v = Some mc.

Section UsersLemmas.
Context `{Lowercase}.

(** Of the unique indexes of [users], linking can only run into the identity's. *)
Lemma linked_violates me u mc body now db :
  schema_ok db → users db !! me = Some u →
  (identity_taken me u mc db ∧
   violated users_indexes me (linked mc body now u) (users db) = Some "users_minecraft_uuid_key") ∨
  (¬ identity_taken me u mc db ∧
   violated users_indexes me (linked mc body now u) (users db) = None).
Proof.
  intros S Hu. unfold users_indexes.
  rewrite (violated_first _ _ (λ _ _, True) _ u _ _ (ok_users _ S) Hu); cycle 1.
  { intros ix v Hix. rewrite !elem_of_cons, elem_of_nil in Hix.
    by destruct Hix as [->|[->|[->|[]]]]. }
  destruct (exists_row _ _) eqn:X; [left|right]; (split; [|done]).
  - apply exists_row_true in X as (k & v & Hk & C). bool_simpl.
    apply sql_eq_true in H1 as (x & Hx & Hv). simpl in Hx.
    destruct (u_minecraft_uuid u) as [y|] eqn:Y; simpl in Hx.
    + destruct H0. injection Hx as ->. symmetry.
      apply (table_ok_uniq _ _ users_minecraft_uuid_key _ ltac:(constructor) (ok_users _ S) _ _ u v
               Hu Hk). simpl. apply sql_eq_true. eauto.
    + unfold nullif_empty in Hx. destruct (String.eqb_spec mc ""); [done|].
      injection Hx as ->. split; [done|]. split; [done|]. by exists k, v.
  - intros (Hn & Hmc & k & v & Hne & Hk & Hv). rewrite exists_row_false in X.
    specialize (X k v Hk). rewrite (proj2 (N.eqb_neq _ _) Hne) in X. simpl in X.
    rewrite Hn, Hv in X. unfold nullif_empty in X.
    rewrite (proj2 (String.eqb_neq _ _) Hmc) in X. simpl in X. by rewrite bool_decide_true in X.
Qed.

Lemma come_online_ok uid body t db :
  ref uid (users db) →
  ∃ p, come_online uid body t db = Ok (set_presence (<[uid := p]> (presence db)) db, ()) ∧
    p_status p = "online" ∧ p_last_heartbeat_at p = t_db t ∧
    p_current_world_session_id p = presence db !! uid ≫= p_current_world_session_id ∧
    p_loader p = or_else (br_loader body) (presence db !! uid ≫= p_loader).
Proof.
  intros Hu. unfold come_online. destruct (presence db !! uid) as [p|].
  - eexists. split; [done|]. auto.
  - unfold fk. rewrite (proj2 (is_row_true _ _) Hu). simpl. eexists. split; [done|]. simpl.
    by destruct (br_loader body).
Qed.
End UsersLemmas.

Section SearchLemmas.
Context `{Lowercase} (cfg : Config).

#[local] Instance by_username_total : Total by_username.
Proof. intros a b. apply String.leb_total. Qed.
#[local] Instance by_username_trans : Transitive by_username.
Proof.
  intros a b c Hab Hbc. apply Is_true_true. apply Is_true_true in Hab, Hbc.
  exact (transitivity (R := String.le) Hab Hbc).
Qed.

(** The rows of a search, against all the rows it could show. *)
Lemma search_rows_spec uid pattern db :
  let l := search_rows cfg uid pattern db in
  NoDup (map key l) ∧ StronglySorted by_username l ∧
  (∀ x, x ∈ l → users db !! key x = Some (row x) ∧ matches uid pattern (key x) (row x) = true) ∧
  (∀ k u, users db !! k = Some u → matches uid pattern k u = true →
     mkKeyed k u ∈ l ∨
     (length l = search_max_results cfg ∧ ∀ x, x ∈ l → by_username x (mkKeyed k u))).
Proof.
  intros l. set (a := order_by by_username (select_rows (matches uid pattern) (users db))).
  assert (P : a ≡ₚ select_rows (matches uid pattern) (users db)) by apply merge_sort_Permutation.
  assert (St : StronglySorted by_username a) by (apply StronglySorted_merge_sort; exact _).
  assert (Hl : a = l ++ drop (search_max_results cfg) a) by (symmetry; apply take_drop).
  rewrite Hl in St. split; [|split; [|split]].
  - assert (Hn : NoDup (map key a)) by (rewrite P; apply NoDup_keys_select_rows).
    rewrite Hl, map_app in Hn. by apply NoDup_app in Hn as [? _].
  - by eapply StronglySorted_app_1_l.
  - intros x Hx. apply elem_of_select_rows. rewrite <- P, Hl. apply elem_of_app. by left.
  - intros k u Hk Hm. assert (Hx : mkKeyed k u ∈ a) by (rewrite P; by apply elem_of_select_rows).
    rewrite Hl in Hx. apply elem_of_app in Hx as [Hx|Hx]; [by left|]. right. split.
    + unfold l, search_rows. fold a. rewrite length_take.
      destruct (decide (search_max_results cfg < length a)); [lia|].
      rewrite drop_ge in Hx by lia. by apply not_elem_of_nil in Hx.
    + intros x Hx'. by eapply StronglySorted_app_1_elem_of.
Qed.
End SearchLemmas.

(** ** Properties *)

Section UsersProperties.
Context `{Lowercase} (cfg : Config).

(** Bootstrapping links an in-game identity once. An account without one takes the
    (trimmed, non-empty) identity presented, unless another account has it, which is a
    conflict that changes nothing; an account that has one keeps it whatever is
    presented. On success the account's other identifying columns and every other
    account are unchanged, the user is seen online at once, and their world and the
    versions not presented are kept. *)
Theorem bootstrap_links uid body now o st st' r u :
  schema_ok (st_db st) → (∀ i, calm now (o i)) → (0 ≤ heartbeat_timeout cfg)%Z →
  users (st_db st) !! uid = Some u →
  exec (bootstrap uid body) o st = (st', r) →
  let mc := trim (br_minecraft_uuid body) in
  (identity_taken uid u mc (st_db st) ∧ st' = st ∧
   r = Err (Conflict "this Minecraft account is already linked to another user")) ∨
  (¬ identity_taken uid u mc (st_db st) ∧ ∃ u' p,
   users (st_db st') = <[uid := u']> (users (st_db st)) ∧
   presence (st_db st') = <[uid := p]> (presence (st_db st)) ∧
   r = Ok (user_dto uid u') ∧
   u_minecraft_uuid u' = match u_minecraft_uuid u with Some x => Some x | None => nullif_empty mc end ∧
   u_username u' = u_username u ∧ u_profile_uuid u' = u_profile_uuid u ∧
   u_password_hash u' = u_password_hash u ∧ u_is_admin u' = u_is_admin u ∧
   u_blocked u' = u_blocked u ∧
   status_at cfg now uid (st_db st') = Online ∧
   p_current_world_session_id p
     = presence (st_db st) !! uid ≫= p_current_world_session_id ∧
   p_loader p = or_else (br_loader body) (presence (st_db st) !! uid ≫= p_loader)).
Proof.
  intros S Ho HT Hu Hex mc. exec_start Hex (calm now). unfold bootstrap. fold mc.
  apply wp_bind_ok, wp_bind, wp_sql. intros t (F & D & A). rewrite F. unfold link_account.
  rewrite Hu, D. unfold update_row.
  destruct (linked_violates uid u mc body now (st_db st) S Hu) as [[Ht ->]|[Ht ->]].
  { wp_calm. by left. }
  apply wp_ret, wp_bind_ok, wp_sql_app. intros t' (F' & D' & A'). rewrite F'.
  cbn [st_db set_db]. set (db := set_users _ _). destruct (come_online_ok uid body t' db) as (p & -> & E1 & E2 & E3 & E4).
  { unfold ref. simpl. rewrite lookup_insert_eq. eauto. }
  apply wp_bind, wp_on_metrics. apply wp_bind, wp_spawn_event. intros m. wp_step.
  right. split; [done|]. exists (linked mc body now u), p. cbn.
  repeat (split; [done|]). split; [|done].
  unfold status_at. cbn. rewrite lookup_insert_eq, E1, E2, D'. by apply effective_fresh.
Qed.

(** What a search shows. A needle of at least the configured number of bytes gets,
    ordered by name, distinct accounts other than the caller's whose normalized name
    contains the normalized needle as a substring, each with the caller's relation to it
    as the database has it; an account with such a name is left out only when the list
    is full of accounts that sort no later. A shorter needle is refused, and no search
    changes anything. *)
Theorem search_exact uid q now o st st' r :
  (∀ i, calm now (o i)) →
  exec (search cfg uid q) o st = (st', r) →
  let needle := normalize_username (trim q) in
  let hit := λ k u, users (st_db st) !! k = Some u ∧ k ≠ uid ∧
               ∃ a b, u_normalized_username u = a +:+ needle +:+ b in
  st' = st ∧
  ((String.length (trim q) < search_min_query_length cfg)%nat ∧
   (∃ msg, r = Err (BadRequest msg)) ∨
   (search_min_query_length cfg ≤ String.length (trim q))%nat ∧
   ∃ l, r = Ok (map (search_result uid (st_db st)) l) ∧
     NoDup (map key l) ∧ StronglySorted by_username l ∧ (length l ≤ search_max_results cfg)%nat ∧
     (∀ x, x ∈ l → hit (key x) (row x)) ∧
     (∀ k u, hit k u → mkKeyed k u ∈ l ∨
        (length l = search_max_results cfg ∧ ∀ x, x ∈ l → by_username x (mkKeyed k u)))).
Proof.
  intros Ho Hex needle hit. exec_start Hex (calm now). unfold search.
  destruct (Nat.ltb_spec (String.length (trim q)) (search_min_query_length cfg)).
  { wp_calm. split; [done|]. left. eauto. }
  wp_calm. split; [done|]. right. split; [done|].
  destruct (search_rows_spec cfg uid (contains_pattern needle) (st_db st)) as (P1 & P2 & P3 & P4).
  assert (M : ∀ k u, matches uid (contains_pattern needle) k u = true ↔
    k ≠ uid ∧ ∃ a b, u_normalized_username u = a +:+ needle +:+ b).
  { intros k u. unfold matches. rewrite andb_true_iff, contains_pattern_spec, negb_true_iff, N.eqb_neq.
    tauto. }
  eexists. split; [done|]. split; [done|]. split; [done|].
  split; [unfold search_rows; rewrite length_take; lia|]. split.
  - intros x [Hx Hm]%P3. apply M in Hm. by split.
  - intros k u [Hk Hm]. apply P4; [done|]. by apply M.
Qed.
End UsersProperties.

(** ** Concrete instances *)

Definition sample_bootstrap : BootstrapRequest :=
  mkBootstrap " 00ff " "ada" None None None (Some "1.20") None (Some "forge").

Lemma bootstrap_links_witness :
  let r := exec (bootstrap (H := ascii_lowercase) 1 sample_bootstrap) (calm_oracle 9) sample_state in
  r.2 = Ok (mkUserDto 1 (Some "00ff") "ada") ∧
  ∃ u' p, users (st_db r.1) = <[1%N := u']> (users sample_db) ∧
    presence (st_db r.1) = <[1%N := p]> (presence sample_db) ∧
    u_minecraft_uuid u' = Some "00ff" ∧ p_loader p = Some "forge" ∧
    status_at default_config 9 1 (st_db r.1) = Online.
Proof.
  intros r. assert (E : r.2 = Ok (mkUserDto 1 (Some "00ff") "ada")) by (vm_compute; reflexivity).
  split; [exact E|].
  destruct (bootstrap_links (H := ascii_lowercase) default_config 1 sample_bootstrap 9 (calm_oracle 9)
    sample_state r.1 r.2 (sample_user "ada")) as [(_ & _ & C)|(_ & u' & p & P)].
  - exact sample_schema_ok.
  - exact (calm_oracle_calm 9).
  - vm_compute. discriminate.
  - vm_compute. reflexivity.
  - unfold r. by destruct (exec _ _ _).
  - rewrite E in C. discriminate.
  - exists u', p. destruct P as (P1 & P2 & _ & P3 & _ & _ & _ & _ & _ & P4 & _ & P5). auto.
Defined.

Lemma search_exact_witness :
  let r := exec (search (H := ascii_lowercase) default_config 1 " Bo ") (calm_oracle 9) sample_state in
  r.2 = Ok [mkSearchResult (mkUserDto 2 None "bob") true false false] ∧
  r.1 = sample_state ∧
  ∃ l, r.2 = Ok (map (search_result 1 sample_db) l) ∧ mkKeyed 2%N (sample_user "bob") ∈ l.
Proof.
  intros r.
  assert (E : r.2 = Ok [mkSearchResult (mkUserDto 2 None "bob") true false false])
    by (vm_compute; reflexivity).
  split; [exact E|].
  destruct (search_exact (H := ascii_lowercase) default_config 1 " Bo " 9 (calm_oracle 9)
    sample_state r.1 r.2) as [P1 [(_ & msg & C)|(_ & l & P2 & _ & _ & _ & _ & P3)]].
  - exact (calm_oracle_calm 9).
  - unfold r. by destruct (exec _ _ _).
  - rewrite E in C. discriminate.
  - split; [exact P1|]. exists l. split; [exact P2|].
    destruct (P3 2%N (sample_user "bob")) as [Hin|[Hl _]]; [|exact Hin|].
    + split; [reflexivity|]. split; [discriminate|]. exists "", "b". reflexivity.
    + clear -P2 E Hl. rewrite P2 in E.
      apply (f_equal (λ x, match x with Ok l => length l | Err _ => 0%nat end)) in E.
      rewrite length_map in E. clear P2. clearbody r.
      change (search_max_results default_config) with 20%nat in Hl. rewrite Hl in E. discriminate E.
Defined.
