(* ===== verification/Signaling.v ===== *)
(** * The signaling socket

    [crates/network/src/signaling.rs]: the upgrade, and the task that connects a user to
    the hub, forwards the hub's events to the socket, and takes the user offline when the
    last connection closes. What wakes the task's loop up, in which order and how a send
    ends, is given as a list; an event stands for its JSON. *)

From S2P Require Import Prelude RustStr Errors Models Table Realtime Schema Prog Auth Invariant.
From S2P Require Import Queries Presence Pipe Relay.

(** ** The handlers *)

(** A branch of the [select!] is taken: the receiver's, with the outcome of the send that
    follows, or the socket's. *)
Inductive Wakeup : Type :=
| Received (sink_ok : bool)
| Incoming (message : option Message).

Section Signaling.
Context `{Primitives}.

Definition incr_signaling_connections (m : Metrics) : Metrics :=
  mkMetrics (bootstraps m) (heartbeats m) (friend_requests_created m) (join_tickets_issued m)
    (relay_sessions_opened m) (relay_bytes_forwarded m) (counter_incr (signaling_connections m)).

(** [signaling_ws], up to the upgrade: the user to connect. *)
Definition signaling_ws (query_token : option string) (h : HeaderMap) : prog (AppResult Uuid) :=
  let? token := lift (ok_or Unauthorized (or_else (bearer_token_from_headers h) query_token)) in
  let? user := user_from_token token in
  do* on_metrics incr_signaling_connections;
  ret_ok (key user).

(** The loop, returning the events the socket has been sent, oldest first. A receiver
    with nothing in it does not end the loop: its sender is in the hub. *)
Fixpoint pump (rx : N) (script : list Wakeup) : prog (list ServerEvent) :=
  match script with
  | [] => Ret []
  | Received sink_ok :: script =>
      let* event := on_signaling (λ _ hub, chan_recv rx hub) in
      match event with
      | Some event =>
          if sink_ok then let* rest := pump rx script in Ret (event :: rest) else Ret []
      | None => pump rx script
      end
  | Incoming (Some Close) :: _ => Ret []
  | Incoming None :: _ => Ret []
  | Incoming (Some _) :: script => pump rx script
  end.

(** [handle_signaling]. *)
Definition handle_signaling (user_id : Uuid) (script : list Wakeup) : prog (list ServerEvent) :=
  let* '(conn_id, rx) := on_signaling (λ t hub, hub_add (t_uuid t) user_id hub) in
  do* ignore (mark_online user_id);
  do* ignore (broadcast_presence user_id);
  let* sent := pump rx script in
  do* on_signaling (λ _ hub, (hub_remove user_id conn_id hub, ()));
  let* online := on_signaling (λ _ hub, (hub, is_online user_id hub)) in
  do* (if negb online then
         do* ignore (mark_offline user_id);
         ignore (broadcast_presence user_id)
       else Ret ());
  do* on_signaling (λ _ hub, (chan_close rx hub, ()));
  Ret sent.
End Signaling.

(** ** The schema's invariant *)

Lemma pump_rel R `{!PreOrder R} rx script : prog_rel (db_rel R) (pump rx script).
Proof.
  induction script as [|[ok|[[]|]] script IH]; cbn [pump]; prog_rel_go; try exact IH.
Qed.

#[export] Hint Resolve pump_rel : loon.

Section SignalingSchema.
Context `{Lowercase} `{Primitives}.

Lemma handle_signaling_schema uid script : prog_rel (db_rel schema_rel) (handle_signaling uid script).
Proof. unfold handle_signaling. prog_rel_go. Qed.

Lemma signaling_ws_rel R `{!PreOrder R} qt h : prog_rel (db_rel R) (signaling_ws qt h).
Proof. unfold signaling_ws. prog_rel_go. Qed.
End SignalingSchema.

#[export] Hint Resolve handle_signaling_schema signaling_ws_rel : loon.

(** ** Lemmas *)

Lemma send_to_conns u ev v hub :
  hub_wf hub → v ≠ u → conns_of (send_to u ev hub) v = conns_of hub v.
Proof.
  intros W Hn. destruct (send_to_spec u ev hub W) as [_ C]. specialize (C v).
  by rewrite decide_False in C.
Qed.

Lemma fan_out_conns ids ev hub v :
  hub_wf hub → v ∉ ids → hub_wf (fan_out ids ev hub) ∧ conns_of (fan_out ids ev hub) v = conns_of hub v.
Proof.
  revert hub. induction ids as [|u ids IH]; intros hub W; [done|].
  rewrite not_elem_of_cons. intros [Hu Hv].
  destruct (IH (send_to u ev hub) (hub_wf_send_to u ev hub W) Hv) as [W' E].
  split; [exact W'|]. simpl. rewrite E. by apply send_to_conns.
Qed.

Lemma not_own_friend `{Lowercase} uid db : schema_ok db → uid ∉ friend_ids_in uid db.
Proof.
  intros S. rewrite friend_ids_spec by (by apply schema_pair_ordered).
  intros (k & f & Hf & Ha & Hb). apply schema_pair_ordered in Hf; [|done]. lia.
Qed.

(** What the user's friends see of a broadcast does not touch the user's own connections. *)
Lemma wp_own_broadcast `{Lowercase} uid now st (Q : AppState → unit → Prop) :
  schema_ok (st_db st) → hub_wf (st_signaling st) →
  (∀ hub, hub_wf hub → conns_of hub uid = conns_of (st_signaling st) uid →
     Q (set_signaling hub st) ()) →
  wp (ignore (broadcast_presence uid)) (calm now) st Q.
Proof.
  intros S W HQ. apply wp_ignore. unfold broadcast_presence, friend_ids. wp_calm.
  apply wp_for_each_signal. wp_step.
  destruct (fan_out_conns (friend_ids_in uid (st_db st)) (PresenceUpdate uid) (st_signaling st) uid W
    (not_own_friend uid _ S)). by apply HQ.
Qed.

Lemma conns_of_set u conns m v :
  default [] (set_conns u conns m !! v) = if decide (v = u) then conns else default [] (m !! v).
Proof. rewrite lookup_set_conns. case_decide; [|done]. by destruct conns. Qed.

Lemma is_online_conns uid hub : hub_wf hub → is_online uid hub = negb (bool_decide (conns_of hub uid = [])).
Proof.
  intros W. unfold is_online, conns_of. destruct (connections hub !! uid) as [c|] eqn:E; simpl.
  - by rewrite (bool_decide_false (c = [])) by (by eapply wf_nonempty).
  - done.
Qed.

(** What is queued on a channel. *)
Definition queued (hub : SignalingHub) (rx : N) : list ServerEvent :=
  default [] (ch_queue <$> channels hub !! rx).

(** The effect of reading a channel: [sent] went out in order, at most one event was lost
    to a failing socket, and the rest stays queued. *)
Record pumped (rx : N) (lossless : bool) (hub hub' : SignalingHub) (sent : list ServerEvent) : Prop := {
  pumped_connections : connections hub' = connections hub;
  pumped_next : next_channel hub' = next_channel hub;
  pumped_others : ∀ tx, tx ≠ rx → channels hub' !! tx = channels hub !! tx;
  pumped_open : ∀ tx, ch_open <$> channels hub' !! tx = ch_open <$> channels hub !! tx;
  pumped_queue : ∃ lost, queued hub rx = sent ++ lost ++ queued hub' rx ∧ length lost ≤ 1
                   ∧ (lossless = true → lost = [])
}.

Lemma pumped_refl rx b hub : pumped rx b hub hub [].
Proof. split; try done. exists []. repeat split; simpl; lia. Qed.

Lemma chan_recv_pumped rx hub :
  match chan_recv rx hub with
  | (hub', Some e) => ∀ hub'' sent b, pumped rx b hub' hub'' sent → pumped rx b hub hub'' (e :: sent)
  | (hub', None) => hub' = hub
  end.
Proof.
  unfold chan_recv. destruct (channels hub !! rx) as [[[|e q] op]|] eqn:E; try done.
  intros hub'' sent b [P1 P2 P3 P4 (lost & P5 & P6)]. unfold queued in *; simpl in *. split.
  - done.
  - done.
  - intros tx Hn. by rewrite P3, lookup_insert_ne.
  - intros tx. rewrite P4. destruct (decide (tx = rx)) as [->|Hn].
    + by rewrite lookup_insert_eq, E.
    + by rewrite lookup_insert_ne.
  - exists lost. split; [|done]. unfold queued. rewrite lookup_insert_eq in P5. simpl in P5.
    rewrite E. simpl. by rewrite P5.
Qed.

(** Losing the event just read. *)
Lemma chan_recv_lost rx hub hub' e : chan_recv rx hub = (hub', Some e) → pumped rx false hub hub' [].
Proof.
  unfold chan_recv. destruct (channels hub !! rx) as [[[|e' q] op]|] eqn:E; try done.
  intros [= <- <-]. split; simpl; try done.
  - intros tx Hn. by rewrite lookup_insert_ne.
  - intros tx. destruct (decide (tx = rx)) as [->|Hn].
    + by rewrite lookup_insert_eq, E.
    + by rewrite lookup_insert_ne.
  - exists [e']. unfold queued. simpl. by rewrite lookup_insert_eq, E.
Qed.

Definition sinks_ok (script : list Wakeup) : bool :=
  forallb (λ w, match w with Received ok => ok | Incoming _ => true end) script.

Lemma pumped_weaken rx (b b' : bool) hub hub' sent :
  (b' = true → b = true) → pumped rx b hub hub' sent → pumped rx b' hub hub' sent.
Proof. intros Hb [? ? ? ? (l & ? & ? & ?)]. split; try done. exists l. auto. Qed.

Lemma wp_pump rx script T st (Q : AppState → list ServerEvent → Prop) :
  (∀ hub sent, pumped rx (sinks_ok script) (st_signaling st) hub sent →
     Q (set_signaling hub st) sent) →
  wp (pump rx script) T st Q.
Proof.
  revert st Q. induction script as [|w script IH]; intros st Q HQ; cbn [pump].
  { wp_step. specialize (HQ _ _ (pumped_refl _ _ _)). by destruct st. }
  assert (Hstop : Q st []) by (specialize (HQ _ _ (pumped_refl _ _ _)); by destruct st).
  destruct w as [ok|[m|]]; [|destruct m; try (by wp_step); by apply IH|by wp_step].
  apply wp_bind, wp_on_signaling. intros t _.
  assert (R := chan_recv_pumped rx (st_signaling st)).
  destruct (chan_recv rx (st_signaling st)) as [hub [e|]] eqn:E.
  - destruct ok.
    + apply wp_bind, IH. intros hub' sent P. wp_step. by apply HQ, R.
    + apply wp_ret. apply HQ. simpl. by apply chan_recv_lost in E.
  - subst hub. destruct st; simpl in *. apply IH. intros hub sent P. apply HQ.
    eapply pumped_weaken, P. by destruct ok.
Qed.

Lemma hub_wf_same hub hub' :
  connections hub' = connections hub → next_channel hub' = next_channel hub → hub_wf hub → hub_wf hub'.
Proof. intros E1 E2 [W1 W2 W3 W4]. split; rewrite ?E1, ?E2; done. Qed.

Lemma conns_of_add cid uid hub :
  conns_of (hub_add cid uid hub).1 uid = conns_of hub uid ++ [mkConnection cid (next_channel hub)].
Proof. unfold conns_of. simpl. by rewrite lookup_insert_eq. Qed.

Lemma conns_of_remove cid uid hub :
  conns_of (hub_remove uid cid hub) uid
  = List.filter (λ c, negb (conn_id c =? cid)%N) (conns_of hub uid).
Proof.
  unfold conns_of, hub_remove. destruct (connections hub !! uid) as [c|] eqn:E; simpl.
  - rewrite conns_of_set. by rewrite decide_True.
  - by rewrite E.
Qed.

Lemma filter_out_new cid tx (l : list Connection) :
  existsb (λ c, (conn_id c =? cid)%N) l = false →
  List.filter (λ c, negb (conn_id c =? cid)%N) (l ++ [mkConnection cid tx]) = l.
Proof.
  intros Hn. rewrite List.filter_app. simpl. rewrite N.eqb_refl. simpl. rewrite app_nil_r.
  rewrite existsb_none in Hn. induction l as [|c l IH]; simpl; [done|].
  rewrite Hn by constructor. simpl. f_equal. apply IH. intros x Hx. apply Hn. by constructor.
Qed.

Lemma wp_mark_online `{Lowercase} uid now st (Q : AppState → unit → Prop) :
  schema_ok (st_db st) → ref uid (users (st_db st)) →
  (∀ p, schema_ok (set_presence (<[uid := p]> (presence (st_db st))) (st_db st)) →
     p_status p = online_if_offline (default "offline" (p_status <$> presence (st_db st) !! uid)) →
     p_last_heartbeat_at p = now →
     Q (set_db (set_presence (<[uid := p]> (presence (st_db st))) (st_db st)) st) ()) →
  wp (ignore (mark_online uid)) (calm now) st Q.
Proof.
  intros S U HQ. apply wp_ignore. unfold mark_online. apply wp_sql_app. intros t (F & D & A).
  rewrite F. destruct (upsert_online uid t (st_db st)) as [[db []]|e] eqn:E.
  - assert (S' := upsert_online_schema _ _ _ _ _ E S). unfold upsert_online in E.
    destruct (presence (st_db st) !! uid) as [p|].
    + injection E as <-. by apply HQ.
    + apply and_then_ok in E as (? & _ & [= <-]). by apply HQ.
  - exfalso. unfold upsert_online, fk in E. rewrite (proj2 (is_row_true _ _) U) in E.
    by destruct (presence (st_db st) !! uid).
Qed.

(** ** Properties *)

Section SignalingProperties.
Context `{Lowercase}.

(** Reading the hub's channel is faithful. The socket is sent the oldest events
    queued for it, each once and in order; what was not read stays queued; at most one
    event is lost, and only if a send fails; no other channel, and nothing else, is
    touched. *)
Theorem pump_in_order rx script o st st' sent :
  exec (pump rx script) o st = (st', sent) →
  ∃ lost, queued (st_signaling st) rx = sent ++ lost ++ queued (st_signaling st') rx ∧
    length lost ≤ 1 ∧ (sinks_ok script = true → lost = []) ∧
    (∀ tx, tx ≠ rx → channels (st_signaling st') !! tx = channels (st_signaling st) !! tx) ∧
    st' = set_signaling (st_signaling st') st.
Proof.
  intros Hex. exec_start Hex any_tick. apply wp_pump. intros hub l [_ _ P3 _ (lost & P5 & P6 & P7)].
  exists lost. auto.
Qed.

(** The life of a signaling connection. Whatever happens on the socket, when it is
    over the hub is well formed and the user has exactly the connections they had
    before. If there were none, the user is seen offline, in no world; if there were
    some, the user is not offline. Nothing but presence and the hub changes. *)
Theorem signaling_lifecycle cfg uid script now o st st' sent :
  let old := conns_of (st_signaling st) uid in
  schema_ok (st_db st) → hub_wf (st_signaling st) → ref uid (users (st_db st)) →
  (∀ i, quiet now (λ x, existsb (λ c, (conn_id c =? x)%N) old) (o i)) →
  exec (handle_signaling uid script) o st = (st', sent) →
  hub_wf (st_signaling st') ∧ conns_of (st_signaling st') uid = old ∧
  (∃ p, presence (st_db st') = <[uid := p]> (presence (st_db st)) ∧
    (old = [] → status_at cfg now uid (st_db st') = Offline ∧ p_current_world_session_id p = None) ∧
    (old ≠ [] → p_status p ≠ "offline" ∧ p_last_heartbeat_at p = now)) ∧
  st' = set_signaling (st_signaling st') (set_db (set_presence (presence (st_db st')) (st_db st)) st).
Proof.
  intros old S W U Ho Hex. exec_start Hex (quiet now (λ x, existsb (λ c, (conn_id c =? x)%N) old)).
  unfold handle_signaling. apply wp_bind, wp_on_signaling. intros t0 [_ Hfresh].
  eapply (wp_mono _ (calm now)); [by intros t [? _]|intros ? ? HQ; exact HQ|].
  set (cid := t_uuid t0) in *. set (hub0 := (hub_add cid uid (st_signaling st)).1).
  assert (W0 : hub_wf hub0) by (by apply hub_wf_add).
  cbn [hub_add fst snd]. fold hub0.
  apply wp_bind, wp_mark_online; [done|done|]. intros p S1 Hp1 Hp2.
  apply wp_bind, wp_own_broadcast; [done|done|]. intros hub1 W1 E1.
  apply wp_bind, wp_pump. intros hub2 l P.
  assert (W2 : hub_wf hub2) by (by apply (hub_wf_same hub1); [apply P..|]).
  apply wp_bind, wp_on_signaling. intros t1 _. apply wp_bind, wp_on_signaling. intros t2 _.
  cbn [fst snd st_signaling set_signaling]. set (hub3 := hub_remove uid cid hub2).
  assert (W3 : hub_wf hub3) by (by apply hub_wf_remove).
  assert (E3 : conns_of hub3 uid = old).
  { unfold hub3. rewrite conns_of_remove.
    assert (conns_of hub2 uid = conns_of hub1 uid) as ->
      by (unfold conns_of; by rewrite (pumped_connections _ _ _ _ _ P)).
    rewrite E1. cbn [st_signaling set_signaling set_db]. unfold hub0. rewrite conns_of_add.
    by apply filter_out_new. }
  rewrite (is_online_conns uid hub3 W3), negb_involutive, E3.
  set (st3 := set_signaling _ _).
  assert (Hst3 : st3 = set_signaling hub3 (set_db (set_presence (<[uid := p]> (presence (st_db st)))
                   (st_db st)) st)) by done.
  clearbody st3. subst st3. cbn in S1, Hp1. clear P E1.
  destruct old as [|c0 old0] eqn:Eold; cbn [bool_decide negb].
  - rewrite bool_decide_true by done. apply wp_bind, wp_bind, wp_ignore. unfold mark_offline.
    apply wp_sql_app. intros t (F & D & A). rewrite F.
    cbn [st_db set_db set_signaling presence set_presence]. rewrite update_where_key, alter_insert_eq.
    set (p' := mkPresence "offline" _ _ _ _ _ _).
    apply wp_own_broadcast.
    + destruct (presence_row_ok _ uid p S1) as [U' _]; [apply lookup_insert_eq|].
      cbn. rewrite <- (insert_insert_eq (presence (st_db st)) uid p' p). by apply (presence_ok_insert _ uid p' S1).
    + exact W3.
    + intros hub4 W4 E4. apply wp_bind, wp_on_signaling. intros t3 _. wp_step. cbn in E4.
      split; [by apply hub_wf_close|]. split; [exact (eq_trans E4 E3)|].
      split; [|done]. exists p'. split; [done|]. split; [|done]. intros _. split; [|done].
      unfold status_at. cbn. rewrite lookup_insert_eq. cbn. unfold effective_status_at.
      by destruct (_ <? _)%Z.
  - rewrite bool_decide_false by done. apply wp_bind, wp_ret, wp_bind, wp_on_signaling.
    intros t3 _. wp_step. split; [by apply hub_wf_close|]. split; [exact E3|].
    split; [|done]. exists p. split; [done|]. split; [done|]. intros _. split; [|done].
    rewrite Hp1. unfold online_if_offline.
    destruct (_ =? "offline")%string eqn:X; [done|]. by apply String.eqb_neq in X.
Qed.
End SignalingProperties.

(** ** Concrete instances *)

Lemma pump_in_order_witness :
  let st := set_signaling (send_to 1 (FriendRemoved 2) (send_to 1 (PresenceUpdate 2)
              (st_signaling sample_state))) sample_state in
  let r := exec (pump 0 [Received true; Incoming (Some (Text "hi")); Received false]) (calm_oracle 9) st in
  r.2 = [PresenceUpdate 2] ∧
  ∃ lost, queued (st_signaling st) 0 = r.2 ++ lost ++ queued (st_signaling r.1) 0 ∧ length lost ≤ 1.
Proof.
  intros st r. split; [vm_compute; reflexivity|].
  destruct (pump_in_order 0 [Received true; Incoming (Some (Text "hi")); Received false]
    (calm_oracle 9) st r.1 r.2) as (lost & P1 & P2 & _).
  - unfold r. by destruct (exec _ _ _).
  - by exists lost.
Defined.

(** bob's only connection goes away; the world he was in with it. *)
Lemma signaling_lifecycle_witness :
  let st := set_signaling signaling_new sample_state in
  let r := exec (handle_signaling 2 [Received true; Incoming None]) (calm_oracle 9) st in
  (p_status <$> presence (st_db st) !! 2%N) = Some "joinable" ∧
  conns_of (st_signaling r.1) 2 = [] ∧
  ∃ p, presence (st_db r.1) = <[2%N := p]> (presence (st_db st)) ∧
    status_at default_config 9 2 (st_db r.1) = Offline ∧ p_current_world_session_id p = None.
Proof.
  intros st r. split; [reflexivity|].
  destruct (signaling_lifecycle (H := ascii_lowercase) default_config 2
    [Received true; Incoming None] 9 (calm_oracle 9) st r.1 r.2) as (_ & P1 & (p & P2 & P3 & _) & _).
  - exact sample_schema_ok.
  - exact hub_wf_new.
  - by eexists.
  - intros i. split; [exact (calm_oracle_calm 9 i)|reflexivity].
  - unfold r. by destruct (exec _ _ _).
  - split; [exact P1|]. exists p. split; [exact P2|]. apply P3. reflexivity.
Defined.

(** ** A race

    The last connection's task finds the user offline, and before it has marked them so
    the user is back: a new connection is served, and the user's presence says offline
    until their next heartbeat. *)
Theorem reconnect_looks_offline :
  ∃ ps st',
    rtc pool_step (prog_map length <$>
      [handle_signaling 1 [Incoming None]; handle_signaling 1 [Received true]],
      set_signaling signaling_new sample_state) (ps, st') ∧
    is_online 1 (st_signaling st') = true ∧
    (p_status <$> presence (st_db st') !! 1%N) = Some "offline".
Proof.
  set (s := sched (calm_oracle 9) 0 ([0; 0; 0; 0; 0; 0] ++ [1; 1] ++ [0])%nat
    (prog_map length <$> [handle_signaling 1 [Incoming None]; handle_signaling 1 [Received true]],
     set_signaling signaling_new sample_state)).
  exists s.1, s.2. split; [rewrite <- surjective_pairing; apply sched_pool|]. by vm_compute.
Qed.
