(* ===== verification/Cleanup.v ===== *)
(** * Retention

    [crates/network/src/cleanup.rs]: the hourly pass that expires lapsed join requests and
    invites and deletes history past its retention, and the chunked deletion of the event
    log. The deletion loop carries fuel; one more than the number of aged events is
    enough for any chunk size. *)

From S2P Require Import Prelude RustStr Errors Models Table Realtime Schema Prog Invariant.

Record CleanupCounts : Type := mkCleanupCounts {
  expired_join_requests : nat;
  expired_invites : nat;
  deleted_join_tickets : nat;
  deleted_terminal_join_requests : nat;
  deleted_terminal_invites : nat;
  deleted_user_events : nat
}.

Definition total (c : CleanupCounts) : nat :=
  expired_join_requests c + expired_invites c + deleted_join_tickets c
  + deleted_terminal_join_requests c + deleted_terminal_invites c + deleted_user_events c.

(** [status IN TERMINAL_JOIN_REQUEST] and [status IN TERMINAL_INVITE]. *)
Definition terminal_join_request (s : RequestStatus) : bool :=
  bool_decide (s = Accepted) || bool_decide (s = Declined) || bool_decide (s = Expired).

Definition terminal_invite (s : RequestStatus) : bool :=
  bool_decide (s = Accepted) || bool_decide (s = Declined) || bool_decide (s = Revoked)
  || bool_decide (s = Expired).

(** [now() - make_interval(days => $1::int)], days of 24 hours; the cast to [int] fails
    outside its range. *)
Definition cutoff (days : Z) (now : Time) : SqlResult Time :=
  if (- 2 ^ 31 <=? days)%Z && (days <? 2 ^ 31)%Z then Ok (now - secs (86400 * days))%Z else Err Io.

Definition lapsed_join_request (now : Time) (r : JoinRequest) : bool :=
  is_pending (jr_status r) && (jr_expires_at r <=? now)%Z.

Definition expire_join_request (now : Time) (r : JoinRequest) : JoinRequest :=
  mkJoinRequest (jr_requester_user_id r) (jr_host_user_id r) (jr_world_session_id r) Expired
    (jr_expires_at r) (jr_created_at r) now.

Definition expire_join_requests (t : Tick) (db : Db) : SqlResult (Db * nat) :=
  let p := λ _ r, lapsed_join_request (t_db t) r in
  Ok (set_join_requests (update_where p (expire_join_request (t_db t)) (join_requests db)) db,
      count_rows p (join_requests db)).

Definition lapsed_invite (now : Time) (i : WorldInvite) : bool :=
  is_active (wi_status i) && (wi_expires_at i <=? now)%Z.

Definition expire_invite (now : Time) (i : WorldInvite) : WorldInvite :=
  mkWorldInvite (wi_world_session_id i) (wi_host_user_id i) (wi_inviter_user_id i)
    (wi_invitee_user_id i) Expired (wi_expires_at i) (wi_created_at i) now.

Definition expire_invites (t : Tick) (db : Db) : SqlResult (Db * nat) :=
  let p := λ _ i, lapsed_invite (t_db t) i in
  Ok (set_world_invites (update_where p (expire_invite (t_db t)) (world_invites db)) db,
      count_rows p (world_invites db)).

Definition spent_ticket (cut now : Time) (k : JoinTicket) : bool :=
  (jk_created_at k <? cut)%Z
  && (negb (bool_decide (jk_consumed_at k = None)) || (jk_expires_at k <=? now)%Z).

(** [ON DELETE SET NULL] of [relay_sessions.join_ticket_id]. *)
Definition unlink_tickets (gone : Uuid → bool) (r : RelaySession) : RelaySession :=
  mkRelaySession (rs_world_session_id r) (rs_host_user_id r) (rs_guest_user_id r)
    (match rs_join_ticket_id r with Some k => if gone k then None else Some k | None => None end)
    (rs_status r) (rs_created_at r) (rs_closed_at r).

Definition delete_tickets (days : Z) (t : Tick) (db : Db) : SqlResult (Db * nat) :=
  try cut := cutoff days (t_db t) in
  let p := λ _ k, spent_ticket cut (t_db t) k in
  let gone := λ id, match join_tickets db !! id with Some k => p id k | None => false end in
  Ok (set_relay_sessions (update_where (λ _ _, true) (unlink_tickets gone) (relay_sessions db))
        (set_join_tickets (delete_where p (join_tickets db)) db),
      count_rows p (join_tickets db)).

Definition old_join_request (cut : Time) (r : JoinRequest) : bool :=
  terminal_join_request (jr_status r) && (jr_updated_at r <? cut)%Z.

Definition delete_join_requests (days : Z) (t : Tick) (db : Db) : SqlResult (Db * nat) :=
  try cut := cutoff days (t_db t) in
  let p := λ _ r, old_join_request cut r in
  Ok (set_join_requests (delete_where p (join_requests db)) db, count_rows p (join_requests db)).

Definition old_invite (cut : Time) (i : WorldInvite) : bool :=
  terminal_invite (wi_status i) && (wi_updated_at i <? cut)%Z.

Definition delete_invites (days : Z) (t : Tick) (db : Db) : SqlResult (Db * nat) :=
  try cut := cutoff days (t_db t) in
  let p := λ _ i, old_invite cut i in
  Ok (set_world_invites (delete_where p (world_invites db)) db, count_rows p (world_invites db)).

(** ** The event log *)

Definition aged (cut : Time) (_ : Uuid) (e : UserEvent) : bool := (ue_created_at e <? cut)%Z.

Definition event_older : relation (Keyed UserEvent) :=
  λ a b, (ue_created_at (row a) ≤ ue_created_at (row b))%Z.
#[export] Instance event_older_dec : RelDecision event_older.
Proof. intros a b. apply Z_le_dec. Defined.

(** The subquery: the oldest [chunk] aged events. *)
Definition aged_chunk (cut : Time) (chunk : nat) (m : gmap Uuid UserEvent) : list Uuid :=
  map key (take chunk (order_by event_older (select_rows (aged cut) m))).

Definition in_list (ids : list Uuid) (k : Uuid) : bool := existsb (N.eqb k) ids.

Definition delete_chunk (days : Z) (chunk : nat) (t : Tick) (db : Db) : SqlResult (Db * nat) :=
  try cut := cutoff days (t_db t) in
  let p := λ k _, in_list (aged_chunk cut chunk (user_events db)) k in
  Ok (set_user_events (delete_where p (user_events db)) db, count_rows p (user_events db)).

(** [delete_aged_user_events_in_chunks]; [deleted] is the loop's accumulator. *)
Fixpoint delete_aged_user_events_in_chunks (fuel : nat) (days : Z) (chunk : nat) (deleted : nat)
  : prog (AppResult nat) :=
  match fuel with
  | O => ret_err (Internal "out of fuel")
  | S fuel =>
      let? affected := sql_app (delete_chunk days chunk) in
      let deleted := deleted + affected in
      if (affected <? chunk)%nat then ret_ok deleted
      else delete_aged_user_events_in_chunks fuel days chunk deleted
  end.

Definition USER_EVENT_DELETE_CHUNK : Z := 50000.

Definition delete_aged_user_events (fuel : nat) (days : Z) : prog (AppResult nat) :=
  delete_aged_user_events_in_chunks fuel days (Z.to_nat USER_EVENT_DELETE_CHUNK) 0.

Definition cleanup_stale_join_state (fuel : nat) (retention_days : Z) : prog (AppResult CleanupCounts) :=
  let? n1 := sql_app expire_join_requests in
  let? n2 := sql_app expire_invites in
  let? n3 := sql_app (delete_tickets retention_days) in
  let? n4 := sql_app (delete_join_requests retention_days) in
  let? n5 := sql_app (delete_invites retention_days) in
  let? n6 := delete_aged_user_events fuel retention_days in
  ret_ok (mkCleanupCounts n1 n2 n3 n4 n5 n6).

(** ** Lemmas *)

Lemma elem_of_aged_chunk cut chunk m k :
  k ∈ aged_chunk cut chunk m → ∃ e, m !! k = Some e ∧ aged cut k e = true.
Proof.
  intros (x & -> & Hx)%list_elem_of_fmap. exists (row x). apply elem_of_select_rows.
  rewrite <- (merge_sort_Permutation event_older). apply elem_of_take in Hx as (i & Hi & _).
  by eapply list_elem_of_lookup_2.
Qed.

Lemma NoDup_aged_chunk cut chunk m : NoDup (aged_chunk cut chunk m).
Proof.
  unfold aged_chunk. rewrite <- firstn_map.
  eapply sublist_NoDup; [|apply sublist_take]. unfold order_by. rewrite (merge_sort_Permutation event_older). apply NoDup_keys_select_rows.
Qed.

Lemma length_aged_chunk cut chunk m :
  length (aged_chunk cut chunk m) = Nat.min chunk (count_rows (aged cut) m).
Proof.
  unfold aged_chunk. rewrite length_map, length_take. unfold order_by.
  by rewrite (Permutation_length (merge_sort_Permutation event_older _)).
Qed.

(** One round: how many rows go, how many aged ones stay, and what is left to delete. *)
Lemma delete_chunk_spec cut chunk m :
  let ids := aged_chunk cut chunk m in
  let m' := delete_where (λ k _, in_list ids k) m in
  count_rows (λ k _, in_list ids k) m = Nat.min chunk (count_rows (aged cut) m) ∧
  count_rows (aged cut) m = Nat.min chunk (count_rows (aged cut) m) + count_rows (aged cut) m' ∧
  delete_where (aged cut) m' = delete_where (aged cut) m.
Proof.
  intros ids m'.
  assert (Hin : ∀ k, in_list ids k = true → ∃ e, m !! k = Some e ∧ aged cut k e = true).
  { intros k (x & Hx & ->%N.eqb_eq)%existsb_spec. by apply (elem_of_aged_chunk _ chunk). }
  assert (Hn : count_rows (λ k _, in_list ids k) m = Nat.min chunk (count_rows (aged cut) m)).
  { unfold in_list. rewrite count_rows_keys; [apply length_aged_chunk|apply NoDup_aged_chunk|].
    intros k (e & He & _)%elem_of_aged_chunk. eauto. }
  split; [exact Hn|]. split.
  - rewrite <- Hn, (count_rows_split (aged cut) (λ k _, in_list ids k) m). f_equal; apply count_rows_same; intros k r.
    + rewrite andb_true_iff. split; [tauto|]. intros [Hk Hi].
      destruct (Hin _ Hi) as (e & He & Ha). by simplify_eq.
    + unfold m'. rewrite lookup_delete_where_Some, andb_true_iff, negb_true_iff. tauto.
  - apply map_eq. intros k. unfold m'. rewrite !lookup_delete_where.
    destruct (m !! k) as [e|] eqn:Hk; [|done]. destruct (in_list ids k) eqn:Hi; [|done].
    destruct (Hin k Hi) as (e' & He & Ha). simplify_eq. by rewrite Ha.
Qed.

Lemma delete_where_none {R} (p : Uuid → R → bool) m : count_rows p m = 0 → delete_where p m = m.
Proof.
  rewrite count_rows_zero. intros H. apply map_eq. intros k. rewrite lookup_delete_where.
  destruct (m !! k) eqn:Hk; [|done]. by rewrite (H k _ Hk).
Qed.

(** The loop drains every aged row: with fuel for one round more than there are aged rows
    it returns, and has deleted them all. *)
Lemma wp_delete_loop fuel days chunk deleted cut now st (Q : AppState → AppResult nat → Prop) :
  cutoff days now = Ok cut → 0 < chunk →
  count_rows (aged cut) (user_events (st_db st)) < fuel →
  Q (set_db (set_user_events (delete_where (aged cut) (user_events (st_db st))) (st_db st)) st)
    (Ok (deleted + count_rows (aged cut) (user_events (st_db st)))) →
  wp (delete_aged_user_events_in_chunks fuel days chunk deleted) (calm now) st Q.
Proof.
  intros Hc Hchunk. revert st deleted. induction fuel as [|fuel IH]; intros st deleted Hf HQ; [lia|].
  cbn [delete_aged_user_events_in_chunks]. apply wp_bind_ok, wp_sql_app. intros t (F & D & A).
  rewrite F. unfold delete_chunk. rewrite D, Hc. cbn [and_then].
  destruct (delete_chunk_spec cut chunk (user_events (st_db st))) as (E1 & E2 & E3).
  set (ids := aged_chunk cut chunk (user_events (st_db st))) in *.
  set (m' := delete_where (λ k _, in_list ids k) (user_events (st_db st))) in *. rewrite E1.
  set (n := count_rows (aged cut) (user_events (st_db st))) in *.
  destruct (Nat.ltb_spec (Nat.min chunk n) chunk).
  - wp_step. rewrite Nat.min_r in * by lia.
    assert (E4 : m' = delete_where (aged cut) (user_events (st_db st))).
    { rewrite <- E3. symmetry. apply delete_where_none. lia. }
    by rewrite E4.
  - apply IH; cbn [st_db set_db user_events set_user_events]; [lia|]. rewrite E3.
    replace (deleted + Nat.min chunk n + count_rows (aged cut) m') with (deleted + n) by lia.
    exact HQ.
Qed.

(** What the pass leaves of a row. *)
Definition kept_join_request (cut now : Time) (r : JoinRequest) : option JoinRequest :=
  let r := if lapsed_join_request now r then expire_join_request now r else r in
  if old_join_request cut r then None else Some r.

Definition kept_invite (cut now : Time) (i : WorldInvite) : option WorldInvite :=
  let i := if lapsed_invite now i then expire_invite now i else i in
  if old_invite cut i then None else Some i.

Definition ticket_gone (cut now : Time) (db : Db) (id : Uuid) : bool :=
  match join_tickets db !! id with Some k => spent_ticket cut now k | None => false end.

Lemma lookup_update_delete {R} (p q : Uuid → R → bool) (f : R → R) (m : gmap Uuid R) k :
  delete_where q (update_where p f m) !! k
  = m !! k ≫= λ r, let r := if p k r then f r else r in if q k r then None else Some r.
Proof. rewrite lookup_delete_where, lookup_update_where. by destruct (m !! k). Qed.

Lemma kept_live cut now :
  (cut ≤ now)%Z →
  (∀ r, jr_status r = Pending → (now < jr_expires_at r)%Z → kept_join_request cut now r = Some r) ∧
  (∀ i, is_active (wi_status i) = true → (now < wi_expires_at i)%Z → kept_invite cut now i = Some i) ∧
  (∀ r, kept_join_request cut now r = None → jr_status r ≠ Pending) ∧
  (∀ i, kept_invite cut now i = None → is_active (wi_status i) = false).
Proof.
  intros Hcut. repeat split.
  - intros r Hs He. unfold kept_join_request, lapsed_join_request.
    rewrite (proj2 (Z.leb_gt _ _) He), andb_false_r. unfold old_join_request. by rewrite Hs.
  - intros i Hs He. unfold kept_invite, lapsed_invite.
    rewrite (proj2 (Z.leb_gt _ _) He), andb_false_r. unfold old_invite. by destruct (wi_status i).
  - intros r Hr Hp. revert Hr. unfold kept_join_request, lapsed_join_request, old_join_request.
    rewrite Hp. simpl. destruct (_ <=? _)%Z; simpl; [|by rewrite Hp].
    by rewrite (proj2 (Z.ltb_ge _ _)).
  - intros i. unfold kept_invite, lapsed_invite, old_invite. destruct (is_active (wi_status i)) eqn:A; [|done].
    destruct (_ <=? _)%Z; simpl; [by rewrite (proj2 (Z.ltb_ge _ _))|]. by destruct (wi_status i).
Qed.

(** ** The schema's invariant *)

Section CleanupSchema.
Context `{Lowercase}.

Lemma expire_join_requests_schema t db db' n :
  expire_join_requests t db = Ok (db', n) → schema_rel db db'.
Proof.
  intros [= <- <-] S. apply schema_set_join_requests; [done|].
  apply table_ok_update; [by index_side| |by intros k r _|apply S].
  index_side. intros k r1 r2 _. simpl. done.
Qed.

Lemma expire_invites_schema t db db' n : expire_invites t db = Ok (db', n) → schema_rel db db'.
Proof.
  intros [= <- <-] S. apply schema_set_world_invites; [done|].
  apply table_ok_update; [by index_side| |by intros k r _|apply S].
  index_side. intros k r1 r2 _. simpl. done.
Qed.

Lemma delete_tickets_schema days t db db' n : delete_tickets days t db = Ok (db', n) → schema_rel db db'.
Proof.
  unfold delete_tickets. rewrite and_then_ok. intros (cut & _ & [= <- <-]) S.
  set (p := λ (_ : N) k, spent_ticket cut (t_db t) k).
  destruct S. split; try done; simpl.
  - by apply table_ok_delete.
  - destruct ok_relay_sessions as [_ K]. split; [apply Forall_nil_2|]. intros k r.
    rewrite lookup_update_where_Some. intros (r0 & Hr & ->). simpl.
    destruct (K _ _ Hr) as (K1 & K2 & K3 & K4). repeat split; [done..|].
    destruct (rs_join_ticket_id r0) as [j|]; [|done]. simpl in *. destruct K4 as [x Hx].
    rewrite Hx. destruct (spent_ticket _ _ x) eqn:G; [done|]. exists x.
    by apply lookup_delete_where_Some.
Qed.

Lemma delete_join_requests_schema days t db db' n :
  delete_join_requests days t db = Ok (db', n) → schema_rel db db'.
Proof.
  unfold delete_join_requests. rewrite and_then_ok. intros (cut & _ & [= <- <-]) S.
  apply schema_set_join_requests; [done|]. apply table_ok_delete, S.
Qed.

Lemma delete_invites_schema days t db db' n : delete_invites days t db = Ok (db', n) → schema_rel db db'.
Proof.
  unfold delete_invites. rewrite and_then_ok. intros (cut & _ & [= <- <-]) S.
  apply schema_set_world_invites; [done|]. apply table_ok_delete, S.
Qed.

Lemma delete_chunk_schema days chunk t db db' n :
  delete_chunk days chunk t db = Ok (db', n) → schema_rel db db'.
Proof.
  unfold delete_chunk. rewrite and_then_ok. intros (cut & _ & [= <- <-]) S.
  apply schema_set_user_events; [done|]. apply table_ok_delete, S.
Qed.

Lemma delete_loop_schema fuel days chunk n :
  prog_rel (db_rel schema_rel) (delete_aged_user_events_in_chunks fuel days chunk n).
Proof.
  revert n. induction fuel as [|fuel IH]; intros n; cbn [delete_aged_user_events_in_chunks]; [done|].
  prog_rel_go; try apply IH. intros t db db' b. apply delete_chunk_schema.
Qed.
Hint Resolve expire_join_requests_schema expire_invites_schema delete_tickets_schema
  delete_join_requests_schema delete_invites_schema delete_loop_schema : loon.

Lemma cleanup_schema fuel days : prog_rel (db_rel schema_rel) (cleanup_stale_join_state fuel days).
Proof.
  unfold cleanup_stale_join_state, delete_aged_user_events. prog_rel_go; eauto with loon.
Qed.
End CleanupSchema.

#[export] Hint Resolve cleanup_schema : loon.

(** The pass as one update of the database. *)
Definition cleaned (cut now : Time) (db : Db) : Db :=
  set_user_events (delete_where (aged cut) (user_events db))
    (set_world_invites (delete_where (λ _, old_invite cut)
        (update_where (λ _, lapsed_invite now) (expire_invite now) (world_invites db)))
     (set_join_requests (delete_where (λ _, old_join_request cut)
        (update_where (λ _, lapsed_join_request now) (expire_join_request now) (join_requests db)))
      (set_relay_sessions (update_where (λ _ _, true) (unlink_tickets (ticket_gone cut now db))
         (relay_sessions db))
       (set_join_tickets (delete_where (λ _, spent_ticket cut now) (join_tickets db)) db)))).

Lemma wp_cleanup fuel days cut now st (Q : AppState → AppResult CleanupCounts → Prop) :
  let db := st_db st in
  cutoff days now = Ok cut → count_rows (aged cut) (user_events db) < fuel →
  (∀ n4 n5,
     Q (set_db (cleaned cut now db) st)
       (Ok (mkCleanupCounts (count_rows (λ _, lapsed_join_request now) (join_requests db))
              (count_rows (λ _, lapsed_invite now) (world_invites db))
              (count_rows (λ _, spent_ticket cut now) (join_tickets db)) n4 n5
              (count_rows (aged cut) (user_events db))))) →
  wp (cleanup_stale_join_state fuel days) (calm now) st Q.
Proof.
  intros db Hc Hf HQ. unfold db in *. unfold cleanup_stale_join_state.
  apply wp_bind_ok, wp_sql_app. intros t1 (F1 & D1 & A1). rewrite F1. unfold expire_join_requests. rewrite D1.
  apply wp_bind_ok, wp_sql_app. intros t2 (F2 & D2 & A2). rewrite F2. unfold expire_invites. rewrite D2.
  apply wp_bind_ok, wp_sql_app. intros t3 (F3 & D3 & A3). rewrite F3. unfold delete_tickets. rewrite D3, Hc.
  cbn [and_then].
  apply wp_bind_ok, wp_sql_app. intros t4 (F4 & D4 & A4). rewrite F4. unfold delete_join_requests. rewrite D4, Hc.
  cbn [and_then].
  apply wp_bind_ok, wp_sql_app. intros t5 (F5 & D5 & A5). rewrite F5. unfold delete_invites. rewrite D5, Hc.
  cbn [and_then].
  apply wp_bind_ok. eapply wp_delete_loop; [exact Hc|unfold USER_EVENT_DELETE_CHUNK; lia|exact Hf|].
  wp_step. apply HQ.
Qed.

Section Cleaned.
Context (cut now : Time) (db : Db).

Lemma cleaned_join_requests k :
  join_requests (cleaned cut now db) !! k = join_requests db !! k ≫= kept_join_request cut now.
Proof. cbn. by rewrite lookup_update_delete. Qed.

Lemma cleaned_invites k :
  world_invites (cleaned cut now db) !! k = world_invites db !! k ≫= kept_invite cut now.
Proof. cbn. by rewrite lookup_update_delete. Qed.

Lemma cleaned_tickets k :
  join_tickets (cleaned cut now db) !! k
  = if ticket_gone cut now db k then None else join_tickets db !! k.
Proof.
  cbn. rewrite lookup_delete_where. unfold ticket_gone. by destruct (join_tickets db !! k).
Qed.

Lemma cleaned_relays k :
  relay_sessions (cleaned cut now db) !! k
  = unlink_tickets (ticket_gone cut now db) <$> relay_sessions db !! k.
Proof. cbn. by rewrite lookup_update_where. Qed.
End Cleaned.

(** ** Properties *)

(** C34. The chunked deletion drains the log and ends. For any positive chunk size, with one
    round of fuel more than there are aged events, the loop returns the number of aged
    events, has deleted every one of them and no other, and has changed nothing else. *)
Theorem event_log_drained fuel days chunk cut now o st st' r :
  (∀ i, calm now (o i)) → cutoff days now = Ok cut → 0 < chunk →
  count_rows (aged cut) (user_events (st_db st)) < fuel →
  exec (delete_aged_user_events_in_chunks fuel days chunk 0) o st = (st', r) →
  r = Ok (count_rows (aged cut) (user_events (st_db st))) ∧
  (∀ k e, user_events (st_db st') !! k = Some e ↔
     user_events (st_db st) !! k = Some e ∧ (cut ≤ ue_created_at e)%Z) ∧
  st' = set_db (set_user_events (user_events (st_db st')) (st_db st)) st.
Proof.
  intros Ho Hc Hch Hf Hex. exec_start Hex (calm now). eapply wp_delete_loop; [done..|].
  split; [done|]. split; [|done]. intros k e. cbn. rewrite lookup_delete_where_Some.
  unfold aged. by rewrite Z.ltb_ge.
Qed.

(** The hourly pass touches history only. With the database answering, it ends and
    reports its counts; a join request is expired exactly when it was pending and lapsed
    and is deleted exactly when it is settled and older than the retention, and likewise
    an invite; a ticket is deleted exactly when it is older than the retention and used or
    lapsed, and then no relay session refers to it any more, while every other column of
    every relay session stays; no other table changes but the event log, which loses its
    aged rows. *)
Theorem cleanup_exact fuel days cut now o st st' r :
  let db := st_db st in let db' := st_db st' in
  (∀ i, calm now (o i)) → cutoff days now = Ok cut →
  count_rows (aged cut) (user_events db) < fuel →
  exec (cleanup_stale_join_state fuel days) o st = (st', r) →
  (∃ c, r = Ok c ∧
     expired_join_requests c = count_rows (λ _ r, lapsed_join_request now r) (join_requests db) ∧
     expired_invites c = count_rows (λ _ i, lapsed_invite now i) (world_invites db) ∧
     deleted_join_tickets c = count_rows (λ _ k, spent_ticket cut now k) (join_tickets db) ∧
     deleted_user_events c = count_rows (aged cut) (user_events db)) ∧
  (∀ k, join_requests db' !! k = join_requests db !! k ≫= kept_join_request cut now) ∧
  (∀ k, world_invites db' !! k = world_invites db !! k ≫= kept_invite cut now) ∧
  (∀ k, join_tickets db' !! k = if ticket_gone cut now db k then None else join_tickets db !! k) ∧
  (∀ k, relay_sessions db' !! k = unlink_tickets (ticket_gone cut now db) <$> relay_sessions db !! k) ∧
  (∀ k e, user_events db' !! k = Some e ↔
     user_events db !! k = Some e ∧ (cut ≤ ue_created_at e)%Z) ∧
  st' = set_db (set_user_events (user_events db') (set_relay_sessions (relay_sessions db')
          (set_join_tickets (join_tickets db') (set_world_invites (world_invites db')
             (set_join_requests (join_requests db') db))))) st.
Proof.
  intros db db' Ho Hc Hf Hex. unfold db', db in *. clear db db'. exec_start Hex (calm now).
  apply (wp_cleanup fuel days cut); [done..|]. intros n4 n5.
  split; [eauto 10|]. split; [apply cleaned_join_requests|]. split; [apply cleaned_invites|].
  split; [apply cleaned_tickets|]. split; [apply cleaned_relays|]. split; [|done].
  intros k e. cbn. rewrite lookup_delete_where_Some. unfold aged. by rewrite Z.ltb_ge.
Qed.

(** Nothing live is lost to the pass. For a retention of zero days or more, every
    pending join request and active invite that has not lapsed, and every ticket that has
    neither been used nor lapsed, is afterwards as it was, with the relay sessions that
    refer to such a ticket still doing so. *)
Theorem cleanup_spares_live fuel days cut now o st st' r :
  let db := st_db st in let db' := st_db st' in
  (∀ i, calm now (o i)) → cutoff days now = Ok cut → (0 ≤ days)%Z →
  count_rows (aged cut) (user_events db) < fuel →
  exec (cleanup_stale_join_state fuel days) o st = (st', r) →
  (∀ k x, join_requests db !! k = Some x → jr_status x = Pending → (now < jr_expires_at x)%Z →
     join_requests db' !! k = Some x) ∧
  (∀ k x, world_invites db !! k = Some x → is_active (wi_status x) = true →
     (now < wi_expires_at x)%Z → world_invites db' !! k = Some x) ∧
  (∀ k x, join_tickets db !! k = Some x → jk_consumed_at x = None → (now < jk_expires_at x)%Z →
     join_tickets db' !! k = Some x ∧
     ∀ j y, relay_sessions db !! j = Some y → rs_join_ticket_id y = Some k →
       relay_sessions db' !! j = Some y).
Proof.
  intros db db' Ho Hc Hd Hf Hex. unfold db', db in *. clear db db'. exec_start Hex (calm now).
  apply (wp_cleanup fuel days cut); [done..|]. intros n4 n5. cbn [st_db set_db].
  assert (Hcut : (cut ≤ now)%Z).
  { unfold cutoff in Hc. destruct (_ && _); [|done]. injection Hc as <-.
    unfold secs. assert (0 < MICROS_PER_SEC)%Z by done. nia. }
  destruct (kept_live cut now Hcut) as (K1 & K2 & _). split; [|split].
  - intros k x Hk Hs He. rewrite cleaned_join_requests, Hk. simpl. auto.
  - intros k x Hk Hs He. rewrite cleaned_invites, Hk. simpl. auto.
  - intros k x Hk Hs He.
    assert (G : ticket_gone cut now (st_db st) k = false).
    { unfold ticket_gone, spent_ticket. rewrite Hk, Hs. simpl.
      by rewrite (proj2 (Z.leb_gt _ _) He), andb_false_r. }
    split; [by rewrite cleaned_tickets, G|]. intros j y Hj Hy. rewrite cleaned_relays, Hj. simpl.
    unfold unlink_tickets. rewrite Hy, G, <- Hy. by destruct y.
Qed.

(** ** Concrete instances *)

(** Seen on day 40 with a retention of 30 days: an old settled request, a lapsed one and a
    live one; a used ticket a relay session still names, and a live one; three old events
    and a fresh one. *)
Definition day (n : Z) : Time := secs (86400 * n).

Definition st_history : AppState :=
  set_db (set_user_events
      {[ 80%N := mkUserEvent None "aged" (day 1); 81%N := mkUserEvent None "aged" (day 2);
         82%N := mkUserEvent None "aged" (day 3); 83%N := mkUserEvent None "fresh" (day 39) ]}
    (set_relay_sessions
      {[ 71%N := mkRelaySession 50 2 (Some 1%N) (Some 70%N) "closed" (day 1) (Some (day 1));
         73%N := mkRelaySession 50 2 (Some 3%N) (Some 72%N) "pending" (day 40) None ]}
    (set_join_tickets
      {[ 70%N := mkJoinTicket 1 50 "t1" (day 1) (Some (day 1)) (day 1);
         72%N := mkJoinTicket 3 50 "t3" (day 41) None (day 40) ]}
    (set_join_requests
      {[ 60%N := mkJoinRequest 1 2 50 Accepted (day 1) (day 1) (day 1);
         61%N := mkJoinRequest 3 2 50 Pending (day 1) (day 1) (day 1);
         62%N := mkJoinRequest 1 2 50 Pending (day 41) (day 40) (day 40) ]} sample_db))))
  sample_state.

Lemma event_log_drained_witness :
  let r := exec (delete_aged_user_events_in_chunks 4 30 2 0) (calm_oracle (day 40)) st_history in
  r.2 = Ok 3 ∧
  (∀ k e, user_events (st_db r.1) !! k = Some e ↔
     user_events (st_db st_history) !! k = Some e ∧ (day 10 ≤ ue_created_at e)%Z).
Proof.
  intros r.
  destruct (event_log_drained 4 30 2 (day 10) (day 40) (calm_oracle (day 40)) st_history r.1 r.2)
    as (P1 & P2 & _).
  - exact (calm_oracle_calm (day 40)).
  - vm_compute. reflexivity.
  - lia.
  - vm_compute. lia.
  - unfold r. by destruct (exec _ _ _).
  - split; [rewrite P1; vm_compute; reflexivity|exact P2].
Defined.

Lemma cleanup_exact_witness :
  let r := exec (cleanup_stale_join_state 4 30) (calm_oracle (day 40)) st_history in
  r.2 = Ok (mkCleanupCounts 1 0 1 1 0 3) ∧
  (rs_join_ticket_id <$> relay_sessions (st_db r.1) !! 71%N) = Some None ∧
  (∀ k, relay_sessions (st_db r.1) !! k
     = unlink_tickets (ticket_gone (day 10) (day 40) (st_db st_history)) <$>
       relay_sessions (st_db st_history) !! k).
Proof.
  intros r.
  destruct (cleanup_exact 4 30 (day 10) (day 40) (calm_oracle (day 40)) st_history r.1 r.2)
    as (_ & _ & _ & _ & P & _).
  - exact (calm_oracle_calm (day 40)).
  - vm_compute. reflexivity.
  - vm_compute. lia.
  - unfold r. by destruct (exec _ _ _).
  - split; [vm_compute; reflexivity|]. split; [vm_compute; reflexivity|exact P].
Defined.

Lemma cleanup_spares_live_witness :
  let r := exec (cleanup_stale_join_state 4 30) (calm_oracle (day 40)) st_history in
  join_requests (st_db r.1) !! 62%N = Some (mkJoinRequest 1 2 50 Pending (day 41) (day 40) (day 40)) ∧
  relay_sessions (st_db r.1) !! 73%N
    = Some (mkRelaySession 50 2 (Some 3%N) (Some 72%N) "pending" (day 40) None).
Proof.
  intros r.
  destruct (cleanup_spares_live 4 30 (day 10) (day 40) (calm_oracle (day 40)) st_history r.1 r.2)
    as (P1 & _ & P2).
  - exact (calm_oracle_calm (day 40)).
  - vm_compute. reflexivity.
  - lia.
  - vm_compute. lia.
  - unfold r. by destruct (exec _ _ _).
  - split.
    + apply P1; reflexivity.
    + by apply (P2 72%N (mkJoinTicket 3 50 "t3" (day 41) None (day 40))).
Defined.
