(* ===== verification/Infra.v ===== *)
(** * Probes, metrics and the web interface's files

    [server/infra.rs] and [admin/spa.rs]: the liveness probe, the metrics page with its gate,
    and the delivery of the embedded single-page application. *)

From stdpp Require pretty.
From S2P Require Import Prelude RustStr Errors Models Table Realtime Schema Prog Auth Invariant.

(** ** [infra.rs] *)

(** The status and the two labels of the answer. *)
Definition health : prog (Z * string * string) :=
  let* r := sql (λ _ db, Ok (db, ())) in
  let database_up := is_ok r in
  Ret (if database_up then (200%Z, "ok", "up") else (503%Z, "degraded", "down")).

Definition counters (m : Metrics) : list (string * Z) :=
  [("loontail_bootstraps_total", bootstraps m); ("loontail_heartbeats_total", heartbeats m);
   ("loontail_friend_requests_created_total", friend_requests_created m);
   ("loontail_join_tickets_issued_total", join_tickets_issued m);
   ("loontail_relay_sessions_opened_total", relay_sessions_opened m);
   ("loontail_relay_bytes_forwarded_total", relay_bytes_forwarded m);
   ("loontail_signaling_connections_total", signaling_connections m)].

Definition newline : string := String "010" "".

Definition metric_text (kind : string) (line : string * Z) : string :=
  "# TYPE " +:+ line.1 +:+ " " +:+ kind +:+ newline +:+ line.1 +:+ " " +:+ pretty.pretty line.2 +:+ newline.

Definition metrics_text (m : Metrics) (relay_active : Z) (signaling_active : nat) : string :=
  String.concat "" (map (metric_text "counter") (counters m))
  +:+ metric_text "gauge" ("loontail_relay_active", relay_active)
  +:+ metric_text "gauge" ("loontail_signaling_active", Z.of_nat signaling_active).

Section Metrics.
Context `{Primitives} (cfg : Config) (metrics_token : option string).

(** The rebuilt request is a [GET] without a principal slot. *)
Definition authorize_metrics (headers : HeaderMap) : prog (AppResult unit) :=
  if match metrics_token, bearer_token_from_headers headers with
     | Some expected, Some presented => constant_time_eq expected presented
     | _, _ => false
     end
  then ret_ok ()
  else
    let* '(_, r) := admin_user cfg (mkParts GET headers) None in
    Ret (match r with Ok _ => Ok () | Err e => Err e end).

Definition metrics_handler (headers : HeaderMap) : prog (AppResult string) :=
  do? authorize_metrics headers;
  let* m := act (λ _ st, (st, st_metrics st)) in
  let* relay_active := act (λ _ st, (st, active_pairings (st_relay st))) in
  let* signaling_active := act (λ _ st, (st, connected_users (st_signaling st))) in
  ret_ok (metrics_text m relay_active signaling_active).

(** The configured token, or an administrator's session. *)
Definition may_scrape (headers : HeaderMap) (now : Time) (db : Db) : Prop :=
  (∃ token, metrics_token = Some token ∧ bearer_token_from_headers headers = Some token) ∨
  admitted cfg (mkParts GET headers) now db.

(** The metrics gate. The metrics are answered exactly to a request that carries the
    configured token as its Bearer token, or whose token is that of a live session of an
    unblocked administrator; without a configured token only to the latter. What is answered
    are the counters and the two gauges as they are, and nothing changes. *)
Theorem metrics_gate headers now o st st' r :
  exec (metrics_handler headers) o st = (st', r) → (∀ i, calm now (o i)) →
  uniq sessions_token_hash_key (sessions (st_db st)) →
  st' = st ∧
  (is_ok r = true ↔ may_scrape headers now (st_db st)) ∧
  (is_ok r = true → r = Ok (metrics_text (st_metrics st) (active_pairings (st_relay st)) (connected_users (st_signaling st)))).
Proof.
  intros E Ho U. exec_start E (calm now).
  assert (Fin : ∀ Q : AppState → AppResult string → Prop,
    Q st (Ok (metrics_text (st_metrics st) (active_pairings (st_relay st)) (connected_users (st_signaling st)))) →
    wp (let* m := act (λ _ st, (st, st_metrics st)) in
        let* relay_active := act (λ _ st, (st, active_pairings (st_relay st))) in
        let* signaling_active := act (λ _ st, (st, connected_users (st_signaling st))) in
        ret_ok (metrics_text m relay_active signaling_active)) (calm now) st Q).
  { intros Q HQ. apply wp_bind. intros t1 _. apply wp_bind. intros t2 _. apply wp_bind. intros t3 _. exact HQ. }
  assert (Tok : match metrics_token, bearer_token_from_headers headers with
     | Some expected, Some presented => constant_time_eq expected presented
     | _, _ => false
     end = true ↔ ∃ token, metrics_token = Some token ∧ bearer_token_from_headers headers = Some token).
  { destruct metrics_token as [e|], (bearer_token_from_headers headers) as [p|]; [|naive_solver..].
    unfold constant_time_eq. rewrite ct_eq_spec. naive_solver. }
  apply wp_bind_ok. unfold authorize_metrics.
  destruct (match metrics_token with Some _ => _ | None => _ end).
  - apply wp_ret, Fin. split; [done|]. split; [|done]. split; [|done]. intros _. left. by apply Tok.
  - apply wp_bind, wp_admin_user; [done|]. intros [slot [x|e]] A; cbn [snd is_ok] in A; apply wp_ret.
    + apply Fin. split; [done|]. split; [|done]. split; [|done]. intros _. right. by apply A.
    + split; [done|]. split; [|done]. split; [done|]. intros [T|T]; [by apply Tok in T|by apply A in T].
Qed.
End Metrics.

(** ** [spa.rs] *)

(** The embedded build of the web interface and [mime_guess]. *)
Class Assets := {
  asset : string → option string;
  mime_of : string → string
}.

(** The status, the content type if it is a valid header, and the body. *)
Record Page : Type := mkPage {
  pg_status : Z;
  pg_type : option string;
  pg_body : string
}.

Section Spa.
Context `{Assets} (valid : string → bool).

Definition serve_index : Page :=
  match asset "index.html" with
  | Some data => mkPage 200 (Some "text/html; charset=utf-8") data
  | None => mkPage 404 (Some "text/plain; charset=utf-8") "admin UI not built"
  end.

Definition serve_asset (path : string) : Page :=
  match asset path with
  | Some data => mkPage 200 (if valid (mime_of path) then Some (mime_of path) else None) data
  | None => serve_index
  end.

Definition wants_html (h : HeaderMap) : bool :=
  match h "accept" with Some accept => str_find "text/html" accept | None => false end.

Definition is_get (m : Method) : bool := match m with GET => true | _ => false end.

(** [None]: the request goes on to the router. *)
Definition navigation_guard (parts : Parts) : option Page :=
  if is_get (method parts) && wants_html (headers parts) then Some serve_index else None.

(** [path] is relative to the mount. *)
Definition fallback (path : string) : Page :=
  let path := strip_leading "/" path in
  if (path =? "")%string then serve_index else serve_asset path.

(** A path that is no asset is a route of the application: it gets the shell, never an error,
    once the interface is built. *)
Theorem fallback_serves_shell path data :
  asset "index.html" = Some data →
  pg_status (fallback path) = 200%Z ∧
  (asset (strip_leading "/" path) = None → fallback path = mkPage 200 (Some "text/html; charset=utf-8") data).
Proof.
  intros Hd. unfold fallback, serve_asset, serve_index. rewrite Hd.
  destruct (_ =? "")%string; [done|]. destruct (asset (strip_leading "/" path)); done.
Qed.
End Spa.
