(* ===== verification/Server.v ===== *)
(** * The server's assembly

    [server/main.rs] and the route tables of the crates: where every handler is mounted, which
    requests the rate limiter guards, the cross-origin policy and the security headers. *)

From S2P Require Import Prelude RustStr Errors Config Auth RateLimit BundlePaths YggService.

(** ** Where the Yggdrasil routes are mounted *)

Definition yggdrasil_api_suffix (public_url : string) : string :=
  let '(_, path) := parse_public_url public_url in
  let trimmed := trim_end_matches "/" path in
  match strip_prefix "/api" trimmed with
  | Some suffix => if (suffix =? "")%string then "/yggdrasil" else suffix
  | None => "/yggdrasil"
  end.

Definition yggdrasil_mount_prefix (api_suffix : string) : string := "/api" +:+ api_suffix.

Definition texture_urls_will_be_absolute (public_url : string) : bool :=
  bool_decide (is_Some (parse_public_url public_url).1).

(** The tests of the source. *)
Example suffix_tests :
  yggdrasil_api_suffix "/api/yggdrasil" = "/yggdrasil" ∧
  yggdrasil_api_suffix "https://auth.loontail.com/api/yggdrasil" = "/yggdrasil" ∧
  yggdrasil_api_suffix "/api" = "/yggdrasil" ∧ yggdrasil_api_suffix "/api/" = "/yggdrasil" ∧
  yggdrasil_api_suffix "/api/auth/ygg" = "/auth/ygg" ∧
  yggdrasil_mount_prefix (yggdrasil_api_suffix "/api/mojang") = "/api/mojang" ∧
  map texture_urls_will_be_absolute
    ["/api/yggdrasil"; ""; "https://cms.loontail.dev/api/yggdrasil"; "http://localhost:8080"]
  = [false; false; true; true].
Proof. vm_compute. repeat split. Qed.

(** [RateLimiter::from_config]. *)
Definition limiter_from_config (config : RateLimitConfig) (trusted : bool) (mount_prefix : string) : RateLimiter :=
  mkLimiter (Z.to_nat (rl_max_attempts config)) (rl_window config) trusted (throttled_paths mount_prefix).

(** ** Routes *)

#[export] Instance method_eq_dec : EqDecision Method.
Proof. solve_decision. Defined.

(** The extractor in the handler's signature. *)
Inductive Guard : Type := Public | OfUser | OfAdmin.

Record Route : Type := mkRoute {
  rt_method : Method;
  rt_path : string;
  rt_handler : string;
  rt_guard : Guard
}.

Definition network_routes : list Route :=
  [mkRoute POST "/users/bootstrap" "users::bootstrap" OfUser;
   mkRoute GET "/me" "users::me" OfUser;
   mkRoute GET "/users/search" "users::search" OfUser;
   mkRoute GET "/friends" "friends::list_friends" OfUser;
   mkRoute POST "/friends/requests" "friends::create_request" OfUser;
   mkRoute GET "/friends/requests/incoming" "friends::incoming" OfUser;
   mkRoute GET "/friends/requests/outgoing" "friends::outgoing" OfUser;
   mkRoute POST "/friends/requests/{id}/accept" "friends::accept" OfUser;
   mkRoute POST "/friends/requests/{id}/decline" "friends::decline" OfUser;
   mkRoute DELETE "/friends/{user_id}" "friends::remove_friend" OfUser;
   mkRoute POST "/presence/heartbeat" "presence::heartbeat" OfUser;
   mkRoute POST "/presence/status" "presence::set_status" OfUser;
   mkRoute GET "/presence/friends" "presence::friends_presence" OfUser;
   mkRoute POST "/world-sessions" "worlds::create" OfUser;
   mkRoute PATCH "/world-sessions/{id}" "worlds::update" OfUser;
   mkRoute DELETE "/world-sessions/{id}" "worlds::close" OfUser;
   mkRoute POST "/world-sessions/{id}/join-ticket" "join::create_join_ticket" OfUser;
   mkRoute POST "/world-sessions/{id}/join-requests" "join::create_join_request" OfUser;
   mkRoute GET "/join-requests/incoming" "join::incoming" OfUser;
   mkRoute POST "/join-requests/{id}/accept" "join::accept" OfUser;
   mkRoute POST "/join-requests/{id}/decline" "join::decline" OfUser;
   mkRoute POST "/world-sessions/{id}/invites" "invites::create" OfUser;
   mkRoute GET "/invites/incoming" "invites::incoming" OfUser;
   mkRoute GET "/invites/outgoing" "invites::outgoing" OfUser;
   mkRoute GET "/invites/pending-approval" "invites::pending_approval" OfUser;
   mkRoute POST "/invites/{id}/accept" "invites::accept" OfUser;
   mkRoute POST "/invites/{id}/decline" "invites::decline" OfUser;
   mkRoute POST "/invites/{id}/approve" "invites::approve" OfUser;
   mkRoute DELETE "/invites/{id}" "invites::revoke" OfUser;
   mkRoute GET "/signaling" "signaling::signaling_ws" Public;
   mkRoute GET "/relay/{relay_session_id}" "relay::relay_ws" Public].

Definition account_routes : list Route :=
  [mkRoute POST "/login" "account::login" Public;
   mkRoute POST "/register" "account::register" Public;
   mkRoute POST "/refresh" "account::refresh" OfUser;
   mkRoute POST "/logout" "account::logout" Public;
   mkRoute GET "/me" "account::me" OfUser].

Definition yggdrasil_routes : list Route :=
  [mkRoute POST "/authserver/authenticate" "yggdrasil::authenticate" Public;
   mkRoute POST "/authserver/refresh" "yggdrasil::refresh" Public;
   mkRoute POST "/authserver/validate" "yggdrasil::validate" Public;
   mkRoute POST "/authserver/invalidate" "yggdrasil::invalidate" Public;
   mkRoute POST "/sessionserver/session/minecraft/join" "yggdrasil::join" Public;
   mkRoute GET "/sessionserver/session/minecraft/hasJoined" "yggdrasil::has_joined" Public;
   mkRoute GET "/sessionserver/session/minecraft/profile/{uuid}" "yggdrasil::profile_by_uuid" Public;
   mkRoute POST "/api/profiles/minecraft" "yggdrasil::profiles_by_name" Public;
   mkRoute GET "/" "yggdrasil::meta" Public].

Definition textures_routes : list Route :=
  [mkRoute GET "/{segment}" "textures::public::lookup" Public;
   mkRoute PUT "/{segment}" "textures::public::upload" OfUser;
   mkRoute DELETE "/{segment}" "textures::public::delete" OfUser;
   mkRoute GET "/{segment}/{kind}" "textures::public::read_png" Public].

Definition textures_admin_routes : list Route :=
  [mkRoute GET "/skins" "textures::admin::list_skins" OfAdmin;
   mkRoute GET "/capes" "textures::admin::list_capes" OfAdmin;
   mkRoute DELETE "/skins/{user_id}" "textures::admin::delete_skin" OfAdmin;
   mkRoute DELETE "/capes/{user_id}" "textures::admin::delete_cape" OfAdmin;
   mkRoute GET "/orphans" "textures::admin::orphans" OfAdmin;
   mkRoute POST "/purge-missing" "textures::admin::purge_missing" OfAdmin].

Definition catalog_routes : list Route :=
  [mkRoute GET "/clients" "catalog::public::list_clients" OfUser;
   mkRoute GET "/clients/{id}" "catalog::public::get_client" OfUser;
   mkRoute GET "/keywords" "catalog::public::list_keywords" OfUser;
   mkRoute GET "/keywords/{id}" "catalog::public::get_keyword" OfUser;
   mkRoute GET "/servers" "catalog::public::list_servers" OfUser;
   mkRoute GET "/servers/{id}" "catalog::public::get_server" OfUser].

Definition catalog_admin_routes : list Route :=
  [mkRoute POST "/clients" "catalog::admin::create_client" OfAdmin;
   mkRoute GET "/clients" "catalog::admin::list_clients" OfAdmin;
   mkRoute PATCH "/clients/{id}" "catalog::admin::update_client" OfAdmin;
   mkRoute DELETE "/clients/{id}" "catalog::admin::delete_client" OfAdmin;
   mkRoute POST "/clients/{id}/publish" "catalog::admin::publish_client" OfAdmin;
   mkRoute POST "/clients/{id}/unpublish" "catalog::admin::unpublish_client" OfAdmin;
   mkRoute GET "/clients/{id}/media" "catalog::admin::list_media" OfAdmin;
   mkRoute POST "/clients/{id}/media/upload" "catalog::admin::upload_media" OfAdmin;
   mkRoute DELETE "/clients/{id}/media/{media_id}" "catalog::admin::delete_media" OfAdmin;
   mkRoute POST "/clients/{client_id}/keywords/{keyword_id}" "catalog::admin::attach_keyword" OfAdmin;
   mkRoute DELETE "/clients/{client_id}/keywords/{keyword_id}" "catalog::admin::detach_keyword" OfAdmin;
   mkRoute POST "/clients/{client_id}/servers/{server_id}" "catalog::admin::attach_server" OfAdmin;
   mkRoute DELETE "/clients/{client_id}/servers/{server_id}" "catalog::admin::detach_server" OfAdmin;
   mkRoute POST "/keywords" "catalog::admin::create_keyword" OfAdmin;
   mkRoute DELETE "/keywords/{id}" "catalog::admin::delete_keyword" OfAdmin;
   mkRoute POST "/keywords/{id}/publish" "catalog::admin::publish_keyword" OfAdmin;
   mkRoute POST "/keywords/{id}/unpublish" "catalog::admin::unpublish_keyword" OfAdmin;
   mkRoute POST "/servers" "catalog::admin::create_server" OfAdmin;
   mkRoute PATCH "/servers/{id}" "catalog::admin::update_server" OfAdmin;
   mkRoute DELETE "/servers/{id}" "catalog::admin::delete_server" OfAdmin;
   mkRoute POST "/servers/{id}/publish" "catalog::admin::publish_server" OfAdmin;
   mkRoute POST "/servers/{id}/unpublish" "catalog::admin::unpublish_server" OfAdmin].

Definition catalog_media_routes : list Route :=
  [mkRoute GET "/{client_id}/{*path}" "catalog::serve_media" OfUser].

Definition bundles_static_routes : list Route :=
  [mkRoute GET "/builds/{slug}/files/{*path}" "bundles::public::serve_file" OfUser].

Definition bundles_routes : list Route :=
  [mkRoute GET "/builds/{slug}/manifest" "bundles::public::get_manifest" OfUser]
  ++ bundles_static_routes.

Definition bundles_admin_routes : list Route :=
  [mkRoute GET "/disk-space" "bundles::admin::disk_space_handler" OfAdmin;
   mkRoute GET "/builds" "bundles::admin::list" OfAdmin;
   mkRoute POST "/builds" "bundles::admin::create" OfAdmin;
   mkRoute GET "/builds/{slug}" "bundles::admin::get" OfAdmin;
   mkRoute PUT "/builds/{slug}" "bundles::admin::update" OfAdmin;
   mkRoute DELETE "/builds/{slug}" "bundles::admin::delete" OfAdmin;
   mkRoute POST "/builds/{slug}/upload" "bundles::admin::upload_archive" OfAdmin;
   mkRoute POST "/builds/{slug}/regenerate" "bundles::admin::regenerate_manifest" OfAdmin;
   mkRoute POST "/builds/{slug}/validate" "bundles::admin::validate" OfAdmin;
   mkRoute POST "/builds/{slug}/files" "bundles::admin::upload_file" OfAdmin;
   mkRoute POST "/builds/{slug}/folders" "bundles::admin::create_folder" OfAdmin;
   mkRoute POST "/builds/{slug}/files/bulk-delete" "bundles::admin::bulk_delete" OfAdmin;
   mkRoute POST "/builds/{slug}/files/move" "bundles::admin::move_files" OfAdmin;
   mkRoute DELETE "/builds/{slug}/files/{entryId}" "bundles::admin::delete_file" OfAdmin;
   mkRoute PUT "/builds/{slug}/files/{entryId}" "bundles::admin::toggle_download_once" OfAdmin;
   mkRoute POST "/builds/{slug}/files/{entryId}/rename" "bundles::admin::rename_file" OfAdmin;
   mkRoute POST "/builds/{slug}/files/{entryId}/move" "bundles::admin::move_file" OfAdmin;
   mkRoute POST "/builds/{slug}/files/{entryId}/rehash" "bundles::admin::rehash_file" OfAdmin].

Definition admin_routes : list Route :=
  [mkRoute POST "/auth/login" "admin::auth::login" Public;
   mkRoute POST "/auth/logout" "admin::auth::logout" Public;
   mkRoute GET "/auth/me" "admin::auth::me" OfAdmin;
   mkRoute GET "/users" "admin::users::list" OfAdmin;
   mkRoute POST "/users" "admin::users::create" OfAdmin;
   mkRoute GET "/users/{id}" "admin::users::get" OfAdmin;
   mkRoute PATCH "/users/{id}" "admin::users::patch" OfAdmin;
   mkRoute DELETE "/users/{id}" "admin::users::delete" OfAdmin;
   mkRoute POST "/users/{id}/block" "admin::users::block_user" OfAdmin;
   mkRoute POST "/users/{id}/unblock" "admin::users::unblock_user" OfAdmin;
   mkRoute POST "/users/{id}/reset-password" "admin::users::reset_password" OfAdmin;
   mkRoute POST "/users/{id}/revoke-tokens" "admin::users::revoke_tokens" OfAdmin;
   mkRoute GET "/analytics/overview" "admin::analytics::overview" OfAdmin;
   mkRoute GET "/analytics/timeseries" "admin::analytics::timeseries" OfAdmin;
   mkRoute GET "/logs/tail" "admin::request_logs::tail" OfAdmin;
   mkRoute GET "/analytics/requests" "admin::request_logs::list" OfAdmin;
   mkRoute GET "/analytics/requests/summary" "admin::request_logs::summary" OfAdmin;
   mkRoute GET "/analytics/requests/timeseries" "admin::request_logs::timeseries" OfAdmin;
   mkRoute GET "/" "admin::spa::index" Public].

(** How a router composes the path of a nested route. *)
Class Nesting := {
  nest_path : string → string → string;
  nest_plain : ∀ p q, starts_with "/" p = true → starts_with "/" (str_rev p) = false →
    starts_with "/" q = true → q ≠ "/" → nest_path p q = p +:+ q;
  nest_root : ∀ p, starts_with "/" p = true → starts_with "/" (str_rev p) = false → nest_path p "/" = p
}.

Definition relocate (f : string → string) (r : Route) : Route :=
  mkRoute (rt_method r) (f (rt_path r)) (rt_handler r) (rt_guard r).

Section Assembly.
Context `{Nesting}.

Definition nest (prefix : string) (routes : list Route) : list Route :=
  map (relocate (nest_path prefix)) routes.

Definition build_router (ygg_suffix : string) : list Route :=
  let api := catalog_routes ++ nest "/auth" account_routes
    ++ nest ygg_suffix (yggdrasil_routes ++ nest "/textures" textures_routes)
    ++ nest "/bundle-registry" bundles_routes in
  let admin := admin_routes ++ nest "/catalog" catalog_admin_routes
    ++ nest "/bundles" bundles_admin_routes ++ nest "/textures" textures_admin_routes in
  [mkRoute GET "/health" "infra::health" Public; mkRoute GET "/metrics" "infra::metrics_handler" Public]
  ++ network_routes ++ nest "/api" api ++ nest "/textures" textures_routes
  ++ nest "/catalog-media" catalog_media_routes ++ nest "/bundle-registry" bundles_static_routes
  ++ nest "/admin" admin.
End Assembly.

(** A handler that answers with a fresh token. *)
Definition hands_out_token (handler : string) : bool :=
  existsb (String.eqb handler)
    ["account::login"; "account::register"; "account::refresh"; "yggdrasil::authenticate";
     "yggdrasil::refresh"; "admin::auth::login"].

Definition is_public (g : Guard) : bool := match g with Public => true | _ => false end.

(** Whoever calls it need not be known, and leaves with a token. *)
Definition credential_route (r : Route) : bool := is_public (rt_guard r) && hands_out_token (rt_handler r).

(** ** Lemmas *)

Definition mount_point (p : string) : Prop := starts_with "/" p = true ∧ starts_with "/" (str_rev p) = false.

Definition bare (q : string) : string := if (q =? "/")%string then "" else q.

Lemma strip_leading_head c s : first_byte (strip_leading c s) ≠ Some c.
Proof.
  induction s as [|d s IH]; [done|]. cbn [strip_leading]. destruct (Ascii.eqb_spec c d) as [<-|Hne]; [done|].
  cbn. congruence.
Qed.

Lemma starts_first s : starts_with "/" s = true → first_byte s = Some "/"%char.
Proof. intros E. symmetry. by apply (starts_with_first "/" s E). Qed.

Lemma strip_prefix_app p s r : strip_prefix p s = Some r → s = p +:+ r.
Proof.
  revert s. induction p as [|c p IH]; intros s; [by intros [= ->]|]. destruct s as [|d s]; [done|].
  cbn [strip_prefix]. destruct (Ascii.eqb_spec c d) as [<-|]; [|done]. intros E. by rewrite (IH _ E).
Qed.

(** A mounted path never ends in a slash. *)
Lemma suffix_mount_point public_url :
  starts_with "/" (yggdrasil_api_suffix public_url) = true → mount_point (yggdrasil_api_suffix public_url).
Proof.
  intros S. split; [done|]. unfold yggdrasil_api_suffix in *. destruct (parse_public_url public_url) as [o path].
  destruct (strip_prefix "/api" (trim_end_matches "/" path)) as [suffix|] eqn:E; [|done].
  destruct (String.eqb_spec suffix "") as [->|Hne]; [done|]. apply strip_prefix_app in E.
  destruct (starts_with "/" (str_rev suffix)) eqn:B; [exfalso|done].
  assert (R : str_rev (trim_end_matches "/" path) = strip_leading "/" (str_rev path))
    by (unfold trim_end_matches; by rewrite str_rev_involutive).
  rewrite E, str_rev_app in R. apply (strip_leading_head "/" (str_rev path)). rewrite <- R.
  apply starts_first. rewrite starts_with_app_slash; [done|]. intros N. by rewrite N in B.
Qed.

Section Mounted.
Context `{Nesting}.

Lemma nest_path_bare p q : mount_point p → starts_with "/" q = true → nest_path p q = p +:+ bare q.
Proof.
  intros [P1 P2] Q. unfold bare. destruct (String.eqb_spec q "/") as [->|Hne].
  - rewrite nest_root by done. by rewrite str_app_nil_r.
  - by apply nest_plain.
Qed.

Lemma nest_bare p rs :
  mount_point p → forallb (λ r, starts_with "/" (rt_path r)) rs = true →
  nest p rs = map (relocate (λ q, p +:+ bare q)) rs.
Proof.
  intros P F. apply map_ext_in. intros r Hr. unfold relocate. rewrite forallb_forall in F.
  by rewrite nest_path_bare by auto.
Qed.

Lemma relocate_twice f g rs : map (relocate f) (map (relocate g) rs) = map (relocate (λ q, f (g q))) rs.
Proof. rewrite map_map. apply map_ext. by intros []. Qed.

(** A nested mount point is one, and its paths are appended. *)
Lemma mounted_twice p s q : mount_point p → mount_point s → bare (s +:+ bare q) = s +:+ bare q.
Proof.
  intros _ [S1 S2]. unfold bare at 1. destruct (String.eqb_spec (s +:+ bare q) "/") as [E|]; [exfalso|done].
  destruct s as [|c s]; [done|]. destruct s as [|d s]; [|done]. destruct c as [[] [] [] [] [] [] [] []]; done.
Qed.

Definition at_prefix (p : string) (rs : list Route) : list Route := map (relocate (λ q, p +:+ bare q)) rs.

(** All routes with their full paths. *)
Definition mounted (suffix : string) : list Route :=
  [mkRoute GET "/health" "infra::health" Public; mkRoute GET "/metrics" "infra::metrics_handler" Public]
  ++ network_routes ++ at_prefix "/api" catalog_routes ++ at_prefix "/api/auth" account_routes
  ++ at_prefix ("/api" +:+ suffix) (yggdrasil_routes ++ at_prefix "/textures" textures_routes)
  ++ at_prefix "/api/bundle-registry" bundles_routes ++ at_prefix "/textures" textures_routes
  ++ at_prefix "/catalog-media" catalog_media_routes ++ at_prefix "/bundle-registry" bundles_static_routes
  ++ at_prefix "/admin" admin_routes ++ at_prefix "/admin/catalog" catalog_admin_routes
  ++ at_prefix "/admin/bundles" bundles_admin_routes ++ at_prefix "/admin/textures" textures_admin_routes.

Lemma nest_at_prefix p s rs :
  mount_point p → mount_point s → forallb (λ r, starts_with "/" (rt_path r)) rs = true →
  nest p (nest s rs) = at_prefix (p +:+ s) rs.
Proof.
  intros P S F. rewrite (nest_bare s) by done. rewrite nest_bare; [|done|].
  - rewrite relocate_twice. apply map_ext. intros r. unfold relocate. f_equal.
    by rewrite (mounted_twice p s) by done; rewrite str_app_assoc.
  - apply forallb_forall. intros r (r' & <- & Hr)%in_map_iff. cbn. rewrite starts_with_app_slash; [apply S|].
    intros ->. by destruct S.
Qed.

Lemma build_router_mounted suffix : mount_point suffix → build_router suffix = mounted suffix.
Proof.
  intros S. unfold build_router, mounted. cbv zeta.
  assert (A : ∀ p a b, nest p (a ++ b) = nest p a ++ nest p b) by (intros; apply map_app).
  assert (M : ∀ p, starts_with "/" p && negb (starts_with "/" (str_rev p)) = true → mount_point p).
  { intros p [P1 P2%negb_true_iff]%andb_true_iff. by split. }
  rewrite !A, (nest_bare "/textures"), (nest_at_prefix "/api" "/auth"), !(nest_at_prefix "/api" suffix),
    (nest_at_prefix "/api" "/bundle-registry"), (nest_at_prefix "/admin" "/catalog"),
    (nest_at_prefix "/admin" "/bundles"), (nest_at_prefix "/admin" "/textures"),
    (nest_bare "/api"), (nest_bare "/catalog-media"), (nest_bare "/bundle-registry"), (nest_bare "/admin")
    by first [done|by apply M].
  unfold at_prefix. by rewrite (map_app (relocate _) yggdrasil_routes), <- !app_assoc.
Qed.

(** The routes that hand out tokens to strangers. *)
Lemma credential_routes_mounted suffix :
  List.filter credential_route (mounted suffix) =
    [mkRoute POST "/api/auth/login" "account::login" Public; mkRoute POST "/api/auth/register" "account::register" Public;
     mkRoute POST (("/api" +:+ suffix) +:+ "/authserver/authenticate") "yggdrasil::authenticate" Public;
     mkRoute POST (("/api" +:+ suffix) +:+ "/authserver/refresh") "yggdrasil::refresh" Public;
     mkRoute POST "/admin/auth/login" "admin::auth::login" Public].
Proof. reflexivity. Qed.

Lemma credential_paths suffix path :
  path ∈ throttled_paths (yggdrasil_mount_prefix suffix) ↔
  path ∈ map rt_path (List.filter credential_route (mounted suffix)).
Proof.
  rewrite credential_routes_mounted. unfold throttled_paths, yggdrasil_mount_prefix. cbn [map rt_path]. set_solver +.
Qed.

Lemma credential_route_throttled suffix config trusted r :
  mount_point suffix → r ∈ build_router suffix → credential_route r = true →
  is_throttled_path (limiter_from_config config trusted (yggdrasil_mount_prefix suffix)) (rt_path r) = true.
Proof.
  intros M Hr Cr. rewrite build_router_mounted in Hr by done. unfold is_throttled_path. rewrite existsb_exists.
  exists (rt_path r). split; [|apply String.eqb_refl]. apply list_elem_of_In, credential_paths, list_elem_of_fmap.
  exists r. split; [done|]. apply list_elem_of_In, List.filter_In. by rewrite <- list_elem_of_In.
Qed.

(** Nobody guesses credentials unthrottled. Wherever the configured URL mounts the Yggdrasil
    routes, the paths that consume a token of the rate limiter are exactly those at which a
    caller who need not be known can obtain a token of his own: both logins, the
    registration, and authentication and refresh at the mount. *)
Theorem credentials_throttled public_url config trusted path :
  let suffix := yggdrasil_api_suffix public_url in
  starts_with "/" suffix = true →
  is_throttled_path (limiter_from_config config trusted (yggdrasil_mount_prefix suffix)) path = true ↔
  ∃ r, r ∈ build_router suffix ∧ credential_route r = true ∧ rt_path r = path.
Proof.
  intros suffix S. assert (M : mount_point suffix) by (by apply suffix_mount_point). split.
  - intros T. apply existsb_exists in T as (p & Hp & E%String.eqb_eq). subst p.
    apply list_elem_of_In, credential_paths, list_elem_of_fmap in Hp as (r & -> & Hr).
    apply list_elem_of_In, List.filter_In in Hr as [Hr Cr]. exists r.
    rewrite build_router_mounted by done. by rewrite list_elem_of_In.
  - intros (r & Hr & Cr & <-). by apply credential_route_throttled.
Qed.
End Mounted.

(** ** The cross-origin policy *)

Inductive AllowOrigin : Type := AnyOrigin | Origins (origins : list string).

Record CorsLayer : Type := mkCors {
  allow_methods : list Method;
  allow_headers : list string;
  allow_origin : AllowOrigin;
  allow_credentials : bool
}.

(** [valid] is [HeaderValue::from_str]. *)
Definition build_cors (valid : string → bool) (allowed_origins : list string) : CorsLayer :=
  let base := mkCors [GET; POST; PATCH; DELETE; OPTIONS] ["authorization"; "content-type"; "x-csrf-token"] in
  if existsb (λ origin, (origin =? "*")%string) allowed_origins then base AnyOrigin false
  else base (Origins (List.filter valid allowed_origins)) true.

(** The origins whose pages may read the answers, and whether the browser sends the cookies. *)
Definition origin_allowed (cors : CorsLayer) (origin : string) : bool :=
  match allow_origin cors with AnyOrigin => true | Origins l => existsb (String.eqb origin) l end.

(** The policy never fails open: a page of another origin reads answers, with the caller's
    cookies, only if its origin is listed and no wildcard is; the wildcard, which admits
    every origin, comes without cookies; an empty list admits nobody. *)
Theorem build_cors_closed valid allowed origin :
  let cors := build_cors valid allowed in
  (origin_allowed cors origin = true ↔ "*" ∈ allowed ∨ origin ∈ allowed ∧ valid origin = true) ∧
  (allow_credentials cors = true ↔ "*" ∉ allowed) ∧
  (allow_credentials cors = true → origin_allowed cors origin = true → origin ∈ allowed).
Proof.
  assert (W : existsb (λ o, (o =? "*")%string) allowed = true ↔ "*" ∈ allowed).
  { rewrite existsb_exists. setoid_rewrite String.eqb_eq. setoid_rewrite <- list_elem_of_In. naive_solver. }
  assert (L : existsb (String.eqb origin) (List.filter valid allowed) = true ↔ origin ∈ allowed ∧ valid origin = true).
  { rewrite existsb_exists. setoid_rewrite List.filter_In. setoid_rewrite String.eqb_eq.
    setoid_rewrite <- list_elem_of_In. naive_solver. }
  unfold build_cors, origin_allowed. destruct (existsb _ allowed); cbn; [naive_solver|].
  rewrite L. assert (N : "*" ∉ allowed) by (intros M; by apply W in M). naive_solver.
Qed.

(** ** The security headers *)

(** [SetResponseHeaderLayer::overriding]. *)
Definition overriding (name value : string) (answer : HeaderMap) : HeaderMap :=
  λ n, if (n =? name)%string then Some value else answer n.

(** Around the answers below [/admin]. *)
Definition with_security_headers (answer : HeaderMap) : HeaderMap :=
  overriding "referrer-policy" "no-referrer"
    (overriding "content-security-policy"
       "default-src 'self'; style-src 'self' 'unsafe-inline'; img-src 'self' data:; frame-ancestors 'none'; base-uri 'self'"
       (overriding "x-frame-options" "DENY"
          (overriding "x-content-type-options" "nosniff"
             (overriding "strict-transport-security" "max-age=31536000; includeSubDomains" answer)))).

(** Around every answer. *)
Definition nosniff (answer : HeaderMap) : HeaderMap := overriding "x-content-type-options" "nosniff" answer.

(** The outer layer changes nothing below [/admin], and no handler can weaken either. *)
Theorem nosniff_after_security_headers answer n :
  nosniff (with_security_headers answer) n = with_security_headers answer n ∧
  with_security_headers answer "x-frame-options" = Some "DENY".
Proof.
  split; [|done]. unfold nosniff, overriding at 1.
  by destruct (String.eqb_spec n "x-content-type-options") as [->|].
Qed.

(** *** A router that concatenates *)

#[refine, export] Instance toy_nesting : Nesting := {|
  nest_path p q := p +:+ bare q
|}.
Proof.
  - intros p q _ _ _ N. unfold bare. by destruct (String.eqb_spec q "/").
  - intros p _ _. apply str_app_nil_r.
Defined.

Lemma credentials_throttled_witness :
  let suffix := yggdrasil_api_suffix "https://mc.example/api/mojang" in
  ∃ r, r ∈ build_router suffix ∧ credential_route r = true ∧ rt_path r = "/api/mojang/authserver/refresh".
Proof.
  apply (credentials_throttled "https://mc.example/api/mojang" (mkRateLimitConfig 10 60) false
    "/api/mojang/authserver/refresh"); reflexivity.
Defined.

(** What a browser page of another origin cannot call, whatever its origin: the policy lists no
    [PUT]. *)
Example put_routes_same_origin_only :
  map rt_handler (List.filter (λ r, bool_decide (rt_method r ∉ allow_methods (build_cors (λ _, true) ["*"])))
    (build_router "/yggdrasil"))
  = ["textures::public::upload"; "textures::public::upload"; "bundles::admin::update"; "bundles::admin::toggle_download_once"].
Proof. reflexivity. Qed.

(** A public URL whose path only begins like [/api] gives a suffix without a leading slash,
    which the router refuses when the server starts. *)
Example suffix_without_slash :
  yggdrasil_api_suffix "https://mc.example/apiary" = "ary" ∧
  starts_with "/" (yggdrasil_api_suffix "https://mc.example/apiary") = false.
Proof. vm_compute. split; reflexivity. Qed.

(** The warning on start-up asks for an origin, not for its scheme. *)
Example warning_accepts_no_scheme :
  texture_urls_will_be_absolute "://mc.example/api/yggdrasil" = true ∧
  is_absolute (texture_public_url "://mc.example/api/yggdrasil" "u" "skin") = false.
Proof. vm_compute. split; reflexivity. Qed.
