(* ===== verification/Service.v ===== *)
(** * The service as a whole

    Every request the modelled handlers answer, and every background task, as one type;
    whatever number of them is being served and however their actions interleave, the
    database keeps the schema's invariant and the signaling hub its own. *)

From S2P Require Import Prelude RustStr Errors Models Table Realtime Schema Prog Auth YggTokens.
From S2P Require Import Invariant AuthSchema Queries Presence Friends Worlds Join Invites Pipe Relay Users.
From S2P Require Import Files Signaling Cleanup Payload Identity AdminUsers JoinSessions YggService Account.
From S2P Require Textures BundlePaths BundleTree Manifest BundleRepo BundleAdmin.
From S2P Require CatalogRepo CatalogReads CatalogAdmin CatalogSchema.

Import Textures (UuidParser, toy_parser).
Import BundleTree (ZipReader, toy_zip, Realpath, linked).
Import CatalogRepo (FormUrlencoded).
Import CatalogReads (toy_form).

(** ** What the hub goes through *)

(** Whatever the handlers do to the hub keeps it well formed. *)
Definition hub_rel (st st' : AppState) : Prop :=
  hub_wf (st_signaling st) → hub_wf (st_signaling st').

#[export] Instance hub_rel_preorder : PreOrder hub_rel.
Proof. split; [intros st W; exact W|]. intros a b c H1 H2 W. exact (H2 (H1 W)). Qed.

#[export] Instance hub_rel_rollback : Rollback hub_rel.
Proof. intros st st' H W. exact (H W). Qed.

Lemma hub_sql {B} (f : Tick → Db → SqlResult (Db * B)) : prog_rel hub_rel (sql f).
Proof.
  split; [|done]. intros t st. unfold hub_rel. destruct (t_fault t); [done|].
  by destruct (f t (st_db st)) as [[db b]|e].
Qed.

Lemma hub_sql_app {B} (f : Tick → Db → SqlResult (Db * B)) : prog_rel hub_rel (sql_app f).
Proof. by apply prog_rel_bind; [apply hub_sql|]. Qed.

(** An action that leaves the hub alone. *)
Lemma hub_act {B} (f : Tick → AppState → AppState * B) :
  (∀ t st, st_signaling (f t st).1 = st_signaling st) → prog_rel hub_rel (act f).
Proof. intros H. split; [|done]. intros t st. unfold hub_rel. by rewrite H. Qed.

Lemma hub_signal u ev : prog_rel hub_rel (signal u ev).
Proof. split; [|done]. intros t st W. by apply hub_wf_send_to. Qed.

Lemma hub_on_relay {B} (f : RelayHub → RelayHub * B) : prog_rel hub_rel (on_relay f).
Proof. apply hub_act. intros t st. simpl. by destruct (f (st_relay st)). Qed.

Lemma hub_on_join_sessions {B} (f : gmap string JoinSession → _ * B) :
  prog_rel hub_rel (on_join_sessions f).
Proof. apply hub_act. intros t st. simpl. by destruct (f (st_join_sessions st)). Qed.

Lemma hub_on_files {B} (f : Tick → Files → Files * B) : prog_rel hub_rel (on_files f).
Proof. apply hub_act. intros t st. simpl. by destruct (f t (st_files st)). Qed.

Lemma hub_on_tree {B} (f : Tick → Content.Tree → Content.Tree * B) :
  prog_rel hub_rel (BundleTree.on_tree f).
Proof. apply hub_act. intros t st. simpl. by destruct (f t (st_tree st)). Qed.

Lemma hub_on_content {B} (f : Tick → Content.Content → SqlResult (Content.Content * B)) :
  prog_rel hub_rel (BundleRepo.on_content f).
Proof. apply hub_sql_app. Qed.

Lemma hub_on_content_or {B} conv (f : Tick → Content.Content → SqlResult (Content.Content * B)) :
  prog_rel hub_rel (CatalogAdmin.on_content_or conv f).
Proof. by apply prog_rel_bind; [apply hub_sql|]. Qed.

Lemma hub_on_signaling {B} (f : Tick → SignalingHub → SignalingHub * B) :
  (∀ t hub, hub_wf hub → hub_wf (f t hub).1) → prog_rel hub_rel (on_signaling f).
Proof.
  intros H. split; [|done]. intros t st W. specialize (H t _ W). simpl.
  by destruct (f t (st_signaling st)).
Qed.

Create HintDb handlers.

Ltac hub_step :=
  match goal with
  | |- prog_rel _ (Ret _) => exact I
  | |- prog_rel _ (ret_ok _) => exact I
  | |- prog_rel _ (ret_err _) => exact I
  | |- prog_rel _ (lift _) => exact I
  | |- prog_rel _ (bind_ok _ _) => apply prog_rel_bind_ok; [|intros]
  | |- prog_rel _ (bind _ _) => apply prog_rel_bind; [|intros]
  | |- prog_rel _ (prog_map _ _) => apply prog_rel_bind; [|intros; exact I]
  | |- prog_rel _ (select _) => apply hub_sql_app
  | |- prog_rel _ (ignore _) => apply prog_rel_bind; [|intros; exact I]
  | |- prog_rel _ (for_each _ _) => apply prog_rel_for_each; intros
  | |- prog_rel _ (transaction _) => apply prog_rel_transaction; [exact _|exact _|]
  | |- prog_rel _ (ygg _) => apply ygg_rel
  | |- prog_rel _ (on_join_sessions _) => apply hub_on_join_sessions
  | |- prog_rel _ (on_files _) => apply hub_on_files
  | |- prog_rel _ (BundleTree.on_tree _) => apply hub_on_tree
  | |- prog_rel _ (BundleTree.fs_call _ _) => apply hub_on_tree
  | |- prog_rel _ (BundleTree.fs_quiet _) => apply hub_on_tree
  | |- prog_rel _ (BundleTree.fs_look _) => apply hub_on_tree
  | |- prog_rel _ (BundleRepo.on_content _) => apply hub_on_content
  | |- prog_rel _ (CatalogAdmin.on_content_or _ _) => apply hub_on_content_or
  | |- prog_rel _ (BundleRepo.look _) => apply hub_sql_app
  | |- prog_rel _ (act _) => by apply hub_act
  | |- prog_rel _ utc_now => by apply hub_act
  | |- prog_rel _ new_uuid => by apply hub_act
  | |- prog_rel _ (signal _ _) => apply hub_signal
  | |- prog_rel _ (on_metrics _) => by apply hub_act
  | |- prog_rel _ (on_relay _) => apply hub_on_relay
  | |- prog_rel _ (on_signaling _) =>
      apply hub_on_signaling; intros; cbn [fst]; auto with loon nocore
  | |- prog_rel _ (sql_app _) => apply hub_sql_app
  | |- prog_rel _ (sql _) => apply hub_sql
  | |- prog_rel _ (match ?x with _ => _ end) => destruct x
  end.

Ltac hub_go := repeat first [solve [auto with handlers nocore] | hub_step | progress autounfold with handlers].

(** ** Requests *)

Section Service.
Context `{Lowercase} `{Primitives} `{PasswordHashing} `{UuidText} `{PayloadText} `{Signer}.
Context `{UuidParser} `{ZipReader} `{FormUrlencoded} `{Realpath}.
Context (cfg : Config) (valid : string → bool) (admin_session_ttl : Duration).
Context (sql_text : SqlError → string).

Inductive Request : Type :=
(* presence.rs *)
| RHeartbeat (me : Uuid)
| RSetStatus (me : Uuid) (status : string) (world : option Uuid)
| RFriendsPresence (me : Uuid)
(* friends.rs *)
| RFriendCreate (me target : Uuid)
| RFriendIncoming (me : Uuid)
| RFriendOutgoing (me : Uuid)
| RFriendAccept (me id : Uuid)
| RFriendDecline (me id : Uuid)
| RFriendRemove (me other : Uuid)
(* worlds.rs *)
| RWorldCreate (me : Uuid) (max_players : option Z)
| RWorldUpdate (me id : Uuid) (body : UpdateWorldSession)
| RWorldClose (me id : Uuid)
(* join.rs *)
| RJoinTicket (me world : Uuid)
| RJoinRequest (me world : Uuid)
| RJoinIncoming (me : Uuid)
| RJoinAccept (me id : Uuid)
| RJoinDecline (me id : Uuid)
(* invites.rs *)
| RInviteCreate (me world invitee : Uuid)
| RInviteIncoming (me : Uuid)
| RInviteOutgoing (me : Uuid)
| RInvitePending (me : Uuid)
| RInviteAccept (me id : Uuid)
| RInviteDecline (me id : Uuid)
| RInviteApprove (me id : Uuid)
| RInviteRevoke (me id : Uuid)
(* users.rs *)
| RBootstrap (me : Uuid) (body : BootstrapRequest)
| RMe (auth : Keyed User)
| RSearch (me : Uuid) (q : string)
(* relay.rs, signaling.rs *)
| RRelay (req : relay_request)
| RSignalingOpen (query_token : option string) (h : HeaderMap)
| RSignaling (me : Uuid) (script : list Wakeup)
(* core/auth: sessions and launcher tokens *)
| RLogin (user : Uuid) (ttl : Duration)
| RAuthenticate (parts : Parts) (slot : PrincipalSlot)
| RLogout (token : string)
| RLogoutAll (user : Uuid)
| RYggIssue (user : Uuid) (client : option string) (ttl : Duration) (max : Z)
| RYggValidate (access : string) (client : option string)
| RYggRefresh (access : string) (client : option string) (ttl : Duration) (max : Z)
| RYggInvalidate (access : string) (client : option string)
| RYggInvalidateAll (user : Uuid)
(* the account endpoints *)
| RAccountLogin (username password : string)
| RAccountRegister (username email password : string)
| RAccountRefresh (auth : Keyed User) (h : HeaderMap)
| RAccountLogout (h : HeaderMap)
| RAccountMe (auth : Keyed User)
(* the Yggdrasil endpoints *)
| RAuthserverAuthenticate (username password : string) (client : option string) (user : bool)
| RAuthserverRefresh (access : string) (client : option string) (user : bool)
    (selected : option JsonValue)
| RAuthserverValidate (access : string) (client : option string)
| RAuthserverInvalidate (access : string) (client : option string)
| RServerJoin (access selected server : string)
| RHasJoined (username server : string) (ip : option string)
| RProfile (uuid : string) (unsigned : option string)
| RProfilesByName (names : list string)
(* the administration panel *)
| RAdmin (r : AdminRequest)
| RAdminLogin (username password : string)
| RAdminLogout (h : HeaderMap)
| RAdminMe (admin : Keyed User)
| RBootstrapAdmin (username : string) (password : option string)
(* textures *)
| RTextures (r : Textures.TextureRequest)
(* bundles *)
| RBundles (r : BundleAdmin.BundleRequest)
| RCatalog (r : CatalogAdmin.CatalogRequest)
(* startup and the hourly tick *)
| RReconcile
| RCleanupSessions
| RCleanupYgg
| RCleanupJoin (fuel : nat) (days : Z).

Definition serve (r : Request) : prog unit :=
  match r with
  | RHeartbeat me => ignore (heartbeat cfg me)
  | RSetStatus me s w => ignore (set_status me s w)
  | RFriendsPresence me => ignore (friends_with_presence cfg me)
  | RFriendCreate me t => ignore (create_request me t)
  | RFriendIncoming me => ignore (Friends.incoming me)
  | RFriendOutgoing me => ignore (Friends.outgoing me)
  | RFriendAccept me id => ignore (Friends.accept me id)
  | RFriendDecline me id => ignore (Friends.decline me id)
  | RFriendRemove me o => ignore (remove_friend me o)
  | RWorldCreate me m => ignore (Worlds.create cfg me m)
  | RWorldUpdate me id b => ignore (Worlds.update cfg me id b)
  | RWorldClose me id => ignore (Worlds.close me id)
  | RJoinTicket me w => ignore (create_join_ticket cfg me w)
  | RJoinRequest me w => ignore (create_join_request cfg me w)
  | RJoinIncoming me => ignore (Join.incoming me)
  | RJoinAccept me id => ignore (Join.accept cfg me id)
  | RJoinDecline me id => ignore (Join.decline me id)
  | RInviteCreate me w i => ignore (Invites.create cfg me w i)
  | RInviteIncoming me => ignore (Invites.incoming me)
  | RInviteOutgoing me => ignore (Invites.outgoing me)
  | RInvitePending me => ignore (pending_approval me)
  | RInviteAccept me id => ignore (Invites.accept cfg me id)
  | RInviteDecline me id => ignore (Invites.decline me id)
  | RInviteApprove me id => ignore (approve me id)
  | RInviteRevoke me id => ignore (revoke me id)
  | RBootstrap me b => ignore (bootstrap me b)
  | RMe a => ignore (Users.me cfg a)
  | RSearch me q => ignore (search cfg me q)
  | RRelay req => serve_relay req
  | RSignalingOpen q h => ignore (signaling_ws q h)
  | RSignaling me s => ignore (handle_signaling me s)
  | RLogin u ttl => ignore (issue_session u ttl)
  | RAuthenticate p s => ignore (admin_user cfg p s)
  | RLogout t => ignore (revoke_session t)
  | RLogoutAll u => ignore (revoke_all_sessions_for_user u)
  | RYggIssue u c ttl m => ignore (issue_yggdrasil_tokens u c ttl m)
  | RYggValidate a c => ignore (validate_yggdrasil a c)
  | RYggRefresh a c ttl m => ignore (refresh_yggdrasil a c ttl m)
  | RYggInvalidate a c => ignore (invalidate_yggdrasil a c)
  | RYggInvalidateAll u => ignore (invalidate_all_yggdrasil_for_user u)
  | RAccountLogin u p => ignore (Account.login cfg u p)
  | RAccountRegister u e p => ignore (Account.register cfg u e p)
  | RAccountRefresh a h => ignore (Account.refresh cfg a h)
  | RAccountLogout h => ignore (Account.logout cfg h)
  | RAccountMe a => ignore (Account.me a)
  | RAuthserverAuthenticate u p c q => ignore (YggService.authenticate cfg u p c q)
  | RAuthserverRefresh a c q s => ignore (YggService.refresh cfg a c q s)
  | RAuthserverValidate a c => ignore (YggService.validate a c)
  | RAuthserverInvalidate a c => ignore (YggService.invalidate a c)
  | RServerJoin a p s => ignore (YggService.join a p s)
  | RHasJoined u s i => ignore (YggService.has_joined cfg u s i)
  | RProfile u q => ignore (YggService.profile_by_uuid cfg u q)
  | RProfilesByName l => ignore (YggService.profiles_by_name l)
  | RAdmin r => serve_admin r
  | RAdminLogin u p => ignore (AdminUsers.login cfg valid admin_session_ttl u p)
  | RAdminLogout h => ignore (AdminUsers.logout cfg valid h)
  | RAdminMe a => ignore (AdminUsers.me a)
  | RBootstrapAdmin u p => ignore (ensure_bootstrap_admin u p)
  | RTextures r => Textures.serve_texture cfg r
  | RBundles r => BundleAdmin.serve_bundle cfg sql_text r
  | RCatalog r => CatalogAdmin.serve_catalog cfg r
  | RReconcile => ignore reconcile_after_restart
  | RCleanupSessions => ignore cleanup_expired_sessions
  | RCleanupYgg => ignore cleanup_expired_yggdrasil
  | RCleanupJoin f d => ignore (cleanup_stale_join_state f d)
  end.
End Service.

(** ** The schema's invariant *)

Section ServeSchema.
Context `{Lowercase} `{Primitives} `{PasswordHashing} `{UuidText} `{PayloadText} `{Signer}.
Context `{UuidParser} `{ZipReader} `{FormUrlencoded} `{Realpath}.
Context (cfg : Config) (valid : string → bool) (ttl : Duration) (sql_text : SqlError → string).

Lemma serve_schema r : prog_rel (db_rel schema_rel) (serve cfg valid ttl sql_text r).
Proof.
  destruct r; try match goal with r : relay_request |- _ => destruct r | r : AdminRequest |- _ => destruct r end;
    cbn [serve serve_relay serve_admin]; unfold admin_user, auth_user, revoke_session,
      revoke_all_sessions_for_user, validate_yggdrasil, refresh_yggdrasil, invalidate_yggdrasil,
      invalidate_all_yggdrasil_for_user, cleanup_expired_yggdrasil, Invites.incoming,
      Invites.outgoing, pending_approval, Account.me, AdminUsers.me;
    first [apply Textures.serve_texture_schema | apply BundleAdmin.serve_bundle_schema
          | apply CatalogSchema.serve_catalog_schema | prog_rel_go].
Qed.
End ServeSchema.

(** ** The hub's invariant *)

Section ServeHub.
Context `{Lowercase} `{Primitives} `{PasswordHashing} `{UuidText} `{PayloadText} `{Signer}.
Context `{UuidParser} `{ZipReader} `{FormUrlencoded} `{Realpath}.
Context (cfg : Config) (valid : string → bool) (ttl : Duration) (sql_text : SqlError → string).

Hint Unfold effective_status effective_status_for heartbeat set_status friends_with_presence
  broadcast_presence friend_ids mark_online mark_offline : handlers.
Hint Unfold create_request user_exists are_friends load_request accept_internal Friends.accept_tx
  Friends.incoming Friends.outgoing Friends.accept Friends.decline remove_friend
  fetch_user_dto : handlers.
Hint Unfold Worlds.create Worlds.update update_tx announce_policy Worlds.close close_tx
  close_world_cleanup load_open_world_session reconcile_after_restart : handlers.
Hint Unfold create_join_ticket create_join_request Join.incoming Join.accept Join.accept_tx
  Join.decline issue_ticket_and_relay issue_ticket_and_relay_tx host_effective_status may_join
  is_friend_of_active_member load_join_request generate_token : handlers.
Hint Unfold Invites.create Invites.incoming Invites.outgoing pending_approval Invites.accept
  Invites.accept_tx Invites.decline approve revoke invite_status recheck_chain load_invite
  list_by : handlers.
Hint Unfold bootstrap Users.me search spawn_event record_event : handlers.
Hint Unfold relay_ws validate_guest_ticket handle_relay try_admit_player release_player
  mark_relay_active mark_relay_closed broadcast_guest user_from_token : handlers.
Hint Unfold signaling_ws handle_signaling issue_session admin_user auth_user revoke_session
  revoke_all_sessions_for_user cleanup_expired_sessions : handlers.
Hint Unfold issue_yggdrasil_tokens random_64_hex eligible_pair validate_yggdrasil
  refresh_yggdrasil invalidate_yggdrasil invalidate_all_yggdrasil_for_user
  cleanup_expired_yggdrasil : handlers.
Hint Unfold hash_password random_profile_uuid dummy_password_hash reconcile_profile_uuid load_user
  find_by_minecraft_uuid find_by_profile_uuid equalize_timing authenticate_password
  assign_or_reconcile_profile_uuid admin_create_user register_user search_users search_users_all search_page update_user
  set_password block unblock set_blocked : handlers.
Hint Unfold list_users create_user get_user patch_user if_demoting delete_user block_user
  unblock_user reset_password revoke_tokens guard_last_admin ensure_bootstrap_admin
  AdminUsers.login AdminUsers.logout AdminUsers.me generate_csrf_token : handlers.
Hint Unfold auth_response Account.login Account.register Account.refresh Account.logout Account.me
  revoke_presented : handlers.
Hint Unfold YggService.authenticate YggService.refresh YggService.validate YggService.invalidate
  YggService.join has_joined profile_by_uuid profiles_by_name build_profile load_textures record
  take : handlers.
Hint Unfold Textures.lookup Textures.read_png Textures.resolve_user_id Textures.upload
  Textures.unlink_old Textures.delete_own Textures.delete_by_user Textures.unlink_removed
  Textures.list_kind Textures.admin_list Textures.admin_count Textures.admin_fetch_all
  Textures.delete_of Textures.orphans Textures.collect_orphans Textures.purge_missing
  Textures.purge_kind revision_hex write_file unlink_quiet read_file file_exists : handlers.
Hint Unfold cleanup_stale_join_state delete_aged_user_events : handlers.

Lemma friend_presences_hub rows : prog_rel hub_rel (friend_presences cfg rows).
Proof. induction rows; simpl; hub_go. Qed.

Lemma pipe_loop_hub fuel polls s : prog_rel hub_rel (pipe_loop fuel polls s).
Proof.
  revert polls s. induction fuel as [|fuel IH]; intros polls s; cbn [pipe_loop]; [exact I|].
  destruct (phase _), (incoming _) as [|m rest]; try destruct (po_ok _); try destruct (classify m);
    try exact I; try apply IH. hub_go.
Qed.

Lemma pipe_hub host guest polls : prog_rel hub_rel (pipe host guest polls).
Proof. apply pipe_loop_hub. Qed.

Lemma pump_hub rx script : prog_rel hub_rel (pump rx script).
Proof.
  induction script as [|[ok|[[]|]] script IH]; cbn [pump]; hub_go; try exact IH.
Qed.

Lemma delete_loop_hub fuel days chunk n :
  prog_rel hub_rel (delete_aged_user_events_in_chunks fuel days chunk n).
Proof.
  revert n. induction fuel; intros n; cbn [delete_aged_user_events_in_chunks]; hub_go; auto.
Qed.

Lemma keep_missing_hub rows : prog_rel hub_rel (Textures.keep_missing rows).
Proof. induction rows; cbn [Textures.keep_missing]; unfold file_exists; hub_go; done. Qed.

Lemma purge_rows_hub kind n rows : prog_rel hub_rel (Textures.purge_rows kind n rows).
Proof.
  revert n. induction rows; intros n; cbn [Textures.purge_rows]; unfold Textures.delete_by_user;
    hub_go; auto.
Qed.
Hint Resolve keep_missing_hub purge_rows_hub : handlers.

Lemma serve_texture_hub r : prog_rel hub_rel (Textures.serve_texture cfg r).
Proof. destruct r; cbn [Textures.serve_texture]; hub_go. Qed.

(** The bundles' programs, whose loops come first. *)
Hint Unfold BundleRepo.list_bundles BundleRepo.find_by_slug BundleRepo.find_bundle_id_by_slug
  BundleRepo.provision_bundle_row BundleRepo.ensure_bundle_dir BundleRepo.provision_bundle
  BundleRepo.require_by_slug BundleRepo.update_bundle_meta BundleRepo.bundle_slug_by_id
  BundleRepo.count_artifacts BundleRepo.delete_bundle_row BundleRepo.remove_bundle_dir
  BundleRepo.set_status BundleRepo.list_artifacts BundleRepo.find_artifact
  BundleRepo.upsert_artifact BundleRepo.upsert_artifact_chunk BundleRepo.upsert_scan
  BundleRepo.update_artifact BundleRepo.update_artifact_sha BundleRepo.set_download_once
  BundleRepo.delete_artifact BundleRepo.delete_artifacts_with_prefix BundleRepo.artifact_exists_at
  BundleRepo.any_artifact_with_prefix BundleRepo.update_artifact_path_tx BundleRepo.path_exists
  BundleRepo.move_on_disk BundleRepo.move_subtree BundleRepo.write_manifest_atomic
  BundleRepo.regenerate_manifest : handlers.
Hint Unfold BundleAdmin.stream_field_to_file BundleAdmin.resolved_bundle
  BundleAdmin.artifact_in_bundle BundleAdmin.resolved_entry BundleAdmin.regenerate
  BundleAdmin.create_build BundleAdmin.get_build BundleAdmin.update_build BundleAdmin.delete_build
  BundleAdmin.temp_upload BundleAdmin.drop_temp BundleAdmin.dropping BundleAdmin.ingest_archive
  BundleAdmin.or_failed BundleAdmin.ensure_dir BundleAdmin.upload_archive BundleAdmin.stage_upload
  BundleAdmin.hash_at BundleAdmin.modified_at BundleAdmin.upload_file BundleAdmin.create_folder
  BundleAdmin.delete_entry_rows BundleAdmin.unlink_entry BundleAdmin.delete_file
  BundleAdmin.toggle_download_once BundleAdmin.check_destination_free BundleAdmin.move_entry
  BundleAdmin.apply_move BundleAdmin.rename_file BundleAdmin.move_file BundleAdmin.move_files
  BundleAdmin.rehash_file BundleAdmin.bulk_delete BundleAdmin.validate BundleAdmin.regenerate_build
  BundleAdmin.get_manifest BundleAdmin.canonicalize BundleAdmin.serve_file : handlers.

Lemma upsert_rows_hub b es : prog_rel hub_rel (BundleRepo.upsert_rows b es).
Proof. induction es; cbn [BundleRepo.upsert_rows]; hub_go; auto. Qed.
Hint Resolve upsert_rows_hub : handlers.

Lemma upsert_chunks_hub b cs : prog_rel hub_rel (BundleRepo.upsert_chunks b cs).
Proof. induction cs; cbn [BundleRepo.upsert_chunks]; hub_go; auto. Qed.

Lemma move_children_hub old new l : prog_rel hub_rel (BundleRepo.move_children old new l).
Proof. induction l; cbn [BundleRepo.move_children]; hub_go; auto. Qed.

Lemma present_paths_hub root l : prog_rel hub_rel (BundleRepo.present_paths root l).
Proof. induction l; cbn [BundleRepo.present_paths]; hub_go; auto. Qed.

Lemma take_archive_hub dest l : prog_rel hub_rel (BundleAdmin.take_archive dest l).
Proof. induction l; cbn [BundleAdmin.take_archive]; hub_go; auto. Qed.

Lemma read_upload_parts_hub staged size target name l :
  prog_rel hub_rel (BundleAdmin.read_upload_parts staged size target name l).
Proof.
  revert size target name. induction l; intros; cbn [BundleAdmin.read_upload_parts]; hub_go; auto.
Qed.
Hint Resolve upsert_chunks_hub move_children_hub present_paths_hub take_archive_hub
  read_upload_parts_hub : handlers.

Lemma resolve_moves_hub b dir ids : prog_rel hub_rel (BundleAdmin.resolve_moves b dir ids).
Proof. induction ids; cbn [BundleAdmin.resolve_moves]; hub_go; auto. Qed.

Lemma run_moves_hub b root l : prog_rel hub_rel (BundleAdmin.run_moves b root l).
Proof. induction l; cbn [BundleAdmin.run_moves]; hub_go; auto. Qed.

Lemma resolve_entries_hub b ids : prog_rel hub_rel (BundleAdmin.resolve_entries b ids).
Proof. induction ids; cbn [BundleAdmin.resolve_entries]; hub_go; auto. Qed.

Lemma delete_all_rows_hub b l : prog_rel hub_rel (BundleAdmin.delete_all_rows b l).
Proof. induction l; cbn [BundleAdmin.delete_all_rows]; hub_go; auto. Qed.
Hint Resolve resolve_moves_hub run_moves_hub resolve_entries_hub delete_all_rows_hub : handlers.

Lemma serve_bundle_hub r : prog_rel hub_rel (BundleAdmin.serve_bundle cfg sql_text r).
Proof. destruct r; cbn [BundleAdmin.serve_bundle]; hub_go. Qed.
Hint Resolve serve_bundle_hub : handlers.

(** The catalog's programs. *)
Hint Unfold CatalogRepo.load_keyword_titles CatalogRepo.load_bundles CatalogRepo.load_client_relations
  CatalogRepo.load_all CatalogRepo.list_clients CatalogRepo.list_clients_admin CatalogRepo.load_client
  CatalogRepo.list_keywords CatalogRepo.load_keyword CatalogRepo.list_servers CatalogRepo.load_server
  CatalogRepo.get_client CatalogRepo.get_keyword CatalogRepo.get_server : handlers.
Hint Unfold CatalogAdmin.link_owned_bundle CatalogAdmin.linked_bundle
  CatalogAdmin.resolve_owned_bundle_slug CatalogAdmin.strand_old_bundle CatalogAdmin.remove_media_dir
  CatalogAdmin.require_client CatalogAdmin.create_client CatalogAdmin.update_tx
  CatalogAdmin.update_client CatalogAdmin.delete_tx CatalogAdmin.delete_client CatalogAdmin.store_media
  CatalogAdmin.upload_media CatalogAdmin.list_media CatalogAdmin.delete_media CatalogAdmin.set_published
  CatalogAdmin.create_keyword CatalogAdmin.delete_keyword CatalogAdmin.create_server
  CatalogAdmin.update_server CatalogAdmin.delete_server CatalogAdmin.attach_keyword
  CatalogAdmin.attach_server CatalogAdmin.detach_keyword CatalogAdmin.detach_server
  CatalogAdmin.canonicalize_media CatalogAdmin.read_media CatalogAdmin.serve_media : handlers.

Lemma write_client_locales_hub id ls : prog_rel hub_rel (CatalogAdmin.write_client_locales id ls).
Proof. induction ls; cbn [CatalogAdmin.write_client_locales]; hub_go; auto. Qed.

Lemma write_keyword_locales_hub id ls : prog_rel hub_rel (CatalogAdmin.write_keyword_locales id ls).
Proof. induction ls; cbn [CatalogAdmin.write_keyword_locales]; hub_go; auto. Qed.

Lemma unlink_urls_hub urls : prog_rel hub_rel (CatalogAdmin.unlink_urls cfg urls).
Proof. induction urls; cbn [CatalogAdmin.unlink_urls]; hub_go; auto. Qed.
Hint Resolve write_client_locales_hub write_keyword_locales_hub unlink_urls_hub : handlers.

Lemma serve_catalog_hub r : prog_rel hub_rel (CatalogAdmin.serve_catalog cfg r).
Proof. destruct r; cbn [CatalogAdmin.serve_catalog]; hub_go. Qed.
Hint Resolve serve_catalog_hub : handlers.

Hint Resolve serve_texture_hub friend_presences_hub pipe_hub pump_hub delete_loop_hub : handlers.

Lemma serve_hub r : prog_rel hub_rel (serve cfg valid ttl sql_text r).
Proof.
  destruct r; try match goal with r : relay_request |- _ => destruct r | r : AdminRequest |- _ => destruct r end;
    cbn [serve serve_relay serve_admin]; hub_go.
Qed.
End ServeHub.

(** ** Properties *)

Section ServiceProperties.
Context `{Lowercase} `{Primitives} `{PasswordHashing} `{UuidText} `{PayloadText} `{Signer}.
Context `{UuidParser} `{ZipReader} `{FormUrlencoded} `{Realpath}.

(** C1. The service's invariant. Whatever requests are served and background tasks run,
    however many at once and however their actions interleave, with any clocks, random
    values and database failures: if the database was well formed (unique keys, foreign
    keys, ordered friendships, at most one open world per host, one pending request and
    one active invite per pair, no negative player count) and so was the signaling hub,
    they still are. *)
Theorem service_invariant cfg valid ttl sql_text reqs st ps st' :
  rtc pool_step (map (serve cfg valid ttl sql_text) reqs, st) (ps, st') →
  schema_ok (st_db st) → hub_wf (st_signaling st) →
  schema_ok (st_db st') ∧ hub_wf (st_signaling st').
Proof.
  intros Hr S W. split.
  - destruct (pool_step_rel (db_rel schema_rel) _ _ Hr) as [L _]; [|exact (L S)].
    apply Forall_forall. intros p (r & -> & _)%list_elem_of_fmap. apply serve_schema.
  - destruct (pool_step_rel hub_rel _ _ Hr) as [L _]; [|exact (L W)].
    apply Forall_forall. intros p (r & -> & _)%list_elem_of_fmap. apply serve_hub.
Qed.
End ServiceProperties.

(** ** Concrete instances *)

(** ada asks cy for friendship and bob for a ticket while bob closes his world, cy connects,
    the hourly tick runs, an administrator blocks ada, dora registers and a bundle and a
    catalog client are created. *)
Definition busy : list Request :=
  [RFriendCreate 1 3; RJoinTicket 1 50; RWorldClose 2 50; RSignaling 3 [Received true; Incoming None];
   RCleanupJoin 3 30; RFriendsPresence 2; RAdmin (ABlock 1); RAccountRegister "dora" "dora@x.io" "pw";
   RBundles (BundleAdmin.BCreate (BundleAdmin.mkCreateBundle "Pack" "pack" None None));
   RCatalog (CatalogAdmin.CCreateClient (CatalogAdmin.mkUpsertClient "solo" true None None None None None None
     (Some true) [CatalogAdmin.mkLocaleInput "en" "Solo" None None] false false))].

Definition busy_run : list (prog unit) * AppState :=
  sched (calm_oracle 9) 0 (concat (replicate 16 [0; 1; 2; 3; 4; 5; 6; 7; 8; 9]))%nat
    (map (serve (H := ascii_lowercase) (H0 := toy_primitives) (H1 := toy_hashing) (H2 := hex_text)
            (H3 := plain_text) (H4 := toy_signer) (H5 := toy_parser) (H6 := toy_zip) (H7 := toy_form) (H8 := linked ∅) default_config (λ _, true) 0
            (λ _, "database")) busy, sample_state).

Lemma service_invariant_witness :
  (ws_status <$> world_sessions (st_db busy_run.2) !! 50%N) = Some Closed ∧
  map (λ r, Content.cc_slug (row r)) (select_rows (λ _ _, true) (Content.catalog_clients (content (st_db busy_run.2)))) = ["solo"] ∧
  @schema_ok ascii_lowercase (st_db busy_run.2) ∧ hub_wf (st_signaling busy_run.2).
Proof.
  split; [vm_compute; reflexivity|]. split; [vm_compute; reflexivity|].
  apply (service_invariant (H := ascii_lowercase) (H0 := toy_primitives) (H1 := toy_hashing)
           (H2 := hex_text) (H3 := plain_text) (H4 := toy_signer) (H5 := toy_parser) (H6 := toy_zip) (H7 := toy_form) (H8 := linked ∅) default_config (λ _, true) 0
           (λ _, "database") busy sample_state busy_run.1 busy_run.2).
  - rewrite <- surjective_pairing. apply sched_pool.
  - exact sample_schema_ok.
  - exact sample_hub_wf.
Defined.
