(* ===== verification/RequestLog.v ===== *)
(** * The request log

    [crates/core/src/request_log.rs] and [crates/server/src/request_log_capture.rs]: the
    middleware that describes every served request, the ring of the latest ones, the
    bounded channel and the task that writes batches into the table. The sink is a state
    of its own; what may happen to it is a list of events. *)

From S2P Require Import Prelude RustStr Errors Models Table Realtime Schema Prog Auth.
From S2P Require Import Config RateLimit.

Definition RING_CAPACITY : nat := 500.
Definition CHANNEL_CAPACITY : nat := 4096.
Definition BATCH_MAX : nat := 256.

(** Columns of an [INSERT]. *)
Definition COLS : nat := 10.

Record RequestLog : Type := mkRequestLog {
  rl_ts : Time;
  rl_method : string;
  rl_path : string;
  rl_status : Z;
  rl_latency_ms : Z;
  rl_user_id : option Uuid;
  rl_auth_kind : string;
  rl_ip : option IpAddr;
  rl_user_agent : option string;
  rl_bytes_out : option Z
}.

(** ** The ring *)

(** [VecDeque], oldest first. *)
Definition push_ring (log : RequestLog) (ring : list RequestLog) : list RequestLog :=
  (if (length ring =? RING_CAPACITY)%nat then tail ring else ring) ++ [log].

Definition recent (limit : nat) (ring : list RequestLog) : list RequestLog :=
  take limit (rev ring).

(** ** The sink and its writer *)

(** Where [writer_loop] is: waiting for the first row of a batch, lingering to fill it,
    inserting it, or finished. *)
Inductive WriterPhase : Type := Waiting | Lingering | Inserting | Finished.

#[export] Instance WriterPhase_eq_dec : EqDecision WriterPhase.
Proof. solve_decision. Defined.

(** [flushed]: the batches given to [insert_batch] so far, latest last, with its outcome. *)
Record Sink : Type := mkSink {
  ring : list RequestLog;
  channel : list RequestLog;
  open : bool;
  phase : WriterPhase;
  batch : list RequestLog;
  flushed : list (list RequestLog * bool)
}.

Definition sink_new : Sink := mkSink [] [] true Waiting [] [].

(** [record]: the ring always takes the record, the channel if it has room and its receiver
    lives; [try_send] never waits. *)
Definition accepts (s : Sink) : bool :=
  (length (channel s) <? CHANNEL_CAPACITY)%nat && negb (bool_decide (phase s = Finished)).

Definition record (log : RequestLog) (s : Sink) : Sink :=
  mkSink (push_ring log (ring s))
    (if accepts s then channel s ++ [log] else channel s)
    (open s) (phase s) (batch s) (flushed s).

Inductive SinkEvent : Type :=
| Served (log : RequestLog) (* a request was answered *)
| SendersGone               (* the last sender is dropped *)
| Recv                      (* the writer's [recv] is polled *)
| Deadline                  (* [BATCH_LINGER] has passed *)
| Insert (ok : bool).       (* [insert_batch] returns *)

(** The next batch is under way: full, or not yet. *)
Definition fill (log : RequestLog) (rest : list RequestLog) (s : Sink) : Sink :=
  let batch := batch s ++ [log] in
  mkSink (ring s) rest (open s)
    (if (length batch <? BATCH_MAX)%nat then Lingering else Inserting) batch (flushed s).

Definition set_phase (p : WriterPhase) (s : Sink) : Sink :=
  mkSink (ring s) (channel s) (open s) p (batch s) (flushed s).

(** An event the writer is not waiting for does nothing; [recv] on an empty channel waits
    while a sender lives and is over afterwards. *)
Definition sink_step (e : SinkEvent) (s : Sink) : Sink :=
  match e with
  | Served log => record log s
  | SendersGone => mkSink (ring s) (channel s) false (phase s) (batch s) (flushed s)
  | Recv =>
      match phase s, channel s with
      | (Waiting | Lingering), log :: rest => fill log rest s
      | Waiting, [] => if open s then s else set_phase Finished s
      | Lingering, [] => if open s then s else set_phase Inserting s
      | _, _ => s
      end
  | Deadline => if bool_decide (phase s = Lingering) then set_phase Inserting s else s
  | Insert ok =>
      if bool_decide (phase s = Inserting)
      then mkSink (ring s) (channel s) (open s) Waiting [] (flushed s ++ [(batch s, ok)])
      else s
  end.

Definition sink_run (es : list SinkEvent) (s : Sink) : Sink := fold_left (λ s e, sink_step e s) es s.

(** What the table holds: the rows of the batches whose insert succeeded. *)
Definition written (s : Sink) : list RequestLog :=
  concat (map fst (List.filter snd (flushed s))).

(** The rows of the batches whose insert failed: logged, and discarded. *)
Definition discarded (s : Sink) : list RequestLog :=
  concat (map fst (List.filter (λ b, negb b.2) (flushed s))).

(** ** The statement of a batch

    The numbers of the placeholders, row by row and column by column. *)
Definition placeholders (rows : nat) : list (list nat) :=
  map (λ row, let base := (row * COLS)%nat in map (λ col, (base + col + 1)%nat) (seq 0 COLS))
    (seq 0 rows).

(** ** Attribution *)

Section Capture.
Context `{Primitives} `{IpParser} (cfg : Config) (trusted_proxy : bool).

Definition kind_of (is_admin : bool) : string := if is_admin then "admin" else "session".

(** Any failure of the query reads as no session. *)
Definition resolve_principal (h : HeaderMap) : prog ResolvedPrincipal :=
  match session_token_from_headers h (admin_cookie_name cfg) with
  | None => Ret anon
  | Some token =>
      let* found := select (query_user_of_token (hash_token token)) in
      Ret (match found with
           | Ok (Some user) => mkPrincipal (Some (key user)) (kind_of (u_is_admin (row user)))
           | _ => anon
           end)
  end.

(** ** The middleware *)

Record Response : Type := mkResponse { status : Z; resp_headers : HeaderMap }.

Definition is_excluded (path : string) : bool :=
  (path =? "/health")%string || (path =? "/metrics")%string || (path =? "/signaling")%string
  || starts_with "/relay" path.

Definition content_length (h : HeaderMap) : option Z :=
  match h "content-length" with Some s => parse_i64 s | None => None end.

Definition header_string (h : HeaderMap) (name : string) : option string :=
  match h name with
  | Some s => if (s =? "")%string then None else Some s
  | None => None
  end.

(** The matched route's template, or the raw path. *)
Definition log_path (matched : option string) (uri_path : string) : string := default uri_path matched.

(** [elapsed().as_millis().min(i32::MAX)]; an [Instant] never goes back. *)
Definition latency_ms (started ended : Time) : Z :=
  Z.min (Z.max 0 (ended - started) / 1000) (2 ^ 31 - 1).

(** [as i16]. *)
Definition wrap_i16 (z : Z) : Z := ((z + 2 ^ 15) mod 2 ^ 16 - 2 ^ 15)%Z.

(** [next] is the rest of the service: it answers, and leaves the slot as an extractor
    filled it. The record the request adds to the sink, if it is not excluded, comes with
    the answer. *)
Definition capture (matched : option string) (uri_path method : string) (h : HeaderMap)
  (peer : option IpAddr) (next : prog (PrincipalSlot * Response))
  : prog (option RequestLog * Response) :=
  let path := log_path matched uri_path in
  if is_excluded path then let* '(_, response) := next in Ret (None, response)
  else
    let ip := client_ip h peer trusted_proxy in
    let user_agent := header_string h "user-agent" in
    let* started := utc_now in
    let* '(slot, response) := next in
    let* ended := utc_now in
    let latency := latency_ms started ended in
    let* principal :=
      match slot with Some resolved => Ret resolved | None => resolve_principal h end in
    let* now := utc_now in
    Ret (Some (mkRequestLog now method path (wrap_i16 (status response)) latency
                 (pr_user_id principal) (pr_auth_kind principal) ip user_agent
                 (content_length (resp_headers response))), response).
End Capture.

(** ** The table *)

(** [request_logs], by [id]. *)
Abbreviation LogTable := (list (Z * RequestLog)) (only parsing).

(** [BIGSERIAL]: the next id. *)
Definition insert_batch (next_id : Z) (batch : list RequestLog) (table : LogTable) : LogTable :=
  table ++ imap (λ i log, (next_id + Z.of_nat i, log)%Z) batch.

(** The rows kept by [DELETE ... WHERE ts < now() - days], and how many go. *)
Definition delete_request_logs_older_than (now : Time) (days : Z) (table : LogTable) : LogTable * nat :=
  let old := λ r : Z * RequestLog, (rl_ts r.2 <? now - secs (86400 * days))%Z in
  (List.filter (λ r, negb (old r)) table, length (List.filter old table)).

(** ** Lemmas *)

Lemma push_ring_suffix log r past :
  r = drop (length past - RING_CAPACITY) past →
  push_ring log r = drop (length (past ++ [log]) - RING_CAPACITY) (past ++ [log]).
Proof.
  intros ->. unfold push_ring. rewrite length_drop, length_app. simpl length.
  destruct (Nat.eqb_spec (length past - (length past - RING_CAPACITY)) RING_CAPACITY) as [E|E].
  - replace (length past + 1 - RING_CAPACITY)%nat with (S (length past - RING_CAPACITY)) by lia.
    rewrite drop_app_le by (unfold RING_CAPACITY in *; lia). f_equal.
    rewrite <- Nat.add_1_r, <- drop_drop. by destruct (drop _ past).
  - unfold RING_CAPACITY in *.
    replace (length past - 500)%nat with 0%nat by lia.
    replace (length past + 1 - 500)%nat with 0%nat by lia. done.
Qed.

(** Everything the channel ever took, in order. *)
Definition taken (s : Sink) : list RequestLog := concat (map fst (flushed s)) ++ batch s ++ channel s.

(** The record an event puts into the channel. *)
Definition accepted (s : Sink) (e : SinkEvent) : list RequestLog :=
  match e with Served log => if accepts s then [log] else [] | _ => [] end.

Lemma taken_step e s : (phase s = Waiting → batch s = []) →
  taken (sink_step e s) = taken s ++ accepted s e.
Proof.
  unfold taken. destruct s as [r ch o p b f]. intros Hb.
  destruct e as [log| | | |ok]; cbn [accepted]; rewrite ?app_nil_r; try done.
  - cbn. destruct (accepts _); by rewrite ?app_nil_r, ?app_assoc.
  - cbn [sink_step phase channel open batch flushed] in *.
    destruct p, ch as [|log rest]; cbn; try (by destruct o); try done.
    + by rewrite Hb.
    + by rewrite <- app_assoc.
  - cbn. by destruct (bool_decide _).
  - cbn. destruct (bool_decide _); [|done]. cbn. rewrite map_app, concat_app. cbn.
    by rewrite app_nil_r, <- app_assoc.
Qed.

Fixpoint accepted_run (es : list SinkEvent) (s : Sink) : list RequestLog :=
  match es with
  | [] => []
  | e :: es => accepted s e ++ accepted_run es (sink_step e s)
  end.

(** What holds of the sink at all times. *)
Record sink_ok (s : Sink) : Prop := {
  so_ring : (length (ring s) ≤ RING_CAPACITY)%nat;
  so_channel : (length (channel s) ≤ CHANNEL_CAPACITY)%nat;
  so_batch : (length (batch s) ≤ BATCH_MAX)%nat;
  so_room : phase s = Lingering → (0 < length (batch s) < BATCH_MAX)%nat;
  so_some : phase s = Inserting → batch s ≠ [];
  so_idle : phase s = Waiting ∨ phase s = Finished → batch s = [];
  so_flushed : Forall (λ b, b.1 ≠ [] ∧ (length b.1 ≤ BATCH_MAX)%nat) (flushed s)
}.

Lemma sink_new_ok : sink_ok sink_new.
Proof. split; cbn; try done; try lia. Qed.

Lemma push_ring_length log r :
  (length r ≤ RING_CAPACITY)%nat → (length (push_ring log r) ≤ RING_CAPACITY)%nat.
Proof.
  intros Hr. unfold push_ring. rewrite length_app. simpl length.
  destruct (Nat.eqb_spec (length r) RING_CAPACITY) as [E|E]; [|lia].
  destruct r; simpl in *; unfold RING_CAPACITY in *; lia.
Qed.

Lemma sink_step_ok e s : sink_ok s → sink_ok (sink_step e s).
Proof.
  destruct s as [r ch o p b f]. intros [R C B L I W F]. cbn in *.
  assert (HL : p = Lingering → b ≠ []).
  { intros P ->. specialize (L P). simpl in L. lia. }
  destruct e as [log| | | |ok]; cbn [sink_step ring channel open phase batch flushed].
  - split; cbn; try done; [by apply push_ring_length|].
    destruct (accepts _) eqn:A; [|done]. apply andb_true_iff in A as [A%Nat.ltb_lt _].
    rewrite length_app. cbn [channel length] in *. lia.
  - by split.
  - destruct p, ch as [|log rest]; try by split.
    + destruct o; [by split|]. split; cbn; auto; done.
    + unfold fill. cbn. rewrite (W ltac:(auto)). cbn. simpl in C.
      split; cbn; try done; try (unfold BATCH_MAX; lia); by intros [|].
    + destruct o; [by split|]. split; cbn; auto; try done; by intros [|].
    + specialize (L eq_refl). unfold fill. cbn [ring channel open phase batch flushed].
      rewrite length_app. cbn [length] in *.
      destruct (Nat.ltb_spec (length b + 1) BATCH_MAX);
        split; cbn; rewrite ?length_app; simpl; try done; try lia; try (by intros [|]).
      intros _ Hb. by apply app_nil in Hb as [_ Hb].
  - destruct (bool_decide_reflect (p = Lingering)) as [P|P]; [|by split].
    split; cbn; auto; try done; by intros [|].
  - destruct (bool_decide_reflect (p = Inserting)) as [P|P]; [|by split].
    split; cbn; try done; try (unfold BATCH_MAX; lia). apply Forall_app. split; [done|].
    apply Forall_singleton. split; [by apply I|done].
Qed.

Lemma sink_run_ok es s : sink_ok s → sink_ok (sink_run es s).
Proof. revert s. induction es as [|e es IH]; intros s Hs; [done|]. by apply IH, sink_step_ok. Qed.

Lemma taken_run es s : sink_ok s → taken (sink_run es s) = taken s ++ accepted_run es s.
Proof.
  revert s. induction es as [|e es IH]; intros s Hs; cbn [accepted_run]; [by rewrite app_nil_r|].
  cbn [sink_run fold_left]. fold (sink_run es (sink_step e s)). rewrite IH by by apply sink_step_ok.
  rewrite taken_step, app_assoc; [done|]. intros P. apply (so_idle _ Hs). auto.
Qed.

(** The rest of the service behind an extractor: what it answers depends on whether the
    caller was let through. *)
Definition guarded `{Primitives} (cfg : Config) (parts : Parts) (respond : AppResult (Keyed User) → Response)
  : prog (PrincipalSlot * Response) :=
  let* '(slot, r) := auth_user cfg parts None in Ret (slot, respond r).

Section Attribution.
Context `{Primitives} `{IpParser} (cfg : Config).

(** Whom a request stands for: the user its token authenticates. *)
Definition stands_for (h : HeaderMap) (now : Time) (db : Db) (p : ResolvedPrincipal) : Prop :=
  (∃ tok id u, session_token_from_headers h (admin_cookie_name cfg) = Some tok ∧
     authenticates tok now db id u ∧ p = mkPrincipal (Some id) (kind_of (u_is_admin u)))
  ∨ (∀ tok id u, session_token_from_headers h (admin_cookie_name cfg) = Some tok →
       ¬ authenticates tok now db id u) ∧ p = anon.

Lemma query_stands tok t db h :
  uniq sessions_token_hash_key (sessions db) →
  session_token_from_headers h (admin_cookie_name cfg) = Some tok →
  stands_for h (t_db t) db
    (match query_user_of_token (hash_token tok) t db with
     | Some user => mkPrincipal (Some (key user)) (kind_of (u_is_admin (row user)))
     | None => anon
     end).
Proof.
  intros U Htok. destruct (query_user_of_token _ t db) as [x|] eqn:Q.
  - apply query_user_of_token_auth in Q. left. by exists tok, (key x), (row x).
  - right. split; [|done]. intros tok' id u E A. rewrite Htok in E. injection E as <-.
    apply query_user_of_token_spec in A; [|done]. congruence.
Qed.

Lemma wp_resolve_principal h now st (Q : AppState → ResolvedPrincipal → Prop) :
  uniq sessions_token_hash_key (sessions (st_db st)) →
  (∀ p, stands_for h now (st_db st) p → Q st p) →
  wp (resolve_principal cfg h) (calm now) st Q.
Proof.
  intros U HQ. unfold resolve_principal.
  destruct (session_token_from_headers h _) as [tok|] eqn:E; cycle 1.
  { apply wp_ret, HQ. right. split; [|done]. intros tok id u E'. congruence. }
  apply wp_bind, wp_select. intros t (F & D & A). rewrite F. apply wp_ret.
  pose proof (query_stands tok t (st_db st) h U E) as P. rewrite D in P.
  destruct (query_user_of_token _ t (st_db st)) as [x|]; by apply HQ.
Qed.

Lemma headers_token parts tok src :
  session_token parts (admin_cookie_name cfg) = Some (tok, src) →
  session_token_from_headers (headers parts) (admin_cookie_name cfg) = Some tok.
Proof.
  unfold session_token, session_token_from_headers.
  destruct (bearer_token_from_headers _); simpl; [congruence|]. destruct (cookie_value _ _); congruence.
Qed.

Lemma wp_auth_slot parts now st (Q : AppState → PrincipalSlot * AppResult (Keyed User) → Prop) :
  uniq sessions_token_hash_key (sessions (st_db st)) →
  (∀ r, Q st (None, r)) →
  (∀ p r, stands_for (headers parts) now (st_db st) p → Q st (Some p, r)) →
  wp (auth_user cfg parts None) (calm now) st Q.
Proof.
  intros U HN HS. unfold auth_user.
  destruct (session_token parts _) as [[tok src]|] eqn:E; cycle 1.
  { apply wp_ret, HS. right. split; [|done]. intros tok id u E'. exfalso. revert E E'.
    unfold session_token, session_token_from_headers.
    destruct (bearer_token_from_headers _); [done|]. simpl. by destruct (cookie_value _ _). }
  destruct (if _ && _ then _ else _) as [[]|e]; [|by apply wp_ret].
  apply wp_bind, wp_user_from_token; [intros t (F & _); congruence|]. intros t (_ & D & _) _.
  apply headers_token in E. pose proof (query_stands tok t (st_db st) _ U E) as P. rewrite D in P.
  destruct (query_user_of_token _ t (st_db st)) as [x|]; apply wp_ret, HS; exact P.
Qed.
End Attribution.

(** ** Properties *)

Section RequestLogProperties.

(** Each flushed batch is either stored or discarded, and the stored ones keep their order. *)
Lemma flushed_split (f : list (list RequestLog * bool)) :
  let rows := λ g, concat (map fst (List.filter g f)) in
  concat (map fst f) ≡ₚ rows snd ++ rows (λ b, negb b.2) ∧ rows snd `sublist_of` concat (map fst f).
Proof.
  cbn. induction f as [|[b ok] f [P L]]; [by split|]. cbn. destruct ok; cbn.
  - split; [by rewrite P, app_assoc|by apply sublist_app].
  - split; [|by apply sublist_inserts_l]. rewrite P, !app_assoc. by rewrite (Permutation_app_comm b).
Qed.

(** Only the inserts that failed discard anything. *)
Lemma nothing_discarded es s :
  Insert false ∉ es → Forall (λ b, b.2 = true) (flushed s) →
  Forall (λ b, b.2 = true) (flushed (sink_run es s)).
Proof.
  revert s. induction es as [|e es IH]; intros s N F; [done|]. apply not_elem_of_cons in N as [Ne N].
  apply IH; [done|]. destruct s as [r ch o p b f]. cbn [flushed] in F.
  destruct e as [log| | | |[]]; cbn; try done.
  - destruct p, ch, o; done.
  - by destruct (bool_decide _).
  - destruct (bool_decide _); [|done]. cbn. apply Forall_app. split; [done|by apply Forall_singleton].
Qed.

Lemma all_stored (f : list (list RequestLog * bool)) :
  Forall (λ b, b.2 = true) f → List.filter snd f = f.
Proof. induction 1 as [|[b ok] f Hb _ IH]; [done|]. cbn in *. by rewrite Hb, IH. Qed.

(** C37. What becomes of a record. Whatever is served, however slowly the writer runs and
    however its inserts end: the channel leaves a record out only when it is full or the
    writer is gone; the records it took are, in order and each once, those of the batches
    given to an insert, then those of the batch under way, then those still in the channel;
    of the former, those of the inserts that succeeded are stored, in that order, and those
    of the inserts that failed are lost, and nothing else is, so that nothing the channel
    took is lost while no insert fails; and the ring, the channel and every batch stay within
    their capacity. *)
Theorem sink_keeps_order es :
  let s := sink_run es sink_new in
  let took := accepted_run es sink_new in
  took = concat (map fst (flushed s)) ++ batch s ++ channel s ∧
  took ≡ₚ written s ++ discarded s ++ batch s ++ channel s ∧
  (written s ++ batch s ++ channel s) `sublist_of` took ∧
  (Insert false ∉ es → took = written s ++ batch s ++ channel s) ∧
  (∀ log, accepted s (Served log) = [] →
     length (channel s) = CHANNEL_CAPACITY ∨ phase s = Finished) ∧
  (length (ring s) ≤ RING_CAPACITY)%nat ∧ (length (channel s) ≤ CHANNEL_CAPACITY)%nat ∧
  Forall (λ b, b.1 ≠ [] ∧ (length b.1 ≤ BATCH_MAX)%nat) (flushed s).
Proof.
  intros s took. pose proof (sink_run_ok es _ sink_new_ok) as O. fold s in O.
  assert (T : took = concat (map fst (flushed s)) ++ batch s ++ channel s)
    by exact (eq_sym (taken_run es sink_new sink_new_ok)).
  destruct (flushed_split (flushed s)) as [P L].
  split_and!; [exact T| | | | |apply O..].
  - rewrite T, P. by rewrite <- app_assoc.
  - rewrite T. by apply sublist_app.
  - intros N. rewrite T. unfold written. rewrite all_stored; [done|].
    apply nothing_discarded; [done|constructor].
  - intros log. unfold accepted, accepts. pose proof (so_channel _ O) as C.
    destruct (Nat.ltb_spec (length (channel s)) CHANNEL_CAPACITY); cbn [andb]; [|intros _; left; lia].
    destruct (bool_decide_reflect (phase s = Finished)); [by right|done].
Qed.

(** A round of the writer alone that writes one record. *)
Definition one_round : list SinkEvent := [Recv; Deadline; Insert true].

Definition writer_event (e : SinkEvent) : Prop := e = Recv ∨ e = Deadline ∨ e = Insert true.

Lemma written_insert (f : list (list RequestLog * bool)) (x : list RequestLog) :
  concat (map fst (List.filter snd (f ++ [(x, true)]))) = concat (map fst (List.filter snd f)) ++ x.
Proof. rewrite List.filter_app, map_app, concat_app. cbn. by rewrite app_nil_r. Qed.

Ltac writer := rewrite ?Forall_cons, ?Forall_nil; unfold writer_event; naive_solver.

Lemma drain_waiting s :
  phase s = Waiting → batch s = [] → ∃ es, Forall writer_event es ∧
  let s' := sink_run es s in
  channel s' = [] ∧ batch s' = [] ∧ phase s' = Waiting ∧ written s' = written s ++ channel s.
Proof.
  destruct s as [r ch o p b f]. cbn [phase batch channel]. intros -> ->.
  revert f. induction ch as [|log ch IH]; intros f.
  { exists []. split; [constructor|]. by rewrite app_nil_r. }
  destruct (IH (f ++ [([log], true)])) as (es & He & H1 & H2 & H3 & H4).
  exists (one_round ++ es). split.
  { apply Forall_app. split; [|done]. unfold one_round. writer. }
  unfold sink_run in *. rewrite fold_left_app. cbn [one_round fold_left].
  change (sink_step (Insert true) _) with (mkSink r ch o Waiting [] (f ++ [([log], true)])).
  rewrite H1, H2, H3, H4. repeat (split; [done|]). unfold written. cbn [flushed].
  rewrite (written_insert f [log]). by rewrite <- app_assoc.
Qed.

(** C38. The writer can always catch up. From every state of the sink in which it still runs, its own
    steps alone, if their inserts succeed, empty the channel and write every record that
    waits, in order, behind the ones already written. *)
Theorem sink_drains es :
  let s := sink_run es sink_new in
  phase s ≠ Finished → ∃ es', Forall writer_event es' ∧
  let s' := sink_run es' s in
  channel s' = [] ∧ batch s' = [] ∧ written s' = written s ++ batch s ++ channel s.
Proof.
  intros s Hp. pose proof (so_idle _ (sink_run_ok es _ sink_new_ok)) as W. fold s in W.
  assert (K : ∃ es0, Forall writer_event es0 ∧ let s' := sink_run es0 s in
    phase s' = Waiting ∧ batch s' = [] ∧ channel s' = channel s ∧ written s' = written s ++ batch s).
  { clearbody s. destruct s as [r ch o p b f]. cbn in *. destruct p; [| | |done].
    - exists []. rewrite W by auto. split; [constructor|]. by rewrite app_nil_r.
    - exists [Deadline; Insert true]. split; [writer|]. repeat (split; [done|]).
      apply written_insert.
    - exists [Insert true]. split; [writer|]. repeat (split; [done|]).
      apply written_insert. }
  destruct K as (es0 & F0 & P0 & B0 & C0 & W0).
  destruct (drain_waiting (sink_run es0 s) P0 B0) as (es1 & F1 & C1 & B1 & _ & W1).
  exists (es0 ++ es1). split; [by apply Forall_app|]. unfold sink_run in *. rewrite fold_left_app.
  cbv zeta. rewrite C1, B1, W1, W0, C0. by rewrite <- app_assoc.
Qed.

(** The records served, in order. *)
Definition served (es : list SinkEvent) : list RequestLog :=
  omap (λ e, match e with Served log => Some log | _ => None end) es.

Lemma ring_step e s :
  ring (sink_step e s) = match e with Served log => push_ring log (ring s) | _ => ring s end.
Proof.
  destruct s as [r ch o p b f], e as [log| | | |ok]; cbn; try done; try by destruct (bool_decide _).
  by destruct p, ch, o.
Qed.

Lemma ring_served es : ring (sink_run es sink_new) = drop (length (served es) - RING_CAPACITY) (served es).
Proof.
  induction es as [|e es IH] using rev_ind; [done|]. unfold sink_run in *. rewrite fold_left_app.
  unfold served in *. rewrite omap_app. cbn [fold_left]. rewrite ring_step.
  destruct e as [log| | | |ok]; cbn [omap list_omap]; rewrite ?app_nil_r; try exact IH.
  by apply push_ring_suffix.
Qed.

(** The live tail. Whatever happened, asking for the latest [limit] records answers the
    latest served ones, newest first, as many as asked for and at most five hundred. *)
Theorem recent_is_latest es limit :
  recent limit (ring (sink_run es sink_new)) = take (min limit RING_CAPACITY) (rev (served es)).
Proof.
  unfold recent. rewrite ring_served, <- take_take. f_equal.
  symmetry. apply List.firstn_rev.
Qed.

Lemma placeholders_concat rows : concat (placeholders rows) = seq 1 (rows * COLS).
Proof.
  unfold placeholders. induction rows as [|rows IH]; [done|].
  rewrite seq_S, map_app, concat_app, IH. cbn [map concat Nat.add]. rewrite app_nil_r.
  replace (S rows * COLS)%nat with (rows * COLS + COLS)%nat by (unfold COLS; lia). rewrite seq_app. f_equal.
  rewrite <- (Nat.add_0_r (1 + rows * COLS)), <- fmap_add_seq. apply map_ext. intros col. lia.
Qed.

(** A batch's statement numbers its parameters as they are bound: row after row, ten to
    a row, from 1 on without a gap; and a batch of any size the writer makes stays within
    the 65535 parameters that Postgres allows. *)
Theorem placeholders_exact rows :
  concat (placeholders rows) = seq 1 (rows * COLS) ∧
  length (placeholders rows) = rows ∧ Forall (λ r, length r = COLS) (placeholders rows) ∧
  ((rows ≤ BATCH_MAX)%nat → Forall (λ n, Z.of_nat n ≤ 65535)%Z (concat (placeholders rows))).
Proof.
  split; [apply placeholders_concat|]. split; [unfold placeholders; by rewrite length_map, length_seq|]. split.
  { apply Forall_forall. intros r (i & -> & _)%list_elem_of_fmap. by rewrite length_map, length_seq. }
  intros Hr. rewrite placeholders_concat. apply Forall_forall. intros n Hn%elem_of_seq.
  unfold COLS, BATCH_MAX in *. lia.
Qed.
End RequestLogProperties.

Section AuditProperties.
Context `{Primitives} `{IpParser} (cfg : Config) (trusted_proxy : bool).

(** C36. The log names the right user. A request behind an extractor that is logged is attributed to
    the user its token authenticates, as [admin] or [session], and to nobody, as [anon],
    if there is none: whether the extractor let it through, refused it or stopped it for
    the missing CSRF token, and although only the last case queries for it again. (No
    statement fails, and the clocks read one instant.) *)
Theorem audit_attribution matched uri_path parts m peer respond now o st st' log resp :
  uniq sessions_token_hash_key (sessions (st_db st)) → (∀ i, calm now (o i)) →
  exec (capture cfg trusted_proxy matched uri_path m (headers parts) peer
          (guarded cfg parts respond)) o st
  = (st', (log, resp)) →
  st' = st ∧
  (log = None ↔ is_excluded (log_path matched uri_path) = true) ∧
  ∀ l, log = Some l → rl_path l = log_path matched uri_path ∧
    stands_for cfg (headers parts) now (st_db st) (mkPrincipal (rl_user_id l) (rl_auth_kind l)).
Proof.
  intros U Ho Hex. exec_start Hex (calm now). unfold capture, guarded.
  destruct (is_excluded _).
  { apply wp_bind, wp_bind, wp_auth_slot; [done|..]; intros; repeat apply wp_ret; intros [= <- <-];
    (split; [done|]); (split; [done|]); by intros l. }
  apply wp_bind, wp_utc_now. intros t1 _. apply wp_bind, wp_bind, wp_auth_slot; [done|..].
  - intros r. apply wp_ret. cbn [fst snd]. apply wp_bind, wp_utc_now. intros t2 _.
    apply wp_bind, wp_resolve_principal; [done|]. intros p Hp. apply wp_bind, wp_utc_now.
    intros t3 _. apply wp_ret. intros [= <- <-]. split; [done|]. split; [done|]. intros l [= <-]. split; [done|].
    cbn. by destruct p.
  - intros p r Hp. apply wp_ret. cbn [fst snd]. apply wp_bind, wp_utc_now. intros t2 _.
    apply wp_bind, wp_ret, wp_bind, wp_utc_now.
    intros t3 _. apply wp_ret. intros [= <- <-]. split; [done|]. split; [done|]. intros l [= <-]. split; [done|].
    cbn. by destruct p.
Qed.
End AuditProperties.

(** ** Concrete instances *)

Definition sample_log (path : string) : RequestLog :=
  mkRequestLog 0 "GET" path 200 1 None "anon" None None None.

(** Two requests are served, the writer takes one and lingers. *)
Definition sample_events : list SinkEvent := [Served (sample_log "/a"); Recv; Served (sample_log "/b")].

Lemma sink_drains_witness :
  phase (sink_run sample_events sink_new) = Lingering ∧
  ∃ es', written (sink_run es' (sink_run sample_events sink_new)) = [sample_log "/a"; sample_log "/b"].
Proof.
  split; [reflexivity|].
  destruct (sink_drains sample_events) as (es' & _ & _ & _ & W); [vm_compute; discriminate|].
  exists es'. rewrite W. reflexivity.
Defined.

Definition no_ip : IpParser := λ _, None.

(** A cookie request with the wrong CSRF token, refused, and logged as the user's. *)
Lemma audit_attribution_witness :
  let r := exec (capture (H := toy_primitives) (H0 := no_ip) default_config false (Some "/api/x") "/api/x"
             "POST" (headers (cookie_post "k2")) None
             (guarded (H := toy_primitives) default_config (cookie_post "k2")
                (λ r, mkResponse (if is_ok r then 200 else 403) (λ _, None)))) (calm_oracle 6) st_ada_abc in
  status r.2.2 = 403%Z ∧
  ∃ l, r.2.1 = Some l ∧
    stands_for (H := toy_primitives) default_config (headers (cookie_post "k2")) 6 (st_db st_ada_abc)
      (mkPrincipal (rl_user_id l) (rl_auth_kind l)).
Proof.
  intros r. split; [vm_compute; reflexivity|].
  destruct (audit_attribution (H := toy_primitives) (H0 := no_ip) default_config false (Some "/api/x") "/api/x"
    (cookie_post "k2") "POST" None (λ r, mkResponse (if is_ok r then 200 else 403) (λ _, None)) 6
    (calm_oracle 6) st_ada_abc r.1 r.2.1 r.2.2) as (_ & _ & L).
  - apply uniqb_sound. vm_compute. reflexivity.
  - apply calm_oracle_calm.
  - unfold r. by destruct (exec _ _ _) as [? []].
  - destruct r.2.1 as [l|] eqn:E; [|exfalso; revert E; vm_compute; discriminate].
    exists l. split; [reflexivity|]. by apply L.
Defined.
