(* ===== verification/Lifecycle.v ===== *)
(** * The life of the process

    [server/main.rs]: what happens to the stored state between two runs of the server, the
    part of the start-up that works on the database, and the hourly task. A history is any
    sequence of requests being served, of crashes at any moment, and of start-ups that fail
    or succeed. *)

From S2P Require Import Prelude RustStr Errors Models Table Realtime Schema Prog Auth YggTokens.
From S2P Require Import Invariant AuthSchema Worlds Relay Cleanup Payload Identity AdminUsers YggService.
From S2P Require Import RequestLog Service.
From S2P Require Textures BundleTree CatalogRepo CatalogReads.

Import Textures (UuidParser, toy_parser).
Import BundleTree (ZipReader, toy_zip, Realpath, linked).
Import CatalogRepo (FormUrlencoded).
Import CatalogReads (toy_form).

(** ** Start-up *)

(** [AppState::new]: the database and the files outlive the process, its memory does not. *)
Definition AppState_new (st : AppState) : AppState :=
  mkState (st_db st) signaling_new relay_new metrics_new ∅ (st_files st) (st_tree st).

Section Startup.
Context `{Lowercase} `{PasswordHashing} `{UuidText}.

(** From the connection to the database on; [Err] ends the process. *)
Definition start_up (bootstrap_username : string) (bootstrap_password : option string)
  : prog (AppResult bool) :=
  do? reconcile_after_restart;
  ensure_bootstrap_admin bootstrap_username bootstrap_password.

(** ** Rules *)

Definition some_is_admin (db : Db) : Prop := ∃ k u, users db !! k = Some u ∧ u_is_admin u = true.

(** The accounts are the only table a successful [ensure_bootstrap_admin] touches, and with a
    password there is an administrator afterwards. *)
Lemma wp_bootstrap username password T st (Q : AppState → AppResult bool → Prop) :
  (∀ e, Q st (Err e)) →
  (∀ U made, (password ≠ None → some_is_admin (set_users U (st_db st))) →
     Q (set_db (set_users U (st_db st)) st) (Ok made)) →
  wp (ensure_bootstrap_admin username password) T st Q.
Proof.
  intros HE HOk. unfold ensure_bootstrap_admin.
  assert (Same : ∀ made, (password ≠ None → some_is_admin (st_db st)) → Q st (Ok made)).
  { intros made K. specialize (HOk (users (st_db st)) made).
    assert (E : set_users (users (st_db st)) (st_db st) = st_db st) by (by destruct (st_db st)).
    rewrite E, set_db_same in HOk. by apply HOk. }
  apply wp_bind_ok, wp_select. intros t _. destruct (t_fault t); [apply HE|].
  destruct (exists_row _ _) eqn:X.
  { apply wp_ret, Same. intros _. apply exists_row_true in X as (k & u & Hk & Hu). by exists k, u. }
  destruct password as [password|]; [|by apply wp_ret, Same].
  apply wp_bind_ok, wp_select. intros t1 _. destruct (t_fault t1); [apply HE|].
  destruct (find_user _ _) as [x|].
  - unfold update_user. apply wp_bind_ok, wp_bind_ok. unfold prog_map. apply wp_bind, wp_sql. intros t2 _.
    destruct (t_fault t2); [apply wp_ret, HE|]. unfold update_user_row.
    destruct (users (st_db st) !! key x) as [u|] eqn:Hu.
    + destruct (update_row _ _ _ _) as [m|c] eqn:E; [|apply wp_ret, HE].
      apply update_row_ok in E as [-> _]. cbn. repeat wp_step. cbn [ok_or]. repeat wp_step.
      apply HOk. intros _. eexists (key x), _. split; [apply lookup_insert_eq|done].
    + cbn. repeat wp_step. rewrite set_db_same. apply HE.
  - apply wp_bind_ok. unfold admin_create_user. cbn [ac_username ac_email ac_password ac_minecraft_uuid ac_is_admin].
    destruct (trim username =? "")%string; [apply wp_ret, HE|].
    destruct (trim _ =? "")%string; [apply wp_ret, HE|].
    apply wp_bind_ok, wp_ret. destruct (check_password_len password) as [[]|e]; [|apply HE].
    apply wp_bind_ok, wp_hash_password; [apply HE|]. intros hash _. apply wp_bind_ok.
    unfold reconcile_profile_uuid, random_profile_uuid. cbn [fmap option_fmap option_map]. repeat wp_step.
    destruct (t_fault t2); [repeat wp_step; apply HE|]. unfold insert_user.
    destruct (insert_row _ _ _ _ _) as [m|e] eqn:E; [|repeat wp_step; apply HE].
    apply insert_row_ok in E as (_ & -> & _). cbn. repeat wp_step. apply HOk. intros _.
    eexists _, _. split; [apply lookup_insert_eq|done].
Qed.

(** The relay sessions are closed and the open worlds empty. *)
Definition reconciled_db (now : Time) (db : Db) : Db :=
  let db := set_relay_sessions (update_where (λ _ r, negb (rs_status r =? "closed")%string)
              (close_relay now) (relay_sessions db)) db in
  set_world_sessions (update_where (λ _ w, is_open (ws_status w)) zero_players (world_sessions db)) db.

Lemma wp_start_up username password T st (Q : AppState → AppResult bool → Prop) :
  (∀ st' e, Q st' (Err e)) →
  (∀ now U made, let db := set_users U (reconciled_db now (st_db st)) in
     (password ≠ None → some_is_admin db) → Q (set_db db st) (Ok made)) →
  wp (start_up username password) T st Q.
Proof.
  intros HE HOk. unfold start_up, reconcile_after_restart. apply wp_bind_ok, wp_bind_ok, wp_sql_app.
  intros t _. destruct (t_fault t); [apply HE|]. apply wp_bind_ok, wp_sql_app. intros t1 _.
  destruct (t_fault t1); [apply HE|]. apply wp_ret. apply wp_bootstrap; [by intros e; apply HE|].
  intros U made K. exact (HOk (t_db t) U made K).
Qed.
End Startup.

(** ** Histories *)

(** A server that answers requests, or none. *)
Inductive Process : Type :=
| Running (st : AppState)
| Stopped (st : AppState).

Section Histories.
Context `{Lowercase} `{Primitives} `{PasswordHashing} `{UuidText} `{PayloadText} `{Signer}.
Context `{UuidParser} `{ZipReader} `{FormUrlencoded} `{Realpath}.
Context (cfg : Config) (valid : string → bool) (ttl : Duration) (sql_text : SqlError → string).
Context (username : string) (password : option string).

(** Requests are served in any number and interleaving and may be abandoned anywhere; the
    process may end between any two actions, during the start-up too. *)
Inductive life_step : Process → Process → Prop :=
| life_serve reqs st ps st' :
    rtc pool_step (map (serve cfg valid ttl sql_text) reqs, st) (ps, st') →
    life_step (Running st) (Running st')
| life_crash st : life_step (Running st) (Stopped (AppState_new st))
| life_start o st st' made :
    exec (start_up username password) o st = (st', Ok made) → life_step (Stopped st) (Running st')
| life_gave_up st ps st' :
    rtc pool_step ([start_up username password], st) (ps, st') →
    life_step (Stopped st) (Stopped (AppState_new st')).

Lemma start_up_schema : prog_rel (db_rel schema_rel) (start_up username password).
Proof. unfold start_up. prog_rel_go. Qed.

Definition alive_ok (p : Process) : Prop :=
  match p with
  | Running st => schema_ok (st_db st) ∧ hub_wf (st_signaling st)
  | Stopped st => schema_ok (st_db st) ∧ st_signaling st = signaling_new
  end.

Lemma start_up_ok o st st' made :
  exec (start_up username password) o st = (st', Ok made) → schema_ok (st_db st) → schema_ok (st_db st').
Proof.
  intros E. unfold exec in E. destruct (run _ o 0 st) as [[n st1] r] eqn:R. simplify_eq.
  exact (prog_rel_run (db_rel schema_rel) _ _ _ _ _ _ _ start_up_schema R).
Qed.

Lemma life_step_ok p p' : life_step p p' → alive_ok p → alive_ok p'.
Proof.
  destruct 1 as [reqs st ps st' R|st|o st st' made E|st ps st' R]; intros [S W]; cbn [alive_ok] in *.
  - split.
    + destruct (pool_step_rel (db_rel schema_rel) _ _ R) as [L _]; [|exact (L S)].
      apply Forall_forall. intros p (r & -> & _)%list_elem_of_fmap. apply serve_schema.
    + destruct (pool_step_rel hub_rel _ _ R) as [L _]; [|exact (L W)].
      apply Forall_forall. intros p (r & -> & _)%list_elem_of_fmap. apply serve_hub.
  - done.
  - split; [by eapply start_up_ok|]. exec_start E any_tick.
    apply wp_start_up; [done|]. intros now U made' db _ _. cbn. rewrite W. apply hub_wf_new.
  - split; [|done]. destruct (pool_step_rel (db_rel schema_rel) _ _ R) as [L _]; [|exact (L S)].
    constructor; [apply start_up_schema|constructor].
Qed.

Lemma life_ok p p' : rtc life_step p p' → alive_ok p → alive_ok p'.
Proof. induction 1; [done|]. intros A. eauto using life_step_ok. Qed.

(** C2. A restart leaves no ghosts. Whatever was served and however often the process crashed
    or failed to start since the database was well formed: once a start-up succeeds the
    database is well formed again, no relay session is open, every open world is empty and
    otherwise as it was, nobody is connected, and there is an administrator if a password for one is
    configured. From there on relay traffic never takes an open world above its maximum (if that is not
    negative). *)
Theorem restart_leaves_no_ghosts st0 st o st' made :
  schema_ok (st_db st0) →
  rtc life_step (Stopped (AppState_new st0)) (Stopped st) →
  exec (start_up username password) o st = (st', Ok made) →
  schema_ok (st_db st') ∧ st_signaling st' = signaling_new ∧
  (∀ k r, relay_sessions (st_db st') !! k = Some r → rs_status r = "closed") ∧
  (∀ k, world_sessions (st_db st') !! k =
     (λ w, if is_open (ws_status w) then zero_players w else w) <$> world_sessions (st_db st) !! k) ∧
  (password ≠ None → some_is_admin (st_db st')) ∧
  (∀ reqs ps st'' k w, rtc pool_step (map serve_relay reqs, st') (ps, st'') →
     world_sessions (st_db st') !! k = Some w → is_open (ws_status w) = true → (0 ≤ ws_max_players w)%Z →
     ∃ w'', world_sessions (st_db st'') !! k = Some w'' ∧
       (0 ≤ ws_current_players w'' ≤ ws_max_players w)%Z).
Proof.
  intros S L E. destruct (life_ok _ _ L) as [S1 N]; [by split|]. split; [by eapply start_up_ok|].
  clear S L S1. exec_start E any_tick. apply wp_start_up; [done|]. intros now U made' db K [= ->].
  assert (Wo : ∀ k, world_sessions db !! k =
    (λ w, if is_open (ws_status w) then zero_players w else w) <$> world_sessions (st_db st) !! k)
    by (intros k; apply lookup_update_where).
  split_and!; [done| |done|done|].
  - intros k r Hk. apply lookup_update_where_Some in Hk as (r0 & _ & ->).
    destruct (String.eqb_spec (rs_status r0) "closed"); done.
  - intros reqs ps st'' k w R Hw O M. cbn [st_db set_db] in Hw.
    destruct (pool_step_rel (db_rel capacity_rel) _ _ R) as [C _].
    { apply Forall_forall. intros p (req & -> & _)%list_elem_of_fmap. apply serve_relay_capacity. }
    destruct (C k w Hw) as (w'' & Hk'' & _ & _ & Mx & _ & B). exists w''. split; [done|]. rewrite <- Mx. apply B.
    rewrite Wo in Hw. destruct (world_sessions (st_db st) !! k) as [w0|]; [|done]. injection Hw as <-.
    destruct (is_open (ws_status w0)) eqn:O0; [|congruence]. cbn in *. lia.
Qed.
End Histories.

(** ** The hourly task *)

(** One round of [spawn_cleanup_tasks] on the state and the table of the request log; every step
    goes on whatever the one before answered. [log_now] is [None] when the statement on the
    log fails. *)
Definition hourly_pass (fuel : nat) (retention_days event_retention_days : Z) (o1 o2 : nat → Tick)
  (log_now : option Time) (st : AppState) (table : LogTable) : AppState * LogTable :=
  let st := (exec (do* cleanup_expired_yggdrasil; cleanup_expired_sessions) o1 st).1 in
  let table :=
    match log_now with
    | Some now => (delete_request_logs_older_than now retention_days table).1
    | None => table
    end in
  ((exec (cleanup_stale_join_state fuel event_retention_days) o2 st).1, table).

(** The history the last step looks at. *)
Definition spares_history (db db' : Db) : Prop :=
  join_requests db' = join_requests db ∧ user_events db' = user_events db.

#[export] Instance spares_history_preorder : PreOrder spares_history.
Proof. split; [by split|]. intros a b c [H1 H2] [H3 H4]. split; congruence. Qed.

Lemma token_steps_spare : prog_rel (db_rel spares_history) (do* cleanup_expired_yggdrasil; cleanup_expired_sessions).
Proof.
  unfold cleanup_expired_yggdrasil, cleanup_expired_sessions. prog_rel_go; intros t db db' b [= <- <-]; by split.
Qed.

(** No failure stops the round. Whatever happened to the steps on tokens, sessions and the
    log, when the database answers the last step, the settled join requests and the events
    that were there before the round are thinned out as they are without the others; and a
    log that could be cleaned holds no row older than its retention. *)
Theorem hourly_pass_goes_on fuel days event_days cut now o1 o2 log_now st table st' table' :
  hourly_pass fuel days event_days o1 o2 log_now st table = (st', table') →
  (∀ i, calm now (o2 i)) → cutoff event_days now = Ok cut →
  count_rows (aged cut) (user_events (st_db st)) < fuel →
  (∀ k, join_requests (st_db st') !! k = join_requests (st_db st) !! k ≫= kept_join_request cut now) ∧
  (∀ k e, user_events (st_db st') !! k = Some e ↔
     user_events (st_db st) !! k = Some e ∧ (cut ≤ ue_created_at e)%Z) ∧
  (∀ n r, log_now = Some n → r ∈ table' → (n - secs (86400 * days) ≤ rl_ts r.2)%Z).
Proof.
  unfold hourly_pass. intros E Ho Hc Hf. destruct (exec (bind _ _) o1 st) as [st1 r1] eqn:E1. cbn [fst] in E.
  assert (S : spares_history (st_db st) (st_db st1)).
  { unfold exec in E1. destruct (run _ o1 0 st) as [[n st2] r] eqn:R. simplify_eq.
    exact (prog_rel_run (db_rel spares_history) _ _ _ _ _ _ _ token_steps_spare R). }
  destruct S as [S1 S2]. destruct (exec (cleanup_stale_join_state _ _) o2 st1) as [st2 r2] eqn:E2.
  injection E as <- <-. cbn [fst]. rewrite <- S1, <- S2. rewrite <- S2 in Hf. split; [|split].
  - exec_start E2 (calm now). apply (wp_cleanup fuel event_days cut); [done..|]. intros _ _. apply cleaned_join_requests.
  - exec_start E2 (calm now). apply (wp_cleanup fuel event_days cut); [done..|]. intros _ _ k e.
    cbn. rewrite lookup_delete_where_Some. unfold aged. by rewrite Z.ltb_ge.
  - intros n r -> Hr. apply list_elem_of_In, List.filter_In in Hr as [_ Hr]. bool_simpl. done.
Qed.

(** ** A concrete history

    The server starts and makes its administrator, ada gets a ticket for bob's world, which opens
    a relay session, and the process is killed. *)

Abbreviation boot := (start_up (H := ascii_lowercase) (H0 := toy_hashing) (H1 := hex_text) "root" (Some "long enough"))
  (only parsing).

Definition first_start : AppState * AppResult bool := exec boot (calm_oracle 5) (AppState_new sample_state).

Definition first_run : list (prog unit) * AppState :=
  sched (calm_oracle 9) 0 (replicate 16 0)
    (map (serve (H := ascii_lowercase) (H0 := toy_primitives) (H1 := toy_hashing) (H2 := hex_text)
            (H3 := plain_text) (H4 := toy_signer) (H5 := toy_parser) (H6 := toy_zip) (H7 := toy_form) (H8 := linked ∅) default_config (λ _, true) 0
            (λ _, "database")) [RJoinTicket 1 50], first_start.1).

Definition killed : AppState := AppState_new first_run.2.

Lemma restart_leaves_no_ghosts_witness :
  map (λ r, rs_status (row r)) (select_rows (λ _ _, true) (relay_sessions (st_db killed))) = ["pending"] ∧
  let st' := (exec boot (calm_oracle 20) killed).1 in
  map (λ r, rs_status (row r)) (select_rows (λ _ _, true) (relay_sessions (st_db st'))) = ["closed"] ∧
  some_is_admin (st_db st').
Proof.
  split; [vm_compute; reflexivity|]. split; [vm_compute; reflexivity|].
  apply (restart_leaves_no_ghosts (H := ascii_lowercase) (H0 := toy_primitives) (H1 := toy_hashing)
           (H2 := hex_text) (H3 := plain_text) (H4 := toy_signer) (H5 := toy_parser) (H6 := toy_zip) (H7 := toy_form) (H8 := linked ∅)
           default_config (λ _, true) 0 (λ _, "database") "root" (Some "long enough") sample_state killed
           (calm_oracle 20) _ false).
  - exact sample_schema_ok.
  - apply (rtc_l _ _ (Running first_start.1)).
    { apply (life_start _ _ _ _ _ _ (calm_oracle 5) _ _ true). vm_compute. reflexivity. }
    apply (rtc_l _ _ (Running first_run.2)); [|by apply rtc_once, life_crash].
    apply (life_serve _ _ _ _ _ _ [RJoinTicket 1 50] _ first_run.1). rewrite <- surjective_pairing. apply sched_pool.
  - vm_compute. reflexivity.
  - done.
Defined.
