(* ===== verification/Pipeline.v ===== *)
(** * A request's way through the server

    [server/main.rs], the layers around the router: what a request meets from the outside in
    is the path's normalisation, the tracing span, the cross-origin layer, the limiter, the
    request log and the route with its handler; every answer leaves through the header
    layer. The state is what these share: the limiter's buckets, the service's state and
    the log's sink. *)

From S2P Require Import Prelude RustStr Errors Models Table Realtime Schema Prog Auth.
From S2P Require Import Invariant Config RateLimit Payload YggService RequestLog Server.

(** ** Requests *)

Record HttpRequest : Type := mkHttpRequest {
  rq_method : Method;
  rq_path : string;
  rq_query : option string;
  rq_headers : HeaderMap;
  rq_peer : IpAddr;        (* [ConnectInfo], which the listener always supplies *)
  rq_body : string
}.

Definition method_str (m : Method) : string :=
  match m with
  | GET => "GET" | HEAD => "HEAD" | OPTIONS => "OPTIONS" | POST => "POST" | PUT => "PUT"
  | PATCH => "PATCH" | DELETE => "DELETE"
  end.

(** [make_redacted_span]: its fields, but for the protocol's version. *)
Definition make_redacted_span (request : HttpRequest) : list (string * string) :=
  [("method", method_str (rq_method request)); ("path", rq_path request)].

(** ** Error answers *)

Section Bodies.
Context `{PayloadText}.

Definition json_type : HeaderMap := λ n, if (n =? "content-type")%string then Some "application/json" else None.

(** [AppError::into_response]: status, headers and the text of the body. *)
Definition into_response (e : AppError) : Response * string :=
  let '(status, code, message) := parts e in
  (mkResponse status json_type,
   object [Some (field "error"
     (object [Some (field "code" (json_string code)); Some (field "message" (json_string message))]))]).

(** [YggError::into_response]; a cause is never given. *)
Definition ygg_into_response (e : YggError) : Response * string :=
  let '(status, error, error_message) := ygg_parts e in
  (mkResponse status json_type,
   object [Some (field "error" (json_string error)); Some (field "errorMessage" (json_string error_message)); None]).
End Bodies.

(** ** The layers *)

(** What the web framework does between the layers: the normalisation of a path, the
    cross-origin layer's own answers, the choice of a route, and the template it announces to
    the log. A template without a placeholder is matched by itself only; [HEAD] may be served by a
    [GET] route. *)
Class Framework := {
  trim_trailing_slash : string → string;
  preflight : CorsLayer → HttpRequest → option Response;
  find_route : list Route → Method → string → option Route;
  matched_template : option Route → option string;
  find_route_sound : ∀ rs m p r, find_route rs m p = Some r →
    r ∈ rs ∧ (rt_method r = m ∨ rt_method r = GET ∧ m = HEAD) ∧
    (str_contains "{" (rt_path r) = false → rt_path r = p)
}.

(** The handlers, with the extractors in front of them, and the answer when no route
    matches. *)
Class Endpoints := endpoint : option Route → HttpRequest → prog (PrincipalSlot * Response).

Record Edge : Type := mkEdge { ed_limiter : LimiterState; ed_app : AppState; ed_sink : Sink }.

Section Layers.
Context `{Primitives} `{IpParser} `{Nesting} `{Framework} `{Endpoints} `{PayloadText}.
Context (cfg : Config) (limiter : RateLimiter) (cors : CorsLayer) (routes : list Route).

Definition with_path (p : string) (rq : HttpRequest) : HttpRequest :=
  mkHttpRequest (rq_method rq) p (rq_query rq) (rq_headers rq) (rq_peer rq) (rq_body rq).

Definition sniffless (r : Response) : Response := mkResponse (status r) (nosniff (resp_headers r)).

(** Inside the limiter: the log around the route. *)
Definition inner (rq : HttpRequest) : prog (option RequestLog * Response) :=
  let route := find_route routes (rq_method rq) (rq_path rq) in
  capture cfg (trusted_proxy limiter) (matched_template route) (rq_path rq) (method_str (rq_method rq))
    (rq_headers rq) (Some (rq_peer rq)) (endpoint route rq).

(** One request, served alone; [o] are the moments of its actions and [now] that at which the
    limiter looks at the clock. *)
Definition serve_http (rq : HttpRequest) (now : Time) (o : nat → Tick) (s : Edge) : Edge * Response :=
  let rq := with_path (trim_trailing_slash (rq_path rq)) rq in
  match preflight cors rq with
  | Some answer => (s, sniffless answer)
  | None =>
      let '(buckets, verdict) :=
        rate_limit_middleware limiter (rq_path rq) (rq_headers rq) (Some (rq_peer rq)) now (ed_limiter s) in
      match verdict with
      | Err e => (mkEdge buckets (ed_app s) (ed_sink s), sniffless (into_response e).1)
      | Ok () =>
          let '(st, (log, answer)) := exec (inner rq) o (ed_app s) in
          (mkEdge buckets st (match log with Some l => record l (ed_sink s) | None => ed_sink s end),
           sniffless answer)
      end
  end.

(** ** What reaches a handler *)

(** The normalised request, if neither the cross-origin layer nor the limiter answers it. *)
Definition passes (rq : HttpRequest) (now : Time) (s : Edge) : option HttpRequest :=
  let rq := with_path (trim_trailing_slash (rq_path rq)) rq in
  match preflight cors rq with
  | Some _ => None
  | None =>
      if is_ok (rate_limit_middleware limiter (rq_path rq) (rq_headers rq) (Some (rq_peer rq)) now (ed_limiter s)).2
      then Some rq else None
  end.

(** A refused request reaches nothing: it is answered 429, no handler runs, nothing is stored and
    nothing logged. One that passes is answered by its route's handler, and adds exactly one
    record, with the status of the answer, unless its path is excluded. Every answer forbids
    sniffing. *)
Theorem serve_http_exact rq now o s s' answer :
  serve_http rq now o s = (s', answer) →
  resp_headers answer "x-content-type-options" = Some "nosniff" ∧
  match passes rq now s with
  | None =>
      ed_app s' = ed_app s ∧ ed_sink s' = ed_sink s ∧
      (preflight cors (with_path (trim_trailing_slash (rq_path rq)) rq) = None → status answer = 429%Z)
  | Some rq' =>
      ∃ log answer', exec (inner rq') o (ed_app s) = (ed_app s', (log, answer')) ∧
        status answer = status answer' ∧
        ed_sink s' = match log with Some l => record l (ed_sink s) | None => ed_sink s end
  end.
Proof.
  unfold serve_http, passes. set (rq' := with_path _ rq). destruct (preflight cors rq') as [r|] eqn:P.
  { by intros [= <- <-]. }
  unfold rate_limit_middleware. destruct (is_throttled_path limiter (rq_path rq')); cbn [negb].
  2: { cbn [snd is_ok]. destruct (exec _ _ _) as [st [log r]] eqn:E. intros [= <- <-]. split; [done|].
       by exists log, r. }
  destruct (match client_ip _ _ _ with Some ip => _ | None => _ end) as [b ok]. destruct ok; cbn [negb snd is_ok].
  - destruct (exec _ _ _) as [st [log r]] eqn:E. intros [= <- <-]. split; [done|]. by exists log, r.
  - intros [= <- <-]. done.
Qed.
(** ** Many requests *)

Record Arrived : Type := mkArrived { ar_request : HttpRequest; ar_now : Time; ar_ticks : nat → Tick }.

(** Whom the limiter takes the client for; the peer is known, so there always is an address. *)
Definition client (rq : HttpRequest) : IpAddr :=
  default (rq_peer rq) (client_ip (rq_headers rq) (Some (rq_peer rq)) (trusted_proxy limiter)).

(** The routes whose handlers run, with the client's key and the moment, one request after the
    other. *)
Fixpoint reached (calls : list Arrived) (s : Edge) : list (Route * IpAddr * Time) :=
  match calls with
  | [] => []
  | mkArrived rq now o :: calls =>
      let rest := reached calls (serve_http rq now o s).1 in
      match passes rq now s with
      | Some rq' =>
          match find_route routes (rq_method rq') (rq_path rq') with
          | Some r => (r, limiter_key (client rq'), now) :: rest
          | None => rest
          end
      | None => rest
      end
  end.

(** What the limiter looks at. *)
Definition attempt (a : Arrived) : option (IpAddr * Time) :=
  let rq := with_path (trim_trailing_slash (rq_path (ar_request a))) (ar_request a) in
  match preflight cors rq with
  | Some _ => None
  | None => if is_throttled_path limiter (rq_path rq) then Some (client rq, ar_now a) else None
  end.

Lemma client_known rq : client_ip (rq_headers rq) (Some (rq_peer rq)) (trusted_proxy limiter) = Some (client rq).
Proof. unfold client, client_ip. by repeat case_match. Qed.

(** Runs of a credential handler for [k] in the window up to [upto]. *)
Definition guess (k : IpAddr) (upto : Time) (e : Route * IpAddr * Time) : bool :=
  credential_route e.1.1 && bool_decide (e.1.2 = k) && in_window (window limiter) upto e.2.

(** Every credential route has a path that the limiter watches and no other route matches. *)
Definition watched : Prop := ∀ r, r ∈ routes → credential_route r = true →
  str_contains "{" (rt_path r) = false ∧ is_throttled_path limiter (rt_path r) = true.

Lemma admitted_cons k a l :
  admitted k (a :: l) = (if bool_decide (at_key a = k) && at_ok a then [at_time a] else []) ++ admitted k l.
Proof. unfold admitted. cbn [List.filter]. by destruct (_ && _). Qed.

(** An unwatched path reaches no credential handler. *)
Lemma unwatched_route m p r :
  watched → is_throttled_path limiter p = false → find_route routes m p = Some r → credential_route r = false.
Proof.
  intros Wt T F. apply not_true_iff_false. intros Cr. destruct (find_route_sound _ _ _ _ F) as (Hr & _ & E).
  destruct (Wt r Hr Cr) as [S T']. rewrite (E S) in T'. congruence.
Qed.

Lemma reached_admitted calls s k upto :
  watched →
  (length (List.filter (guess k upto) (reached calls s)) ≤
   length (List.filter (in_window (window limiter) upto) (admitted k (run_checks limiter (omap attempt calls) (ed_limiter s)))))%nat.
Proof.
  intros Wt. revert s. induction calls as [|[rq now o] calls IH]; intros s; [simpl; lia|].
  cbn [reached omap list_omap]. unfold attempt at 1, passes, serve_http. cbn [ar_request ar_now].
  set (rq' := with_path _ rq). destruct (preflight cors rq'); [apply IH|].
  unfold rate_limit_middleware. destruct (is_throttled_path limiter (rq_path rq')) eqn:T; cbn [negb snd is_ok].
  - rewrite client_known. cbn [run_checks]. destruct (check_at limiter (client rq') now (ed_limiter s)) as [b ok].
    rewrite admitted_cons, List.filter_app, length_app. cbn [at_key at_ok at_time].
    destruct ok; cbn [negb snd is_ok fst]; [|rewrite andb_false_r; apply IH].
    destruct (exec _ _ _) as [st [log answer]]. cbn [fst]. rewrite andb_true_r.
    pose proof (IH (mkEdge b st (match log with Some l => record l (ed_sink s) | None => ed_sink s end))) as I.
    cbn [ed_limiter] in I. destruct (find_route routes _ _) as [r|]; [|lia]. cbn [List.filter].
    destruct (guess k upto _) eqn:G; [|lia]. unfold guess in G. cbn [fst snd] in G.
    apply andb_true_iff in G as [[_ K]%andb_true_iff W]. rewrite K. cbn [List.filter]. rewrite W. cbn [length]. lia.
  - destruct (exec _ _ _) as [st [log answer]]. cbn [fst].
    pose proof (IH (mkEdge (ed_limiter s) st (match log with Some l => record l (ed_sink s) | None => ed_sink s end))) as I.
    destruct (find_route routes _ _) as [r|] eqn:F; [|exact I]. cbn [List.filter]. unfold guess at 1. cbn [fst].
    by rewrite (unwatched_route _ _ _ Wt T F).
Qed.
End Layers.

(** ** The server as it is assembled *)

Section Guessing.
Context `{Primitives} `{IpParser} `{Nesting} `{Framework} `{Endpoints} `{PayloadText}.

(** C14. Credentials can only be guessed slowly. Wherever the Yggdrasil routes are mounted, as
    long as it is a path without a placeholder, and whatever else is asked of the server: in
    any interval of the window's length no client (for IPv6, no /64) gets the handlers that
    hand out tokens to strangers to run more often than the configured number of attempts, all
    of them taken together. Conditions on the calls the limiter looks at: its monotonic clock
    does not run backwards from one to the next and has been running for a window, and the
    calls come from no more clients than the limiter tracks (100,000). Beyond that number it
    forgets the client whose last attempt is the oldest, and that client's budget starts
    afresh. *)
Theorem guesses_bounded cfg cors config trusted public_url calls from keys st k upto :
  let suffix := yggdrasil_api_suffix public_url in
  let limiter := limiter_from_config config trusted (yggdrasil_mount_prefix suffix) in
  starts_with "/" suffix = true → str_contains "{" suffix = false →
  clocked limiter keys from (omap (attempt limiter cors) calls) →
  (length (List.filter (guess limiter k upto)
     (reached cfg limiter cors (build_router suffix) calls (mkEdge limiter_new st sink_new)))
   ≤ Z.to_nat (rl_max_attempts config))%nat.
Proof.
  intros suffix limiter S B C. assert (M : mount_point suffix) by (by apply suffix_mount_point).
  etrans; [apply reached_admitted|by eapply (limiter_window_bound limiter keys from)].
  intros r Hr Cr. split; [|by apply credential_route_throttled].
  rewrite build_router_mounted in Hr by done.
  assert (F : r ∈ List.filter credential_route (mounted suffix))
    by (apply list_elem_of_In, List.filter_In; by rewrite <- list_elem_of_In).
  rewrite credential_routes_mounted, !elem_of_cons in F.
  destruct F as [->|[->|[->|[->|[->|?%not_elem_of_nil]]]]]; [done..| | |done|done]; cbn [rt_path];
    by rewrite !str_contains_app, B.
Qed.
End Guessing.

(** ** A concrete server

    Its framework leaves paths alone and finds a route by its literal path; its handlers
    answer 200. *)

#[refine, export] Instance literal_framework : Framework := {|
  trim_trailing_slash p := p;
  preflight _ _ := None;
  find_route rs m p := List.find (λ r, bool_decide (rt_method r = m) && (rt_path r =? p)%string) rs;
  matched_template := fmap rt_path
|}.
Proof.
  intros rs m p r F. apply List.find_some in F as [Hr E]. bool_simpl. apply list_elem_of_In in Hr. auto.
Defined.

#[export] Instance ok_endpoints : Endpoints := λ _ _, Ret (Some anon, mkResponse 200 (λ _, None)).

Definition login_at (peer : IpAddr) (path : string) (now : Time) : Arrived :=
  mkArrived (mkHttpRequest POST path None (λ _, None) peer "") now (calm_oracle now).

Definition mount : string := "https://mc.example/api/mojang".

Definition two_a_minute : RateLimiter :=
  limiter_from_config (mkRateLimitConfig 2 (secs 60)) false (yggdrasil_mount_prefix (yggdrasil_api_suffix mount)).

(** Four attempts by one client within a minute, on three of the paths, one by another, and one
    that asks for no credentials. *)
Definition evening : list Arrived :=
  [login_at (V4 7) "/api/auth/login" (secs 0); login_at (V4 7) "/admin/auth/login" (secs 10);
   login_at (V4 7) "/api/mojang/authserver/authenticate" (secs 20); login_at (V4 8) "/api/auth/login" (secs 30);
   login_at (V4 7) "/friends/requests" (secs 40); login_at (V4 7) "/api/auth/login" (secs 50)].

Lemma evening_clocked :
  clocked two_a_minute [V4 7; V4 8] 0 (omap (attempt (H0 := no_ip) two_a_minute (build_cors (λ _, true) [])) evening).
Proof.
  change (clocked two_a_minute [V4 7; V4 8] 0
    [(V4 7, secs 0); (V4 7, secs 10); (V4 7, secs 20); (V4 8, secs 30); (V4 7, secs 50)]).
  split; simpl.
  - by repeat first [apply SSorted_nil | apply SSorted_cons | apply Forall_nil | apply Forall_cons; split].
  - by repeat first [apply Forall_nil | apply Forall_cons; split].
  - repeat first [apply Forall_nil | apply Forall_cons; split]; try done; apply list_elem_of_In; simpl; auto.
  - done.
Qed.

Lemma guesses_bounded_witness :
  let run := reached (H := toy_primitives) (H0 := no_ip) (H4 := plain_text) default_config two_a_minute
               (build_cors (λ _, true) []) (build_router (yggdrasil_api_suffix mount)) evening
               (mkEdge limiter_new sample_state sink_new) in
  map (λ e, rt_handler e.1.1) run = ["account::login"; "admin::auth::login"; "account::login"; "friends::create_request"] ∧
  (length (List.filter (guess two_a_minute (V4 7) (secs 59)) run) ≤ 2)%nat.
Proof.
  split; [vm_compute; reflexivity|].
  apply (guesses_bounded (H := toy_primitives) (H0 := no_ip) (H4 := plain_text) default_config
    (build_cors (λ _, true) []) (mkRateLimitConfig 2 (secs 60)) false mount evening 0 [V4 7; V4 8] sample_state).
  - reflexivity.
  - reflexivity.
  - exact evening_clocked.
Defined.
