(* ===== verification/AdminReports.v ===== *)
(** * Reports of the administration panel

    [crates/admin/src/analytics.rs] and [request_logs.rs]: the live overview, the bucketed
    series over the event log and the request log, the tail of the ring and the pages of
    the persisted log. The database's session works in UTC, so a truncated day or hour is a
    multiple of its length; an average is kept as its sum and count. *)

From S2P Require Import Prelude RustStr Errors Models Table Realtime Schema Prog.
From S2P Require Import Config RateLimit RequestLog AdminUsers Invariant.

(** ** Grouping *)

Section GroupBy.
Context {A K : Type} `{EqDecision K} (f : A → K) (le : relation K) `{!RelDecision le}.

(** [SELECT f, ... GROUP BY f ORDER BY f]: each value of [f] with its rows. *)
Definition members (l : list A) (k : K) : list A := List.filter (λ a, bool_decide (f a = k)) l.

Definition group_by (l : list A) : list (K * list A) :=
  map (λ k, (k, members l k)) (merge_sort le (remove_dups (map f l))).

Lemma elem_of_group_by l k g :
  (k, g) ∈ group_by l ↔ g = members l k ∧ g ≠ [].
Proof.
  unfold group_by. rewrite list_elem_of_fmap. split.
  - intros (k' & [= -> ->] & Hk). split; [done|]. rewrite merge_sort_Permutation in Hk.
    apply elem_of_remove_dups, list_elem_of_fmap in Hk as (a & -> & Ha).
    intros E. apply (not_elem_of_nil a). rewrite <- E. apply elem_of_filterb.
    by rewrite bool_decide_eq_true.
  - intros [-> Hne]. exists k. split; [done|]. rewrite merge_sort_Permutation.
    apply elem_of_remove_dups, list_elem_of_fmap. destruct (members l k) as [|a g] eqn:E; [done|].
    exists a. assert (Ha : a ∈ members l k) by (rewrite E; constructor).
    apply elem_of_filterb in Ha as [Ha Hk]. by apply bool_decide_eq_true in Hk.
Qed.

Lemma NoDup_group_by l : NoDup (map fst (group_by l)).
Proof.
  unfold group_by. rewrite map_map. cbn. rewrite map_id. rewrite merge_sort_Permutation.
  apply NoDup_remove_dups.
Qed.

Definition others (l : list A) (k : K) : list A := List.filter (λ a, negb (bool_decide (f a = k))) l.

Lemma members_others l k : members l k ++ others l k ≡ₚ l.
Proof.
  induction l as [|a l IH]; [done|]. unfold members, others in *. cbn [List.filter].
  destruct (bool_decide (f a = k)); cbn; [by rewrite IH|]. by rewrite <- Permutation_middle, IH.
Qed.

Lemma members_of_others l k k' : k' ≠ k → members (others l k) k' = members l k'.
Proof.
  intros Hne. induction l as [|a l IH]; [done|]. unfold members, others in *. cbn [List.filter].
  destruct (bool_decide_reflect (f a = k)) as [<-|H]; cbn [negb].
  - by rewrite bool_decide_false by congruence.
  - cbn [List.filter]. by destruct (bool_decide (f a = k')); rewrite IH.
Qed.

Lemma members_share l ks :
  NoDup ks → (∀ a, a ∈ l → f a ∈ ks) → concat (map (members l) ks) ≡ₚ l.
Proof.
  revert l. induction ks as [|k ks IH]; intros l Hn Hin.
  - destruct l as [|a l]; [done|]. destruct (not_elem_of_nil (f a)). apply Hin. constructor.
  - apply NoDup_cons in Hn as [Hk Hn]. cbn [map concat]. rewrite <- (members_others l k) at 3.
    apply Permutation_app_head. transitivity (concat (map (members (others l k)) ks)); [|apply IH; [done|]].
    + erewrite map_ext_in; [done|]. intros k' Hk'%list_elem_of_In. symmetry.
        apply members_of_others. congruence.
    + intros a [Ha Hf]%elem_of_filterb. apply negb_true_iff, bool_decide_eq_false in Hf.
      apply Hin, elem_of_cons in Ha as [?|?]; done.
Qed.

(** The groups share the rows out. *)
Lemma group_by_share l : concat (map snd (group_by l)) ≡ₚ l.
Proof.
  unfold group_by. rewrite map_map. cbn. apply members_share.
  - rewrite merge_sort_Permutation. apply NoDup_remove_dups.
  - intros a Ha. rewrite merge_sort_Permutation. by apply elem_of_remove_dups, list_elem_of_fmap_2.
Qed.

Lemma group_by_sorted `{!Transitive le, !Total le} l : StronglySorted le (map fst (group_by l)).
Proof.
  unfold group_by. rewrite map_map. cbn. rewrite map_id. by apply StronglySorted_merge_sort.
Qed.
End GroupBy.

(** ** [analytics.rs] *)

Record AnalyticsOverview : Type := mkOverview {
  ov_playing_now : nat;
  ov_online_in_network : nat;
  ov_open_worlds : nat;
  ov_active_relays : nat;
  ov_total_users : nat
}.

Section Overview.
Context (cfg : Config).

(** [last_heartbeat_at > now() - timeout]. *)
Definition beats (now : Time) (p : Presence) : bool :=
  (now - heartbeat_timeout cfg <? p_last_heartbeat_at p)%Z.

Definition plays (now : Time) (_ : Uuid) (p : Presence) : bool :=
  ((p_status p =? "inWorld")%string || (p_status p =? "joinable")%string) && beats now p.

Definition networked (now : Time) (_ : Uuid) (p : Presence) : bool :=
  negb (p_status p =? "offline")%string && beats now p.

Definition overview : prog (AppResult AnalyticsOverview) :=
  let? playing_now := select (λ t db, count_rows (plays (t_db t)) (presence db)) in
  let? online_in_network := select (λ t db, count_rows (networked (t_db t)) (presence db)) in
  let? open_worlds := select (λ _ db, count_rows (λ _ w, is_open (ws_status w)) (world_sessions db)) in
  let? active_relays :=
    select (λ _ db, count_rows (λ _ r, (rs_status r =? "active")%string) (relay_sessions db)) in
  let? total_users := select (λ _ db, count_rows (λ _ _, true) (users db)) in
  ret_ok (mkOverview playing_now online_in_network open_worlds active_relays total_users).
End Overview.

Inductive BucketUnit : Type := Hour | Day.

Definition unit_length (u : BucketUnit) : Duration :=
  match u with Hour => secs 3600 | Day => secs 86400 end.

(** Length of the window, unit of its buckets, label. *)
Definition resolve_window (window : string) : Duration * BucketUnit * string :=
  if (window =? "24h")%string || (window =? "1d")%string || (window =? "day")%string
  then (secs 86400, Hour, "24h")
  else if (window =? "30d")%string || (window =? "month")%string then (secs (30 * 86400), Day, "30d")
  else if (window =? "90d")%string then (secs (90 * 86400), Day, "90d")
  else (secs (7 * 86400), Day, "7d").

Definition resolve_metric (metric : string) : string * string :=
  if (metric =? "new_users")%string || (metric =? "newUsers")%string || (metric =? "signups")%string
  then ("new_user", "new_users") else ("bootstrap", "bootstraps").

(** [date_trunc(unit, t)]. *)
Definition date_trunc (u : BucketUnit) (t : Time) : Time := (t - t mod unit_length u)%Z.

Record TimeseriesResponse (A : Type) : Type := mkTimeseries {
  tr_metric : string;
  tr_window : string;
  tr_series : list (Time * A)
}.
Arguments mkTimeseries {A}.
Arguments tr_metric {A}.
Arguments tr_window {A}.
Arguments tr_series {A}.

(** The events of the window. *)
Definition windowed (event_type : string) (from : Time) (_ : Uuid) (e : UserEvent) : bool :=
  (ue_event_type e =? event_type)%string && (from <? ue_created_at e)%Z.

Definition event_buckets (event_type : string) (length_ : Duration) (u : BucketUnit) (t : Tick) (db : Db)
  : list (Time * nat) :=
  map (λ g, (g.1, length g.2))
    (group_by (λ e : Keyed UserEvent, date_trunc u (ue_created_at (row e))) Z.le
       (select_rows (windowed event_type (t_db t - length_)) (user_events db))).

Definition timeseries (metric window : option string) : prog (AppResult (TimeseriesResponse nat)) :=
  let '(event_type, metric_label) := resolve_metric (default "" metric) in
  let '(interval, bucket_unit, window_label) := resolve_window (default "" window) in
  let? series := select (event_buckets event_type interval bucket_unit) in
  ret_ok (mkTimeseries metric_label window_label series).

(** ** [request_logs.rs]

    The handlers read the ring or the table of the sink; [now] is the database's clock. *)

Definition LOG_PAGE_SIZE : Z := 50.
Definition TAIL_MAX : Z := 500.
Definition TAIL_DEFAULT : Z := 100.

(** An entry: the id of a persisted row, none for the ring. *)
Definition log_tail (limit : option Z) (ring : list RequestLog) : list (option Z * RequestLog) :=
  let limit := Z.max 1 (Z.min (default TAIL_DEFAULT limit) TAIL_MAX) in
  map (λ log, (None, log)) (recent (Z.to_nat limit) ring).

Record RequestLogQuery : Type := mkLogQuery {
  lq_since : option Time;
  lq_until : option Time;
  lq_method : option string;
  lq_path : option string;
  lq_status : option Z;
  lq_page : option Z
}.

(** [$n IS NULL OR ...]. *)
Definition if_given {A} (p : A → bool) (o : option A) : bool :=
  match o with Some a => p a | None => true end.

Definition request_filter (q : RequestLogQuery) (r : Z * RequestLog) : bool :=
  if_given (λ t, (t <=? rl_ts r.2)%Z) (lq_since q)
  && if_given (λ t, (rl_ts r.2 <=? t)%Z) (lq_until q)
  && if_given (λ m, (rl_method r.2 =? m)%string) (lq_method q)
  && if_given (λ p, like (rl_path r.2) (p +:+ "%")) (lq_path q)
  && if_given (λ s, (rl_status r.2 =? s)%Z) (lq_status q).

(** [ORDER BY ts DESC, id DESC]. *)
Definition log_newer : relation (Z * RequestLog) :=
  λ a b, (rl_ts b.2 < rl_ts a.2)%Z ∨ rl_ts a.2 = rl_ts b.2 ∧ (b.1 ≤ a.1)%Z.
#[export] Instance log_newer_dec : RelDecision log_newer.
Proof. intros a b. unfold log_newer. apply _. Defined.

Definition matching (q : RequestLogQuery) (table : list (Z * RequestLog)) : list (Z * RequestLog) :=
  merge_sort log_newer (List.filter (request_filter q) table).

(** The page and the table's failure on a negative offset. *)
Definition list_logs (q : RequestLogQuery) (table : list (Z * RequestLog))
  : AppResult (list (Z * RequestLog) * PageMeta) :=
  let page := Z.max (default 1%Z (lq_page q)) 1 in
  let offset := Identity.wrap_i64 ((page - 1) * LOG_PAGE_SIZE) in
  let total := Z.of_nat (length (List.filter (request_filter q) table)) in
  if (offset <? 0)%Z then Err (Database Io)
  else
    let data := take (Z.to_nat LOG_PAGE_SIZE) (drop (Z.to_nat offset) (matching q table)) in
    let page_count := Z.max (Z.quot (total + LOG_PAGE_SIZE - 1) LOG_PAGE_SIZE) 1 in
    Ok (data, mkPageMeta page LOG_PAGE_SIZE total page_count).

(** [sum / count], or [0] when nothing is there. *)
Record Average : Type := mkAverage { av_sum : Z; av_count : nat }.

Definition avg_latency (l : list (Z * RequestLog)) : Average :=
  mkAverage (foldr Z.add 0%Z (map (λ r, rl_latency_ms r.2) l)) (length l).

Definition is_error (r : Z * RequestLog) : bool := (500 <=? rl_status r.2)%Z.

Definition status_class (r : Z * RequestLog) : string :=
  if (500 <=? rl_status r.2)%Z then "5xx"
  else if (400 <=? rl_status r.2)%Z then "4xx"
  else if (300 <=? rl_status r.2)%Z then "3xx"
  else "2xx".

Definition text_le : relation string := λ a b, String.leb a b = true.
#[export] Instance text_le_dec : RelDecision text_le.
Proof. intros a b. unfold text_le. apply _. Defined.

(** [ts > now() - interval]. *)
Definition in_log_window (now : Time) (interval : Duration) (table : list (Z * RequestLog))
  : list (Z * RequestLog) :=
  List.filter (λ r, (now - interval <? rl_ts r.2)%Z) table.

Record TopPath : Type := mkTopPath { tp_path : string; tp_count : nat; tp_avg_latency : Average }.

(** [ORDER BY count DESC, path ASC]. *)
Definition busier : relation TopPath :=
  λ a b, tp_count b < tp_count a ∨ tp_count a = tp_count b ∧ text_le (tp_path a) (tp_path b).
#[export] Instance busier_dec : RelDecision busier.
Proof. intros a b. unfold busier. apply _. Defined.

(** [error_rate] is errors over total, [0] when nothing was served. *)
Record RequestSummary : Type := mkRequestSummary {
  sm_window : string;
  sm_total_requests : nat;
  sm_errors : nat;
  sm_avg_latency_ms : Average;
  sm_status_mix : list (string * nat);
  sm_top_paths : list TopPath
}.

Definition summary (now : Time) (window : option string) (table : list (Z * RequestLog))
  : RequestSummary :=
  let '(interval, _, window_label) := resolve_window (default "" window) in
  let rows := in_log_window now interval table in
  mkRequestSummary window_label (length rows) (length (List.filter is_error rows)) (avg_latency rows)
    (map (λ g, (g.1, length g.2)) (group_by status_class text_le rows))
    (take 10 (merge_sort busier
       (map (λ g, mkTopPath g.1 (length g.2) (avg_latency g.2))
          (group_by (λ r, rl_path r.2) text_le rows)))).

Definition log_metric (metric : string) : string :=
  if (metric =? "errors")%string then "errors"
  else if (metric =? "latency")%string then "latency" else "requests".

(** The value of a bucket: a count, or an average. *)
Definition log_value (metric : string) (rows : list (Z * RequestLog)) : Average :=
  if (metric =? "errors")%string then mkAverage (Z.of_nat (length (List.filter is_error rows))) 1
  else if (metric =? "latency")%string then avg_latency rows
  else mkAverage (Z.of_nat (length rows)) 1.

Definition log_timeseries (now : Time) (window metric : option string) (table : list (Z * RequestLog))
  : TimeseriesResponse Average :=
  let '(interval, bucket_unit, window_label) := resolve_window (default "" window) in
  let metric := log_metric (default "" metric) in
  mkTimeseries metric window_label
    (map (λ g, (g.1, log_value metric g.2))
       (group_by (λ r, date_trunc bucket_unit (rl_ts r.2)) Z.le (in_log_window now interval table))).

(** ** Lemmas *)

Lemma pages_concat {A} (n k : nat) (l : list A) :
  length l ≤ k * n → concat (map (λ i, take n (drop (i * n) l)) (seq 0 k)) = l.
Proof.
  intros Hl. transitivity (take (k * n) l); [|by apply take_ge]. clear Hl.
  induction k as [|k IH]; [done|]. rewrite seq_S, map_app, concat_app, IH. cbn [map concat Nat.add].
  rewrite app_nil_r, take_take_drop. f_equal. lia.
Qed.

(** Every page starts where the one before it ended, within [i64]. *)
Lemma page_offset p total :
  (1 ≤ p ≤ Z.max (Z.quot (total + 49) 50) 1)%Z → (0 ≤ total < 2 ^ 62)%Z →
  Identity.wrap_i64 ((p - 1) * 50) = ((p - 1) * 50)%Z.
Proof.
  intros Hp Ht. unfold Identity.wrap_i64. rewrite Z.quot_div_nonneg in Hp by lia.
  assert ((p - 1) * 50 ≤ total + 49)%Z.
  { pose proof (Z.mul_div_le (total + 49) 50 ltac:(lia)). lia. }
  apply wrap_signed_fits; lia.
Qed.

Definition at_page (p : Z) (q : RequestLogQuery) : RequestLogQuery :=
  mkLogQuery (lq_since q) (lq_until q) (lq_method q) (lq_path q) (lq_status q) (Some p).

Lemma list_logs_page p q table :
  let total := Z.of_nat (length (matching q table)) in
  let n := Z.max (Z.quot (total + 49) 50) 1 in
  (1 ≤ p ≤ n)%Z → (total < 2 ^ 62)%Z →
  list_logs (at_page p q) table =
  Ok (take 50 (drop (Z.to_nat (p - 1) * 50) (matching q table)), mkPageMeta p 50 total n).
Proof.
  intros total n Hp Ht. unfold list_logs. cbn [lq_page at_page default from_option].
  change (request_filter (at_page p q)) with (request_filter q).
  assert (T : length (List.filter (request_filter q) table) = length (matching q table)).
  { unfold matching. by rewrite merge_sort_Permutation. }
  rewrite T. fold total. change LOG_PAGE_SIZE with 50%Z.
  change (id p) with p. rewrite Z.max_l by lia. rewrite (page_offset p total) by lia.
  rewrite (proj2 (Z.ltb_ge _ _)) by lia. replace (total + 50 - 1)%Z with (total + 49)%Z by lia.
  do 4 f_equal. lia.
Qed.

Definition page_data (r : AppResult (list (Z * RequestLog) * PageMeta)) : list (Z * RequestLog) :=
  match r with Ok (d, _) => d | Err _ => [] end.

#[export] Instance log_newer_total : Total log_newer.
Proof. intros a b. unfold log_newer. lia. Qed.
#[export] Instance log_newer_trans : Transitive log_newer.
Proof. intros a b c. unfold log_newer. lia. Qed.

Lemma date_trunc_multiple u t : (date_trunc u t mod unit_length u = 0)%Z.
Proof.
  unfold date_trunc. rewrite Zminus_mod, Z.mod_mod, Z.sub_diag by (by destruct u). apply Z.mod_0_l.
  by destruct u.
Qed.

Lemma sorted_lt {B} (l : list (Z * B)) :
  StronglySorted Z.le (map fst l) → NoDup (map fst l) → Sorted Z.lt (map fst l).
Proof.
  intros S N. apply StronglySorted_Sorted. induction (map fst l) as [|a k IH]; [constructor|].
  apply StronglySorted_inv in S as [S F]. apply NoDup_cons in N as [Ha N]. constructor; [by apply IH|].
  apply Forall_forall. intros b Hb. rewrite Forall_forall in F. specialize (F b Hb).
  destruct (Z.eq_dec a b) as [->|]; [done|lia].
Qed.

(** ** Properties *)

(** The pages of the request log share it out. For any filter, the pages from the first
    to the one the answers give as the last, put end to end, are the matching rows from the
    newest to the oldest: none is missing and none comes twice. Each page is answered with
    its number, the number of matching rows and of pages. *)
Theorem log_pages_partition q table :
  let total := Z.of_nat (length (matching q table)) in
  let n := Z.max (Z.quot (total + 49) 50) 1 in
  (total < 2 ^ 62)%Z →
  matching q table ≡ₚ List.filter (request_filter q) table ∧
  StronglySorted log_newer (matching q table) ∧
  (∀ p, (1 ≤ p ≤ n)%Z → ∃ data, (length data ≤ 50)%nat ∧
     list_logs (at_page p q) table = Ok (data, mkPageMeta p 50 total n)) ∧
  concat (map (λ i, page_data (list_logs (at_page (Z.of_nat (S i)) q) table)) (seq 0 (Z.to_nat n)))
  = matching q table.
Proof.
  intros total n Ht. split; [apply merge_sort_Permutation|]. split; [apply (StronglySorted_merge_sort _ _)|]. split.
  - intros p Hp. eexists. split; [|by apply list_logs_page]. rewrite length_take. lia.
  - etrans; [|apply (pages_concat 50 (Z.to_nat n))].
    + f_equal. apply map_ext_in. intros i Hi%in_seq.
      rewrite list_logs_page by (subst n total; lia). cbn [page_data]. do 3 f_equal. lia.
    + subst n. rewrite Z.quot_div_nonneg by lia.
      pose proof (Z.mod_pos_bound (total + 49) 50 ltac:(lia)).
      pose proof (Z.div_mod (total + 49) 50 ltac:(lia)). lia.
Qed.

(** The series counts every event of the window once. The answer's buckets are strictly
    ascending, start at multiples of their unit and are never empty; each counts exactly
    the events of the metric's type that the window covers and that fall into it, and
    together they count all of those. Nothing changes. *)
Theorem timeseries_exact metric window now o st st' r :
  (∀ i, calm now (o i)) →
  exec (timeseries metric window) o st = (st', r) →
  let ty := (resolve_metric (default "" metric)).1 in
  let '(interval, u, label) := resolve_window (default "" window) in
  let events := select_rows (windowed ty (now - interval)) (user_events (st_db st)) in
  st' = st ∧ ∃ a, r = Ok a ∧ tr_window a = label ∧
    Sorted Z.lt (map fst (tr_series a)) ∧
    list_sum (map snd (tr_series a)) = length events ∧
    ∀ b n, (b, n) ∈ tr_series a → n ≠ 0%nat ∧ (b mod unit_length u = 0)%Z ∧
      n = length (List.filter (λ e, bool_decide (date_trunc u (ue_created_at (row e)) = b)) events).
Proof.
  intros Ho Hex. exec_start Hex (calm now). unfold timeseries.
  destruct (resolve_metric _) as [ty ml]. destruct (resolve_window _) as [[interval u] label]. cbn [fst].
  wp_calm. split; [done|]. eexists. split; [done|]. split; [done|]. cbn [tr_series].
  unfold event_buckets. subst. set (events := select_rows _ _). set (f := λ e : Keyed UserEvent, _).
  assert (Hlen : list_sum (map snd (map (λ g, (g.1, length g.2)) (group_by f Z.le events))) = length events).
  { rewrite map_map. cbn. rewrite <- (group_by_share f Z.le events) at 2.
    rewrite length_concat, map_map. done. }
  split; [|split; [exact Hlen|]].
  - rewrite map_map. cbn. apply (sorted_lt (group_by f Z.le events)).
    + apply group_by_sorted; exact _.
    + apply NoDup_group_by.
  - intros b n ([b' g] & E & Hg)%list_elem_of_fmap. cbn in E. injection E as -> ->.
    apply elem_of_group_by in Hg as [-> Hne].
    cbn. split; [by destruct (members _ _ _)|]. split; [|done].
    destruct (members f events b') as [|e g] eqn:E; [done|].
    assert (He : e ∈ members f events b') by (rewrite E; constructor).
    apply elem_of_filterb in He as [_ He]. apply bool_decide_eq_true in He as <-.
    apply date_trunc_multiple.
Qed.

(** ** Concrete instances *)

Definition sample_table : list (Z * RequestLog) :=
  [(1, mkRequestLog 5 "GET" "/a" 200 1 None "anon" None None None);
   (2, mkRequestLog 9 "GET" "/b" 500 3 None "anon" None None None);
   (3, mkRequestLog 7 "GET" "/a/c" 404 2 None "anon" None None None)]%Z.

Definition under_a : RequestLogQuery := mkLogQuery None None None (Some "/a") None None.

Lemma log_pages_partition_witness :
  map fst (matching under_a sample_table) = [3; 1]%Z ∧
  concat (map (λ i, page_data (list_logs (at_page (Z.of_nat (S i)) under_a) sample_table)) (seq 0 1))
  = matching under_a sample_table.
Proof.
  assert (L : (Z.of_nat (length (matching under_a sample_table)) < 2 ^ 62)%Z) by (vm_compute; reflexivity).
  split; [vm_compute; reflexivity|].
  apply (log_pages_partition under_a sample_table L).
Defined.

(** Two accounts were made yesterday and one today. *)
Definition with_events : AppState :=
  set_db (set_user_events
    {[ 1%N := mkUserEvent None "new_user" (secs 86400 + 5); 2%N := mkUserEvent None "new_user" (secs 86400 + 7);
       3%N := mkUserEvent None "new_user" (secs 172800); 4%N := mkUserEvent None "bootstrap" (secs 172800) ]}
    (st_db sample_state)) sample_state.

Lemma timeseries_exact_witness :
  let r := exec (timeseries (Some "signups") None) (calm_oracle (secs 172900)) with_events in
  r.2 = Ok (mkTimeseries "new_users" "7d" [(secs 86400, 2%nat); (secs 172800, 1%nat)]) ∧ r.1 = with_events.
Proof.
  intros r. split; [vm_compute; reflexivity|].
  apply (timeseries_exact (Some "signups") None (secs 172900) (calm_oracle (secs 172900)) with_events r.1 r.2
           (calm_oracle_calm _) (surjective_pairing _)).
Defined.

(** The filter on the path is documented as a prefix, but the characters that mean
    something to LIKE are not escaped. *)
Lemma path_filter_is_a_pattern :
  request_filter (mkLogQuery None None None (Some "/a_b") None None)
    (1%Z, mkRequestLog 5 "GET" "/axb" 200 1 None "anon" None None None) = true.
Proof. vm_compute. reflexivity. Qed.
